(* ===== verification/_CoqProject ===== *)
-Q . S2P
Prelude.v
Sha256.v
Commitment.v
Shard.v
StoreSpec.v
MemStore.v
ProofPath.v
Prune.v
Teranode.v
Ingest.v
Reorg.v
Pipeline.v
Api.v
Chain.v
Footprint.v
Bsvtx.v
CtField.v
Crypto.v
Channel.v
Paid.v
Attest.v
Hex.v
Wire.v
Client.v
HttpSource.v
Ripemd.v
Address.v
Accel.v
Limiter.v
Server.v
Aerospike.v
Conformance.v
Backends.v
Bench.v
Daemon.v
Tools.v
Testnet.v
