(* ===== verification/Prelude.v ===== *)
(** * MemServe in Rocq

    MemServe is a Go server for one shard of a BSV chain.  It ingests blocks
    from a Teranode source, keeps a transaction index and a UTXO set with spent
    records retained for a bounded depth, answers "seen?", "mined?", Merkle
    path and UTXO queries, and charges for each query through a unidirectional
    payment channel settled by one on-chain transaction.  This library models
    its packages as executable definitions and proves what they promise.

    ** Parts and how they interact

    Blocks flow [teranode -> ingest -> store], from the mock chain or over HTTP,
    with [ingest] driving [prune] after each block; [commitment] supplies the
    Merkle trees that [ingest] checks and [proof] serves; [shard] decides which
    transactions a server owns; [api] reads the store; [payment] puts a [channel]
    in front of [api]; [channel] verifies [crypto] signatures over [bsvtx]
    sighashes, which [accel] can verify in batches.  [server] is the HTTP front
    end over all of these: it rate-limits, answers free or paid queries, signs
    answers with an [attest] identity and puts them on the wire; [client] combines
    the answers of several operators and builds fraud proofs.

    ** Files

    - [Prelude]: machine integers, the [result] type (value, error, panic), the
      state-and-error monad [M], Go loops, bytes and fixed arrays, integer
      encodings, prefix-injective encodings, tactics and hint databases.
    - [Sha256]: SHA-256 and HMAC as the code uses them from the Go library.
    - [Commitment] (src/commitment): the Merkle core: trees, paths, folding,
      field trees, two-level verification.
    - [Shard] (src/shard): prefix sharding and the router.
    - [StoreSpec] (src/store/store.go): the records, the [Store] class (the Go
      interface), the reference store [Flat] and [LawfulStore], the simulation
      that a store must satisfy.  Clients are proved against [LawfulStore].
    - [MemStore] (src/store/mem): the striped in-memory store with its height
      indexes; proved to be a lawful store.
    - [ProofPath] (src/proof), [Prune] (src/prune), [Teranode] (src/teranode),
      [Ingest] (src/ingest), [Api] (src/api): one file per package, over any
      store.  [Reorg] and [Pipeline] hold the theorems that span several of them.
    - [Bsvtx] (src/bsvtx: tx, script, sighash, channeltx, the DER half of sign):
      byte-exact transactions and the channel's transactions.
    - [CtField] (src/crypto/ct.go): field arithmetic on four 64-bit limbs and
      the constant-time ladder.  [Crypto] (src/crypto/secp256k1.go): keys, affine
      arithmetic, RFC 6979, signing and verifying.
    - [Channel] (src/payment/channel, and SignInput/VerifyInput of
      src/bsvtx/sign.go): the channel state and its operations.
    - [Paid] (src/payment): the registry, the abuse policy and the paid queries.
    - [Attest] (src/attest): signed statements, endorsements and fraud proofs.
      [Client] (src/client): the client over several operators.
    - [Hex] (encoding/hex), [Wire] (src/server/wire.go): the JSON forms as records
      of strings.  [Limiter] (src/server/limiter.go): the token buckets.  [Server]
      (src/server/server.go, payment_handlers.go): construction, the ingest loop,
      every handler and the middleware.
    - [HttpSource] (src/teranode/httpsource): the HTTP block source as a second
      instance of [Source], with its retries and conversion.
    - [Ripemd], [Address] (src/bsvtx/ripemd160.go, address.go): RIPEMD-160, Base58
      and P2PKH.
    - [Accel] (src/accel): the batch interface [BatchVerifier] with its promise
      [LawfulVerifier], the three back ends, the gate and Validate.
    - [Aerospike] (src/store/aerospike): the database store over a client
      parameter [AeroClient] with its laws [LawfulClient].  [Conformance]
      (src/store/storetest): the conformance suite over any store.
    - [Chain]: a node's life as a list of events (blocks that arrive or are
      undone) and the questions asked of it, over [IngestBlock], [RollbackBlock]
      and the four queries.  [Footprint]: what such a life keeps in memory.
      [Backends]: the same life over the database store.
    - [Bench] (src/bench): populating a store and the two load generators.
    - [Daemon] (src/server/server.go, src/cmd/memserved): the ingest loop with its
      watchdog, the routes, the client's address, and the command line up to the
      start of the server.
    - [Tools] (src/cmd/ingest, src/cmd/memserve, src/cmd/accelcheck,
      src/accel/throughput.go, MakeBatch): the other commands, as the values they
      print.
    - [Testnet] (src/cmd/channeltestnet): the command that builds a channel's
      funding, settlement and refund transactions.

    ** Correspondence

    A Go struct is a record whose fields keep their names (with a short prefix
    where two structs share one); an operation keeps its name, with a package
    prefix where Rocq's single name space needs it ([mem_SpendUTXO],
    [api_UTXO], [paid_Seen]).  A method that changes state is a function
    [S -> result A * S]: the state reached before an early return survives it,
    a returned [error] is [Err] with its text, a run-time panic is [Panic].
    Unsigned integers are [Z] with [u32]/[u64] written where the code can wrap.
    Maps are [gmap]; a nil pointer is [None].  A method that holds a mutex for
    its whole body is one step; where the code unlocks in between
    ([OpenChannel]) the critical sections are separate definitions, so that a
    race can be stated as an interleaving.

    ** What the theorems show

    - Storage: the in-memory store refines the reference store under every
      sequence of operations; its two sweeps remove exactly what they claim,
      and where they do not the circumstances are theorems.  The database store
      agrees with the reference store on every use that keeps its index rows
      exact, passes the conformance suite, and is shown to lose an output on a
      use that does not.  A node over it behaves as over the in-memory store as
      long as the blocks apply to the state they find, so on a chain without
      double spends the two back ends give the same statistics and answers.
    - Chain: an accepted block makes every owned transaction provable; proofs
      fold to the header's root, and a path that folds to the root belongs to a
      leaf or yields an explicit SHA-256d collision; rolling back a chain of
      blocks within the retention depth restores the outputs; the sweep keeps
      exactly the spends at most [D] deep; pruning never turns an answer into
      "unspent"; the mock chain is drained with a known result.  Over a whole
      life, later blocks never take a proof away, and the spent records kept are
      bounded by the inputs of the blocks in the window, not by the history.
    - Sharding: every hash has one owner; splitting is exact.
    - Transactions: txid and commitment sighash bind their contents; a
      commitment conserves the funded value; what the command line's funding run
      prints makes its settlement run spend that very transaction.
    - Cryptography: the limb arithmetic is arithmetic modulo [p]; the ladder is
      double-and-add; the complete addition computes its published
      polynomials; affine addition stays on the curve; signatures are low-S and
      in range; key decoding is sound.
    - Payment: the channel invariant over all reachable states; payment covers
      service; settlement splits the deposit and its transaction verifies; the
      four queries are served only when prepaid; failed attempts are bounded.
    - Front end: with payment required only the paid endpoint answers, after an
      accepted commitment; every request gets a response; a signed answer says what
      the response says; a client's rate is bounded whatever the others do.
    - Operation: the memory watchdog pauses without losing a block, frees memory
      once per pause and spaces its warnings; the daemon refuses exactly the
      listed configurations and otherwise starts with the policy of its flags;
      the ingest report, the benchmark's store and its counts are what was asked
      for; every sampled key of the benchmark is answered.
    - Accountability: signed statements bind their contents; a verifying fraud proof
      carries signed evidence; wire forms round trip; one verifying proof decides
      inclusion for the client.
    - Block source: the retry loop is bounded and exact; a chain served with bounded
      transient failures is ingested as if it were a list.
    - Batch verification: the parallel back end equals the serial one under every
      schedule; the gate answers every submission once, with its own result.
    - Addresses: Base58Check is canonical on its alphabet; the RIPEMD-160 tables are
      the published ones and the loop computes the published function.
    - Limits of the code: overflow, races, re-opening, unanchored proofs, a charged
      query that is not served, dropped blocks, dropped store errors, a shard id
      out of range and a restart over a populated store are stated as theorems
      about the same definitions.

    ** Fuel and bounds

    The in-memory sweeps and loops recurse on their data.  [sweep_loop] counts
    bands up to the target; its caller passes one more than the distance, and
    [OnNewBlock] is proved never to run out.  [egcd] takes [2 log2 n + 4] steps
    and [egcd_spec] shows that is enough.  [Run], [IngestOnce], [bench_Build] and
    [ingest_main] take the number of blocks plus one; the workers of the
    benchmark recurse on the clock readings they get.  [get_loop] counts the attempts of the retry loop itself.
    [b58_digits] takes [log2 n + 1] digits, [rmd_fill] 64 bytes and [rmd_loop] the
    length of the padded message; each is proved enough.  The RFC 6979 loop in the
    code has no bound; [nonce_loop] takes fuel, and the theorems about signing name
    the case where it runs out.

    ** Parameters

    The network answers the HTTP source's requests by position; JSON decoding, the
    GPU kernel, the database client, the order in which Go ranges over a map, the
    clock and the memory in use are arguments of the definitions that read them.
    The database client's laws are stated with an in-memory instance that
    satisfies them; that it answers an absent record with nil and no error is one
    of them, and [aero_read_error] says what a client does to the store otherwise.

    ** Not modelled

    Opening the listening socket and the graceful shutdown of the HTTP server, flag
    parsing, JSON and HTTP text, the formatting of printed lines, [float64]
    (tokens of the limiter are counted exactly, a rate is a count with its time),
    and connecting to the database.  The workers of the benchmark are run one
    after the other: they share only a store they read and a counter they add to.
    ECDSA's algebra (that verifying accepts what signing produces) needs the group
    law and is not proved, so what the payment demonstration does is stated for
    the runs in which its commitments are accepted. *)

From stdpp Require Import base gmap sets list strings.
From Stdlib Require Import ZArith Lia ZifyNat.
From Stdlib Require Strings.Byte.

#[global] Set Default Goal Selector "!".
Open Scope Z_scope.

(** ** Machine integers

    A [w]-bit unsigned Go integer is a [Z] in [[0, 2^w)]; arithmetic wraps. *)

Definition wrap (w : Z) (z : Z) : Z := z mod 2 ^ w.
Definition u8 (z : Z) : Z := wrap 8 z.
Definition u16 (z : Z) : Z := wrap 16 z.
Definition u32 (z : Z) : Z := wrap 32 z.
Definition u64 (z : Z) : Z := wrap 64 z.
(** Two's complement wrap of an [int64] ([int] on a 64-bit machine). *)
Definition i64 (z : Z) : Z := (z + 2 ^ 63) mod 2 ^ 64 - 2 ^ 63.
Definition is_u (w z : Z) : Prop := 0 <= z < 2 ^ w.

(** ** Errors, results and panics *)

(** A Go [error] is identified with the text of its [errors.New] value. *)
Abbreviation error := string.

(** The outcome of a fallible Go call: a value, a returned error, or a
    run-time panic (an out-of-range index, for instance). *)
Inductive result (A : Type) : Type :=
| Ok (a : A)
| Err (e : error)
| Panic.
Arguments Ok {A} a.
Arguments Err {A} e.
Arguments Panic {A}.

Definition rbind {A B : Type} (r : result A) (k : A -> result B) : result B :=
  match r with
  | Ok a => k a
  | Err e => Err e
  | Panic => Panic
  end.

Definition is_ok {A : Type} (r : result A) : bool :=
  match r with Ok _ => true | _ => false end.

(** [l[i]] on a Go slice: out of range panics. *)
Definition index {A : Type} (l : list A) (i : Z) : result A :=
  if i <? 0 then Panic
  else match l !! Z.to_nat i with Some x => Ok x | None => Panic end.

(** ** State and error monad

    [M S A] is a Go call that reads and writes a state of type [S] and ends
    with a [result]; the state reached so far survives an early return. *)
Definition M (S A : Type) : Type := S -> result A * S.
Definition mret {S A : Type} (a : A) : M S A := fun s => (Ok a, s).
Definition merr {S A : Type} (e : error) : M S A := fun s => (Err e, s).
Definition mpanic {S A : Type} : M S A := fun s => (Panic, s).
Definition mbind {S A B : Type} (m : M S A) (k : A -> M S B) : M S B :=
  fun s => match m s with
           | (Ok a, s') => k a s'
           | (Err e, s') => (Err e, s')
           | (Panic, s') => (Panic, s')
           end.
Definition mlift {S A : Type} (r : result A) : M S A := fun s => (r, s).
Definition mget {S : Type} : M S S := fun s => (Ok s, s).
Definition mput {S : Type} (s : S) : M S unit := fun _ => (Ok tt, s).

(** [for _, x := range l { f x }] with early return on error. *)
Fixpoint for_each {S A : Type} (f : A -> M S unit) (l : list A) : M S unit :=
  match l with
  | [] => mret tt
  | x :: r => mbind (f x) (fun _ => for_each f r)
  end.

(** [for i, x := range l { f i x }]. *)
Fixpoint for_each_from {S A : Type} (f : Z -> A -> M S unit) (i : Z) (l : list A) : M S unit :=
  match l with
  | [] => mret tt
  | x :: r => mbind (f i x) (fun _ => for_each_from f (i + 1) r)
  end.
Definition for_eachi {S A : Type} (f : Z -> A -> M S unit) (l : list A) : M S unit :=
  for_each_from f 0 l.

(** [x, err := m]: the error becomes a value the caller inspects. *)
Definition mtry {S A : Type} (m : M S A) : M S (result A) :=
  fun s => match m s with
           | (Ok a, s') => (Ok (Ok a), s')
           | (Err e, s') => (Ok (Err e), s')
           | (Panic, s') => (Panic, s')
           end.

(** A call on one half of a composite state. *)
Definition on1 {S T A : Type} (m : M S A) : M (S * T) A :=
  fun st => let '(r, s') := m st.1 in (r, (s', st.2)).
Definition on2 {S T A : Type} (m : M T A) : M (S * T) A :=
  fun st => let '(r, t') := m st.2 in (r, (st.1, t')).

Declare Scope go_scope.
Delimit Scope go_scope with go.
Notation "x <- m ;; k" := (mbind m (fun x => k))
  (at level 100, m at next level, right associativity) : go_scope.
Notation "m ;; k" := (mbind m (fun _ => k))
  (at level 100, right associativity) : go_scope.
Notation "'let!' x := r 'in' k" := (rbind r (fun x => k))
  (at level 10, x pattern, r at level 100, k at level 200) : go_scope.

(** ** Bytes and fixed-size arrays *)

Abbreviation byte := Byte.byte.

Definition b2z (b : byte) : Z := Z.of_N (Byte.to_N b).
Definition z2b (z : Z) : byte :=
  match Byte.of_N (Z.to_N (z mod 256)) with Some b => b | None => Byte.x00 end.

#[global] Instance byte_eq_dec : EqDecision byte := Byte.byte_eq_dec.
#[global] Program Instance byte_countable : Countable byte :=
  inj_countable' Byte.to_N (fun n => match Byte.of_N n with Some b => b | None => Byte.x00 end) _.
Next Obligation. intros b. cbn beta. by rewrite Byte.of_to_N. Qed.

(** A Go array [[n]byte]. *)
Definition array (n : nat) : Type := { l : list byte | length l = n }.
#[global] Instance array_eq_dec n : EqDecision (array n).
Proof. unfold array. apply _. Defined.
#[global] Instance array_countable n : Countable (array n).
Proof. unfold array. apply _. Defined.
#[global] Typeclasses Opaque array.
Definition abytes {n : nat} (a : array n) : list byte := proj1_sig a.

(** [var h [n]byte; copy(h[:], l)]: the first [n] bytes, zero-filled. *)
Definition fit (n : nat) (l : list byte) : list byte :=
  take n l ++ replicate (n - length l)%nat Byte.x00.
Lemma length_fit n l : length (fit n l) = n.
Proof. unfold fit. rewrite length_app, length_take, length_replicate. lia. Qed.
Definition arr (n : nat) (l : list byte) : array n := exist _ (fit n l) (length_fit n l).
Definition azero (n : nat) : array n := arr n [].

(** ** Endianness *)

Fixpoint le_bytes (n : nat) (z : Z) : list byte :=
  match n with
  | O => []
  | S n' => z2b z :: le_bytes n' (z / 256)
  end.
Definition be_bytes (n : nat) (z : Z) : list byte := rev (le_bytes n z).

Fixpoint le_Z (l : list byte) : Z :=
  match l with
  | [] => 0
  | b :: r => b2z b + 256 * le_Z r
  end.
Definition be_Z (l : list byte) : Z := le_Z (rev l).

(** ** Lemmas: machine integers *)

Create HintDb go.

Lemma wrap_range w z : 0 <= w -> 0 <= wrap w z < 2 ^ w.
Proof. intros. apply Z.mod_pos_bound, Z.pow_pos_nonneg; lia. Qed.

Lemma wrap_small w z : 0 <= z < 2 ^ w -> wrap w z = z.
Proof. intros. by apply Z.mod_small. Qed.

Lemma u32_range z : 0 <= u32 z < 2 ^ 32.
Proof. by apply wrap_range. Qed.
Lemma u64_range z : 0 <= u64 z < 2 ^ 64.
Proof. by apply wrap_range. Qed.
Lemma u32_small z : 0 <= z < 2 ^ 32 -> u32 z = z.
Proof. apply wrap_small. Qed.
Lemma u64_small z : 0 <= z < 2 ^ 64 -> u64 z = z.
Proof. apply wrap_small. Qed.

Lemma i64_small z : - 2 ^ 63 <= z < 2 ^ 63 -> i64 z = z.
Proof. intros Hz. unfold i64. rewrite Z.mod_small by lia. lia. Qed.
(** Converting to [int] and back loses nothing. *)
Lemma u64_i64 z : 0 <= z < 2 ^ 64 -> u64 (i64 z) = z.
Proof. intros Hz. unfold u64, i64, wrap. Z.div_mod_to_equations. lia. Qed.

(** Arithmetic closer: exposes the wrap-arounds and the powers of two. *)
Ltac go_lia :=
  unfold u8, u16, u32, u64, is_u, wrap in *;
  change (2 ^ 8) with 256 in *; change (2 ^ 16) with 65536 in *;
  change (2 ^ 32) with 4294967296 in *;
  change (2 ^ 64) with 18446744073709551616 in *;
  Z.div_mod_to_equations; lia.

(** Turns boolean comparisons of [Z] and [nat] in the context into [Prop]. *)
Ltac zbool :=
  repeat match goal with
  | Hb : andb _ _ = true |- _ => apply andb_true_iff in Hb as [? ?]
  | Hb : orb _ _ = false |- _ => apply orb_false_iff in Hb as [? ?]
  | Hb : negb _ = true |- _ => rewrite negb_true_iff in Hb
  | Hb : negb _ = false |- _ => rewrite negb_false_iff in Hb
  | H : (_ <? _) = true |- _ => apply Z.ltb_lt in H
  | H : (_ <? _) = false |- _ => apply Z.ltb_ge in H
  | H : (_ <=? _) = true |- _ => apply Z.leb_le in H
  | H : (_ <=? _) = false |- _ => apply Z.leb_gt in H
  | H : (_ =? _) = true |- _ => apply Z.eqb_eq in H
  | H : (_ =? _) = false |- _ => apply Z.eqb_neq in H
  | H : (_ >? _) = _ |- _ => rewrite Z.gtb_ltb in H
  | H : (_ >=? _) = _ |- _ => rewrite Z.geb_leb in H
  | H : bool_decide _ = true |- _ => apply bool_decide_eq_true in H
  | H : bool_decide _ = false |- _ => apply bool_decide_eq_false in H
  end.

(** Case analysis on every [match] or [if] of a hypothesis. *)
Ltac break_in H :=
  repeat match type of H with
  | context [match ?x with _ => _ end] =>
      let Hx := fresh "E" in destruct x eqn:Hx; simpl in H; try discriminate H
  end.

(** ** Lemmas: bytes *)

Lemma b2z_range b : 0 <= b2z b < 256.
Proof. unfold b2z. pose proof (Byte.to_N_bounded b). lia. Qed.

Lemma b2z_z2b z : b2z (z2b z) = z mod 256.
Proof.
  unfold z2b, b2z. pose proof (Z.mod_pos_bound z 256 ltac:(lia)).
  destruct (Byte.of_N (Z.to_N (z mod 256))) as [b|] eqn:E.
  - apply Byte.to_of_N in E. rewrite E. lia.
  - apply Byte.of_N_None_iff in E. lia.
Qed.

Lemma z2b_b2z b : z2b (b2z b) = b.
Proof.
  unfold z2b. rewrite Z.mod_small by apply b2z_range.
  unfold b2z. rewrite N2Z.id, Byte.of_to_N. done.
Qed.

Lemma b2z_inj a b : b2z a = b2z b -> a = b.
Proof. intros H. rewrite <- (z2b_b2z a), <- (z2b_b2z b). by rewrite H. Qed.

Lemma z2b_mod a b : a mod 256 = b mod 256 -> z2b a = z2b b.
Proof. unfold z2b. by intros ->. Qed.

(** ** Lemmas: arrays *)

Lemma abytes_length {n} (a : array n) : length (abytes a) = n.
Proof. by destruct a. Qed.

Lemma array_ext {n} (a b : array n) : abytes a = abytes b -> a = b.
Proof. apply (proj2 (sig_eq_pi _ a b)). Qed.

Lemma fit_id n l : length l = n -> fit n l = l.
Proof.
  intros <-. unfold fit. rewrite firstn_all, Nat.sub_diag. simpl. apply app_nil_r.
Qed.

Lemma abytes_arr n l : length l = n -> abytes (arr n l) = l.
Proof. intros. unfold abytes, arr; simpl. by apply fit_id. Qed.

Lemma arr_abytes {n} (a : array n) : arr n (abytes a) = a.
Proof. apply array_ext. apply abytes_arr, abytes_length. Qed.

Lemma arr_inj n l1 l2 :
  length l1 = n -> length l2 = n -> arr n l1 = arr n l2 -> l1 = l2.
Proof.
  intros H1 H2 H. rewrite <- (abytes_arr n l1), <- (abytes_arr n l2) by done. by rewrite H.
Qed.

#[export] Hint Resolve abytes_length : go.
Create Rewrite HintDb len.
#[export] Hint Rewrite @abytes_length @length_app @length_rev @length_take @length_drop
  @length_replicate @length_fmap : len.

(** ** Lemmas: endianness *)

Lemma length_le_bytes n z : length (le_bytes n z) = n.
Proof. revert z. induction n; intros; simpl; [done|]. by rewrite IHn. Qed.
Lemma length_be_bytes n z : length (be_bytes n z) = n.
Proof. unfold be_bytes. rewrite length_rev. apply length_le_bytes. Qed.
#[export] Hint Rewrite length_le_bytes length_be_bytes : len.

Ltac len := autorewrite with len; simpl; try lia.

Lemma le_Z_bytes n z : le_Z (le_bytes n z) = z mod 256 ^ Z.of_nat n.
Proof.
  revert z. induction n as [|n IH]; intros z; simpl le_bytes; simpl le_Z.
  - by rewrite Z.mod_1_r.
  - rewrite IH, b2z_z2b. rewrite Nat2Z.inj_succ, Z.pow_succ_r by lia.
    rewrite Z.rem_mul_r by (pose proof (Z.pow_pos_nonneg 256 (Z.of_nat n)); lia). lia.
Qed.

Lemma le_Z_range l : 0 <= le_Z l < 256 ^ Z.of_nat (length l).
Proof.
  induction l as [|b r IH]; [simpl; lia|].
  cbn [le_Z length]. rewrite Nat2Z.inj_succ, Z.pow_succ_r by lia.
  pose proof (b2z_range b). lia.
Qed.

Lemma le_bytes_Z l n : length l = n -> le_bytes n (le_Z l) = l.
Proof.
  intros <-. induction l as [|b r IH]; [done|].
  cbn [le_Z length le_bytes]. pose proof (b2z_range b). f_equal.
  - rewrite <- (z2b_b2z b) at 2. apply z2b_mod.
    rewrite Z.mul_comm, Z_mod_plus_full. done.
  - replace ((b2z b + 256 * le_Z r) / 256) with (le_Z r); [done|].
    Z.div_mod_to_equations; lia.
Qed.

Lemma le_Z_app l1 l2 : le_Z (l1 ++ l2) = le_Z l1 + 256 ^ Z.of_nat (length l1) * le_Z l2.
Proof.
  induction l1 as [|b r IH]; [simpl; lia|].
  cbn [app le_Z length]. rewrite IH, Nat2Z.inj_succ, Z.pow_succ_r by lia. ring.
Qed.

Lemma le_Z_zeros n : le_Z (replicate n Byte.x00) = 0.
Proof. induction n; simpl; [done|]. rewrite IHn. done. Qed.

Lemma le_Z_inj l1 l2 : length l1 = length l2 -> le_Z l1 = le_Z l2 -> l1 = l2.
Proof.
  intros Hl H. rewrite <- (le_bytes_Z l1 _ eq_refl), <- (le_bytes_Z l2 _ eq_refl).
  by rewrite H, Hl.
Qed.

Lemma be_Z_bytes n z : be_Z (be_bytes n z) = z mod 256 ^ Z.of_nat n.
Proof. unfold be_Z, be_bytes. rewrite rev_involutive. apply le_Z_bytes. Qed.

Lemma be_bytes_Z l n : length l = n -> be_bytes n (be_Z l) = l.
Proof.
  intros H. unfold be_bytes, be_Z.
  rewrite le_bytes_Z by (by rewrite length_rev). apply rev_involutive.
Qed.

Lemma be_Z_range l : 0 <= be_Z l < 256 ^ Z.of_nat (length l).
Proof. unfold be_Z. rewrite <- length_rev. apply le_Z_range. Qed.

Lemma be_Z_inj l1 l2 : length l1 = length l2 -> be_Z l1 = be_Z l2 -> l1 = l2.
Proof.
  intros Hl H.
  rewrite <- (rev_involutive l1), <- (rev_involutive l2). f_equal.
  apply le_Z_inj; [by rewrite !length_rev|done].
Qed.

Lemma be_Z_app l1 l2 : be_Z (l1 ++ l2) = be_Z l1 * 256 ^ Z.of_nat (length l2) + be_Z l2.
Proof. unfold be_Z. rewrite rev_app_distr, le_Z_app, length_rev. lia. Qed.

Lemma be_Z_zeros_app k l : be_Z (replicate k Byte.x00 ++ l) = be_Z l.
Proof.
  rewrite be_Z_app. unfold be_Z at 1. rewrite rev_alt. fold (reverse (replicate k Byte.x00)).
  rewrite reverse_replicate, le_Z_zeros. lia.
Qed.

Lemma le_bytes_inj n x y :
  0 <= x < 256 ^ Z.of_nat n -> 0 <= y < 256 ^ Z.of_nat n ->
  le_bytes n x = le_bytes n y -> x = y.
Proof.
  intros Hx Hy H. apply (f_equal le_Z) in H. rewrite !le_Z_bytes in H.
  rewrite !Z.mod_small in H; done.
Qed.

Lemma be_bytes_inj n x y :
  0 <= x < 256 ^ Z.of_nat n -> 0 <= y < 256 ^ Z.of_nat n ->
  be_bytes n x = be_bytes n y -> x = y.
Proof.
  intros Hx Hy H. apply (f_equal be_Z) in H. rewrite !be_Z_bytes in H.
  rewrite !Z.mod_small in H; done.
Qed.

(** ** Lemmas: lists *)

(** Two concatenations whose first parts have the same length split. *)
Lemma app_inj_len {A} (a b c d : list A) :
  length a = length c -> a ++ b = c ++ d -> a = c /\ b = d.
Proof. intros Hl H. apply app_inj_1; done. Qed.

Lemma index_ok {A} (l : list A) i x : index l i = Ok x <-> 0 <= i /\ l !! Z.to_nat i = Some x.
Proof.
  unfold index. destruct (i <? 0) eqn:E; zbool.
  - split; [done|lia].
  - destruct (l !! Z.to_nat i); split; intros; simplify_eq; naive_solver lia.
Qed.

Lemma index_nat {A} (l : list A) (i : nat) x : l !! i = Some x -> index l (Z.of_nat i) = Ok x.
Proof. intros. apply index_ok. rewrite Nat2Z.id. split; [lia|done]. Qed.

(** ** Lemmas: the monad *)

Lemma mbind_ok {S A B} (m : M S A) (k : A -> M S B) s a s' :
  m s = (Ok a, s') -> mbind m k s = k a s'.
Proof. unfold mbind. by intros ->. Qed.

Lemma mbind_err {S A B} (m : M S A) (k : A -> M S B) s e s' :
  m s = (Err e, s') -> mbind m k s = (Err e, s').
Proof. unfold mbind. by intros ->. Qed.

(** A loop whose body always succeeds is a fold over the state. *)
Lemma for_each_fold {S A} (f : A -> M S unit) (g : S -> A -> S) (I : S -> Prop) l s :
  I s ->
  (forall x s, x ∈ l -> I s -> f x s = (Ok tt, g s x) /\ I (g s x)) ->
  for_each f l s = (Ok tt, foldl g s l) /\ I (foldl g s l).
Proof.
  revert s. induction l as [|x r IH]; intros s Hs Hf; [done|].
  destruct (Hf x s) as [E HI]; [set_solver|done|].
  simpl. erewrite mbind_ok by exact E. apply IH; [done|].
  intros y t Hy. apply Hf. set_solver.
Qed.

(** Pointwise equality of two calls. *)
Definition meq {S A} (m1 m2 : M S A) : Prop := forall s, m1 s = m2 s.

Lemma mbind_meq {S A B} (m1 m2 : M S A) (k1 k2 : A -> M S B) :
  meq m1 m2 -> (forall a, meq (k1 a) (k2 a)) -> meq (mbind m1 k1) (mbind m2 k2).
Proof. intros Hm Hk s. unfold mbind. rewrite Hm. destruct (m2 s) as [[]?]; [apply Hk|done..]. Qed.

Lemma for_each_meq {S A} (f g : A -> M S unit) l :
  (forall x, meq (f x) (g x)) -> meq (for_each f l) (for_each g l).
Proof.
  intros Hf. induction l as [|x r IH]; [done|]. apply mbind_meq; [apply Hf|]. intros _. apply IH.
Qed.

Lemma for_each_app {S A} (f : A -> M S unit) l1 l2 :
  meq (for_each f (l1 ++ l2)) (mbind (for_each f l1) (fun _ => for_each f l2)).
Proof.
  induction l1 as [|x r IH]; intros s; [done|]. cbn [app for_each]. unfold mbind at 1 2 3.
  destruct (f x s) as [[] s']; [|done..]. rewrite IH. done.
Qed.

(** A loop of loops is one loop over the concatenation. *)
Lemma for_each_concat {S A B} (f : B -> M S unit) (g : A -> list B) l :
  meq (for_each (fun x => for_each f (g x)) l) (for_each f (concat (g <$> l))).
Proof.
  induction l as [|x r IH]; intros s; [done|]. cbn [for_each fmap list_fmap concat].
  rewrite for_each_app. apply mbind_meq; [done|]. intros _. apply IH.
Qed.

(** A loop with a counter is a loop over the numbered list. *)
Definition numbered {A} (i : Z) (l : list A) : list (Z * A) :=
  imap (fun j x => (i + Z.of_nat j, x)) l.

Lemma numbered_cons {A} i (x : A) l : numbered i (x :: l) = (i, x) :: numbered (i + 1) l.
Proof.
  unfold numbered. simpl. rewrite Z.add_0_r. f_equal. apply imap_ext. intros j y _. simpl.
  f_equal. lia.
Qed.

Lemma numbered_snd {A} i (l : list A) : (numbered i l).*2 = l.
Proof. revert i. induction l as [|x r IH]; intros i; [done|]. rewrite numbered_cons. simpl. by rewrite IH. Qed.

Lemma numbered_lookup {A} i (l : list A) j x :
  numbered i l !! j = Some x <-> exists y, l !! j = Some y /\ x = (i + Z.of_nat j, y).
Proof.
  unfold numbered. rewrite list_lookup_imap. destruct (l !! j); simpl; naive_solver.
Qed.

Lemma for_each_from_numbered {S A} (f : Z -> A -> M S unit) i l :
  meq (for_each_from f i l) (for_each (fun p => f p.1 p.2) (numbered i l)).
Proof.
  revert i. induction l as [|x r IH]; intros i; [done|]. rewrite numbered_cons.
  apply mbind_meq; [done|]. intros _. apply IH.
Qed.

(** Iterations that do nothing can be dropped. *)
Lemma for_each_filter {S A} (f : A -> M S unit) (b : A -> bool) l :
  meq (for_each (fun x => if negb (b x) then mret tt else f x) l)
      (for_each f (filter (fun x => b x = true) l)).
Proof.
  induction l as [|x r IH]; intros s; [done|]. cbn [for_each]. rewrite filter_cons.
  destruct (b x); simpl; [|apply IH]. apply mbind_meq; [done|]. intros _. apply IH.
Qed.

(** ** Self-delimiting encodings *)

(** The encoding of a value of [P] is recovered from any string it starts. *)
Definition prefix_inj {A} (P : A -> Prop) (enc : A -> list byte) : Prop :=
  forall x y a b, P x -> P y -> enc x ++ a = enc y ++ b -> x = y /\ a = b.

Lemma prefix_inj_inj {A} (P : A -> Prop) enc x y :
  prefix_inj P enc -> P x -> P y -> enc x = enc y -> x = y.
Proof. intros H Hx Hy E. apply (H x y [] []); [done..|]. by rewrite E. Qed.

Lemma prefix_inj_fixed {A} (P : A -> Prop) enc n :
  (forall x, length (enc x) = n) -> (forall x y, P x -> P y -> enc x = enc y -> x = y) -> prefix_inj P enc.
Proof.
  intros Hl Hi x y a b Hx Hy E. apply app_inj_len in E as [E ->]; [|by rewrite !Hl].
  split; [by apply Hi|done].
Qed.

Lemma prefix_inj_le n : prefix_inj (fun z => 0 <= z < 256 ^ Z.of_nat n) (le_bytes n).
Proof. apply (prefix_inj_fixed _ _ n); [apply length_le_bytes|apply le_bytes_inj]. Qed.

Lemma prefix_inj_be n : prefix_inj (fun z => 0 <= z < 256 ^ Z.of_nat n) (be_bytes n).
Proof. apply (prefix_inj_fixed _ _ n); [apply length_be_bytes|apply be_bytes_inj]. Qed.

Lemma prefix_inj_array n : prefix_inj (fun _ => True) (abytes (n := n)).
Proof. apply (prefix_inj_fixed _ _ n); [apply abytes_length|]. intros x y _ _. apply array_ext. Qed.

Lemma prefix_inj_list {A} (P : A -> Prop) enc (l1 l2 : list A) a b :
  prefix_inj P enc -> Forall P l1 -> Forall P l2 -> length l1 = length l2 ->
  concat (enc <$> l1) ++ a = concat (enc <$> l2) ++ b -> l1 = l2 /\ a = b.
Proof.
  intros He. revert l2. induction l1 as [|x l1 IH]; intros [|y l2] H1 H2 Hl E; try done.
  inversion H1; inversion H2; subst. cbn [fmap list_fmap concat] in E. rewrite <- !app_assoc in E.
  apply He in E as [-> E]; [|done..]. apply IH in E as [-> ->]; [done..|]. simpl in Hl. lia.
Qed.
