(* ===== verification/Sha256.v ===== *)
(** * SHA-256 (Go's [crypto/sha256])

    The hash function the program takes from the language's standard library,
    written out from FIPS 180-4 so that every digest of the model is computed,
    not assumed.  [sha256] is [sha256.Sum256]; [hmac_sha256] is
    [hmac.New(sha256.New, key)] used by the RFC 6979 nonce.  The published
    test vectors are checked by evaluation. *)

From stdpp Require Import base list.
From Stdlib Require Import ZArith Lia ZifyNat.
From Stdlib Require Strings.Byte.
From S2P Require Import Prelude.

Definition rotr32 (x n : Z) : Z := Z.lor (Z.shiftr x n) (u32 (Z.shiftl x (32 - n))).
Definition not32 (x : Z) : Z := Z.lxor x 4294967295.

(** The round constants are the fractional parts of the cube roots of the
    first 64 primes, the initial words those of the square roots of the first
    eight; both are computed, then stored evaluated. *)
Definition is_prime (n : Z) : bool :=
  forallb (fun d => negb (n mod d =? 0)) (seqZ 2 (n - 2)).
Definition primes : list Z := Eval vm_compute in filter (fun n => is_prime n = true) (seqZ 2 310).

(** The integer cube root of [n], one bit at a time from bit [k]. *)
Fixpoint cube_root (k : nat) (acc n : Z) : Z :=
  let try_ := acc + 2 ^ Z.of_nat k in
  let acc' := if try_ * try_ * try_ <=? n then try_ else acc in
  match k with O => acc' | S k' => cube_root k' acc' n end.

Definition sha_K : list Z :=
  Eval vm_compute in (fun p => u32 (cube_root 40 0 (p * 2 ^ 96))) <$> primes.

(** The chaining value: the eight working words [a .. h]. *)
Record sha_state : Type := mkSha
  { sa : Z; sb : Z; sc : Z; sd : Z; se : Z; sf : Z; sg : Z; sh : Z }.

Definition sha_H0 : sha_state :=
  Eval vm_compute in
    let h i := u32 (Z.sqrt (nth i primes 0 * 2 ^ 64)) in
    mkSha (h 0%nat) (h 1%nat) (h 2%nat) (h 3%nat) (h 4%nat) (h 5%nat) (h 6%nat) (h 7%nat).

(** Message schedule, newest word first: each step looks 2, 7, 15 and 16 back. *)
Fixpoint sha_schedule (n : nat) (w : list Z) : list Z :=
  match n with
  | O => w
  | S n' =>
      let w2 := nth 1 w 0 in let w7 := nth 6 w 0 in
      let w15 := nth 14 w 0 in let w16 := nth 15 w 0 in
      let s0 := Z.lxor (Z.lxor (rotr32 w15 7) (rotr32 w15 18)) (Z.shiftr w15 3) in
      let s1 := Z.lxor (Z.lxor (rotr32 w2 17) (rotr32 w2 19)) (Z.shiftr w2 10) in
      sha_schedule n' (u32 (w16 + s0 + w7 + s1) :: w)
  end.

Definition sha_round (st : sha_state) (kw : Z * Z) : sha_state :=
  let '(k, w) := kw in
  let S1 := Z.lxor (Z.lxor (rotr32 (se st) 6) (rotr32 (se st) 11)) (rotr32 (se st) 25) in
  let ch := Z.lxor (Z.land (se st) (sf st)) (Z.land (not32 (se st)) (sg st)) in
  let t1 := u32 (sh st + S1 + ch + k + w) in
  let S0 := Z.lxor (Z.lxor (rotr32 (sa st) 2) (rotr32 (sa st) 13)) (rotr32 (sa st) 22) in
  let maj := Z.lxor (Z.lxor (Z.land (sa st) (sb st)) (Z.land (sa st) (sc st)))
                    (Z.land (sb st) (sc st)) in
  let t2 := u32 (S0 + maj) in
  mkSha (u32 (t1 + t2)) (sa st) (sb st) (sc st) (u32 (sd st + t1)) (se st) (sf st) (sg st).

Fixpoint sha_words (n : nat) (l : list byte) : list Z :=
  match n with
  | O => []
  | S n' => be_Z (take 4 l) :: sha_words n' (drop 4 l)
  end.

Definition sha_compress (st : sha_state) (block : list byte) : sha_state :=
  let w := rev (sha_schedule 48 (rev (sha_words 16 block))) in
  let r := foldl sha_round st (zip sha_K w) in
  mkSha (u32 (sa st + sa r)) (u32 (sb st + sb r)) (u32 (sc st + sc r)) (u32 (sd st + sd r))
        (u32 (se st + se r)) (u32 (sf st + sf r)) (u32 (sg st + sg r)) (u32 (sh st + sh r)).

(** Padding: 0x80, zeros up to 56 modulo 64, then the bit length. *)
Definition sha_pad (msg : list byte) : list byte :=
  let n := Z.of_nat (length msg) in
  msg ++ [z2b 0x80] ++ replicate (Z.to_nat ((55 - n) mod 64)) Byte.x00 ++ be_bytes 8 (8 * n).

Fixpoint sha_blocks (fuel : nat) (st : sha_state) (l : list byte) : sha_state :=
  match fuel with
  | O => st
  | S fuel' =>
      match l with
      | [] => st
      | _ => sha_blocks fuel' (sha_compress st (take 64 l)) (drop 64 l)
      end
  end.

Definition sha_digest (st : sha_state) : list byte :=
  be_bytes 4 (sa st) ++ be_bytes 4 (sb st) ++ be_bytes 4 (sc st) ++ be_bytes 4 (sd st) ++
  be_bytes 4 (se st) ++ be_bytes 4 (sf st) ++ be_bytes 4 (sg st) ++ be_bytes 4 (sh st).

Definition sha256 (msg : list byte) : list byte :=
  let p := sha_pad msg in
  sha_digest (sha_blocks (length p) sha_H0 p).

Lemma length_sha256 msg : length (sha256 msg) = 32%nat.
Proof. unfold sha256, sha_digest. len. Qed.
#[export] Hint Rewrite length_sha256 : len.

(** HMAC-SHA-256. *)
Definition hmac_pad (key : list byte) : list byte :=
  fit 64 (if (64 <? Z.of_nat (length key))%Z then sha256 key else key).
Definition xor_all (c : Z) (l : list byte) : list byte :=
  (fun b => z2b (Z.lxor (b2z b) c)) <$> l.
Definition hmac_sha256 (key msg : list byte) : list byte :=
  let k := hmac_pad key in
  sha256 (xor_all 0x5c k ++ sha256 (xor_all 0x36 k ++ msg)).

(** FIPS 180-4 and RFC 4231 vectors. *)
Example sha256_empty :
  be_Z (sha256 []) = 0xe3b0c44298fc1c149afbf4c8996fb92427ae41e4649b934ca495991b7852b855.
Proof. vm_compute. reflexivity. Qed.
Example sha256_abc :
  be_Z (sha256 (z2b <$> [0x61; 0x62; 0x63]))
  = 0xba7816bf8f01cfea414140de5dae2223b00361a396177a9cb410ff61f20015ad.
Proof. vm_compute. reflexivity. Qed.
Example hmac_sha256_rfc4231_1 :
  be_Z (hmac_sha256 (replicate 20 (z2b 0x0b)) (z2b <$> [0x48;0x69;0x20;0x54;0x68;0x65;0x72;0x65]))
  = 0xb0344c61d8db38535ca8afceaf0bf12b881dc200c9833da726e9376c2e32cff7.
Proof. vm_compute. reflexivity. Qed.

(** Evaluated by [vm_compute] only, never by unification. *)
#[global] Opaque sha256 hmac_sha256.
Example sha256_opaque_runs : b2z (default Byte.x00 (head (sha256 []))) = 0xe3.
Proof. vm_compute. reflexivity. Qed.
