(* ===== verification/Commitment.v ===== *)
(** * commitment: the SHA-256d Merkle core ([src/commitment/commitment.go])

    Hashes, Merkle trees with the odd-node duplication rule, sibling paths,
    the fold, and the L0/L1/L2 verification routines.  The theorems show that
    a path produced for a leaf folds to the root ([MerklePath] complete), that
    its length is [CeilLog2] of the number of leaves, that a full-length path
    which folds to the root of a tree belongs to one of its leaves unless the
    two byte strings returned by [path_collision] are a SHA-256d collision,
    and how the duplication rule makes two leaf lists share a root. *)

From stdpp Require Import base list strings sets.
From Stdlib Require Import ZArith Lia ZifyNat.
From Stdlib Require Strings.Byte.
From S2P Require Import Prelude Sha256.
Open Scope go_scope.

(** ** Data *)

Abbreviation Hash := (array 32).
Definition zeroHash : Hash := azero 32.

(** [Right] says the sibling is the right child. *)
Record PathElem : Type := mkPathElem { Sibling : Hash; Right : bool }.

#[global] Instance PathElem_eq_dec : EqDecision PathElem.
Proof. solve_decision. Defined.

Record FieldLeaf : Type := mkFieldLeaf { Index : Z; Bytes : list byte }.

Definition MaxDepth : Z := 255.

Definition ErrEmpty : error := "commitment: cannot build a Merkle tree over zero leaves"%string.
Definition ErrLeafIndex : error := "commitment: leaf index out of range"%string.
Definition ErrFieldIndex : error := "commitment: field index out of range"%string.

(** ** Hashing *)

Definition DoubleSHA256 (b : list byte) : Hash := arr 32 (sha256 (sha256 b)).
#[global] Opaque DoubleSHA256.

Definition HashPair (left right : Hash) : Hash := DoubleSHA256 (abytes left ++ abytes right).

Definition leafHash (f : FieldLeaf) : Hash := DoubleSHA256 (z2b (Index f) :: Bytes f).

(** ** Trees and paths *)

(** One pass of the inner loop: [i += 2], the odd tail paired with itself. *)
Fixpoint next_level (level : list Hash) : list Hash :=
  match level with
  | [] => []
  | [l] => [HashPair l l]
  | l :: r :: rest => HashPair l r :: next_level rest
  end.

(** The outer loop: the levels appended above [level] until one node is left. *)
Fixpoint build_levels (fuel : nat) (level : list Hash) : list (list Hash) :=
  match fuel with
  | O => []
  | S fuel' =>
      if 1 <? Z.of_nat (length level)
      then let next := next_level level in next :: build_levels fuel' next
      else []
  end.

Definition BuildMerkleTree (leaves : list Hash) : result (Hash * list (list Hash)) :=
  if Z.of_nat (length leaves) =? 0 then Err ErrEmpty
  else
    let layers := leaves :: build_levels (length leaves) leaves in
    let! top := index layers (Z.of_nat (length layers) - 1) in
    let! root := index top 0 in
    Ok (root, layers).

Definition MerkleRoot (leaves : list Hash) : result Hash :=
  let! (root, _) := BuildMerkleTree leaves in Ok root.

(** The sibling chosen at one level for the node at [idx]. *)
Definition path_step (cur : list Hash) (idx : Z) : result PathElem :=
  if idx mod 2 =? 0 then
    let sib := if idx + 1 <? Z.of_nat (length cur) then idx + 1 else idx in
    let! h := index cur sib in Ok (mkPathElem h true)
  else
    let! h := index cur (idx - 1) in Ok (mkPathElem h false).

(** [for level := 0; level < len(layers)-1; level++]. *)
Fixpoint path_loop (layers : list (list Hash)) (idx : Z) : result (list PathElem) :=
  match layers with
  | cur :: ((_ :: _) as rest) =>
      let! e := path_step cur idx in
      let! p := path_loop rest (idx / 2) in
      Ok (e :: p)
  | _ => Ok []
  end.

Definition path_guard (layers : list (list Hash)) (idx : Z) : bool :=
  match layers with
  | [] => true
  | l0 :: _ => (idx <? 0) || (Z.of_nat (length l0) <=? idx)
  end.

Definition MerklePath (layers : list (list Hash)) (idx : Z) : result (list PathElem) :=
  if path_guard layers idx then Err ErrLeafIndex else path_loop layers idx.

(** The buffer-reusing variant appends to [dst[:0]]. *)
Fixpoint path_into (layers : list (list Hash)) (idx : Z) (dst : list PathElem)
  : result (list PathElem) :=
  match layers with
  | cur :: ((_ :: _) as rest) =>
      let! e := path_step cur idx in
      path_into rest (idx / 2) (dst ++ [e])
  | _ => Ok dst
  end.

Definition MerklePathInto (layers : list (list Hash)) (idx : Z) (dst : list PathElem)
  : result (list PathElem) :=
  if path_guard layers idx then Err ErrLeafIndex else path_into layers idx (take 0 dst).

Definition fold_step (node : Hash) (e : PathElem) : Hash :=
  if Right e then HashPair node (Sibling e) else HashPair (Sibling e) node.

Definition Fold (leaf : Hash) (path : list PathElem) : Hash := foldl fold_step leaf path.

(** [bits.Len64]. *)
Definition Len64 (x : Z) : Z := if x =? 0 then 0 else Z.log2 x + 1.

Definition CeilLog2 (n : Z) : Z := if n <=? 1 then 0 else Len64 (n - 1).

(** ** L0: the field tree *)

Definition BuildMTxID (fields : list FieldLeaf) : result (Hash * list (list Hash)) :=
  if Z.of_nat (length fields) =? 0 then Err ErrEmpty
  else BuildMerkleTree (leafHash <$> fields).

Definition MTxIDPath (fields : list FieldLeaf) (fieldIndex : Z)
  : result (Hash * list PathElem * Hash) :=
  if Z.of_nat (length fields) <=? fieldIndex then Err ErrFieldIndex
  else
    let! (root, layers) := BuildMTxID fields in
    let! path := MerklePath layers fieldIndex in
    let! f := index fields fieldIndex in
    Ok (leafHash f, path, root).

Definition LeafForField (f : FieldLeaf) : Hash := leafHash f.

Definition VerifyMTxIDPath (leaf : Hash) (path : list PathElem) (mtxid : Hash) : bool :=
  if MaxDepth <? Z.of_nat (length path) then false else bool_decide (Fold leaf path = mtxid).

(** ** L1 and L2 *)

Definition VerifySubtreePath (txid : Hash) (path : list PathElem) (subtreeRoot : Hash) : bool :=
  if 20 <? Z.of_nat (length path) then false else bool_decide (Fold txid path = subtreeRoot).

Definition VerifyBlockPath (subtreeRoot : Hash) (path : list PathElem) (blockRoot : Hash) : bool :=
  if MaxDepth <? Z.of_nat (length path) then false
  else bool_decide (Fold subtreeRoot path = blockRoot).

Definition VerifyToBlockRoot (leaf : Hash) (l0 l1 l2 : list PathElem) (blockMerkleRoot : Hash)
  : bool * Z :=
  let depth := Z.of_nat (length l0) + Z.of_nat (length l1) + Z.of_nat (length l2) in
  if (MaxDepth <? depth) || (20 <? Z.of_nat (length l1)) then (false, depth)
  else
    let mtxid := Fold leaf l0 in
    let sub := Fold mtxid l1 in
    let root := Fold sub l2 in
    (bool_decide (root = blockMerkleRoot), depth).

(** ** Collision extraction (specification side) *)

(** The two byte strings hashed for a pair of children. *)
Definition pair_bytes (x y : Hash) : list byte := abytes x ++ abytes y.

Definition is_collision (c : list byte * list byte) : Prop :=
  c.1 <> c.2 /\ DoubleSHA256 c.1 = DoubleSHA256 c.2.

(** The pairs of children hashed by [next_level]. *)
Fixpoint level_pairs (level : list Hash) : list (Hash * Hash) :=
  match level with
  | [] => []
  | [x] => [(x, x)]
  | x :: y :: rest => (x, y) :: level_pairs rest
  end.

Definition step_pair (node : Hash) (e : PathElem) : Hash * Hash :=
  if Right e then (node, Sibling e) else (Sibling e, node).

(** Walks the path upwards next to the tree over [level] and returns the
    first pair of different preimages with the same digest. *)
Fixpoint path_collision (path : list PathElem) (level : list Hash) (node : Hash)
  : option (list byte * list byte) :=
  match path with
  | [] => None
  | e :: rest =>
      let up := fold_step node e in
      match path_collision rest (next_level level) up with
      | Some c => Some c
      | None =>
          match filter (fun q => HashPair q.1 q.2 = up) (level_pairs level) with
          | (x, y) :: _ =>
              let '(a, b) := step_pair node e in
              if decide ((a, b) = (x, y)) then None
              else Some (pair_bytes a b, pair_bytes x y)
          | [] => None
          end
      end
  end.

(** ** Lemmas: hashing *)

Lemma pair_bytes_inj a b c d : pair_bytes a b = pair_bytes c d -> a = c /\ b = d.
Proof.
  intros H. apply app_inj_len in H as [H1 H2]; [|len].
  split; by apply array_ext.
Qed.

Lemma fold_step_pair node e : fold_step node e = HashPair (step_pair node e).1 (step_pair node e).2.
Proof. unfold fold_step, step_pair. by destruct (Right e). Qed.

(** ** Lemmas: levels *)

Lemma pair_ind {A} (P : list A -> Prop) :
  P [] -> (forall x, P [x]) -> (forall x y r, P r -> P (x :: y :: r)) -> forall l, P l.
Proof.
  intros H0 H1 H2 l. enough (P l /\ forall x, P (x :: l)) by tauto.
  induction l as [|y l [IH1 IH2]]; [auto|]. split; [apply IH2|].
  intros x. by apply H2.
Qed.

Lemma length_next_level l : Z.of_nat (length (next_level l)) = (Z.of_nat (length l) + 1) / 2.
Proof.
  induction l as [|x|x y r IH] using pair_ind; [done|done|].
  cbn [next_level length]. Z.div_mod_to_equations; lia.
Qed.

Lemma next_level_lookup l j :
  next_level l !! j =
  match l !! (2 * j)%nat with
  | Some a => Some (HashPair a (default a (l !! (2 * j + 1)%nat)))
  | None => None
  end.
Proof.
  revert j. induction l as [|x|x y r IH] using pair_ind; intros j; [done| |].
  - destruct j; [done|]. simpl. by replace (j + S (j + 0))%nat with (S (2 * j)) by lia.
  - destruct j; [done|]. cbn [next_level]. rewrite lookup_cons_ne_0 by lia. simpl pred.
    rewrite IH. replace (2 * S j)%nat with (S (S (2 * j))) by lia. done.
Qed.

Lemma next_level_pairs l : next_level l = (fun q => HashPair q.1 q.2) <$> level_pairs l.
Proof.
  induction l as [|x|x y r IH] using pair_ind; [done|done|].
  cbn [next_level level_pairs fmap list_fmap]. by rewrite IH.
Qed.

Lemma level_pairs_elem l q : q ∈ level_pairs l -> q.1 ∈ l /\ q.2 ∈ l.
Proof.
  induction l as [|x|x y r IH] using pair_ind; cbn [level_pairs]; set_solver.
Qed.

(** The loop reaches a single root within [length level] iterations. *)
Lemma build_levels_root fuel level :
  level <> [] -> (length level <= fuel)%nat ->
  exists root, last (level :: build_levels fuel level) = Some [root].
Proof.
  revert level. induction fuel as [|fuel IH]; intros level Hne Hf.
  { destruct level; [done|simpl in *; lia]. }
  cbn [build_levels]. destruct (1 <? Z.of_nat (length level)) eqn:E; zbool.
  - pose proof (length_next_level level) as Hl.
    rewrite last_cons_cons. apply IH.
    + intros E'. rewrite E' in Hl. simpl in Hl. Z.div_mod_to_equations; lia.
    + Z.div_mod_to_equations; lia.
  - destruct level as [|x [|y r]]; [done| |simpl in *; lia]. by exists x.
Qed.

Lemma build_levels_more fuel fuel' level :
  (length level <= fuel)%nat -> (length level <= fuel')%nat ->
  build_levels fuel level = build_levels fuel' level.
Proof.
  revert fuel' level. induction fuel as [|fuel IH]; intros fuel' level Hf Hf'.
  { destruct level; [|simpl in *; lia]. by destruct fuel'. }
  destruct fuel' as [|fuel']. { destruct level; [done|simpl in *; lia]. }
  cbn [build_levels]. destruct (1 <? _) eqn:E; zbool; [|done].
  pose proof (length_next_level level) as Hl. f_equal.
  apply IH; Z.div_mod_to_equations; lia.
Qed.

(** The root of a non-empty list of leaves, and its layers. *)
Definition layers_of (leaves : list Hash) : list (list Hash) :=
  leaves :: build_levels (length leaves) leaves.

Lemma index_last {A} (l : list A) x : last l = Some x -> index l (Z.of_nat (length l) - 1) = Ok x.
Proof.
  intros H. apply index_ok. rewrite last_lookup in H.
  destruct l as [|a l]; [done|]. split; [simpl; lia|].
  rewrite <- H. f_equal. simpl. lia.
Qed.

Lemma BuildMerkleTree_ok leaves :
  leaves <> [] ->
  exists root, last (layers_of leaves) = Some [root]
               /\ BuildMerkleTree leaves = Ok (root, layers_of leaves).
Proof.
  intros Hne. destruct (build_levels_root (length leaves) leaves Hne) as [root Hr]; [lia|].
  exists root. split; [done|]. unfold BuildMerkleTree.
  destruct (Z.of_nat (length leaves) =? 0) eqn:E; zbool.
  { destruct leaves; [done|simpl in *; lia]. }
  fold (layers_of leaves) in *. rewrite (index_last _ _ Hr). done.
Qed.

Lemma BuildMerkleTree_inv leaves root layers :
  BuildMerkleTree leaves = Ok (root, layers) ->
  leaves <> [] /\ layers = layers_of leaves /\ last layers = Some [root].
Proof.
  intros H. destruct (decide (leaves = [])) as [->|Hne]; [done|].
  destruct (BuildMerkleTree_ok leaves Hne) as (r & Hl & E). rewrite E in H. by simplify_eq.
Qed.

Lemma MerkleRoot_inv leaves root :
  MerkleRoot leaves = Ok root <-> BuildMerkleTree leaves = Ok (root, layers_of leaves).
Proof.
  unfold MerkleRoot. split; intros H.
  - destruct (BuildMerkleTree leaves) as [[r ls]| |] eqn:E; simpl in H; simplify_eq.
    by apply BuildMerkleTree_inv in E as E'; destruct E' as (_ & -> & _).
  - by rewrite H.
Qed.

Lemma layers_of_step leaves :
  (1 < length leaves)%nat -> layers_of leaves = leaves :: layers_of (next_level leaves).
Proof.
  intros Hn. unfold layers_of at 1. destruct (length leaves) as [|n] eqn:El; [lia|].
  cbn [build_levels]. rewrite (proj2 (Z.ltb_lt _ _)) by lia. f_equal. unfold layers_of. f_equal.
  pose proof (length_next_level leaves). apply build_levels_more; Z.div_mod_to_equations; lia.
Qed.

Lemma layers_of_one x : layers_of [x] = [[x]].
Proof. done. Qed.

(** Induction along the levels of a tree. *)
Lemma level_ind (P : list Hash -> Prop) :
  (forall x, P [x]) ->
  (forall l, (1 < length l)%nat -> P (next_level l) -> P l) ->
  forall l, l <> [] -> P l.
Proof.
  intros H1 Hs l. remember (length l) as n eqn:Hn. revert l Hn.
  induction n as [n IH] using lt_wf_ind. intros l -> Hne.
  destruct l as [|x [|y r]]; [done|apply H1|].
  pose proof (length_next_level (x :: y :: r)) as Hl.
  change (length (x :: y :: r)) with (S (S (length r))) in *.
  apply Hs; [simpl; lia|]. eapply IH; [|done|].
  - change (length (x :: y :: r)) with (S (S (length r))). Z.div_mod_to_equations; lia.
  - intros E. rewrite E in Hl. simpl in Hl. Z.div_mod_to_equations; lia.
Qed.

Lemma CeilLog2_log2_up n : 1 <= n -> CeilLog2 n = Z.log2_up n.
Proof.
  intros Hn. unfold CeilLog2, Len64. destruct (n <=? 1) eqn:E; zbool.
  - by replace n with 1 by lia.
  - destruct (n - 1 =? 0) eqn:E2; zbool; [lia|].
    unfold Z.log2_up. destruct (Z.compare_spec 1 n); try lia.
    by replace (Z.pred n) with (n - 1) by lia.
Qed.

Lemma CeilLog2_half n : 2 <= n -> CeilLog2 n = 1 + CeilLog2 ((n + 1) / 2).
Proof.
  intros Hn. rewrite !CeilLog2_log2_up by (Z.div_mod_to_equations; lia).
  destruct (Z.Even_or_Odd n) as [[k Hk]|[k Hk]].
  - replace ((n + 1) / 2) with k by (Z.div_mod_to_equations; lia).
    rewrite Hk, Z.log2_up_double by lia. lia.
  - replace ((n + 1) / 2) with (k + 1) by (Z.div_mod_to_equations; lia).
    rewrite Hk, Z.log2_up_succ_double by lia.
    rewrite (Z.log2_up_eqn (k + 1)) by lia. unfold Z.succ.
    replace (Z.pred (k + 1)) with k by lia. lia.
Qed.

(** ** Lemmas: paths *)

Lemma path_step_ok cur i x :
  (1 < length cur)%nat -> cur !! i = Some x ->
  exists e, path_step cur (Z.of_nat i) = Ok e
            /\ next_level cur !! (i / 2)%nat = Some (fold_step x e).
Proof.
  intros Hn Hx. pose proof (lookup_lt_Some _ _ _ Hx) as Hi.
  unfold path_step. destruct (Z.of_nat i mod 2 =? 0) eqn:E; zbool.
  - assert (2 * (i / 2) = i)%nat as Hi2 by lia.
    destruct (Z.of_nat i + 1 <? Z.of_nat (length cur)) eqn:E2; zbool.
    + destruct (lookup_lt_is_Some_2 cur (i + 1)) as [y Hy]; [lia|].
      replace (Z.of_nat i + 1) with (Z.of_nat (i + 1)) by lia.
      rewrite (index_nat _ _ _ Hy). eexists; split; [done|].
      rewrite next_level_lookup, Hi2, Hx, Hy. done.
    + rewrite (index_nat _ _ _ Hx). eexists; split; [done|].
      rewrite next_level_lookup, Hi2, Hx.
      rewrite (lookup_ge_None_2 cur (i + 1)) by lia. done.
  - assert (2 * (i / 2) + 1 = i)%nat as Hi2 by lia.
    destruct (lookup_lt_is_Some_2 cur (2 * (i / 2))) as [y Hy]; [lia|].
    replace (Z.of_nat i - 1) with (Z.of_nat (2 * (i / 2))) by lia.
    rewrite (index_nat _ _ _ Hy). eexists; split; [done|].
    rewrite next_level_lookup, Hy, Hi2, Hx. done.
Qed.

Lemma path_loop_step cur l idx :
  path_loop (cur :: layers_of l) idx
  = let! e := path_step cur idx in let! p := path_loop (layers_of l) (idx / 2) in Ok (e :: p).
Proof. done. Qed.

Lemma path_loop_fold leaves : leaves <> [] -> forall i x, leaves !! i = Some x ->
  exists path root, path_loop (layers_of leaves) (Z.of_nat i) = Ok path
    /\ last (layers_of leaves) = Some [root]
    /\ Fold x path = root
    /\ Z.of_nat (length path) = CeilLog2 (Z.of_nat (length leaves)).
Proof.
  revert leaves. refine (level_ind _ _ _); [intros a i x Hx|intros l Hl IH i x Hx].
  - destruct i; [|done]. simplify_eq/=. by exists [], x.
  - destruct (path_step_ok l i x Hl Hx) as (e & He & Hup).
    destruct (IH _ _ Hup) as (path & root & Hp & Hr & Hf & Hlen).
    rewrite (layers_of_step l Hl), path_loop_step, He. cbn [rbind].
    replace (Z.of_nat i / 2) with (Z.of_nat (i / 2)) by (rewrite Nat2Z.inj_div; done).
    rewrite Hp. exists (e :: path), root. split_and!; [done|by rewrite last_cons, Hr|done|].
    cbn [length]. rewrite (CeilLog2_half (Z.of_nat (length l))) by lia.
    rewrite <- length_next_level. lia.
Qed.

Lemma MerklePath_ok leaves i x :
  leaves !! i = Some x ->
  exists path root, MerklePath (layers_of leaves) (Z.of_nat i) = Ok path
    /\ MerkleRoot leaves = Ok root /\ Fold x path = root
    /\ Z.of_nat (length path) = CeilLog2 (Z.of_nat (length leaves)).
Proof.
  intros Hx. pose proof (lookup_lt_Some _ _ _ Hx) as Hi.
  assert (leaves <> []) as Hne by (by intros ->).
  destruct (path_loop_fold leaves Hne i x Hx) as (path & root & Hp & Hr & Hf & Hl).
  exists path, root. split_and!; [|apply MerkleRoot_inv|done..].
  - unfold MerklePath, path_guard, layers_of. cbn beta iota.
    destruct ((Z.of_nat i <? 0) || _) eqn:E; [|done].
    apply orb_true_iff in E. destruct E; zbool; lia.
  - destruct (BuildMerkleTree_ok leaves Hne) as (r & Hr' & ->). by simplify_eq.
Qed.

Lemma path_into_loop layers idx dst :
  path_into layers idx dst = let! p := path_loop layers idx in Ok (dst ++ p).
Proof.
  revert idx dst. induction layers as [|cur rest IH]; intros idx dst.
  - simpl. by rewrite app_nil_r.
  - destruct rest as [|nxt rest]; [simpl; by rewrite app_nil_r|].
    change (path_into (cur :: nxt :: rest) idx dst)
      with (let! e := path_step cur idx in path_into (nxt :: rest) (idx / 2) (dst ++ [e])).
    change (path_loop (cur :: nxt :: rest) idx)
      with (let! e := path_step cur idx in
            let! p := path_loop (nxt :: rest) (idx / 2) in Ok (e :: p)).
    destruct (path_step cur idx) as [e| |]; [|done..]. cbn [rbind]. rewrite IH.
    destruct (path_loop (nxt :: rest) (idx / 2)); [|done..]. cbn [rbind]. by rewrite <- app_assoc.
Qed.

(** ** Lemmas: soundness *)

Lemma path_collision_sound path level node c :
  path_collision path level node = Some c -> is_collision c.
Proof.
  revert level node. induction path as [|e rest IH]; intros level node H; [done|].
  cbn [path_collision] in H.
  destruct (path_collision rest (next_level level) (fold_step node e)) eqn:E.
  { simplify_eq. by eapply IH. }
  destruct (filter _ _) as [|[x y] qs] eqn:Ef; [done|].
  destruct (step_pair node e) as [a b] eqn:Es. case_decide as Hd; [done|]. simplify_eq.
  assert ((x, y) ∈ filter (fun q => HashPair q.1 q.2 = fold_step node e) (level_pairs level))
    as Hin by (rewrite Ef; set_solver).
  apply list_elem_of_filter in Hin as [Hq _]. simpl in Hq.
  rewrite fold_step_pair, Es in Hq. split; simpl.
  - intros Hp. apply pair_bytes_inj in Hp as [-> ->]. by apply Hd.
  - unfold HashPair in Hq. by symmetry.
Qed.

Lemma path_sound level : level <> [] -> forall path node,
  Z.of_nat (length path) = CeilLog2 (Z.of_nat (length level)) ->
  last (layers_of level) = Some [Fold node path] ->
  node ∈ level \/ is_Some (path_collision path level node).
Proof.
  revert level. refine (level_ind _ _ _); [intros a path node Hp Hr|intros l Hl IH path node Hp Hr].
  - destruct path; [|simpl in Hp; change (CeilLog2 (Z.of_nat 1)) with 0 in Hp; lia].
    simpl in Hr. simplify_eq. left. set_solver.
  - rewrite (CeilLog2_half (Z.of_nat (length l))) in Hp by lia.
    rewrite <- length_next_level in Hp.
    assert (0 <= CeilLog2 (Z.of_nat (length (next_level l)))).
    { unfold CeilLog2, Len64. pose proof (Z.log2_nonneg (Z.of_nat (length (next_level l)) - 1)).
      repeat case_match; lia. }
    destruct path as [|e rest]; [simpl in Hp; lia|]. cbn [length] in Hp.
    rewrite (layers_of_step l Hl), last_cons in Hr.
    destruct (IH rest (fold_step node e)) as [Hin|[c Hc]]; [lia| | |].
    + destruct (last (layers_of (next_level l))) eqn:E; [done|].
      unfold layers_of in E. by rewrite last_cons in E; destruct (last _).
    + rewrite next_level_pairs in Hin. apply list_elem_of_fmap in Hin as ([x y] & Hxy & Hq).
      cbn [path_collision]. destruct (path_collision rest _ _); [by right; eauto|].
      destruct (filter _ _) as [|[x' y'] qs] eqn:Ef.
      { assert ((x, y) ∈ ([] : list (Hash * Hash))) as Hn; [|set_solver].
        rewrite <- Ef. apply list_elem_of_filter. done. }
      assert ((x', y') ∈ level_pairs l) as Hq'.
      { eapply (proj2 (A := HashPair x' y' = fold_step node e)).
        apply (list_elem_of_filter (fun q => HashPair q.1 q.2 = fold_step node e) _ (x', y')).
        rewrite Ef. set_solver. }
      apply level_pairs_elem in Hq' as [Hx' Hy']. simpl in Hx', Hy'.
      unfold step_pair. destruct (Right e); case_decide; simplify_eq; eauto.
    + right. cbn [path_collision]. rewrite Hc. eauto.
Qed.

(** ** Properties *)

(** C3: for every leaf of a non-empty list, [BuildMerkleTree] and [MerklePath]
    succeed and folding the leaf along the returned sibling path gives the
    Merkle root; the path has exactly [CeilLog2] of the number of leaves
    elements. *)
Theorem merkle_path_complete (leaves : list Hash) (i : nat) (x : Hash) :
  leaves !! i = Some x ->
  exists root layers path,
    BuildMerkleTree leaves = Ok (root, layers)
    /\ MerklePath layers (Z.of_nat i) = Ok path
    /\ Fold x path = root
    /\ Z.of_nat (length path) = CeilLog2 (Z.of_nat (length leaves)).
Proof.
  intros Hx. destruct (MerklePath_ok leaves i x Hx) as (path & root & Hp & Hr & Hf & Hl).
  exists root, (layers_of leaves), path. apply MerkleRoot_inv in Hr. done.
Qed.

(** C4: soundness of the fold.  If a path of the tree's depth takes a node to
    the Merkle root of [leaves], then the node is one of the leaves, or
    [path_collision] returns two different byte strings with the same SHA-256d
    digest. *)
Theorem merkle_path_sound (leaves : list Hash) (root node : Hash) (path : list PathElem) :
  MerkleRoot leaves = Ok root ->
  Z.of_nat (length path) = CeilLog2 (Z.of_nat (length leaves)) ->
  Fold node path = root ->
  node ∈ leaves
  \/ exists c, path_collision path leaves node = Some c /\ is_collision c.
Proof.
  intros Hr Hl Hf. apply MerkleRoot_inv, BuildMerkleTree_inv in Hr as (Hne & _ & Hlast).
  subst root. destruct (path_sound leaves Hne path node Hl Hlast) as [Hin|[c Hc]]; [by left|].
  right. exists c. eauto using path_collision_sound.
Qed.

(** [MerklePathInto] returns what [MerklePath] returns, whatever the buffer
    held before, on the same error and panic cases. *)
Lemma MerklePathInto_eq layers idx dst : MerklePathInto layers idx dst = MerklePath layers idx.
Proof.
  unfold MerklePathInto, MerklePath. destruct (path_guard layers idx); [done|].
  rewrite path_into_loop. by destruct (path_loop layers idx).
Qed.

Lemma next_level_dup l x :
  Nat.Odd (length l) -> last l = Some x -> next_level (l ++ [x]) = next_level l.
Proof.
  induction l as [|a|a b r IH] using pair_ind; intros Ho Hx.
  - done.
  - by simplify_eq/=.
  - cbn [app next_level]. f_equal. apply IH.
    + destruct Ho as [k Hk]. exists (k - 1)%nat. simpl in *. lia.
    + destruct r as [|c r]; [|by rewrite !last_cons_cons in Hx].
      destruct Ho as [k Hk]. simpl in Hk. lia.
Qed.

(** Bitcoin's duplication rule makes the root ambiguous: appending a copy of
    the last leaf to an odd list of more than one leaf keeps the root. *)
Theorem merkle_root_duplicate_tail (leaves : list Hash) (x : Hash) :
  Nat.Odd (length leaves) -> (1 < length leaves)%nat -> last leaves = Some x ->
  MerkleRoot (leaves ++ [x]) = MerkleRoot leaves.
Proof.
  intros Ho Hl Hx.
  assert (forall l r, last (layers_of l) = Some [r] -> l <> [] -> MerkleRoot l = Ok r) as Hroot.
  { intros l r Hr Hne. apply MerkleRoot_inv.
    destruct (BuildMerkleTree_ok l Hne) as (r' & Hr' & ->). by simplify_eq. }
  assert (leaves <> []) as Hne by (by intros ->).
  destruct (BuildMerkleTree_ok leaves Hne) as (r & Hr & _).
  rewrite (Hroot _ _ Hr Hne). apply Hroot; [|by destruct leaves].
  rewrite layers_of_step in Hr |- * by (rewrite ?length_app; simpl; lia).
  rewrite next_level_dup by done. unfold layers_of in *. by rewrite last_cons_cons in Hr |- *.
Qed.

(** A revealed transaction field is provable against the unified txid: for
    every field position of a field list that fits a Go slice, [MTxIDPath]
    returns the digest [LeafForField] recomputes, with a path that
    [VerifyMTxIDPath] accepts. *)
Theorem mtxid_path_verifies (fields : list FieldLeaf) (i : nat) (f : FieldLeaf) :
  fields !! i = Some f -> Z.of_nat (length fields) < 2 ^ 63 ->
  exists path mtxid layers,
    MTxIDPath fields (Z.of_nat i) = Ok (LeafForField f, path, mtxid)
    /\ BuildMTxID fields = Ok (mtxid, layers)
    /\ VerifyMTxIDPath (LeafForField f) path mtxid = true.
Proof.
  intros Hf Hlen. pose proof (lookup_lt_Some _ _ _ Hf) as Hi.
  assert ((leafHash <$> fields) !! i = Some (leafHash f)) as Hx by (by rewrite list_lookup_fmap, Hf).
  destruct (MerklePath_ok _ i _ Hx) as (path & root & Hp & Hr & Hfold & Hd).
  apply MerkleRoot_inv in Hr. exists path, root, (layers_of (leafHash <$> fields)).
  unfold MTxIDPath, BuildMTxID. rewrite (proj2 (Z.leb_gt _ _)) by lia.
  rewrite (proj2 (Z.eqb_neq _ _)) by lia. rewrite Hr. cbn [rbind]. rewrite Hp. cbn [rbind].
  rewrite (index_nat _ _ _ Hf). split_and!; [done..|].
  unfold VerifyMTxIDPath. rewrite Hd, length_fmap.
  destruct (MaxDepth <? _) eqn:E; [|by apply bool_decide_eq_true].
  exfalso. apply Z.ltb_lt in E. rewrite CeilLog2_log2_up in E by lia.
  assert (Z.log2_up (Z.of_nat (length fields)) <= 63).
  { apply Z.log2_up_le_pow2; lia. }
  unfold MaxDepth in E. lia.
Qed.

(** ** Witnesses *)

Definition demo_hash (n : Z) : Hash := DoubleSHA256 (be_bytes 4 n).
Definition demo_leaves : list Hash := demo_hash <$> [1; 2; 3].
Definition demo_root : Hash :=
  match MerkleRoot demo_leaves with Ok r => r | _ => zeroHash end.
Definition demo_path : list PathElem :=
  match BuildMerkleTree demo_leaves with
  | Ok (_, layers) => match MerklePath layers 2 with Ok p => p | _ => [] end
  | _ => []
  end.

Lemma merkle_path_complete_witness :
  exists root layers path,
    BuildMerkleTree demo_leaves = Ok (root, layers)
    /\ MerklePath layers (Z.of_nat 2) = Ok path
    /\ Fold (demo_hash 3) path = root
    /\ Z.of_nat (length path) = CeilLog2 (Z.of_nat (length demo_leaves)).
Proof. apply (merkle_path_complete demo_leaves 2 (demo_hash 3)). reflexivity. Defined.

Lemma merkle_path_sound_witness :
  demo_hash 3 ∈ demo_leaves
  \/ exists c, path_collision demo_path demo_leaves (demo_hash 3) = Some c /\ is_collision c.
Proof.
  apply (merkle_path_sound demo_leaves demo_root (demo_hash 3) demo_path); vm_compute; reflexivity.
Defined.

Lemma merkle_root_duplicate_tail_witness :
  MerkleRoot (demo_leaves ++ [demo_hash 3]) = MerkleRoot demo_leaves.
Proof.
  apply (merkle_root_duplicate_tail demo_leaves (demo_hash 3)).
  - exists 1%nat. reflexivity.
  - vm_compute. lia.
  - reflexivity.
Defined.

Definition demo_fields : list FieldLeaf :=
  [mkFieldLeaf 0 (be_bytes 4 1); mkFieldLeaf 1 (be_bytes 2 9); mkFieldLeaf 2 []].

Lemma mtxid_path_verifies_witness :
  exists path mtxid layers,
    MTxIDPath demo_fields (Z.of_nat 1)
      = Ok (LeafForField (mkFieldLeaf 1 (be_bytes 2 9)), path, mtxid)
    /\ BuildMTxID demo_fields = Ok (mtxid, layers)
    /\ VerifyMTxIDPath (LeafForField (mkFieldLeaf 1 (be_bytes 2 9))) path mtxid = true.
Proof.
  apply (mtxid_path_verifies demo_fields 1 (mkFieldLeaf 1 (be_bytes 2 9))); reflexivity.
Defined.
