(* ===== verification/Shard.v ===== *)
(** * shard: hash-prefix sharding and routing ([src/shard/shard.go])

    The shard of a hash is the value of its top [k] bits.  The theorems show
    that the [2^k] shards partition the hashes, that raising [k] by one splits
    each shard into exactly the two ids [Split] names, that the printed prefix
    is the leading bits of the hashes the shard owns, and when a router routes
    without a panic. *)

From stdpp Require Import base list strings.
From Stdlib Require Import ZArith Lia ZifyNat.
From Stdlib Require Strings.Byte.
From S2P Require Import Prelude Commitment.
Open Scope go_scope.

Definition MaxK : Z := 32.

(** [uint32(1) << k]: shifted out entirely at [k >= 32]. *)
Definition Count (k : Z) : Z := if k =? 0 then 1 else u32 (Z.shiftl 1 k).

Definition Of (h : Hash) (k : Z) : Z :=
  if k =? 0 then 0
  else
    let k := if MaxK <? k then MaxK else k in
    let v := be_Z (take 4 (abytes h)) in
    Z.shiftr v (32 - k).

Definition Owns (h : Hash) (k id : Z) : bool := Of h k =? id.

(** One byte per bit, most significant first. *)
Definition PrefixBits (k id : Z) : list byte :=
  if k =? 0 then []
  else (fun i => z2b (48 + Z.land (Z.shiftr id (k - 1 - i)) 1)) <$> seqZ 0 k.

Definition Split (id : Z) : Z * Z := (u32 (Z.shiftl id 1), Z.lor (u32 (Z.shiftl id 1)) 1).

Record Router : Type := mkRouter { K : Z; Servers : list string }.

Definition ErrTooWide : error := "shard: k exceeds MaxK"%string.
Definition ErrServers : error := "shard: wrong number of servers"%string.

Definition NewRouter (k : Z) (servers : list string) : result Router :=
  if MaxK <? k then Err ErrTooWide
  else if negb (u32 (Z.of_nat (length servers)) =? Count k) then Err ErrServers
  else Ok (mkRouter k servers).

Definition ShardFor (r : Router) (h : Hash) : Z := Of h (K r).
Definition ServerFor (r : Router) (h : Hash) : result string := index (Servers r) (Of h (K r)).

(** ** Lemmas *)

Definition top32 (h : Hash) : Z := be_Z (take 4 (abytes h)).

Lemma top32_range h : 0 <= top32 h < 2 ^ 32.
Proof.
  unfold top32. pose proof (be_Z_range (take 4 (abytes h))) as H.
  rewrite length_take, abytes_length in H. exact H.
Qed.

Lemma Of_div h k : 0 <= k <= 32 -> Of h k = top32 h / 2 ^ (32 - k).
Proof.
  intros Hk. unfold Of, MaxK. fold (top32 h). destruct (k =? 0) eqn:E; zbool.
  - subst. rewrite Z.div_small by apply top32_range. done.
  - rewrite (proj2 (Z.ltb_ge _ _)) by lia. by rewrite Z.shiftr_div_pow2 by lia.
Qed.

Lemma Of_bounds h k : 0 <= k <= 32 -> 0 <= Of h k < 2 ^ k.
Proof.
  intros Hk. rewrite Of_div by done. pose proof (top32_range h).
  assert (2 ^ 32 = 2 ^ k * 2 ^ (32 - k)) as E by (rewrite <- Z.pow_add_r by lia; f_equal; lia).
  assert (0 < 2 ^ (32 - k)) by (apply Z.pow_pos_nonneg; lia).
  split; [apply Z.div_pos; lia|]. apply Z.div_lt_upper_bound; lia.
Qed.

Lemma Of_halve h k : 0 <= k < 32 -> Of h k = Of h (k + 1) / 2.
Proof.
  intros Hk. rewrite !Of_div by lia. rewrite Z.div_div; [|lia..].
  - f_equal. replace (32 - k) with ((32 - (k + 1)) + 1) by lia. rewrite Z.pow_add_r by lia. lia.
Qed.

Lemma Split_val k id : 0 <= k < 32 -> 0 <= id < 2 ^ k -> Split id = (2 * id, 2 * id + 1).
Proof.
  intros Hk Hid. unfold Split. rewrite Z.shiftl_mul_pow2 by lia.
  assert (2 ^ k <= 2 ^ 31) by (apply Z.pow_le_mono_r; lia).
  rewrite u32_small by lia. f_equal; [lia|].
  replace (id * 2 ^ 1) with (2 * id) by lia. rewrite Z.lor_comm. 
  destruct id; [done| |lia]. done.
Qed.

(** ** Properties *)

(** The [2^k] shards partition the hashes: every hash has exactly one owner,
    and its id is below [2^k]. *)
Theorem shard_unique_owner (h : Hash) (k : Z) :
  0 <= k <= 32 ->
  exists id, 0 <= id < 2 ^ k /\ Owns h k id = true
             /\ forall id', Owns h k id' = true -> id' = id.
Proof.
  intros Hk. exists (Of h k). split; [by apply Of_bounds|]. unfold Owns.
  split; [apply Z.eqb_refl|]. intros id' H. by zbool.
Qed.

(** Elastic split: shard [id] at width [k] owns exactly the hashes owned at
    width [k+1] by one of the two distinct ids returned by [Split]. *)
Theorem shard_split (h : Hash) (k id : Z) :
  0 <= k < 32 -> 0 <= id < 2 ^ k ->
  let '(lo, hi) := Split id in
  lo <> hi /\ Owns h k id = xorb (Owns h (k + 1) lo) (Owns h (k + 1) hi)
  /\ (Owns h (k + 1) lo && Owns h (k + 1) hi)%bool = false.
Proof.
  intros Hk Hid. rewrite (Split_val k) by done. unfold Owns.
  rewrite (Of_halve h k) by lia. pose proof (Z.div_mod (Of h (k + 1)) 2 ltac:(lia)).
  pose proof (Z.mod_pos_bound (Of h (k + 1)) 2 ltac:(lia)).
  split; [lia|].
  destruct (Z.eqb_spec (Of h (k + 1) / 2) id), (Z.eqb_spec (Of h (k + 1)) (2 * id)),
    (Z.eqb_spec (Of h (k + 1)) (2 * id + 1)); simpl; split; try done; lia.
Qed.

(** The prefix string of the shard that owns [h] spells the leading [k] bits
    of [h]. *)
Theorem prefix_bits_leading (h : Hash) (k i : Z) :
  0 < k <= 32 -> 0 <= i < k ->
  PrefixBits k (Of h k) !! Z.to_nat i
  = Some (if Z.testbit (be_Z (take 4 (abytes h))) (31 - i) then Byte.x31 else Byte.x30).
Proof.
  intros Hk Hi. unfold PrefixBits. rewrite (proj2 (Z.eqb_neq _ _)) by lia.
  rewrite list_lookup_fmap, lookup_seqZ_lt by lia. simpl fmap. f_equal.
  rewrite Of_div, <- Z.shiftr_div_pow2 by lia.
  rewrite Z.shiftr_shiftr by lia. fold (top32 h).
  replace (32 - k + (k - 1 - (0 + Z.of_nat (Z.to_nat i)))) with (31 - i) by lia.
  change 1 with (Z.ones 1). rewrite Z.land_ones by lia. rewrite <- Z.bit0_mod, Z.shiftr_spec by lia.
  rewrite Z.add_0_l. by destruct (Z.testbit (top32 h) (31 - i)).
Qed.

(** Routing is total below the full width: a router accepted for [k < 32]
    serves every hash from the server of its shard. *)
Theorem router_total (k : Z) (servers : list string) (r : Router) (h : Hash) :
  0 <= k < 32 -> Z.of_nat (length servers) < 2 ^ 32 ->
  NewRouter k servers = Ok r ->
  Z.of_nat (length servers) = 2 ^ k /\
  exists addr, ServerFor r h = Ok addr /\ servers !! Z.to_nat (ShardFor r h) = Some addr.
Proof.
  intros Hk Hl H. unfold NewRouter, MaxK, Count in H.
  assert (2 ^ k < 2 ^ 32) as Hp by (apply Z.pow_lt_mono_r; lia).
  assert (0 < 2 ^ k) by (apply Z.pow_pos_nonneg; lia).
  assert ((if k =? 0 then 1 else u32 (Z.shiftl 1 k)) = 2 ^ k) as E.
  { destruct (k =? 0) eqn:E; zbool; [by subst|].
    rewrite Z.shiftl_mul_pow2 by lia. rewrite u32_small by lia. lia. }
  rewrite E, u32_small in H by lia.
  destruct (32 <? k) eqn:E1; [done|]. destruct (negb _) eqn:E2; [done|]. simplify_eq. zbool.
  split; [done|]. unfold ServerFor, ShardFor. simpl.
  pose proof (Of_bounds h k ltac:(lia)) as Hb.
  destruct (lookup_lt_is_Some_2 servers (Z.to_nat (Of h k))) as [a Ha]; [lia|].
  exists a. split; [|done]. apply index_ok. split; [lia|done].
Qed.

(** At the documented maximum width the shard count wraps to zero, so a router
    with no servers is accepted and every lookup panics. *)
Theorem router_max_width_wraps (h : Hash) :
  Count MaxK = 0 /\
  exists r, NewRouter MaxK [] = Ok r /\ ServerFor r h = Panic.
Proof.
  split; [done|]. exists (mkRouter 32 []). split; [done|].
  unfold ServerFor, index. simpl Servers. simpl K. by destruct (Of h 32 <? 0).
Qed.

(** ** Witnesses *)

Lemma shard_unique_owner_witness :
  exists id, 0 <= id < 2 ^ 3 /\ Owns (demo_hash 1) 3 id = true
             /\ forall id', Owns (demo_hash 1) 3 id' = true -> id' = id.
Proof. apply (shard_unique_owner (demo_hash 1) 3). lia. Defined.

Lemma shard_split_witness :
  let '(lo, hi) := Split 5 in
  lo <> hi /\ Owns (demo_hash 1) 3 5 = xorb (Owns (demo_hash 1) (3 + 1) lo) (Owns (demo_hash 1) (3 + 1) hi)
  /\ (Owns (demo_hash 1) (3 + 1) lo && Owns (demo_hash 1) (3 + 1) hi)%bool = false.
Proof. apply (shard_split (demo_hash 1) 3 5); lia. Defined.

Lemma prefix_bits_leading_witness :
  PrefixBits 5 (Of (demo_hash 1) 5) !! Z.to_nat 2
  = Some (if Z.testbit (be_Z (take 4 (abytes (demo_hash 1)))) (31 - 2) then Byte.x31 else Byte.x30).
Proof. apply (prefix_bits_leading (demo_hash 1) 5 2); lia. Defined.

Lemma router_total_witness :
  Z.of_nat (length ["a"; "b"]%string) = 2 ^ 1 /\
  exists addr, ServerFor (mkRouter 1 ["a"; "b"]%string) (demo_hash 1) = Ok addr
    /\ ["a"; "b"]%string !! Z.to_nat (ShardFor (mkRouter 1 ["a"; "b"]%string) (demo_hash 1)) = Some addr.
Proof.
  apply (router_total 1 ["a"; "b"]%string (mkRouter 1 ["a"; "b"]%string) (demo_hash 1)).
  - lia.
  - reflexivity.
  - reflexivity.
Defined.
