(* ===== verification/StoreSpec.v ===== *)
(** * store: records, the Store interface and its contract ([src/store/store.go])

    The records MemServe keeps, the [Store] interface as a type class of
    state-and-error operations, and the contract every backend promises to its
    clients.  The contract is a reference implementation [Flat] (one plain map
    per table, a spent output found by looking at it) together with
    [LawfulStore]: each operation of a lawful backend succeeds, keeps the
    backend's invariant and agrees with the same operation of [Flat] on the
    abstracted state.  [sim] carries that agreement through every client
    program built from the operations, so clients are verified on [Flat] and
    hold for each backend. *)

From stdpp Require Import base gmap list strings sets.
From Stdlib Require Import ZArith Lia ZifyNat.
From S2P Require Import Prelude Commitment.
Open Scope go_scope.

(** ** Records *)

Abbreviation Header := (array 80).

Record Outpoint : Type := mkOutpoint { op_TxID : Hash; op_Vout : Z }.

Record TxIndex : Type := mkTxIndex
  { ix_Mined : bool; ix_BlockHash : Hash; ix_Height : Z; ix_BlockTime : Z;
    ix_SubtreeIndex : Z; ix_LeafIndex : Z; ix_SeenTime : Z }.

Record UTXO : Type := mkUTXO
  { u_Value : Z; u_ScriptHash : Hash; u_Spent : bool; u_SpentBy : Hash; u_SpentHeight : Z }.

Record BlockRec : Type := mkBlockRec
  { br_Hash : Hash; br_Height : Z; br_Time : Z; br_MerkleRoot : Hash;
    br_SubtreeRoots : list Hash; br_Header : Header }.

Record Stats : Type := mkStats
  { st_TxIndex : Z; st_UTXOLive : Z; st_UTXOSpent : Z; st_Subtrees : Z; st_Blocks : Z;
    st_Headers : Z }.

#[global] Instance Outpoint_eq_dec : EqDecision Outpoint.
Proof. solve_decision. Defined.
#[global] Program Instance Outpoint_countable : Countable Outpoint :=
  inj_countable' (fun o => (op_TxID o, op_Vout o)) (fun p => mkOutpoint p.1 p.2) _.
Next Obligation. by intros []. Qed.
#[global] Instance TxIndex_eq_dec : EqDecision TxIndex.
Proof. solve_decision. Defined.
#[global] Instance UTXO_eq_dec : EqDecision UTXO.
Proof. solve_decision. Defined.
#[global] Instance BlockRec_eq_dec : EqDecision BlockRec.
Proof. solve_decision. Defined.

(** ** The interface *)

(** A missing key is [None] (Go: the zero value and [false]). *)
Class Store (S : Type) : Type := mkStore
  { PutTxIndex : Hash -> TxIndex -> M S unit;
    GetTxIndex : Hash -> M S (option TxIndex);
    PutUTXO : Outpoint -> UTXO -> M S unit;
    GetUTXO : Outpoint -> M S (option UTXO);
    SpendUTXO : Outpoint -> Hash -> Z -> M S bool;
    UnspendUTXO : Outpoint -> M S bool;
    DeleteUTXO : Outpoint -> M S bool;
    DeleteTxIndex : Hash -> M S bool;
    PutSubtree : Hash -> list Hash -> M S unit;
    GetSubtree : Hash -> M S (option (list Hash));
    PutBlock : BlockRec -> M S unit;
    GetBlock : Hash -> M S (option BlockRec);
    PutHeader : Z -> Header -> M S unit;
    GetHeader : Z -> M S (option Header);
    PruneSpentAtHeight : Z -> M S Z;
    PruneIndexAtHeight : Z -> M S Z }.

(** The operations as data, so that a contract covers all of them at once. *)
Inductive store_op : Type -> Type :=
| OPutTxIndex (txid : Hash) (ix : TxIndex) : store_op unit
| OGetTxIndex (txid : Hash) : store_op (option TxIndex)
| OPutUTXO (op : Outpoint) (u : UTXO) : store_op unit
| OGetUTXO (op : Outpoint) : store_op (option UTXO)
| OSpendUTXO (op : Outpoint) (by_ : Hash) (h : Z) : store_op bool
| OUnspendUTXO (op : Outpoint) : store_op bool
| ODeleteUTXO (op : Outpoint) : store_op bool
| ODeleteTxIndex (txid : Hash) : store_op bool
| OPutSubtree (root : Hash) (leaves : list Hash) : store_op unit
| OGetSubtree (root : Hash) : store_op (option (list Hash))
| OPutBlock (b : BlockRec) : store_op unit
| OGetBlock (h : Hash) : store_op (option BlockRec)
| OPutHeader (height : Z) (hdr : Header) : store_op unit
| OGetHeader (height : Z) : store_op (option Header)
| OPruneSpent (h : Z) : store_op Z
| OPruneIndex (h : Z) : store_op Z.

Definition run {S} `{Store S} {A} (o : store_op A) : M S A :=
  match o in store_op A return M S A with
  | OPutTxIndex t ix => PutTxIndex t ix
  | OGetTxIndex t => GetTxIndex t
  | OPutUTXO op u => PutUTXO op u
  | OGetUTXO op => GetUTXO op
  | OSpendUTXO op b h => SpendUTXO op b h
  | OUnspendUTXO op => UnspendUTXO op
  | ODeleteUTXO op => DeleteUTXO op
  | ODeleteTxIndex t => DeleteTxIndex t
  | OPutSubtree r l => PutSubtree r l
  | OGetSubtree r => GetSubtree r
  | OPutBlock b => PutBlock b
  | OGetBlock h => GetBlock h
  | OPutHeader n h => PutHeader n h
  | OGetHeader n => GetHeader n
  | OPruneSpent h => PruneSpentAtHeight h
  | OPruneIndex h => PruneIndexAtHeight h
  end.

(** ** The reference store *)

(** The records stored for one height (the depth-retention index). *)
Record heightEntry : Type := mkHeightEntry
  { he_block : Hash; he_hasBlock : bool; he_subtrees : list Hash; he_txids : list Hash }.
Definition emptyEntry : heightEntry := mkHeightEntry zeroHash false [] [].

Record Flat : Type := mkFlat
  { f_txindex : gmap Hash TxIndex;
    f_utxo : gmap Outpoint UTXO;
    f_subtree : gmap Hash (list Hash);
    f_blocks : gmap Hash BlockRec;
    f_hdr : gmap Z Header;
    f_hidx : gmap Z heightEntry }.

Definition flatEmpty : Flat := mkFlat ∅ ∅ ∅ ∅ ∅ ∅.

Definition set_txindex (m : gmap Hash TxIndex) (s : Flat) : Flat :=
  mkFlat m (f_utxo s) (f_subtree s) (f_blocks s) (f_hdr s) (f_hidx s).
Definition set_utxo (m : gmap Outpoint UTXO) (s : Flat) : Flat :=
  mkFlat (f_txindex s) m (f_subtree s) (f_blocks s) (f_hdr s) (f_hidx s).
Definition set_subtree (m : gmap Hash (list Hash)) (s : Flat) : Flat :=
  mkFlat (f_txindex s) (f_utxo s) m (f_blocks s) (f_hdr s) (f_hidx s).
Definition set_blocks (m : gmap Hash BlockRec) (s : Flat) : Flat :=
  mkFlat (f_txindex s) (f_utxo s) (f_subtree s) m (f_hdr s) (f_hidx s).
Definition set_hdr (m : gmap Z Header) (s : Flat) : Flat :=
  mkFlat (f_txindex s) (f_utxo s) (f_subtree s) (f_blocks s) m (f_hidx s).
Definition set_hidx (m : gmap Z heightEntry) (s : Flat) : Flat :=
  mkFlat (f_txindex s) (f_utxo s) (f_subtree s) (f_blocks s) (f_hdr s) m.

Definition spent_at (h : Z) (u : UTXO) : bool := u_Spent u && (u_SpentHeight u =? h).
Definition mark_spent (u : UTXO) (by_ : Hash) (h : Z) : UTXO :=
  mkUTXO (u_Value u) (u_ScriptHash u) true by_ h.
Definition mark_unspent (u : UTXO) : UTXO :=
  mkUTXO (u_Value u) (u_ScriptHash u) false zeroHash 0.

Definition entry_at (m : gmap Z heightEntry) (h : Z) : heightEntry := default emptyEntry (m !! h).
Definition add_txid (txid : Hash) (e : heightEntry) : heightEntry :=
  mkHeightEntry (he_block e) (he_hasBlock e) (he_subtrees e) (he_txids e ++ [txid]).
Definition set_entry_block (b : BlockRec) (e : heightEntry) : heightEntry :=
  mkHeightEntry (br_Hash b) true (br_SubtreeRoots b) (he_txids e).

Definition flat_put_txindex (txid : Hash) (ix : TxIndex) (s : Flat) : Flat :=
  let s' := set_txindex (<[txid := ix]> (f_txindex s)) s in
  if ix_Mined ix && negb (bool_decide (is_Some (f_txindex s !! txid)))
  then set_hidx (<[ix_Height ix := add_txid txid (entry_at (f_hidx s) (ix_Height ix))]> (f_hidx s)) s'
  else s'.

Definition flat_put_block (b : BlockRec) (s : Flat) : Flat :=
  set_hidx (<[br_Height b := set_entry_block b (entry_at (f_hidx s) (br_Height b))]> (f_hidx s))
    (set_blocks (<[br_Hash b := b]> (f_blocks s)) s).

(** Removes the keys of a list, counting those that were present. *)
Fixpoint delete_count {K V} `{Countable K} (ks : list K) (m : gmap K V) : gmap K V * Z :=
  match ks with
  | [] => (m, 0)
  | k :: r =>
      let '(m', n) := delete_count r (delete k m) in
      (m', (if bool_decide (is_Some (m !! k)) then 1 else 0) + n)
  end.

Definition flat_prune_spent (h : Z) (s : Flat) : Z * Flat :=
  let dead := filter (fun p => spent_at h p.2 = true) (f_utxo s) in
  (Z.of_nat (size dead), set_utxo (filter (fun p => spent_at h p.2 = false) (f_utxo s)) s).

Definition flat_prune_index (h : Z) (s : Flat) : Z * Flat :=
  let e := entry_at (f_hidx s) h in
  let '(blocks, nb) := delete_count (if he_hasBlock e then [he_block e] else []) (f_blocks s) in
  let '(subs, ns) := delete_count (he_subtrees e) (f_subtree s) in
  let '(txs, nt) := delete_count (he_txids e) (f_txindex s) in
  let '(hdr, nh) := delete_count [h] (f_hdr s) in
  (nb + ns + nt + nh, mkFlat txs (f_utxo s) subs blocks hdr (delete h (f_hidx s))).

#[global] Instance flat_store : Store Flat :=
  {| PutTxIndex t ix := fun s => (Ok tt, flat_put_txindex t ix s);
     GetTxIndex t := fun s => (Ok (f_txindex s !! t), s);
     PutUTXO op u := fun s => (Ok tt, set_utxo (<[op := u]> (f_utxo s)) s);
     GetUTXO op := fun s => (Ok (f_utxo s !! op), s);
     SpendUTXO op b h := fun s =>
       match f_utxo s !! op with
       | None => (Ok false, s)
       | Some u => (Ok true, set_utxo (<[op := mark_spent u b h]> (f_utxo s)) s)
       end;
     UnspendUTXO op := fun s =>
       match f_utxo s !! op with
       | None => (Ok false, s)
       | Some u => (Ok true, set_utxo (<[op := mark_unspent u]> (f_utxo s)) s)
       end;
     DeleteUTXO op := fun s =>
       match f_utxo s !! op with
       | None => (Ok false, s)
       | Some _ => (Ok true, set_utxo (delete op (f_utxo s)) s)
       end;
     DeleteTxIndex t := fun s =>
       match f_txindex s !! t with
       | None => (Ok false, s)
       | Some _ => (Ok true, set_txindex (delete t (f_txindex s)) s)
       end;
     PutSubtree r l := fun s => (Ok tt, set_subtree (<[r := l]> (f_subtree s)) s);
     GetSubtree r := fun s => (Ok (f_subtree s !! r), s);
     PutBlock b := fun s => (Ok tt, flat_put_block b s);
     GetBlock h := fun s => (Ok (f_blocks s !! h), s);
     PutHeader n h := fun s => (Ok tt, set_hdr (<[n := h]> (f_hdr s)) s);
     GetHeader n := fun s => (Ok (f_hdr s !! n), s);
     PruneSpentAtHeight h := fun s => let '(n, s') := flat_prune_spent h s in (Ok n, s');
     PruneIndexAtHeight h := fun s => let '(n, s') := flat_prune_index h s in (Ok n, s') |}.

(** ** The contract *)

Class LawfulStore (S : Type) `{Store S} : Type := mkLawful
  { store_inv : S -> Prop;
    store_view : S -> Flat;
    store_law : forall A (o : store_op A) (s : S), store_inv s ->
      exists a s', run o s = (Ok a, s') /\ store_inv s' /\ run o (store_view s) = (Ok a, store_view s') }.

(** ** Simulation of client programs *)

Definition sim {S1 S2 A} (R : S1 -> S2 -> Prop) (m1 : M S1 A) (m2 : M S2 A) : Prop :=
  forall s1 s2, R s1 s2 ->
  exists r s1' s2', m1 s1 = (r, s1') /\ m2 s2 = (r, s2') /\ R s1' s2'.

Section simulation.
Context {S1 S2 : Type} (R : S1 -> S2 -> Prop).

Lemma sim_ret {A} (a : A) : sim R (mret a) (mret a).
Proof. intros s1 s2 H. by eexists _, _, _. Qed.

Lemma sim_err {A} e : sim R (merr (A := A) e) (merr e).
Proof. intros s1 s2 H. by eexists _, _, _. Qed.

Lemma sim_lift {A} (r : result A) : sim R (mlift r) (mlift r).
Proof. intros s1 s2 H. by eexists _, _, _. Qed.

Lemma sim_bind {A B} (m1 : M S1 A) (m2 : M S2 A) (k1 : A -> M S1 B) (k2 : A -> M S2 B) :
  sim R m1 m2 -> (forall a, sim R (k1 a) (k2 a)) -> sim R (mbind m1 k1) (mbind m2 k2).
Proof.
  intros Hm Hk s1 s2 H. destruct (Hm s1 s2 H) as (r & s1' & s2' & E1 & E2 & H').
  unfold mbind. rewrite E1, E2. destruct r; [by apply Hk|by eexists _, _, _..].
Qed.

Lemma sim_for_each {A} (f1 : A -> M S1 unit) (f2 : A -> M S2 unit) l :
  (forall x, sim R (f1 x) (f2 x)) -> sim R (for_each f1 l) (for_each f2 l).
Proof.
  intros Hf. induction l as [|x r IH]; simpl; [apply sim_ret|].
  apply sim_bind; [apply Hf|by intros []].
Qed.

Lemma sim_for_each_from {A} (f1 : Z -> A -> M S1 unit) (f2 : Z -> A -> M S2 unit) l i :
  (forall i x, sim R (f1 i x) (f2 i x)) -> sim R (for_each_from f1 i l) (for_each_from f2 i l).
Proof.
  intros Hf. revert i. induction l as [|x r IH]; intros i; simpl; [apply sim_ret|].
  apply sim_bind; [apply Hf|by intros []].
Qed.
Lemma sim_try {A} (m1 : M S1 A) (m2 : M S2 A) : sim R m1 m2 -> sim R (mtry m1) (mtry m2).
Proof.
  intros Hm s1 s2 H. destruct (Hm s1 s2 H) as (r & s1' & s2' & E1 & E2 & H').
  unfold mtry. rewrite E1, E2. destruct r; by eexists _, _, _.
Qed.

(** The relation on a state that carries a component both sides share. *)
Definition rel1 (T : Type) (p : S1 * T) (q : S2 * T) : Prop := R p.1 q.1 /\ p.2 = q.2.

Lemma sim_on1 {T A} (m1 : M S1 A) (m2 : M S2 A) : sim R m1 m2 -> sim (rel1 T) (on1 m1) (on1 m2).
Proof.
  intros Hm [s1 t] [s2 u] [H Ht]. simpl in *. subst u.
  destruct (Hm s1 s2 H) as (r & s1' & s2' & E1 & E2 & H').
  unfold on1. simpl. rewrite E1, E2. by eexists _, _, _.
Qed.

Lemma sim_on2 {T A} (m : M T A) : sim (rel1 T) (on2 m) (on2 m).
Proof.
  intros [s1 t] [s2 u] [H Ht]. simpl in *. subst u. unfold on2. simpl.
  destruct (m t) as [r t']. by eexists _, _, _.
Qed.
End simulation.

Create HintDb sim.
#[export] Hint Resolve sim_ret sim_err sim_lift sim_bind sim_for_each sim_for_each_from
  sim_try sim_on1 sim_on2 : sim.

(** The same agreement at one state of the second program, for operations
    that agree only where their preconditions hold. *)
Definition sim_at {S1 S2 A} (R : S1 -> S2 -> Prop) (m1 : M S1 A) (m2 : M S2 A) (s2 : S2) : Prop :=
  forall s1, R s1 s2 -> exists r s1' s2', m1 s1 = (r, s1') /\ m2 s2 = (r, s2') /\ R s1' s2'.

Section pointwise.
Context {S1 S2 : Type} (R : S1 -> S2 -> Prop).

Lemma sim_at_sim {A} (m1 : M S1 A) (m2 : M S2 A) s2 : sim R m1 m2 -> sim_at R m1 m2 s2.
Proof. intros Hm s1. apply Hm. Qed.

Lemma sim_at_bind {A B} (m1 : M S1 A) (m2 : M S2 A) (k1 : A -> M S1 B) (k2 : A -> M S2 B) s2 :
  sim_at R m1 m2 s2 -> (forall a s2', m2 s2 = (Ok a, s2') -> sim_at R (k1 a) (k2 a) s2') ->
  sim_at R (mbind m1 k1) (mbind m2 k2) s2.
Proof.
  intros Hm Hk s1 H. destruct (Hm s1 H) as (r & s1' & s2' & E1 & E2 & H').
  unfold mbind. rewrite E1, E2. destruct r; [by apply Hk|by eexists _, _, _..].
Qed.

(** A loop, with an invariant on the elements left and the state. *)
Lemma sim_at_for_each {A} (I : list A -> S2 -> Prop) (f1 : A -> M S1 unit) (f2 : A -> M S2 unit) l s2 :
  (forall x rest s, I (x :: rest) s ->
     sim_at R (f1 x) (f2 x) s /\ forall s', f2 x s = (Ok tt, s') -> I rest s') ->
  I l s2 -> sim_at R (for_each f1 l) (for_each f2 l) s2.
Proof.
  intros Hf. revert s2. induction l as [|x rest IH]; intros s2 HI.
  - apply sim_at_sim, sim_ret.
  - destruct (Hf x rest s2 HI) as [Hx Hn]. cbn [for_each]. apply sim_at_bind; [exact Hx|].
    intros [] s' E. apply IH, Hn, E.
Qed.

Lemma sim_at_on1 {T A} (m1 : M S1 A) (m2 : M S2 A) (s2 : S2) (t : T) :
  sim_at R m1 m2 s2 -> sim_at (rel1 R T) (on1 m1) (on1 m2) (s2, t).
Proof.
  intros Hm [s1 u] [H Ht]. simpl in *. subst u.
  destruct (Hm s1 H) as (r & s1' & s2' & E1 & E2 & H').
  unfold on1. simpl. rewrite E1, E2. by eexists _, _, _.
Qed.
End pointwise.

(** What a backend promises of the operations [ok] admits: they agree with
    those of the second store whatever the state. *)
Class SimStore {S1 S2 : Type} `{Store S1} `{Store S2} (R : S1 -> S2 -> Prop)
    (ok : forall A, store_op A -> Prop) : Prop :=
  sim_ok : forall A (o : store_op A), ok A o -> sim R (run (S := S1) o) (run (S := S2) o).

Definition any_op (A : Type) (o : store_op A) : Prop := True.
#[export] Hint Unfold any_op : sim.

(** A lawful backend next to the reference store it abstracts to. *)
Definition store_rel {S} `{LawfulStore S} (s : S) (f : Flat) : Prop :=
  store_inv s /\ store_view s = f.

Section lawful.
Context {S : Type} `{LawfulStore S}.

Lemma sim_op {A} (o : store_op A) : sim store_rel (run o) (run (S := Flat) o).
Proof.
  intros s f [Hi <-]. destruct (store_law A o s Hi) as (a & s' & E & Hi' & E').
  by eexists _, _, _.
Qed.

#[export] Instance lawful_sim : SimStore store_rel any_op.
Proof. intros A o _. apply sim_op. Qed.

(** The same agreement, one instance per interface method. *)
Lemma sim_PutTxIndex t ix : sim store_rel (PutTxIndex t ix) (PutTxIndex t ix).
Proof. apply (sim_op (OPutTxIndex t ix)). Qed.
Lemma sim_GetTxIndex t : sim store_rel (GetTxIndex t) (GetTxIndex t).
Proof. apply (sim_op (OGetTxIndex t)). Qed.
Lemma sim_PutUTXO op u : sim store_rel (PutUTXO op u) (PutUTXO op u).
Proof. apply (sim_op (OPutUTXO op u)). Qed.
Lemma sim_GetUTXO op : sim store_rel (GetUTXO op) (GetUTXO op).
Proof. apply (sim_op (OGetUTXO op)). Qed.
Lemma sim_SpendUTXO op b h : sim store_rel (SpendUTXO op b h) (SpendUTXO op b h).
Proof. apply (sim_op (OSpendUTXO op b h)). Qed.
Lemma sim_UnspendUTXO op : sim store_rel (UnspendUTXO op) (UnspendUTXO op).
Proof. apply (sim_op (OUnspendUTXO op)). Qed.
Lemma sim_DeleteUTXO op : sim store_rel (DeleteUTXO op) (DeleteUTXO op).
Proof. apply (sim_op (ODeleteUTXO op)). Qed.
Lemma sim_DeleteTxIndex t : sim store_rel (DeleteTxIndex t) (DeleteTxIndex t).
Proof. apply (sim_op (ODeleteTxIndex t)). Qed.
Lemma sim_PutSubtree r l : sim store_rel (PutSubtree r l) (PutSubtree r l).
Proof. apply (sim_op (OPutSubtree r l)). Qed.
Lemma sim_GetSubtree r : sim store_rel (GetSubtree r) (GetSubtree r).
Proof. apply (sim_op (OGetSubtree r)). Qed.
Lemma sim_PutBlock b : sim store_rel (PutBlock b) (PutBlock b).
Proof. apply (sim_op (OPutBlock b)). Qed.
Lemma sim_GetBlock h : sim store_rel (GetBlock h) (GetBlock h).
Proof. apply (sim_op (OGetBlock h)). Qed.
Lemma sim_PutHeader n h : sim store_rel (PutHeader n h) (PutHeader n h).
Proof. apply (sim_op (OPutHeader n h)). Qed.
Lemma sim_GetHeader n : sim store_rel (GetHeader n) (GetHeader n).
Proof. apply (sim_op (OGetHeader n)). Qed.
Lemma sim_PruneSpentAtHeight h : sim store_rel (PruneSpentAtHeight h) (PruneSpentAtHeight h).
Proof. apply (sim_op (OPruneSpent h)). Qed.
Lemma sim_PruneIndexAtHeight h : sim store_rel (PruneIndexAtHeight h) (PruneIndexAtHeight h).
Proof. apply (sim_op (OPruneIndex h)). Qed.
End lawful.

#[export] Hint Resolve sim_PutTxIndex sim_GetTxIndex sim_PutUTXO sim_GetUTXO sim_SpendUTXO
  sim_UnspendUTXO sim_DeleteUTXO sim_DeleteTxIndex sim_PutSubtree sim_GetSubtree sim_PutBlock
  sim_GetBlock sim_PutHeader sim_GetHeader sim_PruneSpentAtHeight sim_PruneIndexAtHeight : sim.

(** The reference store is lawful for itself. *)
#[global] Program Instance flat_lawful : LawfulStore Flat :=
  {| store_inv := fun _ => True; store_view := fun s => s |}.
Next Obligation.
  intros A o s _. destruct o; simpl; try destruct (flat_prune_spent h s) eqn:?;
    try destruct (flat_prune_index h s) eqn:?; repeat case_match; simplify_eq; eauto.
Qed.

(** ** Lemmas on the reference store *)

Lemma delete_count_lookup {K V} `{Countable K} (ks : list K) (m : gmap K V) k :
  (delete_count ks m).1 !! k = if bool_decide (k ∈ ks) then None else m !! k.
Proof.
  revert m. induction ks as [|a r IH]; intros m; [done|].
  cbn [delete_count]. specialize (IH (delete a m)).
  destruct (delete_count r (delete a m)) as [m' n] eqn:E. simpl in *. rewrite IH.
  rewrite lookup_delete. repeat case_bool_decide; repeat case_decide; set_solver.
Qed.

Lemma delete_count_nonneg {K V} `{Countable K} (ks : list K) (m : gmap K V) :
  0 <= (delete_count ks m).2.
Proof.
  revert m. induction ks as [|a r IH]; intros m; [done|]. cbn [delete_count].
  specialize (IH (delete a m)). destruct (delete_count r (delete a m)). simpl in *.
  case_bool_decide; lia.
Qed.

(** Index retention at one height, table by table. *)
Lemma flat_prune_index_eq h f :
  let e := entry_at (f_hidx f) h in
  (flat_prune_index h f).2
  = mkFlat (delete_count (he_txids e) (f_txindex f)).1 (f_utxo f)
      (delete_count (he_subtrees e) (f_subtree f)).1
      (delete_count (if he_hasBlock e then [he_block e] else []) (f_blocks f)).1
      (delete_count [h] (f_hdr f)).1 (delete h (f_hidx f)).
Proof.
  unfold flat_prune_index. cbv zeta. set (e := entry_at (f_hidx f) h).
  by destruct (delete_count (if he_hasBlock e then [he_block e] else []) (f_blocks f)),
    (delete_count (he_subtrees e) (f_subtree f)), (delete_count (he_txids e) (f_txindex f)),
    (delete_count [h] (f_hdr f)).
Qed.

Lemma flat_prune_index_tx h f t :
  f_txindex (flat_prune_index h f).2 !! t
  = if bool_decide (t ∈ he_txids (entry_at (f_hidx f) h)) then None else f_txindex f !! t.
Proof. rewrite flat_prune_index_eq. apply delete_count_lookup. Qed.

Lemma flat_prune_index_count h f : 0 <= (flat_prune_index h f).1.
Proof.
  unfold flat_prune_index. set (e := entry_at (f_hidx f) h).
  pose proof (delete_count_nonneg (if he_hasBlock e then [he_block e] else []) (f_blocks f)).
  pose proof (delete_count_nonneg (he_subtrees e) (f_subtree f)).
  pose proof (delete_count_nonneg (he_txids e) (f_txindex f)).
  pose proof (delete_count_nonneg [h] (f_hdr f)).
  destruct (delete_count (if he_hasBlock e then [he_block e] else []) (f_blocks f)),
    (delete_count (he_subtrees e) (f_subtree f)), (delete_count (he_txids e) (f_txindex f)),
    (delete_count [h] (f_hdr f)). simpl in *. lia.
Qed.

(** The height index lists exactly the mined transactions of each height. *)
Definition hidx_ok (f : Flat) : Prop :=
  (forall t ix, f_txindex f !! t = Some ix -> ix_Mined ix = true ->
     t ∈ he_txids (entry_at (f_hidx f) (ix_Height ix)))
  /\ (forall h t ix, t ∈ he_txids (entry_at (f_hidx f) h) -> f_txindex f !! t = Some ix ->
     ix_Mined ix = true /\ ix_Height ix = h).

Lemma hidx_ok_empty : hidx_ok flatEmpty.
Proof. split; [by intros t ix ?|]. intros h t ix Hin. simpl in Hin. set_solver. Qed.

(** Indexing a transaction that is mined and new keeps the height index exact. *)
Lemma hidx_ok_put t ix f :
  hidx_ok f -> f_txindex f !! t = None -> ix_Mined ix = true ->
  (forall h, t ∉ he_txids (entry_at (f_hidx f) h)) ->
  hidx_ok (flat_put_txindex t ix f).
Proof.
  intros [H1 H2] Hn Hm Hf. unfold flat_put_txindex. rewrite Hm, Hn.
  rewrite bool_decide_eq_false_2 by (by intros []). simpl. split; simpl.
  - intros t' ix'. rewrite lookup_insert. unfold entry_at. rewrite lookup_insert.
    case_decide as Ht; [subst|]; intros E Hm'.
    + simplify_eq. rewrite decide_True by done. simpl. set_solver.
    + case_decide as Hh; [|by apply H1]. simpl. rewrite Hh.
      apply elem_of_app. left. by apply (H1 t' ix').
  - intros h t' ix'. unfold entry_at. rewrite !lookup_insert.
    case_decide as Hh; [subst|]; (case_decide as Ht; [subst|]); intros Hin E; simplify_eq; try done.
    + simpl in Hin. apply elem_of_app in Hin as [Hin|Hin]; [by apply (H2 _ t')|set_solver].
    + by destruct (Hf h).
    + by apply (H2 h t').
Qed.
