(* ===== verification/MemStore.v ===== *)
(** * store/mem: the striped in-memory backend ([src/store/mem/mem.go])

    256 stripes selected by the first byte of the key hash, each with its own
    maps and a secondary index of spent outpoints by spend height; headers and
    the height index are global.  [mem_inv] is the data-structure invariant;
    the refinement theorem shows that every operation keeps it, never fails and
    agrees with the reference store of [StoreSpec], whose state is the union of
    the stripes.  Each method is modelled as one atomic step (the Go code takes
    the stripe lock, and the height-index lock, inside the method). *)

From stdpp Require Import base gmap list strings.
From Stdlib Require Import ZArith Lia ZifyNat.
From S2P Require Import Prelude Commitment StoreSpec.
Open Scope go_scope.

(** ** State *)

Definition stripeCount : nat := 256.

Record stripe : Type := mkStripe
  { s_txindex : gmap Hash TxIndex;
    s_utxo : gmap Outpoint UTXO;
    s_subtree : gmap Hash (list Hash);
    s_blocks : gmap Hash BlockRec;
    s_spentIdx : gmap Z (gset Outpoint) }.

Definition newStripe : stripe := mkStripe ∅ ∅ ∅ ∅ ∅.

Record MemStore : Type := mkMem
  { m_st : list stripe; m_hdr : gmap Z Header; m_hidx : gmap Z heightEntry }.

Definition New : MemStore := mkMem (replicate stripeCount newStripe) ∅ ∅.

Definition striperOf (h : Hash) : nat :=
  match abytes h with b :: _ => Z.to_nat (b2z b) | [] => 0%nat end.

Definition get_stripe (s : MemStore) (h : Hash) : stripe :=
  default newStripe (m_st s !! striperOf h).
Definition put_stripe (h : Hash) (st : stripe) (s : MemStore) : MemStore :=
  mkMem (<[striperOf h := st]> (m_st s)) (m_hdr s) (m_hidx s).

Definition with_txindex (m : gmap Hash TxIndex) (st : stripe) : stripe :=
  mkStripe m (s_utxo st) (s_subtree st) (s_blocks st) (s_spentIdx st).
Definition with_utxo (m : gmap Outpoint UTXO) (st : stripe) : stripe :=
  mkStripe (s_txindex st) m (s_subtree st) (s_blocks st) (s_spentIdx st).
Definition with_subtree (m : gmap Hash (list Hash)) (st : stripe) : stripe :=
  mkStripe (s_txindex st) (s_utxo st) m (s_blocks st) (s_spentIdx st).
Definition with_blocks (m : gmap Hash BlockRec) (st : stripe) : stripe :=
  mkStripe (s_txindex st) (s_utxo st) (s_subtree st) m (s_spentIdx st).
Definition with_spentIdx (m : gmap Z (gset Outpoint)) (st : stripe) : stripe :=
  mkStripe (s_txindex st) (s_utxo st) (s_subtree st) (s_blocks st) m.

(** ** Operations *)

Definition indexSpent (op : Outpoint) (h : Z) (st : stripe) : stripe :=
  let set := default ∅ (s_spentIdx st !! h) in
  with_spentIdx (<[h := {[op]} ∪ set]> (s_spentIdx st)) st.

Definition deindexSpent (op : Outpoint) (h : Z) (st : stripe) : stripe :=
  match s_spentIdx st !! h with
  | None => st
  | Some set =>
      let set' := set ∖ {[op]} in
      if bool_decide (set' = ∅) then with_spentIdx (delete h (s_spentIdx st)) st
      else with_spentIdx (<[h := set']> (s_spentIdx st)) st
  end.

Definition mem_PutTxIndex (txid : Hash) (ix : TxIndex) (s : MemStore) : MemStore :=
  let st := get_stripe s txid in
  let existed := bool_decide (is_Some (s_txindex st !! txid)) in
  let s' := put_stripe txid (with_txindex (<[txid := ix]> (s_txindex st)) st) s in
  if ix_Mined ix && negb existed then
    let e := default emptyEntry (m_hidx s' !! ix_Height ix) in
    mkMem (m_st s') (m_hdr s') (<[ix_Height ix := add_txid txid e]> (m_hidx s'))
  else s'.

Definition mem_PutUTXO (op : Outpoint) (u : UTXO) (s : MemStore) : MemStore :=
  let st := get_stripe s (op_TxID op) in
  let st' := with_utxo (<[op := u]> (s_utxo st)) st in
  put_stripe (op_TxID op) (if u_Spent u then indexSpent op (u_SpentHeight u) st' else st') s.

Definition mem_SpendUTXO (op : Outpoint) (spentBy : Hash) (spentHeight : Z) (s : MemStore)
  : bool * MemStore :=
  let st := get_stripe s (op_TxID op) in
  match s_utxo st !! op with
  | None => (false, s)
  | Some u =>
      let st' := with_utxo (<[op := mark_spent u spentBy spentHeight]> (s_utxo st)) st in
      (true, put_stripe (op_TxID op) (indexSpent op spentHeight st') s)
  end.

Definition mem_UnspendUTXO (op : Outpoint) (s : MemStore) : bool * MemStore :=
  let st := get_stripe s (op_TxID op) in
  match s_utxo st !! op with
  | None => (false, s)
  | Some u =>
      let st' := if u_Spent u then deindexSpent op (u_SpentHeight u) st else st in
      (true, put_stripe (op_TxID op) (with_utxo (<[op := mark_unspent u]> (s_utxo st')) st') s)
  end.

Definition mem_DeleteUTXO (op : Outpoint) (s : MemStore) : bool * MemStore :=
  let st := get_stripe s (op_TxID op) in
  match s_utxo st !! op with
  | None => (false, s)
  | Some u =>
      let st' := if u_Spent u then deindexSpent op (u_SpentHeight u) st else st in
      (true, put_stripe (op_TxID op) (with_utxo (delete op (s_utxo st')) st') s)
  end.

Definition mem_DeleteTxIndex (txid : Hash) (s : MemStore) : bool * MemStore :=
  let st := get_stripe s txid in
  match s_txindex st !! txid with
  | None => (false, s)
  | Some _ => (true, put_stripe txid (with_txindex (delete txid (s_txindex st)) st) s)
  end.

Definition mem_PutSubtree (root : Hash) (leaves : list Hash) (s : MemStore) : MemStore :=
  let st := get_stripe s root in
  put_stripe root (with_subtree (<[root := leaves]> (s_subtree st)) st) s.

Definition mem_PutBlock (b : BlockRec) (s : MemStore) : MemStore :=
  let st := get_stripe s (br_Hash b) in
  let s' := put_stripe (br_Hash b) (with_blocks (<[br_Hash b := b]> (s_blocks st)) st) s in
  let e := default emptyEntry (m_hidx s' !! br_Height b) in
  mkMem (m_st s') (m_hdr s') (<[br_Height b := set_entry_block b e]> (m_hidx s')).

Definition mem_PutHeader (height : Z) (hdr : Header) (s : MemStore) : MemStore :=
  mkMem (m_st s) (<[height := hdr]> (m_hdr s)) (m_hidx s).

(** [for op := range set]: the order is unspecified in Go; any listing of the
    set gives the same result (see [prune_ops_spec]). *)
Fixpoint prune_ops (h : Z) (ops : list Outpoint) (m : gmap Outpoint UTXO)
  : Z * gmap Outpoint UTXO :=
  match ops with
  | [] => (0, m)
  | op :: r =>
      match m !! op with
      | Some u =>
          if u_Spent u && (u_SpentHeight u =? h)
          then let '(n, m') := prune_ops h r (delete op m) in (1 + n, m')
          else prune_ops h r m
      | None => prune_ops h r m
      end
  end.

Definition prune_stripe (h : Z) (st : stripe) : Z * stripe :=
  match s_spentIdx st !! h with
  | None => (0, st)
  | Some set =>
      let '(n, m) := prune_ops h (elements set) (s_utxo st) in
      (n, with_spentIdx (delete h (s_spentIdx st)) (with_utxo m st))
  end.

Fixpoint prune_stripes (h : Z) (sts : list stripe) : Z * list stripe :=
  match sts with
  | [] => (0, [])
  | st :: r =>
      let '(n, st') := prune_stripe h st in
      let '(n', r') := prune_stripes h r in
      (n + n', st' :: r')
  end.

Definition mem_PruneSpentAtHeight (h : Z) (s : MemStore) : Z * MemStore :=
  let '(n, sts) := prune_stripes h (m_st s) in (n, mkMem sts (m_hdr s) (m_hidx s)).

(** Deletes one record if present, counting it. *)
Definition drop_block (b : Hash) (s : MemStore) : Z * MemStore :=
  let st := get_stripe s b in
  match s_blocks st !! b with
  | Some _ => (1, put_stripe b (with_blocks (delete b (s_blocks st)) st) s)
  | None => (0, s)
  end.
Definition drop_subtree (r : Hash) (s : MemStore) : Z * MemStore :=
  let st := get_stripe s r in
  match s_subtree st !! r with
  | Some _ => (1, put_stripe r (with_subtree (delete r (s_subtree st)) st) s)
  | None => (0, s)
  end.
Definition drop_txindex (t : Hash) (s : MemStore) : Z * MemStore :=
  let st := get_stripe s t in
  match s_txindex st !! t with
  | Some _ => (1, put_stripe t (with_txindex (delete t (s_txindex st)) st) s)
  | None => (0, s)
  end.

Fixpoint drop_all (f : Hash -> MemStore -> Z * MemStore) (ks : list Hash) (s : MemStore)
  : Z * MemStore :=
  match ks with
  | [] => (0, s)
  | k :: r =>
      let '(n, s1) := f k s in
      let '(n', s2) := drop_all f r s1 in
      (n + n', s2)
  end.

Definition mem_PruneIndexAtHeight (h : Z) (s : MemStore) : Z * MemStore :=
  let e := m_hidx s !! h in
  let s0 := mkMem (m_st s) (m_hdr s) (delete h (m_hidx s)) in
  let '(n, s1) :=
    match e with
    | None => (0, s0)
    | Some e =>
        let '(nb, sb) := if he_hasBlock e then drop_block (he_block e) s0 else (0, s0) in
        let '(ns, ss) := drop_all drop_subtree (he_subtrees e) sb in
        let '(nt, st) := drop_all drop_txindex (he_txids e) ss in
        (nb + ns + nt, st)
    end in
  match m_hdr s1 !! h with
  | Some _ => (n + 1, mkMem (m_st s1) (delete h (m_hdr s1)) (m_hidx s1))
  | None => (n, s1)
  end.

(** [Stats]: sums over the stripes. *)
Definition stripe_stats (out : Stats) (st : stripe) : Stats :=
  let spent := size (filter (fun p => u_Spent p.2 = true) (s_utxo st)) in
  let live := size (filter (fun p => u_Spent p.2 = false) (s_utxo st)) in
  mkStats (st_TxIndex out + Z.of_nat (size (s_txindex st)))
    (st_UTXOLive out + Z.of_nat live) (st_UTXOSpent out + Z.of_nat spent)
    (st_Subtrees out + Z.of_nat (size (s_subtree st)))
    (st_Blocks out + Z.of_nat (size (s_blocks st))) (st_Headers out).
Definition mem_Stats (s : MemStore) : Stats :=
  let out := foldl stripe_stats (mkStats 0 0 0 0 0 0) (m_st s) in
  mkStats (st_TxIndex out) (st_UTXOLive out) (st_UTXOSpent out) (st_Subtrees out) (st_Blocks out)
    (Z.of_nat (size (m_hdr s))).

#[global] Instance mem_store : Store MemStore :=
  {| PutTxIndex t ix := fun s => (Ok tt, mem_PutTxIndex t ix s);
     GetTxIndex t := fun s => (Ok (s_txindex (get_stripe s t) !! t), s);
     PutUTXO op u := fun s => (Ok tt, mem_PutUTXO op u s);
     GetUTXO op := fun s => (Ok (s_utxo (get_stripe s (op_TxID op)) !! op), s);
     SpendUTXO op b h := fun s => let '(r, s') := mem_SpendUTXO op b h s in (Ok r, s');
     UnspendUTXO op := fun s => let '(r, s') := mem_UnspendUTXO op s in (Ok r, s');
     DeleteUTXO op := fun s => let '(r, s') := mem_DeleteUTXO op s in (Ok r, s');
     DeleteTxIndex t := fun s => let '(r, s') := mem_DeleteTxIndex t s in (Ok r, s');
     PutSubtree r l := fun s => (Ok tt, mem_PutSubtree r l s);
     GetSubtree r := fun s => (Ok (s_subtree (get_stripe s r) !! r), s);
     PutBlock b := fun s => (Ok tt, mem_PutBlock b s);
     GetBlock h := fun s => (Ok (s_blocks (get_stripe s h) !! h), s);
     PutHeader n h := fun s => (Ok tt, mem_PutHeader n h s);
     GetHeader n := fun s => (Ok (m_hdr s !! n), s);
     PruneSpentAtHeight h := fun s => let '(n, s') := mem_PruneSpentAtHeight h s in (Ok n, s');
     PruneIndexAtHeight h := fun s => let '(n, s') := mem_PruneIndexAtHeight h s in (Ok n, s') |}.

(** ** Abstraction and invariant *)

(** The table of one kind, over all stripes. *)
Definition table {K V} `{Countable K} (proj : stripe -> gmap K V) (sts : list stripe) : gmap K V :=
  ⋃ (proj <$> sts).

Definition mem_view (s : MemStore) : Flat :=
  mkFlat (table s_txindex (m_st s)) (table s_utxo (m_st s)) (table s_subtree (m_st s))
    (table s_blocks (m_st s)) (m_hdr s) (m_hidx s).

(** Keys of a stripe are tagged with its number. *)
Definition tagged {K V} `{Countable K} (proj : stripe -> gmap K V) (tag : K -> nat)
    (sts : list stripe) : Prop :=
  forall i st k, sts !! i = Some st -> is_Some (proj st !! k) -> tag k = i.

(** Every spent output of a stripe is listed under its spend height. *)
Definition spent_indexed (st : stripe) : Prop :=
  forall op u, s_utxo st !! op = Some u -> u_Spent u = true ->
  exists set, s_spentIdx st !! u_SpentHeight u = Some set /\ op ∈ set.

Definition op_tag (op : Outpoint) : nat := striperOf (op_TxID op).

Record mem_inv (s : MemStore) : Prop := mkMemInv
  { inv_len : length (m_st s) = stripeCount;
    inv_tx : tagged s_txindex striperOf (m_st s);
    inv_utxo : tagged s_utxo op_tag (m_st s);
    inv_sub : tagged s_subtree striperOf (m_st s);
    inv_blk : tagged s_blocks striperOf (m_st s);
    inv_spent : Forall spent_indexed (m_st s) }.

Lemma striperOf_lt h : (striperOf h < stripeCount)%nat.
Proof.
  unfold striperOf, stripeCount. destruct (abytes h) as [|b l]; [lia|].
  pose proof (b2z_range b). lia.
Qed.

(** ** Lemmas: tables *)

Section tables.
Context {K V : Type} `{Countable K} (proj : stripe -> gmap K V) (tag : K -> nat).

Lemma table_lookup_gen sts off k :
  (forall i st k, sts !! i = Some st -> is_Some (proj st !! k) -> tag k = (off + i)%nat) ->
  table proj sts !! k
  = if decide (off <= tag k)%nat then sts !! (tag k - off)%nat ≫= fun st => proj st !! k else None.
Proof.
  unfold table. revert off. induction sts as [|st r IH]; intros off Ht; cbn [fmap list_fmap union_list foldr].
  { rewrite lookup_empty. by case_decide. }
  rewrite lookup_union, (IH (S off)).
  2:{ intros i st' k' Hi Hk. specialize (Ht (S i) st' k' Hi Hk). lia. }
  destruct (proj st !! k) as [v|] eqn:E.
  - assert (tag k = off) as ->. { specialize (Ht 0%nat st k eq_refl). rewrite Ht by eauto. lia. }
    rewrite decide_False by lia. rewrite decide_True by lia. rewrite Nat.sub_diag. simpl. by rewrite E.
  - rewrite (left_id_L None _). repeat case_decide; try done; try lia.
    + by replace (tag k - off)%nat with (S (tag k - S off)) by lia.
    + replace (tag k - off)%nat with 0%nat by lia. simpl. by rewrite E.
Qed.

Lemma table_lookup sts k :
  tagged proj tag sts -> table proj sts !! k = sts !! tag k ≫= fun st => proj st !! k.
Proof.
  intros Ht. rewrite (table_lookup_gen sts 0 k) by exact Ht.
  rewrite decide_True by lia. by rewrite Nat.sub_0_r.
Qed.

Lemma tagged_insert sts i st :
  tagged proj tag sts -> (forall k, is_Some (proj st !! k) -> tag k = i) ->
  tagged proj tag (<[i := st]> sts).
Proof.
  intros Ht Hs j st' k Hj Hk. apply list_lookup_insert_Some in Hj as [(-> & <- & _)|[_ Hj]]; eauto.
Qed.

(** Replacing the stripe of [key] by one whose table is an insertion, a
    deletion, or unchanged. *)
Lemma table_update sts i st st' (f : gmap K V -> gmap K V) :
  tagged proj tag sts -> sts !! i = Some st ->
  proj st' = f (proj st) ->
  (forall m1 m2 k, tag k = i -> m1 !! k = m2 !! k -> f m1 !! k = f m2 !! k) ->
  (forall m k, tag k <> i -> f m !! k = m !! k) ->
  tagged proj tag (<[i := st']> sts) /\ table proj (<[i := st']> sts) = f (table proj sts).
Proof.
  intros Ht Hi Hp Hin Hout.
  assert (tagged proj tag (<[i := st']> sts)) as Ht'.
  { apply tagged_insert; [done|]. intros k Hk. rewrite Hp in Hk.
    destruct (decide (tag k = i)) as [|Hne]; [done|]. rewrite Hout in Hk by done. eauto. }
  split; [done|]. apply map_eq. intros k. rewrite table_lookup by done.
  destruct (decide (tag k = i)) as [Hk|Hk].
  - rewrite Hk, list_lookup_insert_eq by (by eapply lookup_lt_Some). simpl. rewrite Hp.
    apply Hin; [done|]. rewrite table_lookup by done. by rewrite Hk, Hi.
  - rewrite list_lookup_insert_ne by done. rewrite Hout by done. by rewrite table_lookup.
Qed.

Lemma table_same sts i st st' :
  tagged proj tag sts -> sts !! i = Some st -> proj st' = proj st ->
  tagged proj tag (<[i := st']> sts) /\ table proj (<[i := st']> sts) = table proj sts.
Proof. intros Ht Hi Hp. by apply (table_update sts i st st' (fun m => m)). Qed.

Lemma table_put sts i st st' key v :
  tagged proj tag sts -> sts !! i = Some st -> tag key = i ->
  proj st' = <[key := v]> (proj st) ->
  tagged proj tag (<[i := st']> sts) /\ table proj (<[i := st']> sts) = <[key := v]> (table proj sts).
Proof.
  intros Ht Hi Hk Hp. apply (table_update sts i st st' (fun m => <[key := v]> m)); [done..| |].
  - intros m1 m2 k _ E. rewrite !lookup_insert. by case_decide.
  - intros m k Hne. apply lookup_insert_ne. by intros ->.
Qed.

Lemma table_delete sts i st st' key :
  tagged proj tag sts -> sts !! i = Some st -> tag key = i ->
  proj st' = delete key (proj st) ->
  tagged proj tag (<[i := st']> sts) /\ table proj (<[i := st']> sts) = delete key (table proj sts).
Proof.
  intros Ht Hi Hk Hp. apply (table_update sts i st st' (fun m => delete key m)); [done..| |].
  - intros m1 m2 k _ E. rewrite !lookup_delete. by case_decide.
  - intros m k Hne. apply lookup_delete_ne. by intros ->.
Qed.
End tables.

(** ** Lemmas: one stripe *)

Lemma get_stripe_lookup s h : mem_inv s -> m_st s !! striperOf h = Some (get_stripe s h).
Proof.
  intros Hi. unfold get_stripe. pose proof (striperOf_lt h). 
  destruct (lookup_lt_is_Some_2 (m_st s) (striperOf h)) as [st ->]; [|done].
  rewrite inv_len by done. done.
Qed.

Definition listed (st : stripe) (op : Outpoint) (h : Z) : Prop :=
  exists set, s_spentIdx st !! h = Some set /\ op ∈ set.

Lemma indexSpent_listed op h st op' h' :
  listed st op' h' \/ (op' = op /\ h' = h) -> listed (indexSpent op h st) op' h'.
Proof.
  unfold listed, indexSpent, with_spentIdx. simpl. intros [(set & E & Hin)|[-> ->]].
  - rewrite lookup_insert. case_decide; [subst|by eauto].
    eexists; split; [done|]. rewrite E. set_solver.
  - rewrite lookup_insert_eq. eexists; split; [done|]. set_solver.
Qed.

Lemma deindexSpent_listed op h st op' h' :
  op' <> op -> listed st op' h' -> listed (deindexSpent op h st) op' h'.
Proof.
  unfold listed, deindexSpent, with_spentIdx. intros Hne (set & E & Hin).
  destruct (s_spentIdx st !! h) as [set0|] eqn:E0; [|eauto].
  destruct (decide (h' = h)) as [->|Hh].
  - simplify_eq. rewrite bool_decide_eq_false_2 by set_solver. simpl.
    rewrite lookup_insert_eq. eexists; split; [done|]. set_solver.
  - case_bool_decide; simpl.
    + rewrite lookup_delete_ne by done. eauto.
    + rewrite lookup_insert_ne by done. eauto.
Qed.

Lemma deindexSpent_same op h st :
  s_txindex (deindexSpent op h st) = s_txindex st /\ s_utxo (deindexSpent op h st) = s_utxo st
  /\ s_subtree (deindexSpent op h st) = s_subtree st /\ s_blocks (deindexSpent op h st) = s_blocks st.
Proof. unfold deindexSpent. repeat case_match; done. Qed.

(** ** Lemmas: replacing a stripe *)

Section replace.
Context (s : MemStore) (Hinv : mem_inv s) (h : Hash).
Abbreviation st := (get_stripe s h).

(** The new stripe agrees with the old one outside of one table. *)
Lemma replace_txindex (st' : stripe) (f : gmap Hash TxIndex -> gmap Hash TxIndex) :
  tagged s_txindex striperOf (<[striperOf h := st']> (m_st s))
    /\ table s_txindex (<[striperOf h := st']> (m_st s)) = f (table s_txindex (m_st s)) ->
  s_utxo st' = s_utxo st -> s_subtree st' = s_subtree st -> s_blocks st' = s_blocks st ->
  s_spentIdx st' = s_spentIdx st ->
  mem_inv (put_stripe h st' s)
  /\ mem_view (put_stripe h st' s) = set_txindex (f (f_txindex (mem_view s))) (mem_view s).
Proof using Hinv.
  intros [Ht Hv] Hu Hs Hb Hx. pose proof (get_stripe_lookup s h Hinv) as Hl.
  destruct Hinv as [Hlen _ Iu Is Ib Isp].
  destruct (table_same s_utxo op_tag _ _ _ _ Iu Hl Hu) as [Tu Vu].
  destruct (table_same s_subtree striperOf _ _ _ _ Is Hl Hs) as [Ts Vs].
  destruct (table_same s_blocks striperOf _ _ _ _ Ib Hl Hb) as [Tb Vb].
  split.
  - constructor; simpl; [by rewrite length_insert|done..|].
    apply Forall_insert; [done|]. pose proof (proj1 (Forall_lookup _ _) Isp _ _ Hl) as Hsp.
    intros op u. rewrite Hu, Hx. apply Hsp.
  - unfold mem_view, set_txindex. simpl. by rewrite Hv, Vu, Vs, Vb.
Qed.

Lemma replace_subtree (st' : stripe) (f : gmap Hash (list Hash) -> gmap Hash (list Hash)) :
  tagged s_subtree striperOf (<[striperOf h := st']> (m_st s))
    /\ table s_subtree (<[striperOf h := st']> (m_st s)) = f (table s_subtree (m_st s)) ->
  s_utxo st' = s_utxo st -> s_txindex st' = s_txindex st -> s_blocks st' = s_blocks st ->
  s_spentIdx st' = s_spentIdx st ->
  mem_inv (put_stripe h st' s)
  /\ mem_view (put_stripe h st' s) = set_subtree (f (f_subtree (mem_view s))) (mem_view s).
Proof using Hinv.
  intros [Ht Hv] Hu Hs Hb Hx. pose proof (get_stripe_lookup s h Hinv) as Hl.
  destruct Hinv as [Hlen Is Iu _ Ib Isp].
  destruct (table_same s_utxo op_tag _ _ _ _ Iu Hl Hu) as [Tu Vu].
  destruct (table_same s_txindex striperOf _ _ _ _ Is Hl Hs) as [Ts Vs].
  destruct (table_same s_blocks striperOf _ _ _ _ Ib Hl Hb) as [Tb Vb].
  split.
  - constructor; simpl; [by rewrite length_insert|done..|].
    apply Forall_insert; [done|]. pose proof (proj1 (Forall_lookup _ _) Isp _ _ Hl) as Hsp.
    intros op u. rewrite Hu, Hx. apply Hsp.
  - unfold mem_view, set_subtree. simpl. by rewrite Hv, Vu, Vs, Vb.
Qed.

Lemma replace_blocks (st' : stripe) (f : gmap Hash BlockRec -> gmap Hash BlockRec) :
  tagged s_blocks striperOf (<[striperOf h := st']> (m_st s))
    /\ table s_blocks (<[striperOf h := st']> (m_st s)) = f (table s_blocks (m_st s)) ->
  s_utxo st' = s_utxo st -> s_txindex st' = s_txindex st -> s_subtree st' = s_subtree st ->
  s_spentIdx st' = s_spentIdx st ->
  mem_inv (put_stripe h st' s)
  /\ mem_view (put_stripe h st' s) = set_blocks (f (f_blocks (mem_view s))) (mem_view s).
Proof using Hinv.
  intros [Ht Hv] Hu Hs Hb Hx. pose proof (get_stripe_lookup s h Hinv) as Hl.
  destruct Hinv as [Hlen Is Iu Ib _ Isp].
  destruct (table_same s_utxo op_tag _ _ _ _ Iu Hl Hu) as [Tu Vu].
  destruct (table_same s_txindex striperOf _ _ _ _ Is Hl Hs) as [Ts Vs].
  destruct (table_same s_subtree striperOf _ _ _ _ Ib Hl Hb) as [Tb Vb].
  split.
  - constructor; simpl; [by rewrite length_insert|done..|].
    apply Forall_insert; [done|]. pose proof (proj1 (Forall_lookup _ _) Isp _ _ Hl) as Hsp.
    intros op u. rewrite Hu, Hx. apply Hsp.
  - unfold mem_view, set_blocks. simpl. by rewrite Hv, Vu, Vs, Vb.
Qed.

Lemma replace_utxo (st' : stripe) (f : gmap Outpoint UTXO -> gmap Outpoint UTXO) :
  tagged s_utxo op_tag (<[striperOf h := st']> (m_st s))
    /\ table s_utxo (<[striperOf h := st']> (m_st s)) = f (table s_utxo (m_st s)) ->
  s_txindex st' = s_txindex st -> s_subtree st' = s_subtree st -> s_blocks st' = s_blocks st ->
  spent_indexed st' ->
  mem_inv (put_stripe h st' s)
  /\ mem_view (put_stripe h st' s) = set_utxo (f (f_utxo (mem_view s))) (mem_view s).
Proof using Hinv.
  intros [Ht Hv] Hu Hs Hb Hx. pose proof (get_stripe_lookup s h Hinv) as Hl.
  destruct Hinv as [Hlen Iu _ Is Ib Isp].
  destruct (table_same s_txindex striperOf _ _ _ _ Iu Hl Hu) as [Tu Vu].
  destruct (table_same s_subtree striperOf _ _ _ _ Is Hl Hs) as [Ts Vs].
  destruct (table_same s_blocks striperOf _ _ _ _ Ib Hl Hb) as [Tb Vb].
  split.
  - constructor; simpl; [by rewrite length_insert|done..|]. by apply Forall_insert.
  - unfold mem_view, set_utxo. simpl. by rewrite Hv, Vu, Vs, Vb.
Qed.

Lemma stripe_spent_indexed : spent_indexed st.
Proof using Hinv.
  pose proof (get_stripe_lookup s h Hinv) as Hl. destruct Hinv as [_ _ _ _ _ Isp].
  exact (proj1 (Forall_lookup _ _) Isp _ _ Hl).
Qed.

(** Lookups in a stripe are lookups in the abstract table. *)
Lemma view_tx : s_txindex st !! h = f_txindex (mem_view s) !! h.
Proof using Hinv.
  simpl. rewrite (table_lookup s_txindex striperOf) by apply Hinv. by rewrite get_stripe_lookup.
Qed.
Lemma view_sub : s_subtree st !! h = f_subtree (mem_view s) !! h.
Proof using Hinv.
  simpl. rewrite (table_lookup s_subtree striperOf) by apply Hinv. by rewrite get_stripe_lookup.
Qed.
Lemma view_blk : s_blocks st !! h = f_blocks (mem_view s) !! h.
Proof using Hinv.
  simpl. rewrite (table_lookup s_blocks striperOf) by apply Hinv. by rewrite get_stripe_lookup.
Qed.
End replace.

Lemma view_utxo s op : mem_inv s ->
  s_utxo (get_stripe s (op_TxID op)) !! op = f_utxo (mem_view s) !! op.
Proof.
  intros Hinv. simpl. rewrite (table_lookup s_utxo op_tag) by apply Hinv.
  unfold op_tag. by rewrite get_stripe_lookup.
Qed.

(** ** Refinement, operation by operation *)

Definition refines_op {A} (o : store_op A) : Prop :=
  forall s, mem_inv s ->
  exists a s', run o s = (Ok a, s') /\ mem_inv s' /\ run o (mem_view s) = (Ok a, mem_view s').

Lemma mem_inv_hidx s hd hx : mem_inv s -> mem_inv (mkMem (m_st s) hd hx).
Proof. by intros []. Qed.

Lemma view_globals s hd hx :
  mem_view (mkMem (m_st s) hd hx) = set_hidx hx (set_hdr hd (mem_view s)).
Proof. done. Qed.

Lemma put_txindex_view s t ix : mem_inv s ->
  let s' := put_stripe t (with_txindex (<[t := ix]> (s_txindex (get_stripe s t))) (get_stripe s t)) s in
  mem_inv s' /\ mem_view s' = set_txindex (<[t := ix]> (f_txindex (mem_view s))) (mem_view s).
Proof.
  intros Hi. apply (replace_txindex s Hi t _ (fun m => <[t := ix]> m)); [|done..].
  by apply (table_put s_txindex striperOf _ _ _ _ _ _ (inv_tx s Hi) (get_stripe_lookup s t Hi)).
Qed.

Lemma del_txindex_view s t : mem_inv s ->
  let s' := put_stripe t (with_txindex (delete t (s_txindex (get_stripe s t))) (get_stripe s t)) s in
  mem_inv s' /\ mem_view s' = set_txindex (delete t (f_txindex (mem_view s))) (mem_view s).
Proof.
  intros Hi. apply (replace_txindex s Hi t _ (fun m => delete t m)); [|done..].
  by apply (table_delete s_txindex striperOf _ _ _ _ _ (inv_tx s Hi) (get_stripe_lookup s t Hi)).
Qed.

Lemma put_utxo_view s op u (st' : stripe) : mem_inv s ->
  s_utxo st' = <[op := u]> (s_utxo (get_stripe s (op_TxID op))) ->
  s_txindex st' = s_txindex (get_stripe s (op_TxID op)) ->
  s_subtree st' = s_subtree (get_stripe s (op_TxID op)) ->
  s_blocks st' = s_blocks (get_stripe s (op_TxID op)) ->
  (forall op' h, op' <> op -> listed (get_stripe s (op_TxID op)) op' h -> listed st' op' h) ->
  (u_Spent u = true -> listed st' op (u_SpentHeight u)) ->
  let s' := put_stripe (op_TxID op) st' s in
  mem_inv s' /\ mem_view s' = set_utxo (<[op := u]> (f_utxo (mem_view s))) (mem_view s).
Proof.
  intros Hi Hu H1 H2 H3 Hother Hself.
  apply (replace_utxo s Hi _ _ (fun m => <[op := u]> m)); [|done..|].
  - by apply (table_put s_utxo op_tag _ _ _ _ _ _ (inv_utxo s Hi) (get_stripe_lookup s _ Hi)).
  - intros op' u'. rewrite Hu, lookup_insert. case_decide as Hd; [subst|].
    + intros E Hs. simplify_eq. by apply Hself.
    + intros E Hs. apply Hother; [done|]. by apply (stripe_spent_indexed s Hi (op_TxID op) op').
Qed.

Lemma refines_PutTxIndex t ix : refines_op (OPutTxIndex t ix).
Proof.
  intros s Hi. destruct (put_txindex_view s t ix Hi) as [Hi' Hv].
  eexists _, _. split; [done|]. simpl. unfold mem_PutTxIndex, flat_put_txindex.
  rewrite view_tx by done.
  destruct (ix_Mined ix && _)%bool.
  - split; [by apply mem_inv_hidx|]. by rewrite view_globals, Hv.
  - split; [done|]. by rewrite Hv.
Qed.

Lemma refines_PutUTXO op u : refines_op (OPutUTXO op u).
Proof.
  intros s Hi. eexists _, _. split; [done|]. simpl. unfold mem_PutUTXO.
  destruct (put_utxo_view s op u
    (if u_Spent u then indexSpent op (u_SpentHeight u)
       (with_utxo (<[op := u]> (s_utxo (get_stripe s (op_TxID op)))) (get_stripe s (op_TxID op)))
     else with_utxo (<[op := u]> (s_utxo (get_stripe s (op_TxID op)))) (get_stripe s (op_TxID op))) Hi)
    as [Hi' Hv]; [by destruct (u_Spent u)..| | |].
  - intros op' h Hne Hl. destruct (u_Spent u); [|done]. apply indexSpent_listed. by left.
  - intros ->. apply indexSpent_listed. by right.
  - split; [done|]. by rewrite Hv.
Qed.

Lemma refines_SpendUTXO op b h : refines_op (OSpendUTXO op b h).
Proof.
  intros s Hi. simpl. unfold mem_SpendUTXO. rewrite view_utxo by done. simpl.
  destruct (table s_utxo (m_st s) !! op) as [u|] eqn:E; [|by eexists _, _].
  eexists _, _. split; [done|].
  destruct (put_utxo_view s op (mark_spent u b h)
    (indexSpent op h (with_utxo (<[op := mark_spent u b h]> (s_utxo (get_stripe s (op_TxID op))))
       (get_stripe s (op_TxID op)))) Hi) as [Hi' Hv]; [done..| | |].
  - intros op' h' Hne Hl. apply indexSpent_listed. by left.
  - intros _. apply indexSpent_listed. by right.
  - split; [done|]. by rewrite Hv.
Qed.

(** Both rollback operations first take the output off its spend-height list. *)
Definition unlisted (op : Outpoint) (u : UTXO) (st : stripe) : stripe :=
  if u_Spent u then deindexSpent op (u_SpentHeight u) st else st.

Lemma unlisted_same op u st :
  s_txindex (unlisted op u st) = s_txindex st /\ s_utxo (unlisted op u st) = s_utxo st
  /\ s_subtree (unlisted op u st) = s_subtree st /\ s_blocks (unlisted op u st) = s_blocks st.
Proof. unfold unlisted. destruct (u_Spent u); [apply deindexSpent_same|done]. Qed.

Lemma unlisted_listed op u st op' h :
  op' <> op -> listed st op' h -> listed (unlisted op u st) op' h.
Proof. unfold unlisted. destruct (u_Spent u); [apply deindexSpent_listed|done]. Qed.

Lemma refines_UnspendUTXO op : refines_op (OUnspendUTXO op).
Proof.
  intros s Hi. simpl. unfold mem_UnspendUTXO. rewrite view_utxo by done. simpl.
  destruct (table s_utxo (m_st s) !! op) as [u|] eqn:E; [|by eexists _, _].
  eexists _, _. split; [done|]. fold (unlisted op u (get_stripe s (op_TxID op))).
  destruct (unlisted_same op u (get_stripe s (op_TxID op))) as (E1 & E2 & E3 & E4).
  destruct (put_utxo_view s op (mark_unspent u)
    (with_utxo (<[op := mark_unspent u]> (s_utxo (unlisted op u (get_stripe s (op_TxID op)))))
       (unlisted op u (get_stripe s (op_TxID op)))) Hi) as [Hi' Hv]; simpl; [by rewrite ?E2..| | |].
  - intros op' h' Hne Hl. by apply (unlisted_listed op u _ op' h').
  - discriminate.
  - split; [done|]. by rewrite Hv.
Qed.

Lemma refines_DeleteUTXO op : refines_op (ODeleteUTXO op).
Proof.
  intros s Hi. simpl. unfold mem_DeleteUTXO. rewrite view_utxo by done. simpl.
  destruct (table s_utxo (m_st s) !! op) as [u|] eqn:E; [|by eexists _, _].
  eexists _, _. split; [done|]. fold (unlisted op u (get_stripe s (op_TxID op))).
  destruct (unlisted_same op u (get_stripe s (op_TxID op))) as (E1 & E2 & E3 & E4).
  destruct (replace_utxo s Hi (op_TxID op)
    (with_utxo (delete op (s_utxo (unlisted op u (get_stripe s (op_TxID op)))))
       (unlisted op u (get_stripe s (op_TxID op)))) (fun m => delete op m)) as [Hi' Hv];
    simpl; [|done..| |].
  - eapply (table_delete s_utxo op_tag); [by apply Hi|by apply get_stripe_lookup|done|].
    simpl. by rewrite E2.
  - intros op' u'. simpl. rewrite E2, lookup_delete. case_decide; [done|].
    intros Hl Hs. apply unlisted_listed; [done|].
    by apply (stripe_spent_indexed s Hi (op_TxID op) op').
  - split; [done|]. by rewrite Hv.
Qed.

Lemma refines_DeleteTxIndex t : refines_op (ODeleteTxIndex t).
Proof.
  intros s Hi. simpl. unfold mem_DeleteTxIndex. rewrite view_tx by done. simpl.
  destruct (table s_txindex (m_st s) !! t) as [u|] eqn:E; [|by eexists _, _].
  eexists _, _. split; [done|]. destruct (del_txindex_view s t Hi) as [Hi' Hv].
  split; [done|]. by rewrite Hv.
Qed.

Lemma put_subtree_view s r l : mem_inv s ->
  mem_inv (mem_PutSubtree r l s)
  /\ mem_view (mem_PutSubtree r l s) = set_subtree (<[r := l]> (f_subtree (mem_view s))) (mem_view s).
Proof.
  intros Hi. apply (replace_subtree s Hi r _ (fun m => <[r := l]> m)); [|done..].
  by apply (table_put s_subtree striperOf _ _ _ _ _ _ (inv_sub s Hi) (get_stripe_lookup s r Hi)).
Qed.

Lemma refines_PutBlock b : refines_op (OPutBlock b).
Proof.
  intros s Hi. eexists _, _. split; [done|]. simpl.
  destruct (replace_blocks s Hi (br_Hash b)
    (with_blocks (<[br_Hash b := b]> (s_blocks (get_stripe s (br_Hash b)))) (get_stripe s (br_Hash b)))
    (fun m => <[br_Hash b := b]> m)) as [Hi' Hv]; [|done..|].
  - by apply (table_put s_blocks striperOf _ _ _ _ _ _ (inv_blk s Hi) (get_stripe_lookup s _ Hi)).
  - split; [by apply mem_inv_hidx|]. unfold flat_put_block, mem_PutBlock. by rewrite view_globals, Hv.
Qed.

(** ** Refinement: pruning *)

Section table_size.
Context {K V : Type} `{Countable K} (proj : stripe -> gmap K V) (tag : K -> nat).

Lemma table_size_gen sts off :
  (forall i st k, sts !! i = Some st -> is_Some (proj st !! k) -> tag k = (off + i)%nat) ->
  size (table proj sts) = sum_list_with (fun st => size (proj st)) sts.
Proof.
  revert off. induction sts as [|st r IH]; intros off Ht; [done|].
  assert (forall i st k, r !! i = Some st -> is_Some (proj st !! k) -> tag k = (S off + i)%nat) as Hr.
  { intros i st' k Hi Hk. specialize (Ht (S i) st' k Hi Hk). lia. }
  cbn [sum_list_with]. rewrite <- (IH (S off) Hr).
  change (table proj (st :: r)) with (proj st ∪ table proj r).
  apply map_size_disj_union, map_disjoint_spec. intros k x y Hx Hy.
  rewrite (table_lookup_gen proj tag r (S off)) in Hy by done.
  specialize (Ht 0%nat st k eq_refl). rewrite Ht in Hy by eauto.
  rewrite decide_False in Hy by lia. done.
Qed.

Lemma table_size sts :
  tagged proj tag sts -> size (table proj sts) = sum_list_with (fun st => size (proj st)) sts.
Proof. intros Ht. apply (table_size_gen sts 0). exact Ht. Qed.
End table_size.

Definition dead_utxo (h : Z) (m : gmap Outpoint UTXO) : gmap Outpoint UTXO :=
  filter (fun p => spent_at h p.2 = true) m.
Definition kept_utxo (h : Z) (m : gmap Outpoint UTXO) : gmap Outpoint UTXO :=
  filter (fun p => spent_at h p.2 = false) m.

Lemma kept_lookup h m k :
  kept_utxo h m !! k = match m !! k with Some u => if spent_at h u then None else Some u | None => None end.
Proof.
  unfold kept_utxo. destruct (m !! k) as [u|] eqn:Ek; [destruct (spent_at h u) eqn:E|].
  - apply map_lookup_filter_None. right. intros v Hv. simplify_eq. simpl. congruence.
  - by apply map_lookup_filter_Some.
  - apply map_lookup_filter_None. by left.
Qed.

Lemma dead_kept_size h m : (size (dead_utxo h m) + size (kept_utxo h m))%nat = size m.
Proof.
  unfold dead_utxo, kept_utxo.
  rewrite <- (map_filter_union_complement (fun p => spent_at h p.2 = true) m) at 3.
  rewrite map_size_disj_union by apply map_disjoint_filter_complement.
  f_equal. f_equal. apply map_filter_ext. intros i x _. simpl. by destruct (spent_at h x).
Qed.

(** Whatever the order of [ops], the loop removes exactly the listed outputs
    that are spent at [h], and counts the removals. *)
Lemma prune_ops_spec h ops m n m' :
  prune_ops h ops m = (n, m') ->
  (forall k, m' !! k = match m !! k with
                       | Some u => if bool_decide (k ∈ ops) && spent_at h u then None else Some u
                       | None => None end)
  /\ n = Z.of_nat (size m) - Z.of_nat (size m').
Proof.
  revert m n m'. induction ops as [|op r IH]; intros m n m' E; cbn [prune_ops] in E.
  { simplify_eq. split; [|lia]. intros k. rewrite bool_decide_eq_false_2 by set_solver.
    by destruct (m' !! k). }
  assert (forall (k : Outpoint) u, (bool_decide (k ∈ op :: r) && spent_at h u)%bool
    = (bool_decide (k = op) && spent_at h u || bool_decide (k ∈ r) && spent_at h u)%bool) as Hb.
  { intros k u. repeat case_bool_decide; destruct (spent_at h u); simpl; try done; set_solver. }
  destruct (m !! op) as [u|] eqn:Eo.
  2:{ destruct (IH _ _ _ E) as [Hl Hn]. split; [|done]. intros k. rewrite Hl.
      destruct (m !! k) as [v|] eqn:Ek; [|done]. rewrite Hb.
      rewrite (bool_decide_eq_false_2 (k = op)) by (intros ->; congruence). done. }
  destruct (u_Spent u && (u_SpentHeight u =? h))%bool eqn:Es; fold (spent_at h u) in Es.
  - destruct (prune_ops h r (delete op m)) as [n0 m0] eqn:E0. simplify_eq.
    destruct (IH _ _ _ E0) as [Hl Hn]. split.
    + intros k. rewrite Hl, lookup_delete. case_decide as Hd; [subst|].
      * rewrite Eo, Hb, bool_decide_eq_true_2 by done. by rewrite Es.
      * destruct (m !! k); [|done]. rewrite Hb, (bool_decide_eq_false_2 (k = op)) by done. done.
    + rewrite map_size_delete_Some in Hn by eauto.
      assert (size m <> 0%nat). { intros Hz. apply map_size_empty_inv in Hz. by rewrite Hz in Eo. }
      lia.
  - destruct (IH _ _ _ E) as [Hl Hn]. split; [|done]. intros k. rewrite Hl.
    destruct (m !! k) as [v|] eqn:Ek; [|done]. rewrite Hb.
    destruct (decide (k = op)) as [->|Hne].
    + simplify_eq. by rewrite Es, !andb_false_r.
    + by rewrite (bool_decide_eq_false_2 (k = op)) by done.
Qed.

Lemma prune_stripe_spec h st n st' :
  spent_indexed st -> prune_stripe h st = (n, st') ->
  s_utxo st' = kept_utxo h (s_utxo st) /\ n = Z.of_nat (size (dead_utxo h (s_utxo st)))
  /\ spent_indexed st' /\ s_txindex st' = s_txindex st /\ s_subtree st' = s_subtree st
  /\ s_blocks st' = s_blocks st.
Proof.
  intros Hsp E. unfold prune_stripe in E. pose proof (dead_kept_size h (s_utxo st)) as Hsz.
  destruct (s_spentIdx st !! h) as [set|] eqn:Es.
  - destruct (prune_ops h (elements set) (s_utxo st)) as [n0 m0] eqn:E0. simplify_eq. simpl.
    destruct (prune_ops_spec _ _ _ _ _ E0) as [Hl Hn].
    assert (m0 = kept_utxo h (s_utxo st)) as ->.
    { apply map_eq. intros k. rewrite Hl, kept_lookup. destruct (s_utxo st !! k) as [u|] eqn:Ek; [|done].
      destruct (spent_at h u) eqn:Eu; [|by rewrite andb_false_r].
      apply andb_true_iff in Eu as [Eu1 Eu2]. zbool. subst h.
      destruct (Hsp k u Ek Eu1) as (set' & E' & Hin). simplify_eq.
      by rewrite bool_decide_eq_true_2 by set_solver. }
    split_and!; [done|lia| |done..].
    intros op u. simpl. rewrite kept_lookup. intros Hk Hs.
    destruct (s_utxo st !! op) as [v|] eqn:Ev; [|done].
    destruct (spent_at h v) eqn:Eh; [done|]. simplify_eq.
    destruct (Hsp op u Ev Hs) as (set' & E' & Hin). exists set'. split; [|done].
    rewrite lookup_delete_ne; [done|]. intros ->. unfold spent_at in Eh. by rewrite Hs, Z.eqb_refl in Eh.
  - simplify_eq.
    assert (kept_utxo h (s_utxo st') = s_utxo st') as Hk.
    { apply map_eq. intros k. rewrite kept_lookup. destruct (s_utxo st' !! k) as [u|] eqn:Ek; [|done].
      destruct (spent_at h u) eqn:Eu; [|done].
      apply andb_true_iff in Eu as [Eu1 Eu2]. zbool. subst h.
      destruct (Hsp k u Ek Eu1) as (set' & E' & Hin). congruence. }
    rewrite Hk in Hsz. split_and!; [by rewrite Hk|lia|done..].
Qed.

Lemma prune_stripes_spec h sts n sts' :
  Forall spent_indexed sts -> prune_stripes h sts = (n, sts') ->
  Forall2 (fun st st' => s_utxo st' = kept_utxo h (s_utxo st) /\ s_txindex st' = s_txindex st
             /\ s_subtree st' = s_subtree st /\ s_blocks st' = s_blocks st) sts sts'
  /\ Forall spent_indexed sts'
  /\ n = Z.of_nat (sum_list_with (fun st => size (dead_utxo h (s_utxo st))) sts).
Proof.
  intros HF. revert n sts'. induction HF as [|st r Hst HF IH]; intros n sts' E; cbn [prune_stripes] in E.
  { simplify_eq. repeat constructor. }
  destruct (prune_stripe h st) as [n0 st0] eqn:E0.
  destruct (prune_stripes h r) as [n1 r1] eqn:E1. simplify_eq.
  destruct (prune_stripe_spec _ _ _ _ Hst E0) as (H1 & -> & H3 & H4 & H5 & H6).
  destruct (IH _ _ eq_refl) as (H7 & H8 & ->).
  split_and!; [by constructor|by constructor|simpl; lia].
Qed.

Lemma forall2_table {K V} `{Countable K} (proj : stripe -> gmap K V) tag sts sts' g :
  tagged proj tag sts ->
  Forall2 (fun st st' => forall k, proj st' !! k = proj st !! k ≫= g k) sts sts' ->
  tagged proj tag sts'
  /\ forall k, table proj sts' !! k = table proj sts !! k ≫= g k.
Proof.
  intros Ht HF.
  assert (tagged proj tag sts') as Ht'.
  { intros i st' k Hi [v Hv]. destruct (Forall2_lookup_r _ _ _ _ _ HF Hi) as (st & Hst & E).
    rewrite E in Hv. apply (Ht i st k Hst). destruct (proj st !! k); [eauto|done]. }
  split; [done|]. intros k. rewrite !(table_lookup proj tag) by done.
  destruct (sts !! tag k) as [st|] eqn:E.
  - destruct (Forall2_lookup_l _ _ _ _ _ HF E) as (st' & -> & Hk). simpl. apply Hk.
  - assert (sts' !! tag k = None) as ->; [|done].
    apply lookup_ge_None. apply lookup_ge_None in E. apply Forall2_length in HF. lia.
Qed.

Lemma forall2_table_same {K V} `{Countable K} (proj : stripe -> gmap K V) tag sts sts' :
  tagged proj tag sts -> Forall2 (fun st st' => proj st' = proj st) sts sts' ->
  tagged proj tag sts' /\ table proj sts' = table proj sts.
Proof.
  intros Ht HF. destruct (forall2_table proj tag sts sts' (fun _ v => Some v) Ht) as [H1 H2].
  - eapply Forall2_impl; [exact HF|]. simpl. intros st st' -> k. by destruct (proj st !! k).
  - split; [done|]. apply map_eq. intros k. rewrite H2. by destruct (table proj sts !! k).
Qed.

Lemma refines_PruneSpent h : refines_op (OPruneSpent h).
Proof.
  intros s Hi. simpl. unfold mem_PruneSpentAtHeight.
  destruct (prune_stripes h (m_st s)) as [n sts] eqn:E.
  destruct (prune_stripes_spec _ _ _ _ (inv_spent s Hi) E) as (HF & Hsp & ->).
  eexists _, _. split; [done|].
  destruct (forall2_table_same s_txindex striperOf _ sts (inv_tx s Hi)) as [T1 V1];
    [by eapply Forall2_impl; [exact HF|]; intros ?? (?&?&?&?)|].
  destruct (forall2_table_same s_subtree striperOf _ sts (inv_sub s Hi)) as [T2 V2];
    [by eapply Forall2_impl; [exact HF|]; intros ?? (?&?&?&?)|].
  destruct (forall2_table_same s_blocks striperOf _ sts (inv_blk s Hi)) as [T3 V3];
    [by eapply Forall2_impl; [exact HF|]; intros ?? (?&?&?&?)|].
  destruct (forall2_table s_utxo op_tag _ sts
    (fun _ u => if spent_at h u then None else Some u) (inv_utxo s Hi)) as [T4 V4].
  { eapply Forall2_impl; [exact HF|]. intros st st' (-> & _) k. simpl. rewrite kept_lookup.
    by destruct (s_utxo st !! k). }
  split.
  - constructor; [|done..]. simpl. apply Forall2_length in HF. by rewrite <- HF, inv_len.
  - unfold flat_prune_spent, mem_view, set_utxo. simpl. rewrite V1, V2, V3. f_equal; [f_equal|f_equal].
    + fold (dead_utxo h (table s_utxo (m_st s))).
      assert (tagged (fun st => dead_utxo h (s_utxo st)) op_tag (m_st s)) as Td.
      { intros i st k Hst [v Hv]. apply (inv_utxo s Hi i st k Hst).
        apply map_lookup_filter_Some in Hv as [Hv _]. eauto. }
      f_equal. rewrite <- (table_size (fun st => dead_utxo h (s_utxo st)) op_tag) by done. f_equal.
      apply map_eq. intros k. unfold dead_utxo at 1. rewrite map_lookup_filter.
      rewrite (table_lookup s_utxo op_tag), (table_lookup _ op_tag) by (done || apply Hi).
      destruct (m_st s !! op_tag k) as [st|]; [|done]. simpl. unfold dead_utxo.
      by rewrite map_lookup_filter.
    + apply map_eq. intros k. rewrite V4. fold (kept_utxo h (table s_utxo (m_st s))).
      rewrite kept_lookup. by destruct (table s_utxo (m_st s) !! k).
Qed.

(** Dropping listed records one at a time is [delete_count] on the table. *)
Lemma drop_all_view {V} (f : Hash -> MemStore -> Z * MemStore) (get : Flat -> gmap Hash V)
    (set : gmap Hash V -> Flat -> Flat) :
  (forall m s, get (set m s) = m) -> (forall m m' s, set m (set m' s) = set m s) ->
  (forall s, set (get s) s = s) ->
  (forall k s, mem_inv s -> let '(n, s') := f k s in
     mem_inv s' /\ mem_view s' = set (delete k (get (mem_view s))) (mem_view s)
     /\ n = if bool_decide (is_Some (get (mem_view s) !! k)) then 1 else 0) ->
  forall ks s, mem_inv s -> let '(n, s') := drop_all f ks s in
     mem_inv s' /\ mem_view s' = set (delete_count ks (get (mem_view s))).1 (mem_view s)
     /\ n = (delete_count ks (get (mem_view s))).2.
Proof.
  intros Hgs Hss Hsg Hf ks. induction ks as [|k r IH]; intros s Hi; cbn [drop_all delete_count].
  { simpl. by rewrite Hsg. }
  specialize (Hf k s Hi). destruct (f k s) as [n s1]. destruct Hf as (Hi1 & Hv1 & ->).
  specialize (IH s1 Hi1). destruct (drop_all f r s1) as [n' s2]. destruct IH as (Hi2 & Hv2 & ->).
  rewrite Hv1 in *. rewrite Hgs in *. rewrite Hss in Hv2.
  by destruct (delete_count r (delete k (get (mem_view s)))).
Qed.

Lemma drop_block_view k s : mem_inv s -> let '(n, s') := drop_block k s in
  mem_inv s' /\ mem_view s' = set_blocks (delete k (f_blocks (mem_view s))) (mem_view s)
  /\ n = if bool_decide (is_Some (f_blocks (mem_view s) !! k)) then 1 else 0.
Proof.
  intros Hi. unfold drop_block. rewrite view_blk by done.
  destruct (f_blocks (mem_view s) !! k) as [b|] eqn:E.
  - destruct (replace_blocks s Hi k (with_blocks (delete k (s_blocks (get_stripe s k))) (get_stripe s k))
      (fun m => delete k m)) as [Hi' Hv]; [|done..].
    by apply (table_delete s_blocks striperOf _ _ _ _ _ (inv_blk s Hi) (get_stripe_lookup s k Hi)).
  - split_and!; [done| |done]. by rewrite delete_id.
Qed.

Lemma drop_subtree_view k s : mem_inv s -> let '(n, s') := drop_subtree k s in
  mem_inv s' /\ mem_view s' = set_subtree (delete k (f_subtree (mem_view s))) (mem_view s)
  /\ n = if bool_decide (is_Some (f_subtree (mem_view s) !! k)) then 1 else 0.
Proof.
  intros Hi. unfold drop_subtree. rewrite view_sub by done.
  destruct (f_subtree (mem_view s) !! k) as [b|] eqn:E.
  - destruct (replace_subtree s Hi k (with_subtree (delete k (s_subtree (get_stripe s k))) (get_stripe s k))
      (fun m => delete k m)) as [Hi' Hv]; [|done..].
    by apply (table_delete s_subtree striperOf _ _ _ _ _ (inv_sub s Hi) (get_stripe_lookup s k Hi)).
  - split_and!; [done| |done]. by rewrite delete_id.
Qed.

Lemma drop_txindex_view k s : mem_inv s -> let '(n, s') := drop_txindex k s in
  mem_inv s' /\ mem_view s' = set_txindex (delete k (f_txindex (mem_view s))) (mem_view s)
  /\ n = if bool_decide (is_Some (f_txindex (mem_view s) !! k)) then 1 else 0.
Proof.
  intros Hi. unfold drop_txindex. rewrite view_tx by done.
  destruct (f_txindex (mem_view s) !! k) as [b|] eqn:E.
  - by destruct (del_txindex_view s k Hi) as [Hi' Hv].
  - split_and!; [done| |done]. by rewrite delete_id.
Qed.

(** Dropping what an entry lists, table by table; a missing entry behaves like
    the empty one. *)
Definition drop_listed (e : heightEntry) (s : MemStore) : Z * MemStore :=
  let '(nb, sb) := drop_all drop_block (if he_hasBlock e then [he_block e] else []) s in
  let '(ns, ss) := drop_all drop_subtree (he_subtrees e) sb in
  let '(nt, st) := drop_all drop_txindex (he_txids e) ss in
  (nb + ns + nt, st).

Lemma drop_missing (oe : option heightEntry) (s0 : MemStore) (e : heightEntry) :
  e = default emptyEntry oe ->
  match oe with
  | None => (0, s0)
  | Some e =>
      let '(nb, sb) := if he_hasBlock e then drop_block (he_block e) s0 else (0, s0) in
      let '(ns, ss) := drop_all drop_subtree (he_subtrees e) sb in
      let '(nt, st) := drop_all drop_txindex (he_txids e) ss in
      (nb + ns + nt, st)
  end = drop_listed e s0.
Proof.
  intros ->. destruct oe as [e|]; [|done]. unfold drop_listed. simpl. destruct (he_hasBlock e); [|done].
  cbn [drop_all]. destruct (drop_block (he_block e) s0). by rewrite Z.add_0_r.
Qed.

Lemma refines_PruneIndex h : refines_op (OPruneIndex h).
Proof.
  intros s Hi. simpl. unfold mem_PruneIndexAtHeight.
  set (s0 := mkMem (m_st s) (m_hdr s) (delete h (m_hidx s))).
  assert (mem_inv s0) as Hi0 by (by apply mem_inv_hidx).
  set (e := entry_at (m_hidx s) h). rewrite (drop_missing (m_hidx s !! h) s0 e) by done. unfold drop_listed.
  pose proof (drop_all_view drop_block f_blocks set_blocks ltac:(done) ltac:(done)
    ltac:(by intros []) drop_block_view (if he_hasBlock e then [he_block e] else []) s0 Hi0) as Hb.
  destruct (drop_all drop_block _ s0) as [nb sb]. destruct Hb as (Hib & Hvb & ->).
  pose proof (drop_all_view drop_subtree f_subtree set_subtree ltac:(done) ltac:(done)
    ltac:(by intros []) drop_subtree_view (he_subtrees e) sb Hib) as Hs.
  destruct (drop_all drop_subtree _ sb) as [ns ss]. destruct Hs as (His & Hvs & ->).
  pose proof (drop_all_view drop_txindex f_txindex set_txindex ltac:(done) ltac:(done)
    ltac:(by intros []) drop_txindex_view (he_txids e) ss His) as Ht.
  destruct (drop_all drop_txindex _ ss) as [nt st]. destruct Ht as (Hit & Hvt & ->).
  assert (f_subtree (mem_view sb) = f_subtree (mem_view s)) as Es by (by rewrite Hvb).
  assert (f_txindex (mem_view ss) = f_txindex (mem_view s)) as Et by (by rewrite Hvs, Hvb).
  rewrite Es in *. rewrite Et in *. rewrite Hvs, Hvb in Hvt. clear Hvs Hvb Es Et.
  assert (m_hdr st = m_hdr s) as Hh by (apply (f_equal f_hdr) in Hvt; exact Hvt).
  assert (m_hidx st = delete h (m_hidx s)) as Hx by (apply (f_equal f_hidx) in Hvt; exact Hvt).
  change (f_blocks (mem_view s0)) with (f_blocks (mem_view s)) in *.
  unfold flat_prune_index. change (entry_at (f_hidx (mem_view s)) h) with e.
  destruct (delete_count (if he_hasBlock e then [he_block e] else []) (f_blocks (mem_view s))) as [mb cb].
  destruct (delete_count (he_subtrees e) (f_subtree (mem_view s))) as [ms cs].
  destruct (delete_count (he_txids e) (f_txindex (mem_view s))) as [mt ct]. simpl in *. rewrite Hh.
  destruct (m_hdr s !! h) as [hd|] eqn:E.
  - eexists _, _. split; [done|]. split; [by apply mem_inv_hidx|].
    rewrite view_globals, Hvt, bool_decide_eq_true_2 by eauto.
    unfold set_hidx, set_txindex, set_subtree, set_blocks, set_hdr. simpl.
    rewrite Hx. f_equal; f_equal; lia.
  - eexists _, _. split; [done|]. split; [done|]. rewrite Hvt.
    rewrite bool_decide_eq_false_2 by (by rewrite <- eq_None_not_Some).
    unfold set_hidx, set_txindex, set_subtree, set_blocks, set_hdr. simpl.
    rewrite delete_id by done. f_equal; f_equal; lia.
Qed.

(** ** The contract *)

Lemma mem_law A (o : store_op A) : refines_op o.
Proof.
  destruct o; try (intros s Hi; eexists _, _; split; [done|]; split; [done|]; simpl;
    first [by rewrite view_tx|by rewrite view_sub|by rewrite view_blk|by rewrite view_utxo|done]).
  - apply refines_PutTxIndex.
  - apply refines_PutUTXO.
  - apply refines_SpendUTXO.
  - apply refines_UnspendUTXO.
  - apply refines_DeleteUTXO.
  - apply refines_DeleteTxIndex.
  - intros s Hi. destruct (put_subtree_view s root leaves Hi) as [Hi' Hv].
    eexists _, _. split; [done|]. split; [done|]. simpl. by rewrite Hv.
  - apply refines_PutBlock.
  - intros s Hi. eexists _, _. split; [done|]. split; [by apply mem_inv_hidx|done].
  - apply refines_PruneSpent.
  - apply refines_PruneIndex.
Qed.

#[global] Instance mem_lawful : LawfulStore MemStore :=
  {| store_inv := mem_inv; store_view := mem_view; store_law := mem_law |}.

Lemma new_tagged {K V} `{Countable K} (proj : stripe -> gmap K V) tag :
  proj newStripe = ∅ -> tagged proj tag (replicate stripeCount newStripe).
Proof. intros E i st k Hi [v Hv]. apply lookup_replicate in Hi as [-> _]. by rewrite E in Hv. Qed.

Lemma New_inv : mem_inv New.
Proof.
  constructor; cbn [m_st New]; [apply length_replicate|by apply new_tagged..|].
  apply Forall_replicate. intros op u Hu. simpl in Hu. by rewrite lookup_empty in Hu.
Qed.

Lemma New_view : mem_view New = flatEmpty.
Proof.
  assert (forall K V (EK : EqDecision K) (CK : Countable K) (proj : stripe -> gmap K V) n, proj newStripe = ∅ ->
    table proj (replicate n newStripe) = ∅) as Ht.
  { intros K V EK CK proj n E. unfold table. induction n; [done|]. cbn. rewrite E.
    rewrite (left_id_L ∅ (∪)). exact IHn. }
  unfold mem_view, flatEmpty, New. cbn [m_st m_hdr m_hidx]. by rewrite !Ht by done.
Qed.

Lemma New_rel : store_rel New flatEmpty.
Proof. split; [apply New_inv|apply New_view]. Qed.

(** A history of operations with the values they returned. *)
Definition event : Type := { A & (store_op A * A)%type }.
Definition ev {A : Type} (o : store_op A) (a : A) : event := existT A (o, a).

Inductive trace {S} `{Store S} : S -> list event -> S -> Prop :=
| trace_nil s : trace s [] s
| trace_cons s A (o : store_op A) (a : A) s' l s'' :
    run o s = (Ok a, s') -> trace s' l s'' -> trace s (ev o a :: l) s''.

Lemma mem_trace_view s l s' : mem_inv s -> trace s l s' ->
  mem_inv s' /\ trace (mem_view s) l (mem_view s').
Proof.
  intros Hi Ht. induction Ht as [s|s A o a s1 l s2 E Ht IH]; [split; [done|constructor]|].
  destruct (mem_law A o s Hi) as (a' & s1' & E' & Hi' & Ef). rewrite E in E'. simplify_eq.
  destruct (IH Hi') as [Hi2 Ht2]. split; [done|]. by econstructor.
Qed.

(** The same facts in functional form. *)
Lemma set_txindex_id f : set_txindex (f_txindex f) f = f.
Proof. by destruct f. Qed.

Lemma mem_PutTxIndex_view s t ix : mem_inv s ->
  mem_inv (mem_PutTxIndex t ix s) /\ mem_view (mem_PutTxIndex t ix s) = flat_put_txindex t ix (mem_view s).
Proof.
  intros Hi. destruct (refines_PutTxIndex t ix s Hi) as (a & s' & E & Hi' & Ef).
  injection E as <- <-. split; [done|]. symmetry. exact (f_equal snd Ef).
Qed.

Lemma mem_DeleteTxIndex_view s t : mem_inv s ->
  mem_inv (mem_DeleteTxIndex t s).2
  /\ mem_view (mem_DeleteTxIndex t s).2 = set_txindex (delete t (f_txindex (mem_view s))) (mem_view s).
Proof.
  intros Hi. destruct (refines_DeleteTxIndex t s Hi) as (a & s' & E & Hi' & Ef). simpl in E.
  destruct (mem_DeleteTxIndex t s) as [b s0]. injection E as -> ->. split; [done|]. simpl.
  change (run (ODeleteTxIndex t) (mem_view s))
    with (match f_txindex (mem_view s) !! t with
          | None => (Ok false, mem_view s)
          | Some _ => (Ok true, set_txindex (delete t (f_txindex (mem_view s))) (mem_view s)) end) in Ef.
  apply (f_equal snd) in Ef. destruct (f_txindex (mem_view s) !! t) eqn:Et; cbn [snd] in Ef;
    rewrite <- Ef; [done|]. rewrite delete_id by done. symmetry. exact (set_txindex_id (mem_view s)).
Qed.

Lemma mem_PruneIndex_view s h : mem_inv s ->
  mem_inv (mem_PruneIndexAtHeight h s).2
  /\ (mem_PruneIndexAtHeight h s).1 = (flat_prune_index h (mem_view s)).1
  /\ mem_view (mem_PruneIndexAtHeight h s).2 = (flat_prune_index h (mem_view s)).2.
Proof.
  intros Hi. destruct (refines_PruneIndex h s Hi) as (a & s' & E & Hi' & Ef). simpl in E.
  destruct (mem_PruneIndexAtHeight h s) as [b s0]. injection E as -> ->. split; [done|]. simpl.
  change (run (OPruneIndex h) (mem_view s))
    with (let '(n, s') := flat_prune_index h (mem_view s) in (Ok n, s')) in Ef.
  destruct (flat_prune_index h (mem_view s)). split.
  - by apply (f_equal fst) in Ef; injection Ef.
  - symmetry. exact (f_equal snd Ef).
Qed.

(** ** Properties *)

(** C5: the striped store implements the reference store.  After any history
    of operations from an empty store the invariant holds, the same history
    with the same returned values is a history of the reference store ending
    in the union of the stripes, and every further operation returns without
    an error. *)
Theorem mem_store_refines (l : list event) (s : MemStore) :
  trace New l s ->
  mem_inv s /\ trace flatEmpty l (mem_view s)
  /\ forall A (o : store_op A), exists a s', run o s = (Ok a, s').
Proof.
  intros Ht. destruct (mem_trace_view _ _ _ New_inv Ht) as [Hi Hf].
  rewrite New_view in Hf. split_and!; [done..|].
  intros A o. destruct (mem_law A o s Hi) as (a & s' & E & _). eauto.
Qed.

(** The pruner's sweep is exact although it only visits the spend-height
    index: [PruneSpentAtHeight h] removes every output spent at [h], in every
    stripe, keeps all others (unspent ones in particular), and returns the
    number of outputs removed. *)
Theorem prune_spent_exact (s : MemStore) (h : Z) :
  mem_inv s ->
  let '(n, s') := mem_PruneSpentAtHeight h s in
  (forall op, s_utxo (get_stripe s' (op_TxID op)) !! op
     = match s_utxo (get_stripe s (op_TxID op)) !! op with
       | Some u => if spent_at h u then None else Some u
       | None => None end)
  /\ n = Z.of_nat (size (f_utxo (mem_view s))) - Z.of_nat (size (f_utxo (mem_view s'))).
Proof.
  intros Hi. destruct (refines_PruneSpent h s Hi) as (n & s' & E & Hi' & Ef). simpl in E, Ef.
  destruct (mem_PruneSpentAtHeight h s) as [n0 s0]. injection E as -> ->.
  assert (table s_utxo (m_st s') = kept_utxo h (table s_utxo (m_st s))) as Hv.
  { apply (f_equal (fun p => f_utxo (snd p))) in Ef. symmetry. exact Ef. }
  split.
  - intros op. rewrite !view_utxo by done. simpl. by rewrite Hv, kept_lookup.
  - simpl. rewrite Hv. pose proof (dead_kept_size h (table s_utxo (m_st s))).
    apply (f_equal fst) in Ef. simpl in Ef. injection Ef as <-.
    fold (dead_utxo h (table s_utxo (m_st s))). lia.
Qed.

(** Where the height index is exact ([hidx_ok]), index retention frees
    exactly one height: after
    [PruneIndexAtHeight h] a transaction is still indexed iff it was indexed
    and is not mined at [h]. *)
Theorem prune_index_exact (s : MemStore) (h : Z) (t : Hash) :
  mem_inv s -> hidx_ok (mem_view s) ->
  let '(_, s') := mem_PruneIndexAtHeight h s in
  s_txindex (get_stripe s' t) !! t
  = match s_txindex (get_stripe s t) !! t with
    | Some ix => if ix_Mined ix && (ix_Height ix =? h) then None else Some ix
    | None => None end.
Proof.
  intros Hi [H1 H2]. destruct (mem_PruneIndex_view s h Hi) as (Hi' & _ & Hv).
  destruct (mem_PruneIndexAtHeight h s) as [n s']. simpl in *. rewrite !view_tx by done. rewrite Hv.
  rewrite flat_prune_index_tx. destruct (f_txindex (mem_view s) !! t) as [ix|] eqn:Et.
  - case_bool_decide as Hin.
    + destruct (H2 _ _ _ Hin Et) as [-> ->]. by rewrite Z.eqb_refl.
    + destruct (ix_Mined ix) eqn:Em; [|done]. simpl.
      destruct (Z.eqb_spec (ix_Height ix) h) as [<-|]; [|done]. destruct Hin. by apply H1.
  - by case_bool_decide.
Qed.

(** A transaction that was indexed as seen before it was mined is never put in
    the height index, so retention does not free it: after pruning its height
    it is still served as mined there. *)
Theorem prune_index_misses_seen_first (t : Hash) (seen mined : TxIndex) :
  ix_Mined seen = false -> ix_Mined mined = true ->
  let s1 := mem_PutTxIndex t mined (mem_PutTxIndex t seen New) in
  let '(n, s2) := mem_PruneIndexAtHeight (ix_Height mined) s1 in
  n = 0 /\ s_txindex (get_stripe s2 t) !! t = Some mined.
Proof.
  intros Hs Hm. cbv zeta.
  destruct (mem_PutTxIndex_view New t seen New_inv) as [Hi1 Hv1].
  destruct (mem_PutTxIndex_view _ t mined Hi1) as [Hi2 Hv2].
  destruct (mem_PruneIndex_view _ (ix_Height mined) Hi2) as (Hi3 & Hn & Hv3).
  destruct (mem_PruneIndexAtHeight _ _) as [n s2]. simpl in Hi3, Hn, Hv3. subst n.
  rewrite view_tx, Hv3 by done. rewrite Hv2, Hv1, New_view.
  unfold flat_put_txindex. rewrite Hs, Hm. simpl.
  rewrite lookup_insert_eq, bool_decide_eq_true_2 by eauto. simpl. split.
  - unfold flat_prune_index, entry_at. simpl. by rewrite !lookup_empty.
  - rewrite flat_prune_index_tx, bool_decide_eq_false_2; [apply lookup_insert_eq|].
    unfold entry_at. simpl. rewrite lookup_empty. set_solver.
Qed.

(** Rolling a transaction back and mining it again elsewhere leaves a stale
    entry in the height index: pruning the old height deletes the index of a
    transaction that is mined at another height. *)
Theorem prune_index_hits_remined (t : Hash) (old new : TxIndex) :
  ix_Mined old = true -> ix_Mined new = true -> ix_Height new <> ix_Height old ->
  let s1 := mem_PutTxIndex t new (mem_DeleteTxIndex t (mem_PutTxIndex t old New)).2 in
  let '(_, s2) := mem_PruneIndexAtHeight (ix_Height old) s1 in
  s_txindex (get_stripe s1 t) !! t = Some new /\ s_txindex (get_stripe s2 t) !! t = None.
Proof.
  intros Ho Hn Hne. cbv zeta.
  destruct (mem_PutTxIndex_view New t old New_inv) as [Hi1 Hv1].
  destruct (mem_DeleteTxIndex_view _ t Hi1) as [Hi2 Hv2].
  destruct (mem_PutTxIndex_view _ t new Hi2) as [Hi3 Hv3].
  destruct (mem_PruneIndex_view _ (ix_Height old) Hi3) as (Hi4 & _ & Hv4).
  destruct (mem_PruneIndexAtHeight _ _) as [n s2]. simpl in Hi4, Hv4.
  rewrite !view_tx by done. rewrite Hv4, flat_prune_index_tx, Hv3, Hv2, Hv1, New_view.
  unfold flat_put_txindex. rewrite Ho, Hn. simpl. rewrite lookup_delete_eq. simpl.
  rewrite lookup_insert_eq. split; [done|].
  rewrite bool_decide_eq_true_2; [done|]. unfold entry_at at 1.
  rewrite lookup_insert_ne by done. rewrite lookup_empty, bool_decide_eq_false_2 by (by intros []).
  simpl. rewrite lookup_insert_eq. set_solver.
Qed.

(** What [Stats] is meant to report, on the reference store. *)
Definition flat_stats (f : Flat) : Stats :=
  mkStats (Z.of_nat (size (f_txindex f)))
    (Z.of_nat (size (filter (fun p => u_Spent p.2 = false) (f_utxo f))))
    (Z.of_nat (size (filter (fun p => u_Spent p.2 = true) (f_utxo f))))
    (Z.of_nat (size (f_subtree f))) (Z.of_nat (size (f_blocks f))) (Z.of_nat (size (f_hdr f))).

Lemma stats_fold sts out :
  foldl stripe_stats out sts =
  mkStats (st_TxIndex out + Z.of_nat (sum_list_with (fun st => size (s_txindex st)) sts))
    (st_UTXOLive out
     + Z.of_nat (sum_list_with (fun st => size (filter (fun p => u_Spent p.2 = false) (s_utxo st))) sts))
    (st_UTXOSpent out
     + Z.of_nat (sum_list_with (fun st => size (filter (fun p => u_Spent p.2 = true) (s_utxo st))) sts))
    (st_Subtrees out + Z.of_nat (sum_list_with (fun st => size (s_subtree st)) sts))
    (st_Blocks out + Z.of_nat (sum_list_with (fun st => size (s_blocks st)) sts)) (st_Headers out).
Proof.
  revert out. induction sts as [|st r IH]; intros [????? ?].
  - cbn. by rewrite !Z.add_0_r.
  - cbn [foldl]. rewrite IH. cbn -[size filter Z.add]. f_equal; lia.
Qed.

Lemma table_filter (P : Outpoint * UTXO -> Prop) `{forall x, Decision (P x)} sts :
  tagged s_utxo op_tag sts ->
  size (filter P (table s_utxo sts)) = sum_list_with (fun st => size (filter P (s_utxo st))) sts.
Proof.
  intros Ht. rewrite <- (table_size (fun st => filter P (s_utxo st)) op_tag).
  - f_equal. apply map_eq. intros k. rewrite map_lookup_filter.
    rewrite (table_lookup s_utxo op_tag) by done. rewrite (table_lookup _ op_tag).
    + destruct (sts !! op_tag k) as [st|]; [|done]. simpl. by rewrite map_lookup_filter.
    + intros i st k' Hi [v Hv]. apply map_lookup_filter_Some in Hv as [Hv _]. eauto.
  - intros i st k' Hi [v Hv]. apply map_lookup_filter_Some in Hv as [Hv _]. eauto.
Qed.

(** [Stats] sums the stripes without counting a record twice: on every store
    that satisfies the invariant it reports the sizes of the tables, with the
    outputs split into unspent and spent. *)
Theorem mem_stats_exact (s : MemStore) : mem_inv s -> mem_Stats s = flat_stats (mem_view s).
Proof.
  intros Hi. unfold mem_Stats, flat_stats, mem_view. rewrite stats_fold.
  cbn [st_TxIndex st_UTXOLive st_UTXOSpent st_Subtrees st_Blocks f_txindex f_utxo f_subtree f_blocks f_hdr].
  rewrite !table_filter by apply Hi.
  rewrite (table_size s_txindex striperOf), (table_size s_subtree striperOf),
    (table_size s_blocks striperOf) by apply Hi.
  done.
Qed.

(** ** Witnesses *)

Definition demo_op : Outpoint := mkOutpoint (demo_hash 7) 0.
Definition demo_utxo : UTXO := mkUTXO 500 (demo_hash 8) false zeroHash 0.
Definition demo_history : list event :=
  [ev (OPutUTXO demo_op demo_utxo) tt;
   ev (OSpendUTXO demo_op (demo_hash 9) 100) true;
   ev (OPruneSpent 99) 0;
   ev (OGetUTXO demo_op) (Some (mark_spent demo_utxo (demo_hash 9) 100));
   ev (OPruneSpent 100) 1;
   ev (OGetUTXO demo_op) None].
Definition demo_spent : MemStore := (mem_SpendUTXO demo_op (demo_hash 9) 100 (mem_PutUTXO demo_op demo_utxo New)).2.
Definition demo_swept : MemStore := (mem_PruneSpentAtHeight 99 demo_spent).2.
Definition demo_pruned : MemStore := (mem_PruneSpentAtHeight 100 demo_swept).2.

Lemma demo_spent_inv : mem_inv demo_spent.
Proof.
  destruct (refines_PutUTXO demo_op demo_utxo New New_inv) as (a & s & E & Hi & _).
  injection E as <- <-.
  destruct (refines_SpendUTXO demo_op (demo_hash 9) 100 _ Hi) as (b & s' & E & Hi' & _).
  unfold demo_spent. simpl in E.
  destruct (mem_SpendUTXO demo_op (demo_hash 9) 100 (mem_PutUTXO demo_op demo_utxo New)).
  by injection E as -> ->.
Qed.

(** One step of a history, from the evaluated parts of the operation. *)
Lemma run_spend op b h (s s' : MemStore) r :
  (mem_SpendUTXO op b h s).1 = r -> s' = (mem_SpendUTXO op b h s).2 ->
  run (OSpendUTXO op b h) s = (Ok r, s').
Proof. intros <- ->. simpl. by destruct (mem_SpendUTXO op b h s). Qed.
Lemma run_prune h (s s' : MemStore) r :
  (mem_PruneSpentAtHeight h s).1 = r -> s' = (mem_PruneSpentAtHeight h s).2 ->
  run (OPruneSpent h) s = (Ok r, s').
Proof. intros <- ->. simpl. by destruct (mem_PruneSpentAtHeight h s). Qed.
Lemma run_get op (s : MemStore) r :
  s_utxo (get_stripe s (op_TxID op)) !! op = r -> run (OGetUTXO op) s = (Ok r, s).
Proof. by intros <-. Qed.

Lemma mem_store_refines_witness :
  mem_inv demo_pruned /\ trace flatEmpty demo_history (mem_view demo_pruned)
  /\ forall A (o : store_op A), exists a s', run o demo_pruned = (Ok a, s').
Proof.
  apply (mem_store_refines demo_history demo_pruned). unfold demo_history.
  apply (trace_cons New unit (OPutUTXO demo_op demo_utxo) tt (mem_PutUTXO demo_op demo_utxo New));
    [reflexivity|].
  apply (trace_cons (mem_PutUTXO demo_op demo_utxo New) bool (OSpendUTXO demo_op (demo_hash 9) 100)
           true demo_spent).
  { apply run_spend; [vm_compute|unfold demo_spent]; reflexivity. }
  apply (trace_cons demo_spent Z (OPruneSpent 99) 0 demo_swept).
  { apply run_prune; [vm_compute|unfold demo_swept]; reflexivity. }
  apply (trace_cons demo_swept (option UTXO) (OGetUTXO demo_op)
           (Some (mark_spent demo_utxo (demo_hash 9) 100)) demo_swept).
  { apply run_get. vm_compute. reflexivity. }
  apply (trace_cons demo_swept Z (OPruneSpent 100) 1 demo_pruned).
  { apply run_prune; [vm_compute|unfold demo_pruned]; reflexivity. }
  apply (trace_cons demo_pruned (option UTXO) (OGetUTXO demo_op) None demo_pruned).
  { apply run_get. vm_compute. reflexivity. }
  exact (trace_nil demo_pruned).
Defined.

Lemma prune_spent_exact_witness :
  let '(n, s') := mem_PruneSpentAtHeight 100 demo_spent in
  (forall op, s_utxo (get_stripe s' (op_TxID op)) !! op
     = match s_utxo (get_stripe demo_spent (op_TxID op)) !! op with
       | Some u => if spent_at 100 u then None else Some u
       | None => None end)
  /\ n = Z.of_nat (size (f_utxo (mem_view demo_spent))) - Z.of_nat (size (f_utxo (mem_view s'))).
Proof. apply (prune_spent_exact demo_spent 100). apply demo_spent_inv. Defined.

Definition demo_seen : TxIndex := mkTxIndex false zeroHash 0 0 0 0 5.
Definition demo_mined (h : Z) : TxIndex := mkTxIndex true (demo_hash h) h 1700000000 0 0 5.

Definition demo_two_heights : MemStore :=
  mem_PutTxIndex (demo_hash 2) (demo_mined 8) (mem_PutTxIndex (demo_hash 1) (demo_mined 7) New).

Lemma demo_hashes_differ : demo_hash 1 <> demo_hash 2.
Proof. intros E. apply (f_equal abytes) in E. vm_compute in E. discriminate. Qed.

Lemma demo_two_heights_ok : mem_inv demo_two_heights /\ hidx_ok (mem_view demo_two_heights).
Proof.
  destruct (mem_PutTxIndex_view New (demo_hash 1) (demo_mined 7) New_inv) as [Hi1 Hv1].
  destruct (mem_PutTxIndex_view _ (demo_hash 2) (demo_mined 8) Hi1) as [Hi2 Hv2].
  split; [exact Hi2|]. unfold demo_two_heights. rewrite Hv2, Hv1, New_view.
  assert (H1 : hidx_ok (flat_put_txindex (demo_hash 1) (demo_mined 7) flatEmpty)).
  { apply hidx_ok_put; [apply hidx_ok_empty|apply lookup_empty|reflexivity|].
    intros h. unfold entry_at. simpl f_hidx. rewrite lookup_empty. apply not_elem_of_nil. }
  pose proof demo_hashes_differ as Hd.
  revert H1 Hd. generalize (demo_hash 1) (demo_hash 2). intros t1 t2 H1 Hd.
  apply hidx_ok_put; [exact H1| |reflexivity|].
  - unfold flat_put_txindex. simpl. case_match; simpl; rewrite lookup_insert_ne by done;
      apply lookup_empty.
  - intros h. unfold flat_put_txindex, entry_at. simpl. case_match; simpl;
      [|rewrite lookup_empty; apply not_elem_of_nil].
    rewrite lookup_insert. case_decide; [|rewrite lookup_empty; apply not_elem_of_nil].
    cbn [default add_txid he_txids from_option]. unfold id. rewrite lookup_empty.
    cbn [default he_txids emptyEntry app]. unfold id.
    intros Hin. apply list_elem_of_singleton in Hin. congruence.
Qed.

Lemma prune_index_exact_witness :
  let '(_, s') := mem_PruneIndexAtHeight 7 demo_two_heights in
  s_txindex (get_stripe s' (demo_hash 1)) !! demo_hash 1
  = match s_txindex (get_stripe demo_two_heights (demo_hash 1)) !! demo_hash 1 with
    | Some ix => if ix_Mined ix && (ix_Height ix =? 7) then None else Some ix
    | None => None end.
Proof.
  apply (prune_index_exact demo_two_heights 7 (demo_hash 1)).
  - apply demo_two_heights_ok.
  - apply demo_two_heights_ok.
Defined.

Lemma prune_index_misses_seen_first_witness :
  let s1 := mem_PutTxIndex (demo_hash 1) (demo_mined 7) (mem_PutTxIndex (demo_hash 1) demo_seen New) in
  let '(n, s2) := mem_PruneIndexAtHeight (ix_Height (demo_mined 7)) s1 in
  n = 0 /\ s_txindex (get_stripe s2 (demo_hash 1)) !! demo_hash 1 = Some (demo_mined 7).
Proof.
  apply (prune_index_misses_seen_first (demo_hash 1) demo_seen (demo_mined 7)); reflexivity.
Defined.

Lemma prune_index_hits_remined_witness :
  let s1 := mem_PutTxIndex (demo_hash 1) (demo_mined 8)
              (mem_DeleteTxIndex (demo_hash 1) (mem_PutTxIndex (demo_hash 1) (demo_mined 7) New)).2 in
  let '(_, s2) := mem_PruneIndexAtHeight (ix_Height (demo_mined 7)) s1 in
  s_txindex (get_stripe s1 (demo_hash 1)) !! demo_hash 1 = Some (demo_mined 8)
  /\ s_txindex (get_stripe s2 (demo_hash 1)) !! demo_hash 1 = None.
Proof.
  apply (prune_index_hits_remined (demo_hash 1) (demo_mined 7) (demo_mined 8)); [reflexivity..|].
  discriminate.
Defined.

Lemma mem_stats_exact_witness : mem_Stats demo_spent = flat_stats (mem_view demo_spent).
Proof. apply (mem_stats_exact demo_spent). apply demo_spent_inv. Defined.
