(* ===== verification/ProofPath.v ===== *)
(** * proof: inclusion proofs served from the store ([src/proof/proof.go])

    [Build] assembles the two sibling paths of a mined transaction through the
    [Store] interface, [Verify] folds them.  The proofs are made on the
    reference store and carried to every lawful backend by [sim]. *)

From stdpp Require Import base gmap list strings.
From Stdlib Require Import ZArith Lia ZifyNat.
From S2P Require Import Prelude Commitment StoreSpec.
Open Scope go_scope.

(** ** Data *)

Record ProofRec : Type := mkProof
  { p_Leaf : Hash; p_L1 : list PathElem; p_SubtreeRoot : Hash; p_L2 : list PathElem;
    p_BlockRoot : Hash; p_BlockHash : Hash; p_Height : Z; p_Header : Header }.

#[global] Instance ProofRec_eq_dec : EqDecision ProofRec.
Proof. solve_decision. Defined.

Definition ErrNotMined : error :=
  "proof: transaction not mined (no inclusion proof available)"%string.
Definition ErrInconsistent : error := "proof: stored block/subtree data inconsistent"%string.

(** ** Operations *)

Definition Build {S} `{Store S} (txid : Hash) : M S ProofRec :=
  oix <- GetTxIndex txid ;;
  match oix with
  | None => merr ErrNotMined
  | Some ix =>
    if negb (ix_Mined ix) then merr ErrNotMined
    else
      oblk <- GetBlock (ix_BlockHash ix) ;;
      match oblk with
      | None => merr ErrInconsistent
      | Some blk =>
        if Z.of_nat (length (br_SubtreeRoots blk)) <=? ix_SubtreeIndex ix then merr ErrInconsistent
        else
          subtreeRoot <- mlift (index (br_SubtreeRoots blk) (ix_SubtreeIndex ix)) ;;
          oleaves <- GetSubtree subtreeRoot ;;
          match oleaves with
          | None => merr ErrInconsistent
          | Some leaves =>
            if Z.of_nat (length leaves) <=? ix_LeafIndex ix then merr ErrInconsistent
            else
              sub <- mlift (BuildMerkleTree leaves) ;;
              l1 <- mlift (MerklePath sub.2 (ix_LeafIndex ix)) ;;
              top <- mlift (BuildMerkleTree (br_SubtreeRoots blk)) ;;
              l2 <- mlift (MerklePath top.2 (ix_SubtreeIndex ix)) ;;
              mret (mkProof txid l1 subtreeRoot l2 (br_MerkleRoot blk) (br_Hash blk)
                      (ix_Height ix) (br_Header blk))
          end
      end
  end.

Definition Verify (p : ProofRec) : bool :=
  let '(ok, _) := VerifyToBlockRoot (p_Leaf p) [] (p_L1 p) (p_L2 p) (p_BlockRoot p) in ok.

(** Bytes 36..68 of a header. *)
Definition HeaderMerkleRoot (hdr : Header) : Hash := arr 32 (take 32 (drop 36 (abytes hdr))).

(** ** Lemmas *)

Lemma sim_Build_on {S1 S2} `{SimStore S1 S2 R ok} txid :
  (forall t, ok _ (OGetTxIndex t)) -> (forall h, ok _ (OGetBlock h)) -> (forall h, ok _ (OGetSubtree h)) ->
  sim R (Build (S := S1) txid) (Build (S := S2) txid).
Proof.
  intros Ht Hb Hs.
  assert (forall t, sim R (GetTxIndex t) (GetTxIndex t)) as Ht' by (intros; exact (sim_ok _ _ (Ht _))).
  assert (forall h, sim R (GetBlock h) (GetBlock h)) as Hb' by (intros; exact (sim_ok _ _ (Hb _))).
  assert (forall h, sim R (GetSubtree h) (GetSubtree h)) as Hs' by (intros; exact (sim_ok _ _ (Hs _))).
  unfold Build. repeat (case_match || apply sim_bind || intros || eauto with sim).
Qed.

Lemma sim_Build {S} `{LawfulStore S} txid : sim store_rel (Build (S := S) txid) (Build (S := Flat) txid).
Proof. by apply sim_Build_on. Qed.
#[export] Hint Resolve sim_Build : sim.

(** The stored data that locate a mined transaction: its index entry, its
    block, and the subtree leaves, each consistent with its Merkle root. *)
Record located (f : Flat) (txid : Hash) (ix : TxIndex) (blk : BlockRec) (leaves : list Hash) : Prop := mk_located
  { loc_ix : f_txindex f !! txid = Some ix;
    loc_mined : ix_Mined ix = true;
    loc_blk : f_blocks f !! ix_BlockHash ix = Some blk;
    loc_sub : exists r, br_SubtreeRoots blk !! Z.to_nat (ix_SubtreeIndex ix) = Some r
              /\ f_subtree f !! r = Some leaves /\ MerkleRoot leaves = Ok r;
    loc_leaf : leaves !! Z.to_nat (ix_LeafIndex ix) = Some txid;
    loc_root : MerkleRoot (br_SubtreeRoots blk) = Ok (br_MerkleRoot blk);
    loc_range : 0 <= ix_SubtreeIndex ix /\ 0 <= ix_LeafIndex ix;
    loc_size : Z.of_nat (length leaves) <= 2 ^ 20
               /\ Z.of_nat (length (br_SubtreeRoots blk)) <= 2 ^ 32 }.

Lemma CeilLog2_le n k : 1 <= n -> 0 <= k -> n <= 2 ^ k -> CeilLog2 n <= k.
Proof. intros. rewrite CeilLog2_log2_up by lia. apply Z.log2_up_le_pow2; lia. Qed.

Lemma Verify_paths leaf l1 sr l2 root bh h hdr :
  Z.of_nat (length l1) <= 20 -> Z.of_nat (length l2) <= 32 ->
  Fold leaf l1 = sr -> Fold sr l2 = root ->
  Verify (mkProof leaf l1 sr l2 root bh h hdr) = true.
Proof.
  intros H1 H2 <- <-. unfold Verify, VerifyToBlockRoot. simpl.
  destruct ((MaxDepth <? _) || (20 <? _)) eqn:E.
  - unfold MaxDepth in E. apply orb_true_iff in E. destruct E; zbool; lia.
  - by apply bool_decide_eq_true.
Qed.

Lemma Build_located f txid ix blk leaves :
  located f txid ix blk leaves ->
  exists p, Build txid f = (Ok p, f) /\ Verify p = true /\ p_Leaf p = txid
    /\ p_BlockRoot p = br_MerkleRoot blk /\ p_BlockHash p = br_Hash blk
    /\ p_Height p = ix_Height ix /\ p_Header p = br_Header blk.
Proof.
  intros [Hix Hm Hb (r & Hr & Hs & Hroot) Hl Htop [Hn1 Hn2] [Hz1 Hz2]].
  pose proof (lookup_lt_Some _ _ _ Hr). pose proof (lookup_lt_Some _ _ _ Hl).
  destruct (MerklePath_ok _ _ _ Hl) as (l1 & sr & Hp1 & Hr1 & Hf1 & Hlen1).
  destruct (MerklePath_ok _ _ _ Hr) as (l2 & br & Hp2 & Hr2 & Hf2 & Hlen2).
  rewrite Z2Nat.id in Hp1, Hp2 by lia.
  assert (sr = r) as -> by congruence. assert (br = br_MerkleRoot blk) as -> by congruence.
  apply MerkleRoot_inv in Hr1, Hr2.
  exists (mkProof txid l1 r l2 (br_MerkleRoot blk) (br_Hash blk) (ix_Height ix) (br_Header blk)).
  split; [|split; [apply Verify_paths|done]; try done].
  - unfold Build, mbind. simpl. rewrite Hix. simpl. rewrite Hm. simpl. rewrite Hb. simpl.
    rewrite (proj2 (Z.leb_gt _ _)) by lia.
    rewrite (proj2 (index_ok _ _ _) (conj Hn1 Hr)). simpl. rewrite Hs.
    rewrite (proj2 (Z.leb_gt _ _)) by lia.
    unfold mlift. rewrite Hr1. simpl. rewrite Hp1, Hr2. simpl. by rewrite Hp2.
  - rewrite Hlen1. apply CeilLog2_le; lia.
  - rewrite Hlen2. apply CeilLog2_le; lia.
Qed.

(** The outcome of [Build] on any contents: the store is only read, and each
    exit is one of the code's. *)
Lemma Build_outcome f txid :
  (forall ix, f_txindex f !! txid = Some ix -> 0 <= ix_SubtreeIndex ix /\ 0 <= ix_LeafIndex ix) ->
  (exists p, Build txid f = (Ok p, f) /\ p_Leaf p = txid)
  \/ (exists e, Build txid f = (Err e, f) /\ (e = ErrNotMined \/ e = ErrInconsistent)).
Proof.
  intros Hrange. unfold Build, mbind. simpl.
  destruct (f_txindex f !! txid) as [ix|] eqn:Eix; [|right; eauto].
  destruct (Hrange ix eq_refl) as [Hn1 Hn2].
  destruct (ix_Mined ix); simpl; [|right; eauto].
  destruct (f_blocks f !! ix_BlockHash ix) as [blk|]; [|right; eauto].
  destruct (Z.of_nat (length (br_SubtreeRoots blk)) <=? ix_SubtreeIndex ix) eqn:E1; zbool; [right; eauto|].
  destruct (lookup_lt_is_Some_2 (br_SubtreeRoots blk) (Z.to_nat (ix_SubtreeIndex ix))) as [r Hr]; [lia|].
  rewrite (proj2 (index_ok _ _ _) (conj Hn1 Hr)). simpl.
  destruct (f_subtree f !! r) as [leaves|]; [|right; eauto].
  destruct (Z.of_nat (length leaves) <=? ix_LeafIndex ix) eqn:E2; zbool; [right; eauto|].
  destruct (lookup_lt_is_Some_2 leaves (Z.to_nat (ix_LeafIndex ix))) as [l Hl]; [lia|].
  destruct (MerklePath_ok _ _ _ Hl) as (l1 & sr & Hp1 & Hr1 & _).
  destruct (MerklePath_ok _ _ _ Hr) as (l2 & br & Hp2 & Hr2 & _).
  rewrite Z2Nat.id in Hp1, Hp2 by lia. apply MerkleRoot_inv in Hr1, Hr2.
  unfold mlift. rewrite Hr1. simpl. rewrite Hp1, Hr2. simpl. rewrite Hp2. left. eauto.
Qed.

(** ** Properties *)

(** on every lawful store, [Build] is total on well-typed index entries: it
    never panics, never changes what the store holds, and returns a proof for
    the transaction asked for or one of the two documented errors. *)
Theorem build_total {S} `{LawfulStore S} (s : S) (txid : Hash) :
  store_inv s ->
  (forall ix, f_txindex (store_view s) !! txid = Some ix ->
     0 <= ix_SubtreeIndex ix /\ 0 <= ix_LeafIndex ix) ->
  exists r s', Build txid s = (r, s') /\ store_inv s' /\ store_view s' = store_view s
    /\ ((exists p, r = Ok p /\ p_Leaf p = txid) \/ r = Err ErrNotMined \/ r = Err ErrInconsistent).
Proof.
  intros Hi Hr. destruct (sim_Build txid s (store_view s)) as (r & s' & f' & E & E' & Hi' & Hv);
    [done|].
  exists r, s'. destruct (Build_outcome _ _ Hr) as [(p & Eb & Hl)|(e & Eb & He)];
    rewrite Eb in E'; injection E' as <- <-; naive_solver.
Qed.

(** ** Witness *)

Definition demo_blockrec : BlockRec :=
  mkBlockRec (demo_hash 50) 7 1700000000 demo_root [demo_root] (azero 80).
Definition demo_flat : Flat :=
  mkFlat {[ demo_hash 3 := mkTxIndex true (demo_hash 50) 7 1700000000 0 2 5 ]} ∅
    {[ demo_root := demo_leaves ]} {[ demo_hash 50 := demo_blockrec ]} ∅ ∅.

Lemma build_total_witness :
  exists r s', Build (demo_hash 3) demo_flat = (r, s') /\ store_inv s' /\ store_view s' = store_view demo_flat
    /\ ((exists p, r = Ok p /\ p_Leaf p = demo_hash 3) \/ r = Err ErrNotMined
        \/ r = Err ErrInconsistent).
Proof.
  apply (build_total demo_flat (demo_hash 3)); [exact I|].
  intros ix. simpl. rewrite lookup_singleton_eq. intros E. injection E as <-. simpl. lia.
Defined.
