(* ===== verification/Prune.v ===== *)
(** * prune: spend-depth retention ([src/prune/prune.go])

    The retention policy with its [uint32] depth, the pruner's tip bookkeeping
    and the gap-safe sweep.  A call may fail half-way with a count already
    made, so a sweep returns a count next to an optional error, as in Go. *)

From stdpp Require Import base gmap list strings sets.
From Stdlib Require Import ZArith Lia ZifyNat.
From S2P Require Import Prelude Commitment StoreSpec.
Open Scope go_scope.

(** ** Policy *)

Record Policy : Type := mkPolicy
  { ReorgHorizon : Z; RecencyWindow : Z; IndexRetention : Z }.

Definition D (p : Policy) : Z := u32 (ReorgHorizon p + RecencyWindow p).

Definition ErrBelowFloor : error :=
  "prune: depth D below the reorg-horizon correctness floor"%string.

Definition PolicyWithD (d reorgHorizon : Z) : result Policy :=
  if d <? reorgHorizon then Err ErrBelowFloor
  else Ok (mkPolicy reorgHorizon (u32 (d - reorgHorizon)) 0).

Definition RecommendedPolicy : Policy := mkPolicy 18 12 0.

Definition Depth (tip spentHeight : Z) : Z :=
  if tip <? spentHeight then 0 else u32 (u32 (tip - spentHeight) + 1).

Definition EstimateRetainedSpends (spendsPerBlock : Z) (p : Policy) : Z :=
  u64 (spendsPerBlock * D p).

(** ** The pruner *)

(** The store the Go struct points to is the other half of the state. *)
Record Pruner : Type := mkPruner
  { pr_policy : Policy; pr_lastTip : Z; pr_hasTip : bool; pr_total : Z }.

Definition NewPruner (p : Policy) : Pruner := mkPruner p 0 false 0.
Definition TotalPruned (pr : Pruner) : Z := pr_total pr.

Definition set_tip (tip : Z) : M Pruner unit :=
  fun pr => (Ok tt, mkPruner (pr_policy pr) tip true (pr_total pr)).
Definition add_total (n : Z) : M Pruner unit :=
  fun pr => (Ok tt, mkPruner (pr_policy pr) (pr_lastTip pr) (pr_hasTip pr) (u64 (pr_total pr + n))).

(** [for h := start; ; h++]: [fuel] bounds the iterations, the counter wraps. *)
Fixpoint sweep_loop {S} (fuel : nat) (h target total : Z) (fn : Z -> M S Z)
  : M S (Z * option error) :=
  match fuel with
  | O => mpanic
  | Datatypes.S fuel' =>
      r <- mtry (fn h) ;;
      match r with
      | Ok n =>
          if h =? target then mret (total + n, None)
          else sweep_loop fuel' (u32 (h + 1)) target (total + n) fn
      | Err e => mret (total, Some e)
      | Panic => mpanic
      end
  end.

(** The first band of a sweep. *)
Definition sweep_start (prevTip : Z) (hadTip : bool) (d target : Z) : Z :=
  if negb hadTip then target
  else if d <=? prevTip then u32 (u32 (prevTip - d) + 1)
  else 0.

Definition sweep {S} (prevTip : Z) (hadTip : bool) (tip d : Z) (fn : Z -> M S Z)
  : M S (Z * option error) :=
  if tip <? d then mret (0, None)
  else
    let target := u32 (tip - d) in
    let start := sweep_start prevTip hadTip d target in
    if target <? start then mret (0, None)
    else sweep_loop (Z.to_nat (target - start + 1)) start target 0 fn.

Definition OnNewBlock {S} `{Store S} (tip : Z) : M (S * Pruner) (Z * option error) :=
  pr <- on2 mget ;;
  on2 (set_tip tip) ;;
  r <- on1 (sweep (pr_lastTip pr) (pr_hasTip pr) tip (D (pr_policy pr)) PruneSpentAtHeight) ;;
  match r with
  | (n, Some e) => on2 (add_total n) ;; mret (n, Some e)
  | (n, None) =>
      if 0 <? IndexRetention (pr_policy pr) then
        r' <- on1 (sweep (pr_lastTip pr) (pr_hasTip pr) tip (IndexRetention (pr_policy pr))
                     PruneIndexAtHeight) ;;
        match r' with
        | (ni, Some e) => on2 (add_total (n + ni)) ;; mret (n + ni, Some e)
        | (ni, None) => on2 (add_total (n + ni)) ;; mret (n + ni, None)
        end
      else on2 (add_total n) ;; mret (n, None)
  end.

(** ** The bands a call evicts *)

Definition policy_ok (p : Policy) : Prop :=
  0 <= ReorgHorizon p /\ 0 <= RecencyWindow p /\ ReorgHorizon p + RecencyWindow p < 2 ^ 32
  /\ 0 <= IndexRetention p < 2 ^ 32.
Definition pruner_ok (pr : Pruner) : Prop :=
  policy_ok (pr_policy pr) /\ 0 <= pr_lastTip pr < 2 ^ 32.

(** The heights swept at depth [d] when the tip goes to [tip]. *)
Definition in_band (pr : Pruner) (tip d h : Z) : bool :=
  (d <=? tip) && (sweep_start (pr_lastTip pr) (pr_hasTip pr) d (tip - d) <=? h) && (h <=? tip - d).

(** ** Lemmas *)

Lemma D_exact p : policy_ok p -> D p = ReorgHorizon p + RecencyWindow p.
Proof. intros (? & ? & ? & ?). apply u32_small. lia. Qed.

Lemma sim_sweep_loop {S1 S2} (R : S1 -> S2 -> Prop) fuel h target total fn1 fn2 :
  (forall h, is_u 32 h -> sim R (fn1 h) (fn2 h)) -> is_u 32 h ->
  sim R (sweep_loop fuel h target total fn1) (sweep_loop fuel h target total fn2).
Proof.
  intros Hf. revert h total. induction fuel as [|fuel IH]; intros h total Hh; simpl.
  - apply (sim_lift R Panic).
  - apply sim_bind; [apply sim_try, Hf, Hh|]. intros [n|e|].
    + destruct (h =? target); [apply sim_ret|apply IH, u32_range].
    + apply sim_ret.
    + apply (sim_lift R Panic).
Qed.

(** A sweep only calls its function at heights that fit in 32 bits. *)
Lemma sim_sweep {S1 S2} (R : S1 -> S2 -> Prop) p hd t d fn1 fn2 :
  (forall h, is_u 32 h -> sim R (fn1 h) (fn2 h)) -> sim R (sweep p hd t d fn1) (sweep p hd t d fn2).
Proof.
  intros Hf. unfold sweep. cbv zeta. repeat case_match; try apply sim_ret.
  apply sim_sweep_loop; [exact Hf|]. unfold sweep_start. repeat case_match; try apply u32_range. by vm_compute.
Qed.

Lemma sim_OnNewBlock_on {S1 S2} `{SimStore S1 S2 R ok} tip :
  (forall h, is_u 32 h -> ok _ (OPruneSpent h)) -> (forall h, is_u 32 h -> ok _ (OPruneIndex h)) ->
  sim (rel1 R Pruner) (OnNewBlock (S := S1) tip) (OnNewBlock (S := S2) tip).
Proof.
  intros Hps Hpi. unfold OnNewBlock. apply sim_bind; [apply sim_on2|]. intros pr.
  apply sim_bind; [apply sim_on2|]. intros _.
  apply sim_bind; [apply sim_on1, sim_sweep; intros h Hh; exact (sim_ok _ (OPruneSpent h) (Hps h Hh))|]. intros [n [e|]].
  - apply sim_bind; [apply sim_on2|intros; apply sim_ret].
  - destruct (0 <? _); [|apply sim_bind; [apply sim_on2|intros; apply sim_ret]].
    apply sim_bind; [apply sim_on1, sim_sweep; intros h Hh; exact (sim_ok _ (OPruneIndex h) (Hpi h Hh))|].
    intros [m [e|]]; (apply sim_bind; [apply sim_on2|intros; apply sim_ret]).
Qed.

Lemma sim_OnNewBlock {S} `{LawfulStore S} tip :
  sim (rel1 store_rel Pruner) (OnNewBlock (S := S) tip) (OnNewBlock (S := Flat) tip).
Proof. by apply sim_OnNewBlock_on. Qed.
#[export] Hint Resolve sim_OnNewBlock : sim.

(** The loop visits [h .. target] in order, one call each, and stops. *)
Lemma sweep_loop_inv {S} (P : Z -> Z -> S -> Prop) (fn : Z -> M S Z) target fuel h total s :
  0 <= h <= target -> target < 2 ^ 32 -> target - h < Z.of_nat fuel -> P h total s ->
  (forall h' t s', h <= h' <= target -> P h' t s' ->
     exists n s'', fn h' s' = (Ok n, s'') /\ P (h' + 1) (t + n) s'') ->
  exists n s', sweep_loop fuel h target total fn s = (Ok (n, None), s') /\ P (target + 1) n s'.
Proof.
  revert h total s. induction fuel as [|fuel IH]; intros h total s Hh Ht Hf HP Hstep; [lia|].
  destruct (Hstep h total s ltac:(lia) HP) as (n & s' & E & HP').
  cbn [sweep_loop]. unfold mbind, mtry. rewrite E.
  destruct (h =? target) eqn:Eh; zbool.
  - subst. by eexists _, _.
  - rewrite u32_small by lia. apply IH; [lia..|done|].
    intros h' t s1 Hh'. apply Hstep. lia.
Qed.

(** A sweep establishes what its body establishes band by band. *)
Lemma sweep_inv {S} (P : Z -> Z -> S -> Prop) (fn : Z -> M S Z) pr tip d s :
  0 <= pr_lastTip pr < 2 ^ 32 -> 0 <= tip < 2 ^ 32 -> 0 <= d < 2 ^ 32 ->
  let lo := sweep_start (pr_lastTip pr) (pr_hasTip pr) d (tip - d) in
  P lo 0 s ->
  (forall h t s', d <= tip -> lo <= h <= tip - d -> P h t s' ->
     exists n s'', fn h s' = (Ok n, s'') /\ P (h + 1) (t + n) s'') ->
  exists n s', sweep (pr_lastTip pr) (pr_hasTip pr) tip d fn s = (Ok (n, None), s')
    /\ if (d <=? tip) && (lo <=? tip - d) then P (tip - d + 1) n s' else n = 0 /\ s' = s.
Proof.
  intros Hp Ht Hd lo H0 Hstep. unfold sweep.
  destruct (tip <? d) eqn:E1; zbool.
  { exists 0, s. rewrite (proj2 (Z.leb_gt _ _)) by lia. done. }
  rewrite (proj2 (Z.leb_le _ _)) by lia. cbv zeta. rewrite (u32_small (tip - d)) by lia. fold lo.
  destruct (tip - d <? lo) eqn:E2; zbool.
  { exists 0, s. rewrite (proj2 (Z.leb_gt _ _)) by lia. done. }
  rewrite (proj2 (Z.leb_le _ _)) by lia. simpl.
  assert (0 <= lo) by (unfold lo, sweep_start; repeat case_match; try lia; apply u32_range).
  apply sweep_loop_inv; [lia..|done|]. intros h t s' Hh. apply Hstep; lia.
Qed.

Definition spent_in (lo hi : Z) (u : UTXO) : bool :=
  u_Spent u && (lo <=? u_SpentHeight u) && (u_SpentHeight u <=? hi).

Lemma spent_in_step lo h u :
  lo <= h -> spent_in lo h u = spent_in lo (h - 1) u || spent_at h u.
Proof.
  intros Hlo. unfold spent_in, spent_at. destruct (u_Spent u); simpl; [|done].
  destruct (lo <=? _) eqn:?, (_ <=? h) eqn:?, (_ <=? h - 1) eqn:?, (_ =? h) eqn:?;
    simpl; try done; zbool; lia.
Qed.

Lemma filter_spent_in_step lo h (m : gmap Outpoint UTXO) :
  lo <= h ->
  filter (fun p => spent_at h p.2 = false) (filter (fun p => spent_in lo (h - 1) p.2 = false) m)
  = filter (fun p => spent_in lo h p.2 = false) m.
Proof.
  intros Hlo. apply map_eq. intros op. rewrite !map_lookup_filter.
  destruct (m !! op) as [u|]; [|done]. simpl. rewrite (spent_in_step lo h u Hlo).
  destruct (spent_in lo (h - 1) u), (spent_at h u) eqn:E; simpl; repeat (case_guard; simpl); congruence.
Qed.

Lemma filter_spent_in_none lo (m : gmap Outpoint UTXO) :
  filter (fun p => spent_in lo (lo - 1) p.2 = false) m = m.
Proof.
  apply map_filter_id. intros op u _. unfold spent_in. simpl.
  destruct (u_Spent u); simpl; [|done]. apply andb_false_iff.
  destruct (lo <=? u_SpentHeight u) eqn:E; [right|by left]. zbool. apply Z.leb_gt. lia.
Qed.

Lemma size_filter_split (m : gmap Outpoint UTXO) (b : UTXO -> bool) :
  Z.of_nat (size (filter (fun p => b p.2 = true) m))
  = Z.of_nat (size m) - Z.of_nat (size (filter (fun p => b p.2 = false) m)).
Proof.
  rewrite <- (map_filter_union_complement (fun p => b p.2 = true) m) at 2.
  rewrite map_size_disj_union by apply map_disjoint_filter_complement.
  assert (filter (fun p => ~ b p.2 = true) m = filter (fun p => b p.2 = false) m) as ->; [|lia].
  apply map_filter_ext. intros op u _. simpl. by rewrite not_true_iff_false.
Qed.

Lemma set_utxo_utxo m1 m2 f : set_utxo m1 (set_utxo m2 f) = set_utxo m1 f.
Proof. done. Qed.
Lemma set_utxo_id f : set_utxo (f_utxo f) f = f.
Proof. by destruct f. Qed.

(** A spend sweep on the reference store removes the spent records of the
    swept bands, all of them and nothing else, and counts them. *)
Lemma sweep_spent_flat pr tip d (f : Flat) :
  0 <= pr_lastTip pr < 2 ^ 32 -> 0 <= tip < 2 ^ 32 -> 0 <= d < 2 ^ 32 ->
  let kept := filter (fun p => u_Spent p.2 && in_band pr tip d (u_SpentHeight p.2) = false) (f_utxo f) in
  sweep (pr_lastTip pr) (pr_hasTip pr) tip d PruneSpentAtHeight f
  = (Ok (Z.of_nat (size (f_utxo f)) - Z.of_nat (size kept), None), set_utxo kept f).
Proof.
  intros Hp Ht Hd kept.
  set (lo := sweep_start (pr_lastTip pr) (pr_hasTip pr) d (tip - d)).
  destruct (sweep_inv (fun h t f' =>
      f' = set_utxo (filter (fun p => spent_in lo (h - 1) p.2 = false) (f_utxo f)) f
      /\ t = Z.of_nat (size (f_utxo f))
             - Z.of_nat (size (filter (fun p => spent_in lo (h - 1) p.2 = false) (f_utxo f))))
      PruneSpentAtHeight pr tip d f Hp Ht Hd) as (n & f' & E & Hpost).
  - fold lo. rewrite filter_spent_in_none, set_utxo_id. split; [done|lia].
  - intros h t f' Hdt Hh [-> ->]. fold lo in Hh. eexists _, _. split; [reflexivity|].
    replace (h + 1 - 1) with h by lia. rewrite set_utxo_utxo. simpl f_utxo.
    rewrite filter_spent_in_step by lia. split; [done|].
    rewrite size_filter_split, filter_spent_in_step by lia. lia.
  - rewrite E. fold lo in Hpost.
    assert (kept = if (d <=? tip) && (lo <=? tip - d)
                   then filter (fun p => spent_in lo (tip - d) p.2 = false) (f_utxo f)
                   else f_utxo f) as ->.
    { unfold kept, in_band. fold lo. destruct ((d <=? tip) && (lo <=? tip - d)) eqn:Eb.
      - apply map_filter_ext. intros op u _. simpl. unfold spent_in. zbool.
        rewrite (proj2 (Z.leb_le d tip)) by lia. simpl. by rewrite andb_assoc.
      - apply map_filter_id. intros op u _. simpl. apply andb_false_iff. right.
        apply not_true_iff_false. intros Hc. zbool. apply andb_false_iff in Eb as [Eb|Eb]; zbool; lia. }
    destruct ((d <=? tip) && (lo <=? tip - d)).
    + destruct Hpost as [-> ->]. by replace (tip - d + 1 - 1) with (tip - d) by lia.
    + destruct Hpost as [-> ->]. rewrite set_utxo_id. by replace (Z.of_nat _ - Z.of_nat _) with 0 by lia.
Qed.

(** What an index sweep over the heights [lo .. hi] does: the records those
    heights list are gone, every unlisted record and all outputs stay. *)
Record index_swept (lo hi : Z) (f f' : Flat) : Prop := mk_index_swept
  { sw_utxo : f_utxo f' = f_utxo f;
    sw_hidx : forall k, f_hidx f' !! k = if (lo <=? k) && (k <=? hi) then None else f_hidx f !! k;
    sw_tx : forall t, f_txindex f' !! t = f_txindex f !! t
              \/ exists k, lo <= k <= hi /\ t ∈ he_txids (entry_at (f_hidx f) k);
    sw_tx_gone : forall t k, lo <= k <= hi -> t ∈ he_txids (entry_at (f_hidx f) k) ->
              f_txindex f' !! t = None;
    sw_sub : forall r, f_subtree f' !! r = f_subtree f !! r
              \/ exists k, lo <= k <= hi /\ r ∈ he_subtrees (entry_at (f_hidx f) k);
    sw_blk : forall b, f_blocks f' !! b = f_blocks f !! b
              \/ exists k, lo <= k <= hi /\ he_hasBlock (entry_at (f_hidx f) k) = true
                           /\ he_block (entry_at (f_hidx f) k) = b;
    sw_hdr : forall k, f_hdr f' !! k = if (lo <=? k) && (k <=? hi) then None else f_hdr f !! k }.

Lemma index_swept_none lo hi f : hi < lo -> index_swept lo hi f f.
Proof.
  intros Hlt. split; intros; try (by left); try done; try lia;
    destruct (lo <=? k) eqn:E1, (k <=? hi) eqn:E2; simpl; try done; zbool; lia.
Qed.

Lemma band_step lo h k : lo <= h ->
  (lo <=? k) && (k <=? h) = ((lo <=? k) && (k <=? h - 1)) || (k =? h).
Proof.
  intros. destruct (lo <=? k) eqn:?, (k <=? h) eqn:?, (k <=? h - 1) eqn:?, (k =? h) eqn:?;
    simpl; try done; zbool; lia.
Qed.

Lemma index_swept_step lo h f f' :
  lo <= h -> index_swept lo (h - 1) f f' -> index_swept lo h f (flat_prune_index h f').2.
Proof.
  intros Hlo [Hu Hh Ht Htg Hs Hb Hd].
  assert (entry_at (f_hidx f') h = entry_at (f_hidx f) h) as He.
  { unfold entry_at. rewrite Hh, (proj2 (Z.leb_gt h (h - 1))) by lia. by rewrite andb_false_r. }
  rewrite flat_prune_index_eq. cbv zeta. rewrite He. split; simpl.
  - done.
  - intros k. rewrite lookup_delete, Hh, (band_step lo h k Hlo).
    destruct (Z.eqb_spec k h) as [->|]; [by rewrite decide_True, orb_true_r|].
    by rewrite decide_False, orb_false_r.
  - intros t. rewrite delete_count_lookup. case_bool_decide as Hin; [right; exists h; auto with lia|].
    destruct (Ht t) as [->|(k & Hk & Hin')]; [by left|right]. exists k. auto with lia.
  - intros t k Hk Hin. rewrite delete_count_lookup. case_bool_decide as Hin'; [done|].
    apply (Htg t k); [|done]. destruct (decide (k = h)); [by subst|lia].
  - intros r. rewrite delete_count_lookup. case_bool_decide as Hin; [right; exists h; auto with lia|].
    destruct (Hs r) as [->|(k & Hk & Hin')]; [by left|right]. exists k. auto with lia.
  - intros b. rewrite delete_count_lookup. case_bool_decide as Hin.
    + right. exists h. split; [lia|]. destruct (he_hasBlock _); [split; [done|]|]; set_solver.
    + destruct (Hb b) as [->|(k & Hk & Hin')]; [by left|right]. exists k. auto with lia.
  - intros k. rewrite lookup_delete, Hd, (band_step lo h k Hlo).
    destruct (Z.eqb_spec k h) as [->|]; [by rewrite decide_True, orb_true_r|].
    by rewrite decide_False, orb_false_r.
Qed.

(** The bounds of the band a call sweeps at depth [d]. *)
Definition band_lo (pr : Pruner) (tip d : Z) : Z :=
  sweep_start (pr_lastTip pr) (pr_hasTip pr) d (tip - d).
Definition band_hi (pr : Pruner) (tip d : Z) : Z :=
  if d <=? tip then tip - d else band_lo pr tip d - 1.

Lemma sweep_index_flat pr tip d (f : Flat) :
  0 <= pr_lastTip pr < 2 ^ 32 -> 0 <= tip < 2 ^ 32 -> 0 <= d < 2 ^ 32 ->
  exists n f', sweep (pr_lastTip pr) (pr_hasTip pr) tip d PruneIndexAtHeight f = (Ok (n, None), f')
    /\ 0 <= n /\ index_swept (band_lo pr tip d) (band_hi pr tip d) f f'.
Proof.
  intros Hp Ht Hd. unfold band_hi. set (lo := band_lo pr tip d).
  destruct (sweep_inv (fun h t f' => index_swept lo (h - 1) f f' /\ 0 <= t)
      PruneIndexAtHeight pr tip d f Hp Ht Hd) as (n & f' & E & Hpost).
  - split; [|done]. apply index_swept_none. fold (band_lo pr tip d). lia.
  - intros h t f' Hdt Hh [Hsw H0]. fold (band_lo pr tip d) in Hh. fold lo in Hh. simpl.
    destruct (flat_prune_index h f') as [n f''] eqn:Ef. exists n, f''. split; [done|].
    pose proof (flat_prune_index_count h f') as Hn. rewrite Ef in Hn. simpl in Hn.
    split; [|lia]. replace (h + 1 - 1) with h by lia.
    replace f'' with (flat_prune_index h f').2 by (by rewrite Ef). by apply index_swept_step; [lia|].
  - exists n, f'. split; [done|]. fold (band_lo pr tip d) in Hpost. fold lo in Hpost.
    destruct (d <=? tip); simpl in Hpost.
    + destruct (lo <=? tip - d) eqn:E2; zbool.
      * destruct Hpost as [Hsw ?]. split; [done|]. by replace (tip - d + 1 - 1) with (tip - d) in Hsw by lia.
      * destruct Hpost as [-> ->]. split; [done|]. apply index_swept_none. lia.
    + destruct Hpost as [-> ->]. split; [done|]. apply index_swept_none. lia.
Qed.

(** The outputs the policy keeps when the tip goes to [tip]. *)
Definition kept_spends (pr : Pruner) (tip : Z) (m : gmap Outpoint UTXO) : gmap Outpoint UTXO :=
  filter (fun p => u_Spent p.2 && in_band pr tip (D (pr_policy pr)) (u_SpentHeight p.2) = false) m.

(** The whole handler on the reference store. *)
Lemma OnNewBlock_flat pr tip (f : Flat) :
  pruner_ok pr -> 0 <= tip < 2 ^ 32 ->
  let R := IndexRetention (pr_policy pr) in
  exists n f', OnNewBlock tip (f, pr)
      = (Ok (n, None), (f', mkPruner (pr_policy pr) tip true (u64 (pr_total pr + n))))
    /\ f_utxo f' = kept_spends pr tip (f_utxo f)
    /\ Z.of_nat (size (f_utxo f)) - Z.of_nat (size (f_utxo f')) <= n
    /\ (if 0 <? R
        then index_swept (band_lo pr tip R) (band_hi pr tip R) (set_utxo (f_utxo f') f) f'
        else f' = set_utxo (f_utxo f') f
             /\ n = Z.of_nat (size (f_utxo f)) - Z.of_nat (size (f_utxo f'))).
Proof.
  intros [Hpol Hlast] Ht R. pose proof Hpol as (? & ? & ? & HR).
  assert (0 <= D (pr_policy pr) < 2 ^ 32) as HD by (rewrite D_exact by done; lia).
  unfold OnNewBlock, mbind, on1, on2, mget, set_tip, add_total, mret. cbn [fst snd].
  rewrite (sweep_spent_flat pr tip _ f Hlast Ht HD). cbn [fst snd]. fold (kept_spends pr tip (f_utxo f)).
  set (n0 := Z.of_nat (size (f_utxo f)) - _). fold R. destruct (0 <? R) eqn:ER; cbn [fst snd].
  - destruct (sweep_index_flat pr tip R (set_utxo (kept_spends pr tip (f_utxo f)) f) Hlast Ht HR)
      as (n & f' & -> & Hn & Hsw). cbn [fst snd pr_policy pr_lastTip pr_hasTip pr_total].
    exists (n0 + n), f'. split; [done|]. pose proof (sw_utxo _ _ _ _ Hsw) as Hu. simpl in Hu.
    rewrite Hu. split_and!; [done|unfold n0; lia|done].
  - exists n0, (set_utxo (kept_spends pr tip (f_utxo f)) f). split_and!; try done; simpl; unfold n0; lia.
Qed.

(** A height whose spends are more than [d] blocks deep at the new tip, and were
    not at the previous one; without a previous tip, the one band [d + 1] deep. *)
Definition newly_deep (pr : Pruner) (tip d h : Z) : bool :=
  (0 <=? h) && (d <=? tip - h)
  && if pr_hasTip pr then pr_lastTip pr - h <? d else h =? tip - d.

(** The bands the code computes are those heights. *)
Lemma in_band_newly_deep pr tip d h :
  0 <= pr_lastTip pr < 2 ^ 32 - 1 -> 0 <= tip < 2 ^ 32 -> 0 <= d < 2 ^ 32 ->
  in_band pr tip d h = newly_deep pr tip d h.
Proof.
  intros Hl Ht Hd. apply eq_bool_prop_intro. unfold in_band, newly_deep, sweep_start.
  rewrite !Is_true_true, !andb_true_iff, !Z.leb_le.
  destruct (pr_hasTip pr); simpl; [|rewrite Z.eqb_eq; lia].
  destruct (Z.leb_spec d (pr_lastTip pr)).
  - rewrite (u32_small (_ - d)), u32_small by lia. rewrite Z.ltb_lt. lia.
  - rewrite Z.ltb_lt. lia.
Qed.

(** ** Properties *)

(** C14: the retention sweep is exact on every lawful store.  A call with the new
    tip succeeds, records the tip, adds the number of evicted records to the
    total, and an output is still stored afterwards exactly when it was stored
    and is not a spend that became more than [D] blocks deep with this tip: it
    was not that deep at the previous tip, or, on the first call, it is the one
    band exactly [D + 1] deep. *)
Theorem on_new_block_exact {S} `{LawfulStore S} (s : S) (pr : Pruner) (tip : Z) :
  store_inv s -> pruner_ok pr -> 0 <= tip < 2 ^ 32 -> pr_lastTip pr < 2 ^ 32 - 1 ->
  exists n s', OnNewBlock tip (s, pr)
      = (Ok (n, None), (s', mkPruner (pr_policy pr) tip true (u64 (pr_total pr + n))))
    /\ store_inv s'
    /\ forall op, f_utxo (store_view s') !! op
       = match f_utxo (store_view s) !! op with
         | Some u => if u_Spent u && newly_deep pr tip (D (pr_policy pr)) (u_SpentHeight u)
                     then None else Some u
         | None => None
         end.
Proof.
  intros Hi Hpr Ht Hlast. destruct (OnNewBlock_flat pr tip (store_view s) Hpr Ht) as (n & f & E & Hu & _).
  destruct (sim_OnNewBlock tip (s, pr) (store_view s, pr)) as (r & [s' pr'] & q & E1 & E2 & [[Hi' Hv] Hp]);
    [done|].
  rewrite E in E2. injection E2 as <- <-. simpl in Hv, Hp. subst pr' f. exists n, s'.
  split_and!; [done|done|]. intros op. rewrite Hu. unfold kept_spends. rewrite map_lookup_filter.
  destruct Hpr as [Hpol Hl].
  assert (0 <= D (pr_policy pr) < 2 ^ 32) as HD by (rewrite D_exact by done; unfold policy_ok in Hpol; lia).
  destruct (f_utxo (store_view s) !! op) as [u|]; [|done]. simpl. rewrite in_band_newly_deep by lia.
  destruct (u_Spent u && newly_deep pr tip (D (pr_policy pr)) (u_SpentHeight u)) eqn:Eb;
    case_guard; simpl; congruence.
Qed.

Lemma in_band_deep pr tip d h :
  0 <= h -> 0 <= tip < 2 ^ 32 -> in_band pr tip d h = true -> tip - h + 1 > d.
Proof. unfold in_band. intros. zbool. lia. Qed.

(** the reorg-horizon floor.  For a policy whose two windows fit in 32 bits, no
    call evicts an unspent output, nor a spend buried at most [D] blocks deep
    at the new tip (so none within the reorg horizon); a rollback of that
    depth finds its record. *)
Theorem prune_respects_floor {S} `{LawfulStore S} (s : S) (pr : Pruner) (tip : Z) (op : Outpoint)
    (u : UTXO) :
  store_inv s -> pruner_ok pr -> 0 <= tip < 2 ^ 32 - 1 ->
  f_utxo (store_view s) !! op = Some u ->
  u_Spent u = false
  \/ (0 <= u_SpentHeight u /\ Depth tip (u_SpentHeight u) <= D (pr_policy pr)) ->
  exists n s' pr', OnNewBlock tip (s, pr) = (Ok (n, None), (s', pr'))
    /\ f_utxo (store_view s') !! op = Some u
    /\ ReorgHorizon (pr_policy pr) <= D (pr_policy pr).
Proof.
  intros Hi Hpr Ht Hu Hkeep. destruct (OnNewBlock_flat pr tip (store_view s) Hpr) as (n & f & E & Hf & _);
    [lia|].
  destruct (sim_OnNewBlock tip (s, pr) (store_view s, pr)) as (r & [s' pr'] & q & E1 & E2 & [[Hi' Hv] Hp]);
    [done|].
  rewrite E in E2. injection E2 as <- <-. simpl in Hv, Hp. subst pr' f. eexists _, _, _.
  split_and!; [done| |destruct Hpr as [Hpol _]; rewrite (D_exact _ Hpol); unfold policy_ok in Hpol; lia].
  rewrite Hf. apply map_lookup_filter_Some. split; [done|]. simpl.
  destruct Hkeep as [->|[Hsh Hd]]; [done|]. apply andb_false_iff. right.
  apply not_true_iff_false. intros Hb. apply in_band_deep in Hb as Hb'; [|lia..].
  destruct Hpr as [Hpol Hl]. rewrite (D_exact _ Hpol) in *. destruct Hpol as (? & ? & ? & ?).
  unfold in_band in Hb. zbool. unfold Depth in Hd. rewrite (proj2 (Z.ltb_ge _ _)) in Hd by lia.
  rewrite (u32_small (tip - _)) in Hd by lia. rewrite u32_small in Hd by lia. lia.
Qed.

(** [PolicyWithD] refuses exactly the depths below the horizon, and a policy it
    returns has that depth, so its floor holds and the pruner accepts it. *)
Theorem policy_with_d_floor (d rh : Z) :
  is_u 32 d -> is_u 32 rh ->
  (d < rh /\ PolicyWithD d rh = Err ErrBelowFloor)
  \/ (exists p, PolicyWithD d rh = Ok p /\ D p = d /\ ReorgHorizon p = rh /\ ReorgHorizon p <= D p
        /\ policy_ok p).
Proof.
  intros Hd Hr. unfold is_u in *. unfold PolicyWithD. destruct (d <? rh) eqn:E; zbool; [by left|right].
  eexists. split; [done|]. unfold D, policy_ok. simpl.
  rewrite (u32_small (d - rh)) by lia. replace (rh + (d - rh)) with d by lia.
  rewrite u32_small by lia. lia.
Qed.

(** a policy built without [PolicyWithD] can have [D] below its reorg horizon:
    the sum wraps.  With a horizon of [2^32 - 1] and a recency window of 2 the
    depth is 1, and a spend two blocks deep is evicted although it lies within
    the horizon. *)
Theorem policy_sum_wraps (op : Outpoint) (u : UTXO) (by_ : Hash) :
  let p := mkPolicy (2 ^ 32 - 1) 2 0 in
  let f := set_utxo {[ op := mark_spent u by_ 9 ]} flatEmpty in
  D p = 1 /\ Depth 10 9 = 2
  /\ OnNewBlock 10 (f, NewPruner p) = (Ok (1, None), (flatEmpty, mkPruner p 10 true 1)).
Proof.
  cbv zeta. set (p := mkPolicy (2 ^ 32 - 1) 2 0). set (f := set_utxo _ flatEmpty).
  assert (D p = 1) as HD by reflexivity. split_and!; [done|reflexivity|].
  unfold OnNewBlock, mbind, on1, on2, mget, set_tip, add_total, mret. cbn [fst snd].
  change (pr_policy (NewPruner p)) with p. rewrite HD.
  rewrite (sweep_spent_flat (NewPruner p) 10 1 f) by (simpl; lia).
  assert (filter (fun q => u_Spent q.2 && in_band (NewPruner p) 10 1 (u_SpentHeight q.2) = false)
            (f_utxo f) = ∅) as ->.
  { apply map_empty. intros op'. rewrite map_lookup_filter. unfold f. simpl.
    rewrite lookup_singleton. by case_decide. }
  assert (size (f_utxo f) = 1%nat) as -> by (unfold f; apply map_size_singleton).
  rewrite map_size_empty. reflexivity.
Qed.

(** ** Witnesses *)

Definition demo_pruner : Pruner := mkPruner RecommendedPolicy 129 true 0.
Definition demo_outpoint : Outpoint := mkOutpoint (demo_hash 7) 0.
Definition demo_spend (h : Z) : UTXO := mkUTXO 500 (demo_hash 8) true (demo_hash 9) h.
Definition demo_spends : Flat := set_utxo {[ demo_outpoint := demo_spend 101 ]} flatEmpty.

Lemma demo_pruner_ok : pruner_ok demo_pruner.
Proof. unfold pruner_ok, policy_ok. simpl. lia. Qed.

Lemma on_new_block_exact_witness :
  exists n s', OnNewBlock 130 (demo_spends, demo_pruner)
      = (Ok (n, None), (s', mkPruner RecommendedPolicy 130 true (u64 (0 + n))))
    /\ store_inv s'
    /\ forall op, f_utxo (store_view s') !! op
       = match f_utxo (store_view demo_spends) !! op with
         | Some u => if u_Spent u && newly_deep demo_pruner 130 (D RecommendedPolicy) (u_SpentHeight u)
                     then None else Some u
         | None => None
         end.
Proof. apply (on_new_block_exact demo_spends demo_pruner 130); [exact I|apply demo_pruner_ok|lia|simpl; lia]. Defined.

Lemma prune_respects_floor_witness :
  exists n s' pr', OnNewBlock 130 (demo_spends, demo_pruner) = (Ok (n, None), (s', pr'))
    /\ f_utxo (store_view s') !! demo_outpoint = Some (demo_spend 101)
    /\ ReorgHorizon (pr_policy demo_pruner) <= D (pr_policy demo_pruner).
Proof.
  apply (prune_respects_floor demo_spends demo_pruner 130 demo_outpoint (demo_spend 101)).
  - exact I.
  - apply demo_pruner_ok.
  - lia.
  - simpl. apply lookup_singleton_eq.
  - right. vm_compute. split; discriminate.
Defined.

Lemma policy_with_d_floor_witness :
  (30 < 18 /\ PolicyWithD 30 18 = Err ErrBelowFloor)
  \/ (exists p, PolicyWithD 30 18 = Ok p /\ D p = 30 /\ ReorgHorizon p = 18
        /\ ReorgHorizon p <= D p /\ policy_ok p).
Proof. apply (policy_with_d_floor 30 18); unfold is_u; lia. Defined.
