(* ===== verification/Teranode.v ===== *)
(** * teranode: block data, the Source interface, the mock chain
      ([src/teranode/teranode.go])

    The records pulled from Teranode, the [Source] interface as a type class,
    and the deterministic [MockSource] with its splitmix64 generator at 64-bit
    width.  Every block the mock source produces is Merkle-consistent. *)

From stdpp Require Import base gmap list strings.
From Stdlib Require Import ZArith Lia ZifyNat.
From Stdlib Require Strings.Byte.
From S2P Require Import Prelude Sha256 Commitment StoreSpec ProofPath.
Open Scope go_scope.

(** ** Data *)

Record TxOut : Type := mkTxOut { o_Value : Z; o_ScriptHash : Hash }.
Record Tx : Type := mkTx { tx_TxID : Hash; tx_Inputs : list Outpoint; tx_Outputs : list TxOut }.
Record Subtree : Type := mkSubtree { sub_Root : Hash; sub_TxIDs : list Hash; sub_Txs : list Tx }.
Record Block : Type := mkBlock
  { b_Hash : Hash; b_Height : Z; b_Time : Z; b_MerkleRoot : Hash; b_SubtreeRoots : list Hash;
    b_Header : Header; b_Subtrees : list Subtree }.

(** A stream of sealed blocks; [None] is the exhausted stream. *)
Class Source (T : Type) : Type := mkSource
  { Next : M T (option Block);
    TipHeight : T -> Z }.

(** ** The mock source *)

Record MockConfig : Type := mkMockConfig
  { c_Blocks : Z; c_SubtreesPer : Z; c_TxsPerSubtree : Z; c_SpendFraction : Z;
    c_StartHeight : Z; c_Seed : Z }.

Record MockSource : Type := mkMockSource
  { m_cfg : MockConfig; m_height : Z; m_made : Z; m_rng : Z; m_live : list Outpoint }.

Definition at_least_one (n : Z) : Z := if n <=? 0 then 1 else n.

Definition NewMock (cfg : MockConfig) : MockSource :=
  let cfg' := mkMockConfig (at_least_one (c_Blocks cfg)) (at_least_one (c_SubtreesPer cfg))
                (at_least_one (c_TxsPerSubtree cfg)) (c_SpendFraction cfg)
                (c_StartHeight cfg) (c_Seed cfg) in
  let seed := if c_Seed cfg =? 0 then 0x9e3779b97f4a7c15 else c_Seed cfg in
  mkMockSource cfg' (c_StartHeight cfg) 0 seed [].

Definition set_rng (m : MockSource) (r : Z) : MockSource :=
  mkMockSource (m_cfg m) (m_height m) (m_made m) r (m_live m).
Definition set_live (m : MockSource) (l : list Outpoint) : MockSource :=
  mkMockSource (m_cfg m) (m_height m) (m_made m) (m_rng m) l.

Definition next64 (m : MockSource) : Z * MockSource :=
  let rng := u64 (m_rng m + 0x9e3779b97f4a7c15) in
  let z := u64 (Z.lxor rng (Z.shiftr rng 30) * 0xbf58476d1ce4e5b9) in
  let z := u64 (Z.lxor z (Z.shiftr z 27) * 0x94d049bb133111eb) in
  (Z.lxor z (Z.shiftr z 31), set_rng m rng).

Definition mock_txid (blk sub idx : Z) (m : MockSource) : Hash * MockSource :=
  let '(r, m') := next64 m in
  (DoubleSHA256 (be_bytes 4 blk ++ be_bytes 4 (u32 sub) ++ be_bytes 4 (u32 idx) ++ be_bytes 8 r), m').

Definition mock_tip_height (m : MockSource) : Z :=
  if m_made m =? 0 then c_StartHeight (m_cfg m) else u32 (m_height m - 1).

Definition buildHeader (height t : Z) (root : Hash) : Header :=
  arr 80 (le_bytes 4 0x20000000 ++ replicate 28 Byte.x00 ++ be_bytes 4 height ++ abytes root
          ++ le_bytes 4 t ++ le_bytes 4 0x1d00ffff ++ replicate 4 Byte.x00).

(** One iteration of the transaction loop; [spendIdx] runs along [toSpend]. *)
Definition mock_tx (h s i : Z) (toSpend : list Outpoint) (spendIdx : Z) (m : MockSource)
  : Tx * Z * MockSource :=
  let '(id, m1) := mock_txid h s i m in
  let '(ins, spendIdx') :=
    if spendIdx <? Z.of_nat (length toSpend)
    then (match index toSpend spendIdx with Ok op => [op] | _ => [] end, spendIdx + 1)
    else ([], spendIdx) in
  let '(r, m2) := next64 m1 in
  let outs := [mkTxOut (1000 + r mod 9000) (DoubleSHA256 (abytes id))] in
  (mkTx id ins outs, spendIdx', set_live m2 (m_live m2 ++ [mkOutpoint id 0])).

(** [for i := 0; i < TxsPerSubtree; i++], [n] iterations left. *)
Fixpoint mock_txs (n : nat) (h s i : Z) (toSpend : list Outpoint) (spendIdx : Z) (m : MockSource)
  : list Tx * Z * MockSource :=
  match n with
  | O => ([], spendIdx, m)
  | S n' =>
      let '(tx, spendIdx1, m1) := mock_tx h s i toSpend spendIdx m in
      let '(rest, spendIdx2, m2) := mock_txs n' h s (i + 1) toSpend spendIdx1 m1 in
      (tx :: rest, spendIdx2, m2)
  end.

(** The discarded error of [root, _ := commitment.MerkleRoot(...)]. *)
Definition root_or_zero (leaves : list Hash) : Hash :=
  match MerkleRoot leaves with Ok r => r | _ => zeroHash end.

Fixpoint mock_subtrees (n : nat) (h s : Z) (toSpend : list Outpoint) (spendIdx : Z) (m : MockSource)
  : list Subtree * MockSource :=
  match n with
  | O => ([], m)
  | S n' =>
      let '(txs, spendIdx1, m1) :=
        mock_txs (Z.to_nat (c_TxsPerSubtree (m_cfg m))) h s 0 toSpend spendIdx m in
      let txids := tx_TxID <$> txs in
      let sub := mkSubtree (root_or_zero txids) txids txs in
      let '(rest, m2) := mock_subtrees n' h (s + 1) toSpend spendIdx1 m1 in
      (sub :: rest, m2)
  end.

Definition mock_Next : M MockSource (option Block) :=
  fun m =>
  if c_Blocks (m_cfg m) <=? m_made m then (Ok None, m)
  else
    let h := m_height m in
    let t := u32 (1700000000 + u32 (h * 600)) in
    let '(toSpend, m1) :=
      if (0 <? c_SpendFraction (m_cfg m)) && (0 <? Z.of_nat (length (m_live m))) then
        let n := Z.to_nat (Z.of_nat (length (m_live m)) / c_SpendFraction (m_cfg m)) in
        (take n (m_live m), set_live m (drop n (m_live m)))
      else ([], m) in
    let '(subtrees, m2) := mock_subtrees (Z.to_nat (c_SubtreesPer (m_cfg m))) h 0 toSpend 0 m1 in
    let subRoots := sub_Root <$> subtrees in
    let blockRoot := root_or_zero subRoots in
    let hdr := buildHeader h t blockRoot in
    let blk := mkBlock (DoubleSHA256 (abytes hdr)) h t blockRoot subRoots hdr subtrees in
    (Ok (Some blk),
     mkMockSource (m_cfg m2) (u32 (h + 1)) (m_made m2 + 1) (m_rng m2) (m_live m2)).

#[global] Instance mock_source : Source MockSource :=
  {| Next := mock_Next; TipHeight := mock_tip_height |}.

(** ** Lemmas *)

Lemma buildHeader_root height t root : HeaderMerkleRoot (buildHeader height t root) = root.
Proof.
  unfold HeaderMerkleRoot, buildHeader. apply array_ext. rewrite abytes_arr by len.
  rewrite abytes_arr by len.
  rewrite (app_assoc (le_bytes 4 _)), (app_assoc (_ ++ _) (be_bytes 4 height)).
  rewrite drop_app_length' by len. rewrite take_app_length' by len. done.
Qed.

Lemma MerkleRoot_nonempty l : l <> [] -> MerkleRoot l = Ok (root_or_zero l).
Proof.
  intros H. unfold root_or_zero. destruct (BuildMerkleTree_ok l H) as (r & _ & E).
  assert (MerkleRoot l = Ok r) as -> by (by apply MerkleRoot_inv). done.
Qed.

(** The configuration and position are untouched by the generation loops. *)
Definition same_pos (m m' : MockSource) : Prop :=
  m_cfg m' = m_cfg m /\ m_height m' = m_height m /\ m_made m' = m_made m.

Lemma mock_tx_pos h s i ts k m tx k' m' :
  mock_tx h s i ts k m = (tx, k', m') -> same_pos m m'.
Proof. unfold mock_tx, mock_txid, next64. intros H. break_in H; by simplify_eq. Qed.

Lemma mock_txs_pos n h s i ts k m txs k' m' :
  mock_txs n h s i ts k m = (txs, k', m') -> same_pos m m' /\ length txs = n.
Proof.
  revert i k m txs k' m'. induction n as [|n IH]; simpl; intros i k m txs k' m' H; [by simplify_eq|].
  destruct (mock_tx h s i ts k m) as [[tx k1] m1] eqn:E1.
  destruct (mock_txs n h s (i + 1) ts k1 m1) as [[r k2] m2] eqn:E2. simplify_eq.
  apply mock_tx_pos in E1 as (? & ? & ?). apply IH in E2 as [(? & ? & ?) ?].
  simpl. split; [split_and!|]; congruence.
Qed.

(** A subtree as the mock source makes it. *)
Definition sub_made (sub : Subtree) : Prop :=
  sub_TxIDs sub = tx_TxID <$> sub_Txs sub /\ sub_TxIDs sub <> []
  /\ MerkleRoot (sub_TxIDs sub) = Ok (sub_Root sub).

Lemma mock_subtrees_made n h s ts k m subs m' :
  1 <= c_TxsPerSubtree (m_cfg m) ->
  mock_subtrees n h s ts k m = (subs, m') ->
  same_pos m m' /\ length subs = n
  /\ Forall (fun sub => sub_made sub
       /\ Z.of_nat (length (sub_Txs sub)) = c_TxsPerSubtree (m_cfg m)) subs.
Proof.
  revert s k m subs m'. induction n as [|n IH]; simpl; intros s k m subs m' Hc H; [by simplify_eq|].
  destruct (mock_txs _ h s 0 ts k m) as [[txs k1] m1] eqn:E1.
  destruct (mock_subtrees n h (s + 1) ts k1 m1) as [r m2] eqn:E2. simplify_eq.
  apply mock_txs_pos in E1 as [(Hcfg & ? & ?) Hlen]. apply IH in E2 as [(? & ? & ?) [Hl Hf]];
    [|by rewrite Hcfg].
  split_and!; [split_and!; congruence|simpl; lia|]. constructor; [|by rewrite <- Hcfg].
  split; [|simpl; lia]. unfold sub_made. simpl.
  assert (tx_TxID <$> txs <> []) as Hne.
  { intros En. apply (f_equal length) in En. rewrite length_fmap in En. simpl in En. lia. }
  split_and!; [done|done|by apply MerkleRoot_nonempty].
Qed.
