(* ===== verification/Ingest.v ===== *)
(** * ingest: indexing sealed blocks ([src/ingest/ingest.go])

    Block validation, [IngestBlock] with its partial statistics on an early
    return, [RollbackBlock] and the [Run] loop, written against the [Store]
    and [Source] interfaces.  Every client theorem is proved on the reference
    store and holds for each lawful backend. *)

From stdpp Require Import base gmap list strings sets.
From Stdlib Require Import ZArith Lia ZifyNat.
From S2P Require Import Prelude Sha256 Commitment Shard StoreSpec MemStore ProofPath Prune Teranode.
Open Scope go_scope.

(** ** Data *)

Definition ErrInvalidBlock : error :=
  "ingest: block failed Merkle-consistency validation"%string.

(** [in_pruner] is [pruner != nil]; the store and the pruner are the state. *)
Record Ingestor : Type := mkIngestor
  { in_k : Z; in_id : Z; in_skipValidate : bool; in_pruner : bool }.

Definition owns (i : Ingestor) (txid : Hash) : bool :=
  if in_k i =? 0 then true else Of txid (in_k i) =? in_id i.

Record IStats : Type := mkIStats
  { is_Blocks : Z; is_TxsIndexed : Z; is_UTXOsMade : Z; is_UTXOsSpent : Z; is_Pruned : Z }.
Definition zeroStats : IStats := mkIStats 0 0 0 0 0.
Definition add_stats (a b : IStats) : IStats :=
  mkIStats (is_Blocks a + is_Blocks b) (is_TxsIndexed a + is_TxsIndexed b)
    (is_UTXOsMade a + is_UTXOsMade b) (is_UTXOsSpent a + is_UTXOsSpent b)
    (is_Pruned a + is_Pruned b).

(** ** Validation *)

(** The body of the subtree loop. *)
Definition valid_subtree (b : Block) (i : Z) (sub : Subtree) : bool :=
  match MerkleRoot (sub_TxIDs sub), index (b_SubtreeRoots b) i with
  | Ok root, Ok claimed => bool_decide (root = sub_Root sub) && bool_decide (root = claimed)
  | _, _ => false
  end.

Fixpoint valid_subtrees (b : Block) (i : Z) (subs : list Subtree) : bool :=
  match subs with
  | [] => true
  | sub :: rest => if valid_subtree b i sub then valid_subtrees b (i + 1) rest else false
  end.

Definition validateBlock (b : Block) : result unit :=
  if negb (Z.of_nat (length (b_Subtrees b)) =? Z.of_nat (length (b_SubtreeRoots b)))
  then Err ErrInvalidBlock
  else if negb (valid_subtrees b 0 (b_Subtrees b)) then Err ErrInvalidBlock
  else
    match MerkleRoot (b_SubtreeRoots b) with
    | Ok blockRoot =>
        if negb (bool_decide (blockRoot = b_MerkleRoot b)) then Err ErrInvalidBlock
        else if negb (bool_decide (HeaderMerkleRoot (b_Header b) = b_MerkleRoot b))
        then Err ErrInvalidBlock
        else Ok tt
    | _ => Err ErrInvalidBlock
    end.

(** ** Ingest *)

Section ingest.
Context {S : Type} `{Store S}.

(** Store, pruner, and the statistics counted so far. *)
Abbreviation IS := ((S * Pruner) * IStats)%type.

Definition bump (d : IStats) : M IS unit := on2 (fun st => (Ok tt, add_stats st d)).
Definition st_op {A} (m : M S A) : M IS A := on1 (on1 m).

(** [ownAny]: the loop over the txids stops at the first owned one. *)
Definition own_any (i : Ingestor) (sub : Subtree) : bool :=
  (in_k i =? 0) || existsb (owns i) (sub_TxIDs sub).

Definition put_subtree (i : Ingestor) (sub : Subtree) : M IS unit :=
  if own_any i sub then st_op (PutSubtree (sub_Root sub) (sub_TxIDs sub)) else mret tt.

Definition block_rec (b : Block) : BlockRec :=
  mkBlockRec (b_Hash b) (b_Height b) (b_Time b) (b_MerkleRoot b) (b_SubtreeRoots b) (b_Header b).

Definition tx_index (b : Block) (si li : Z) : TxIndex :=
  mkTxIndex true (b_Hash b) (b_Height b) (b_Time b) (u32 si) (u32 li) (b_Time b * 1000000000).

Definition spend_input (b : Block) (tx : Tx) (op : Outpoint) : M IS unit :=
  ok <- st_op (SpendUTXO op (tx_TxID tx) (b_Height b)) ;;
  if ok : bool then bump (mkIStats 0 0 0 1 0) else mret tt.

Definition out_point (tx : Tx) (vout : Z) : Outpoint := mkOutpoint (tx_TxID tx) (u32 vout).

Definition make_output (tx : Tx) (vout : Z) (o : TxOut) : M IS unit :=
  st_op (PutUTXO (out_point tx vout) (mkUTXO (o_Value o) (o_ScriptHash o) false zeroHash 0)) ;;
  bump (mkIStats 0 0 1 0 0).

Definition index_tx (i : Ingestor) (b : Block) (si li : Z) (tx : Tx) : M IS unit :=
  if negb (owns i (tx_TxID tx)) then mret tt
  else
    st_op (PutTxIndex (tx_TxID tx) (tx_index b si li)) ;;
    bump (mkIStats 0 1 0 0 0) ;;
    for_each (spend_input b tx) (tx_Inputs tx) ;;
    for_eachi (make_output tx) (tx_Outputs tx).

Definition index_subtree (i : Ingestor) (b : Block) (si : Z) (sub : Subtree) : M IS unit :=
  for_eachi (index_tx i b si) (sub_Txs sub).

(** A call that reports its error next to a count. *)
Definition drive_pruner (b : Block) : M IS unit :=
  r <- on1 (OnNewBlock (b_Height b)) ;;
  match r with
  | (_, Some e) => merr e
  | (n, None) => bump (mkIStats 0 0 0 0 n)
  end.

Definition ingest_body (i : Ingestor) (b : Block) : M IS unit :=
  (if in_skipValidate i then mret tt else mlift (validateBlock b)) ;;
  for_each (put_subtree i) (b_Subtrees b) ;;
  st_op (PutBlock (block_rec b)) ;;
  st_op (PutHeader (b_Height b) (b_Header b)) ;;
  for_eachi (index_subtree i b) (b_Subtrees b) ;;
  bump (mkIStats 1 0 0 0 0) ;;
  if in_pruner i then drive_pruner b else mret tt.

(** The statistics are returned next to the error. *)
Definition IngestBlock (i : Ingestor) (b : Block) : M (S * Pruner) (IStats * option error) :=
  fun sp =>
  match ingest_body i b (sp, zeroStats) with
  | (Ok _, (sp', st)) => (Ok (st, None), sp')
  | (Err e, (sp', st)) => (Ok (st, Some e), sp')
  | (Panic, (sp', _)) => (Panic, sp')
  end.

(** ** Rollback *)

Definition rollback_tx (i : Ingestor) (tx : Tx) : M S unit :=
  if negb (owns i (tx_TxID tx)) then mret tt
  else
    for_each (fun op => UnspendUTXO op ;; mret tt) (tx_Inputs tx) ;;
    for_eachi (fun vout _ => DeleteUTXO (out_point tx vout) ;; mret tt) (tx_Outputs tx) ;;
    DeleteTxIndex (tx_TxID tx) ;;
    mret tt.

Definition RollbackBlock (i : Ingestor) (b : Block) : M S unit :=
  for_each (fun sub => for_each (rollback_tx i) (sub_Txs sub)) (b_Subtrees b).

(** ** Run *)

Context {T : Type} `{Source T}.

(** Each turn takes one block from the source; [fuel] bounds the turns. *)
Fixpoint run_loop (fuel : nat) (i : Ingestor) (total : IStats)
  : M ((S * Pruner) * T) (IStats * option error) :=
  match fuel with
  | O => mpanic
  | Datatypes.S fuel' =>
      nb <- mtry (on2 Next) ;;
      match nb with
      | Err e => mret (total, Some e)
      | Panic => mpanic
      | Ok None => mret (total, None)
      | Ok (Some b) =>
          r <- on1 (IngestBlock i b) ;;
          match r with
          | (_, Some e) => mret (total, Some e)
          | (s, None) => run_loop fuel' i (add_stats total s)
          end
      end
  end.

Definition Run (fuel : nat) (i : Ingestor) : M ((S * Pruner) * T) (IStats * option error) :=
  run_loop fuel i zeroStats.
End ingest.

(** ** The effect on the reference store *)

(** The transactions of a block in processing order, with their positions. *)
Definition entry : Type := (Z * (Z * Tx))%type.
Definition entry_tx (e : entry) : Tx := e.2.2.
Definition sub_entries (p : Z * Subtree) : list entry :=
  (fun q => (p.1, q)) <$> numbered 0 (sub_Txs p.2).
Definition entries (b : Block) : list entry := concat (sub_entries <$> numbered 0 (b_Subtrees b)).
Definition owned_entries (i : Ingestor) (b : Block) : list entry :=
  filter (fun e => owns i (tx_TxID (entry_tx e)) = true) (entries b).

Definition flat_spend (by_ : Hash) (h : Z) (f : Flat) (op : Outpoint) : Flat :=
  match f_utxo f !! op with
  | None => f
  | Some u => set_utxo (<[op := mark_spent u by_ h]> (f_utxo f)) f
  end.
Definition new_utxo (o : TxOut) : UTXO := mkUTXO (o_Value o) (o_ScriptHash o) false zeroHash 0.
Definition flat_make (tx : Tx) (f : Flat) (p : Z * TxOut) : Flat :=
  set_utxo (<[out_point tx p.1 := new_utxo p.2]> (f_utxo f)) f.
Definition apply_tx (b : Block) (f : Flat) (e : entry) : Flat :=
  let '(si, (li, tx)) := e in
  foldl (flat_make tx)
    (foldl (flat_spend (tx_TxID tx) (b_Height b)) (flat_put_txindex (tx_TxID tx) (tx_index b si li) f)
       (tx_Inputs tx))
    (numbered 0 (tx_Outputs tx)).
Definition put_head (i : Ingestor) (b : Block) (f : Flat) : Flat :=
  let subs := filter (fun sub => own_any i sub = true) (b_Subtrees b) in
  let f1 := foldl (fun f sub => set_subtree (<[sub_Root sub := sub_TxIDs sub]> (f_subtree f)) f) f subs in
  let f2 := flat_put_block (block_rec b) f1 in
  set_hdr (<[b_Height b := b_Header b]> (f_hdr f2)) f2.
(** Everything [IngestBlock] stores before it drives the pruner. *)
Definition stored (i : Ingestor) (b : Block) (f : Flat) : Flat :=
  foldl (apply_tx b) (put_head i b f) (owned_entries i b).

(** The counters after some work: [nt] transactions, [nm] outputs made. *)
Definition counted (nt nm : nat) (st st' : IStats) : Prop :=
  is_Blocks st' = is_Blocks st /\ is_TxsIndexed st' = is_TxsIndexed st + Z.of_nat nt
  /\ is_UTXOsMade st' = is_UTXOsMade st + Z.of_nat nm
  /\ is_UTXOsSpent st <= is_UTXOsSpent st' /\ is_Pruned st' = is_Pruned st.

Lemma counted_trans n1 m1 n2 m2 a b c :
  counted n1 m1 a b -> counted n2 m2 b c -> counted (n1 + n2) (m1 + m2) a c.
Proof. unfold counted. lia. Qed.

Lemma for_each_stats {A} (f : A -> M ((Flat * Pruner) * IStats) unit) (g : Flat -> A -> Flat)
    (nt nm : A -> nat) l x pr st :
  (forall x a st, exists st', f a ((x, pr), st) = (Ok tt, ((g x a, pr), st')) /\ counted (nt a) (nm a) st st') ->
  exists st', for_each f l ((x, pr), st) = (Ok tt, ((foldl g x l, pr), st'))
    /\ counted (sum_list_with nt l) (sum_list_with nm l) st st'.
Proof.
  intros Hf. revert x st. induction l as [|a r IH]; intros x st.
  - exists st. split; [done|]. unfold counted. simpl. lia.
  - destruct (Hf x a st) as (st1 & E & Hd). destruct (IH (g x a) st1) as (st' & E' & Hs).
    exists st'. cbn [for_each]. split; [erewrite mbind_ok by exact E; exact E'|].
    by eapply counted_trans.
Qed.

Lemma spend_inputs_flat (b : Block) (tx : Tx) ops f pr st :
  exists st', for_each (spend_input b tx) ops ((f, pr), st)
      = (Ok tt, ((foldl (flat_spend (tx_TxID tx) (b_Height b)) f ops, pr), st'))
    /\ counted 0 0 st st'.
Proof.
  destruct (for_each_stats (spend_input b tx) (flat_spend (tx_TxID tx) (b_Height b))
    (fun _ => 0%nat) (fun _ => 0%nat) ops f pr st) as (st1 & E1 & C1).
  { intros x op st0. unfold spend_input, flat_spend, mbind, st_op, on1. simpl.
    destruct (f_utxo x !! op); eexists; (split; [reflexivity|]); unfold counted; simpl; lia. }
  exists st1. split; [exact E1|].
  assert (forall l : list Outpoint, sum_list_with (fun _ => 0%nat) l = 0%nat) as Hs by (by induction l).
  by rewrite !Hs in C1.
Qed.

Lemma make_outputs_flat (tx : Tx) (outs : list (Z * TxOut)) f pr st :
  exists st', for_each (fun p => make_output tx p.1 p.2) outs ((f, pr), st)
      = (Ok tt, ((foldl (flat_make tx) f outs, pr), st'))
    /\ counted 0 (length outs) st st'.
Proof.
  destruct (for_each_stats (fun p => make_output tx p.1 p.2) (flat_make tx)
    (fun _ => 0%nat) (fun _ => 1%nat) outs f pr st) as (st2 & E2 & C2).
  { intros x [v o] st0. eexists. split; [reflexivity|]. unfold counted. simpl. lia. }
  exists st2. split; [exact E2|].
  assert (forall l : list (Z * TxOut), sum_list_with (fun _ => 1%nat) l = length l) as Hs1.
  { induction l; simpl; [done|]. by rewrite IHl. }
  assert (forall l : list (Z * TxOut), sum_list_with (fun _ => 0%nat) l = 0%nat) as Hs0 by (by induction l).
  by rewrite Hs1, Hs0 in C2.
Qed.

Lemma index_tx_flat (b : Block) (e : entry) f pr st i :
  owns i (tx_TxID (entry_tx e)) = true ->
  exists st', index_tx i b e.1 e.2.1 e.2.2 ((f, pr), st) = (Ok tt, ((apply_tx b f e, pr), st'))
    /\ counted 1 (length (tx_Outputs (entry_tx e))) st st'.
Proof.
  destruct e as (si & li & tx). unfold entry_tx. simpl. intros Ho.
  unfold index_tx. rewrite Ho. cbn [negb].
  erewrite mbind_ok by reflexivity. erewrite mbind_ok by reflexivity. cbn [fst snd].
  destruct (spend_inputs_flat b tx (tx_Inputs tx) (flat_put_txindex (tx_TxID tx) (tx_index b si li) f)
    pr (add_stats st (mkIStats 0 1 0 0 0))) as (st1 & E1 & C1).
  erewrite mbind_ok by exact E1. unfold for_eachi. rewrite for_each_from_numbered.
  destruct (make_outputs_flat tx (numbered 0 (tx_Outputs tx))
    (foldl (flat_spend (tx_TxID tx) (b_Height b)) (flat_put_txindex (tx_TxID tx) (tx_index b si li) f)
       (tx_Inputs tx)) pr st1) as (st2 & E2 & C2).
  exists st2. split; [exact E2|]. unfold numbered in C2. rewrite length_imap in C2.
  unfold counted in *. simpl in *. lia.
Qed.

Lemma for_each_entries {S} (g : entry -> M S unit) (b : Block) :
  meq (for_eachi (fun si sub => for_eachi (fun li tx => g (si, (li, tx))) (sub_Txs sub)) (b_Subtrees b))
      (for_each g (entries b)).
Proof.
  intros s. unfold for_eachi at 1. rewrite for_each_from_numbered.
  unfold entries. rewrite <- for_each_concat. revert s. apply for_each_meq. intros [si sub] s. simpl.
  unfold for_eachi. rewrite for_each_from_numbered. unfold sub_entries. simpl.
  generalize (numbered 0 (sub_Txs sub)). intros l. revert s.
  induction l as [|[li tx] r IH]; intros s; [done|]. cbn [for_each fmap list_fmap].
  apply mbind_meq; [done|]. intros _. exact IH.
Qed.

Definition outputs_made (es : list entry) : nat :=
  sum_list_with (fun e => length (tx_Outputs (entry_tx e))) es.

(** The index loops visit the owned transactions in order. *)
Lemma index_phase_entries {S} `{Store S} i b :
  meq (for_eachi (index_subtree (S := S) i b) (b_Subtrees b))
      (for_each (fun e => index_tx i b e.1 e.2.1 e.2.2) (owned_entries i b)).
Proof.
  intros s. unfold index_subtree. rewrite (for_each_entries (fun e => index_tx i b e.1 e.2.1 e.2.2)).
  unfold owned_entries. rewrite <- (for_each_filter _ (fun e => owns i (tx_TxID (entry_tx e)))). revert s.
  apply for_each_meq. intros [si [li tx]] s. unfold entry_tx. simpl. unfold index_tx.
  by destruct (owns i (tx_TxID tx)).
Qed.

Lemma index_phase_flat i b f pr st :
  exists st', for_eachi (index_subtree i b) (b_Subtrees b) ((f, pr), st)
      = (Ok tt, ((foldl (apply_tx b) f (owned_entries i b), pr), st'))
    /\ counted (length (owned_entries i b)) (outputs_made (owned_entries i b)) st st'.
Proof.
  rewrite index_phase_entries. assert (Forall (fun e => owns i (tx_TxID (entry_tx e)) = true) (owned_entries i b)) as Ho.
  { apply Forall_forall. intros e He. by apply list_elem_of_filter in He as [? _]. }
  unfold outputs_made. revert f st Ho. generalize (owned_entries i b). intros es.
  induction es as [|e es IH]; intros f st Ho; inversion Ho; subst.
  - exists st. split; [done|]. unfold counted. simpl. lia.
  - destruct (index_tx_flat b e f pr st i) as (st1 & E1 & C1); [done|].
    destruct (IH (apply_tx b f e) st1) as (st' & E' & C'); [done|]. exists st'.
    cbn [for_each]. split; [erewrite mbind_ok by exact E1; exact E'|].
    exact (counted_trans _ _ _ _ _ _ _ C1 C').
Qed.

Lemma put_subtrees_flat i subs f pr st :
  for_each (put_subtree i) subs ((f, pr), st)
  = (Ok tt, ((foldl (fun f sub => set_subtree (<[sub_Root sub := sub_TxIDs sub]> (f_subtree f)) f) f
                (filter (fun sub => own_any i sub = true) subs), pr), st)).
Proof.
  revert f. induction subs as [|sub r IH]; intros f; [done|]. cbn [for_each]. rewrite filter_cons.
  unfold put_subtree at 1. destruct (own_any i sub); simpl; unfold mbind; simpl; apply IH.
Qed.

(** The whole of [ingest_body] up to the pruner. *)
Lemma ingest_stored i b f pr :
  (in_skipValidate i = true \/ validateBlock b = Ok tt) ->
  exists st, is_Blocks st = 1 /\ is_TxsIndexed st = Z.of_nat (length (owned_entries i b))
    /\ is_UTXOsMade st = Z.of_nat (outputs_made (owned_entries i b)) /\ is_Pruned st = 0
    /\ ingest_body i b ((f, pr), zeroStats)
       = (if in_pruner i then drive_pruner b else mret tt) ((stored i b f, pr), st).
Proof.
  intros Hv. destruct (index_phase_flat i b (put_head i b f) pr zeroStats) as (st & E & C).
  exists (add_stats st (mkIStats 1 0 0 0 0)).
  unfold counted in C. simpl in C. split_and!; [simpl; lia..|].
  unfold ingest_body.
  assert ((if in_skipValidate i then mret tt else mlift (validateBlock b)) ((f, pr), zeroStats)
          = (Ok tt, ((f, pr), zeroStats))) as Hval.
  { destruct Hv as [->| ->]; [done|]. by destruct (in_skipValidate i). }
  erewrite mbind_ok by exact Hval. erewrite mbind_ok by apply put_subtrees_flat.
  erewrite mbind_ok by reflexivity. erewrite mbind_ok by reflexivity. cbn [fst snd].
  erewrite mbind_ok by exact E. by erewrite mbind_ok by reflexivity.
Qed.

(** Ingest fails exactly on validation, before anything is stored. *)
Lemma ingest_rejected {S} `{Store S} i b (s : S) pr e :
  in_skipValidate i = false -> validateBlock b = Err e ->
  IngestBlock i b (s, pr) = (Ok (zeroStats, Some e), (s, pr)).
Proof. intros Hs Hv. unfold IngestBlock, ingest_body, mbind, mlift. by rewrite Hs, Hv. Qed.

Lemma validateBlock_err b : validateBlock b = Ok tt \/ validateBlock b = Err ErrInvalidBlock.
Proof. unfold validateBlock. repeat case_match; auto. Qed.

(** The pruner's work after the block, when there is one. *)
Definition finish (i : Ingestor) (pr : Pruner) (b : Block) (f : Flat) : result (Z * option error) * (Flat * Pruner) :=
  if in_pruner i then OnNewBlock (b_Height b) (f, pr) else (Ok (0, None), (f, pr)).

Lemma IngestBlock_flat i b f pr :
  (in_skipValidate i = true \/ validateBlock b = Ok tt) ->
  pruner_ok pr -> 0 <= b_Height b < 2 ^ 32 ->
  exists st n f' pr', finish i pr b (stored i b f) = (Ok (n, None), (f', pr'))
    /\ IngestBlock i b (f, pr) = (Ok (st, None), (f', pr'))
    /\ is_Blocks st = 1 /\ is_TxsIndexed st = Z.of_nat (length (owned_entries i b))
    /\ is_UTXOsMade st = Z.of_nat (outputs_made (owned_entries i b)) /\ is_Pruned st = n.
Proof.
  intros Hv Hpr Hh. destruct (ingest_stored i b f pr Hv) as (st & H1 & H2 & H3 & H4 & E).
  unfold IngestBlock, finish. rewrite E. destruct (in_pruner i).
  - destruct (OnNewBlock_flat pr (b_Height b) (stored i b f) Hpr Hh) as (n & f' & Eo & _).
    rewrite Eo. eexists (add_stats st (mkIStats 0 0 0 0 n)), n, f', _. split; [done|].
    unfold drive_pruner. erewrite mbind_ok by (unfold on1; cbn [fst snd]; rewrite Eo; reflexivity).
    cbn. split_and!; [done|lia..].
  - exists st, 0, (stored i b f), pr. split_and!; done.
Qed.

(** ** Lookups after the block *)

Definition out_keys (tx : Tx) : list Outpoint :=
  (fun p => out_point tx p.1) <$> numbered 0 (tx_Outputs tx).
Definition same_index (f f' : Flat) : Prop :=
  f_txindex f' = f_txindex f /\ f_subtree f' = f_subtree f /\ f_blocks f' = f_blocks f
  /\ f_hdr f' = f_hdr f /\ f_hidx f' = f_hidx f.

#[global] Instance same_index_refl : Reflexive same_index.
Proof. done. Qed.
#[global] Instance same_index_trans : Transitive same_index.
Proof. unfold same_index. intros x y z (H1 & H2 & H3 & H4 & H5) (G1 & G2 & G3 & G4 & G5). split_and!; congruence. Qed.

Lemma flat_spend_lookup by_ h f op k :
  f_utxo (flat_spend by_ h f op) !! k
  = if decide (k = op) then (fun u => mark_spent u by_ h) <$> f_utxo f !! k else f_utxo f !! k.
Proof.
  unfold flat_spend. case_decide as Hk.
  - subst. destruct (f_utxo f !! op) eqn:E; simpl; [by rewrite lookup_insert_eq|done].
  - destruct (f_utxo f !! op); [|done]. simpl. by rewrite lookup_insert_ne.
Qed.

Lemma mark_spent_twice u a h b : mark_spent (mark_spent u a h) b h = mark_spent u b h.
Proof. done. Qed.

Lemma spends_lookup by_ h ops f k :
  same_index f (foldl (flat_spend by_ h) f ops)
  /\ f_utxo (foldl (flat_spend by_ h) f ops) !! k
     = if bool_decide (k ∈ ops) then (fun u => mark_spent u by_ h) <$> f_utxo f !! k else f_utxo f !! k.
Proof.
  revert f. induction ops as [|op ops IH]; intros f; [done|]. cbn [foldl].
  destruct (IH (flat_spend by_ h f op)) as [Hi Hl]. split.
  - etransitivity; [|exact Hi]. unfold flat_spend. by destruct (f_utxo f !! op).
  - rewrite Hl, flat_spend_lookup.
    destruct (decide (k = op)) as [->|Hk].
    + rewrite (bool_decide_eq_true_2 (op ∈ op :: ops)) by set_solver.
      case_bool_decide; [|done]. by destruct (f_utxo f !! op).
    + by rewrite (bool_decide_ext (k ∈ ops) (k ∈ op :: ops)) by set_solver.
Qed.

Lemma makes_lookup tx outs f k :
  same_index f (foldl (flat_make tx) f outs)
  /\ (k ∉ (fun p => out_point tx p.1) <$> outs -> f_utxo (foldl (flat_make tx) f outs) !! k = f_utxo f !! k)
  /\ (k ∈ (fun p => out_point tx p.1) <$> outs ->
      exists o, f_utxo (foldl (flat_make tx) f outs) !! k = Some (new_utxo o)).
Proof.
  revert f. induction outs as [|p outs IH]; intros f.
  { split_and!; [done|done|]. simpl. set_solver. }
  cbn [foldl fmap list_fmap]. destruct (IH (flat_make tx f p)) as (Hi & Hn & Hin). split_and!.
  - etransitivity; [|exact Hi]. done.
  - intros Hk. rewrite Hn by set_solver. simpl. rewrite lookup_insert_ne; [done|]. set_solver.
  - intros Hk. destruct (decide (k ∈ (fun p => out_point tx p.1) <$> outs)) as [Hk'|Hk']; [by apply Hin|].
    rewrite Hn by done. simpl. assert (k = out_point tx p.1) as -> by set_solver.
    rewrite lookup_insert_eq. eauto.
Qed.

(** One transaction, per table. *)
Lemma apply_tx_index b f e :
  let tx := entry_tx e in
  let f' := apply_tx b f e in
  same_index (flat_put_txindex (tx_TxID tx) (tx_index b e.1 e.2.1) f) f'.
Proof.
  destruct e as (si & li & tx). unfold entry_tx. simpl.
  etransitivity; [|apply (makes_lookup tx _ _ (out_point tx 0))]. apply (spends_lookup _ _ _ _ (out_point tx 0)).
Qed.

Lemma flat_put_txindex_utxo t ix f : f_utxo (flat_put_txindex t ix f) = f_utxo f.
Proof. unfold flat_put_txindex. by case_match. Qed.

Lemma apply_tx_utxo b f e k :
  let tx := entry_tx e in
  (k ∉ out_keys tx -> f_utxo (apply_tx b f e) !! k
     = if bool_decide (k ∈ tx_Inputs tx) then (fun u => mark_spent u (tx_TxID tx) (b_Height b)) <$> f_utxo f !! k
       else f_utxo f !! k)
  /\ (k ∈ out_keys tx -> exists o, f_utxo (apply_tx b f e) !! k = Some (new_utxo o)).
Proof.
  destruct e as (si & li & tx). unfold entry_tx, out_keys. simpl.
  set (f1 := flat_put_txindex _ _ f).
  destruct (spends_lookup (tx_TxID tx) (b_Height b) (tx_Inputs tx) f1 k) as [_ Hs].
  destruct (makes_lookup tx (numbered 0 (tx_Outputs tx)) (foldl (flat_spend (tx_TxID tx) (b_Height b)) f1 (tx_Inputs tx)) k)
    as (_ & Hn & Hin).
  split; [|done]. intros Hk. rewrite Hn by done. rewrite Hs. unfold f1. by rewrite flat_put_txindex_utxo.
Qed.

(** A list of transactions, per table. *)
Definition es_inputs (es : list entry) : list Outpoint := concat ((fun e => tx_Inputs (entry_tx e)) <$> es).
Definition es_outputs (es : list entry) : list Outpoint := concat ((fun e => out_keys (entry_tx e)) <$> es).
Definition es_txids (es : list entry) : list Hash := (fun e => tx_TxID (entry_tx e)) <$> es.

Lemma block_utxo b es f k :
  let f' := foldl (apply_tx b) f es in
  (k ∉ es_outputs es -> k ∉ es_inputs es -> f_utxo f' !! k = f_utxo f !! k)
  /\ (k ∉ es_outputs es -> k ∈ es_inputs es ->
      exists by_, f_utxo f' !! k = (fun u => mark_spent u by_ (b_Height b)) <$> f_utxo f !! k)
  /\ (k ∈ es_outputs es ->
      exists u, f_utxo f' !! k = Some u /\ (u_Spent u = false \/ u_SpentHeight u = b_Height b)).
Proof.
  revert f. induction es as [|e es IH]; intros f f'.
  { unfold es_outputs, es_inputs. simpl. split_and!; [done|set_solver..]. }
  unfold es_outputs, es_inputs in *. cbn [foldl fmap list_fmap concat] in *. subst f'.
  destruct (IH (apply_tx b f e)) as (H1 & H2 & H3). destruct (apply_tx_utxo b f e k) as [T1 T2].
  split_and!.
  - intros Ho Hi. rewrite H1 by set_solver. rewrite T1 by set_solver.
    by rewrite bool_decide_eq_false_2 by set_solver.
  - intros Ho Hi. rewrite T1 in H1, H2 by set_solver.
    destruct (decide (k ∈ concat ((fun e => tx_Inputs (entry_tx e)) <$> es))) as [Hin|Hin].
    + destruct H2 as [by_ ->]; [set_solver|done|]. exists by_.
      case_bool_decide; [|done]. by destruct (f_utxo f !! k).
    + rewrite H1 by set_solver. rewrite bool_decide_eq_true_2 by set_solver. eauto.
  - intros Ho.
    destruct (decide (k ∈ concat ((fun e => out_keys (entry_tx e)) <$> es))) as [Hin|Hin]; [by apply H3|].
    destruct T2 as [o T2]; [set_solver|].
    destruct (decide (k ∈ concat ((fun e => tx_Inputs (entry_tx e)) <$> es))) as [Hi|Hi].
    + destruct H2 as [by_ ->]; [done|done|]. rewrite T2. simpl. eauto.
    + rewrite H1 by done. rewrite T2. eauto.
Qed.

Lemma put_tx_hidx t ix f k : k <> ix_Height ix -> f_hidx (flat_put_txindex t ix f) !! k = f_hidx f !! k.
Proof. intros. unfold flat_put_txindex. case_match; simpl; [|done]. by rewrite lookup_insert_ne. Qed.

Lemma put_tx_tx t ix f : f_txindex (flat_put_txindex t ix f) = <[t := ix]> (f_txindex f).
Proof. unfold flat_put_txindex. by case_match. Qed.

Lemma put_tx_rest t ix f :
  f_subtree (flat_put_txindex t ix f) = f_subtree f /\ f_blocks (flat_put_txindex t ix f) = f_blocks f
  /\ f_hdr (flat_put_txindex t ix f) = f_hdr f.
Proof. unfold flat_put_txindex. by case_match. Qed.

Lemma block_index b es f :
  let f' := foldl (apply_tx b) f es in
  f_subtree f' = f_subtree f /\ f_blocks f' = f_blocks f /\ f_hdr f' = f_hdr f
  /\ (forall k, k <> b_Height b -> f_hidx f' !! k = f_hidx f !! k)
  /\ (forall t, t ∉ es_txids es -> f_txindex f' !! t = f_txindex f !! t)
  /\ (forall t, t ∈ es_txids es ->
        exists e, e ∈ es /\ tx_TxID (entry_tx e) = t /\ f_txindex f' !! t = Some (tx_index b e.1 e.2.1)).
Proof.
  revert f. induction es as [|e es IH]; intros f f'.
  { unfold es_txids. simpl. split_and!; try done. set_solver. }
  unfold es_txids in *. cbn [foldl fmap list_fmap] in *. subst f'.
  destruct (IH (apply_tx b f e)) as (H1 & H2 & H3 & H4 & H5 & H6).
  destruct (apply_tx_index b f e) as (T1 & T2 & T3 & T4 & T5).
  destruct (put_tx_rest (tx_TxID (entry_tx e)) (tx_index b e.1 e.2.1) f) as (P1 & P2 & P3).
  rewrite put_tx_tx in T1. split_and!; [congruence..| | |].
  - intros k Hk. rewrite H4, T5 by done. by apply put_tx_hidx.
  - intros t Ht. rewrite H5 by set_solver. rewrite T1, lookup_insert_ne; [done|set_solver].
  - intros t Ht. destruct (decide (t ∈ (fun e => tx_TxID (entry_tx e)) <$> es)) as [Hin|Hin].
    + destruct (H6 t Hin) as (e' & He & ? & ?). exists e'. set_solver.
    + rewrite H5 by done. exists e. split; [set_solver|]. assert (t = tx_TxID (entry_tx e)) as -> by set_solver.
      rewrite T1, lookup_insert_eq. done.
Qed.

Lemma put_subtrees_lookup (subs : list Subtree) f sub :
  (forall s1 s2, s1 ∈ subs -> s2 ∈ subs -> sub_Root s1 = sub_Root s2 -> sub_TxIDs s1 = sub_TxIDs s2) ->
  let f' := foldl (fun f sub => set_subtree (<[sub_Root sub := sub_TxIDs sub]> (f_subtree f)) f) f subs in
  (sub ∈ subs -> f_subtree f' !! sub_Root sub = Some (sub_TxIDs sub))
  /\ f_utxo f' = f_utxo f /\ f_txindex f' = f_txindex f /\ f_hidx f' = f_hidx f
  /\ f_blocks f' = f_blocks f /\ f_hdr f' = f_hdr f.
Proof.
  intros Hu. cbv zeta.
  assert (forall l f, (forall s, s ∈ l -> s ∈ subs) -> sub ∈ subs ->
    f_subtree f !! sub_Root sub = Some (sub_TxIDs sub) ->
    f_subtree (foldl (fun f sub => set_subtree (<[sub_Root sub := sub_TxIDs sub]> (f_subtree f)) f) f l)
      !! sub_Root sub = Some (sub_TxIDs sub)) as Hkeep.
  { induction l as [|s l IH]; intros g Hl Hs Hg; [done|]. cbn [foldl]. apply IH; [set_solver|done|].
    simpl. rewrite lookup_insert. case_decide as E; [|done]. f_equal. apply Hu; set_solver. }
  split.
  - intros Hin. apply list_elem_of_split in Hin as Hsp. destruct Hsp as (l1 & l2 & ->).
    rewrite foldl_app. cbn [foldl]. apply Hkeep; [set_solver|done|]. simpl. apply lookup_insert_eq.
  - clear. revert f. induction subs as [|s l IH]; intros f; [done|]. cbn [foldl].
    destruct (IH (set_subtree (<[sub_Root s := sub_TxIDs s]> (f_subtree f)) f)) as (-> & -> & -> & -> & ->). done.
Qed.

(** ** Agreement across backends *)

Definition block_txs (b : Block) : list Tx := concat (sub_Txs <$> b_Subtrees b).

(** Rolling back only asks that the outpoints it names are admitted. *)
Lemma sim_RollbackBlock_on {S1 S2} `{SimStore S1 S2 R ok} i b :
  (forall t, ok _ (ODeleteTxIndex t)) -> (forall tx v, ok _ (ODeleteUTXO (out_point tx v))) ->
  Forall (fun tx => Forall (fun op => ok _ (OUnspendUTXO op)) (tx_Inputs tx)) (block_txs b) ->
  sim R (RollbackBlock (S := S1) i b) (RollbackBlock (S := S2) i b).
Proof.
  intros Ht Hd Hin. unfold block_txs in Hin. unfold RollbackBlock.
  induction (b_Subtrees b) as [|sub subs IH]; [apply sim_ret|]. cbn [for_each fmap list_fmap concat] in *.
  apply Forall_app in Hin as [Hs Hin]. apply sim_bind; [|intros _; by apply IH]. clear IH Hin.
  induction Hs as [|tx txs Hops _ IH]; [apply sim_ret|]. cbn [for_each]. apply sim_bind; [|by intros _].
  unfold rollback_tx. destruct (owns i (tx_TxID tx)); cbn [negb]; [|apply sim_ret].
  apply sim_bind; [|intros _].
  - induction Hops as [|op ops Hop _ IHo]; [apply sim_ret|]. cbn [for_each]. apply sim_bind; [|by intros _].
    apply sim_bind; [exact (sim_ok _ _ Hop)|intros _; apply sim_ret].
  - apply sim_bind; [apply sim_for_each_from; intros v o; apply sim_bind; [exact (sim_ok _ _ (Hd tx v))|]|];
      intros _; [apply sim_ret|]. apply sim_bind; [exact (sim_ok _ _ (Ht _))|intros _; apply sim_ret].
Qed.

Section sim_ingest.
Context {S : Type} `{LawfulStore S}.
Abbreviation R3 := (rel1 (rel1 store_rel Pruner) IStats).

Lemma sim_st_op {A} (m1 : M S A) (m2 : M Flat A) : sim store_rel m1 m2 -> sim R3 (st_op m1) (st_op m2).
Proof. intros Hm. apply sim_on1, sim_on1, Hm. Qed.
Lemma sim_bump d : sim R3 (bump d) (bump d).
Proof. apply sim_on2. Qed.
#[local] Hint Resolve sim_st_op sim_bump : sim.

Lemma sim_index_tx i b si li tx : sim R3 (index_tx (S := S) i b si li tx) (index_tx (S := Flat) i b si li tx).
Proof.
  unfold index_tx. destruct (owns i (tx_TxID tx)); simpl; [|apply sim_ret].
  apply sim_bind; [eauto with sim|intros _]. apply sim_bind; [eauto with sim|intros _].
  apply sim_bind; [apply sim_for_each; intros op|intros _].
  - apply sim_bind; [eauto with sim|]. intros []; eauto with sim.
  - apply sim_for_each_from. intros v o. apply sim_bind; eauto with sim.
Qed.

Lemma sim_ingest_body i b : sim R3 (ingest_body (S := S) i b) (ingest_body (S := Flat) i b).
Proof.
  unfold ingest_body. apply sim_bind; [destruct (in_skipValidate i); eauto with sim|intros _].
  apply sim_bind; [apply sim_for_each; intros sub; unfold put_subtree; destruct (own_any i sub);
    eauto with sim|intros _].
  apply sim_bind; [eauto with sim|intros _]. apply sim_bind; [eauto with sim|intros _].
  apply sim_bind; [|intros _].
  - apply sim_for_each_from. intros si sub. apply sim_for_each_from. intros li tx. apply sim_index_tx.
  - apply sim_bind; [eauto with sim|intros _]. destruct (in_pruner i); [|apply sim_ret].
    apply sim_bind; [apply sim_on1, sim_OnNewBlock|]. intros [n [e|]]; eauto with sim.
Qed.

Lemma sim_IngestBlock i b :
  sim (rel1 store_rel Pruner) (IngestBlock (S := S) i b) (IngestBlock (S := Flat) i b).
Proof.
  intros s1 s2 HR. destruct (sim_ingest_body i b (s1, zeroStats) (s2, zeroStats))
    as (r & [s1' st] & [s2' st2] & E1 & E2 & [HR' Hst]); [done|].
  simpl in Hst, HR'. subst st2. unfold IngestBlock. rewrite E1, E2.
  destruct r; by eexists _, _, _.
Qed.

Lemma sim_RollbackBlock i b : sim store_rel (RollbackBlock (S := S) i b) (RollbackBlock (S := Flat) i b).
Proof. apply sim_RollbackBlock_on; [done|done|]. apply Forall_forall. intros tx _. by apply Forall_true. Qed.
End sim_ingest.
#[export] Hint Resolve sim_IngestBlock sim_RollbackBlock : sim.

(** ** Validated, well-formed blocks *)

Lemma valid_subtrees_ok b subs j :
  valid_subtrees b (Z.of_nat j) subs = true <->
  forall i sub, subs !! i = Some sub ->
    MerkleRoot (sub_TxIDs sub) = Ok (sub_Root sub) /\ b_SubtreeRoots b !! (j + i)%nat = Some (sub_Root sub).
Proof.
  assert (forall j sub, valid_subtree b (Z.of_nat j) sub = true <->
    MerkleRoot (sub_TxIDs sub) = Ok (sub_Root sub) /\ b_SubtreeRoots b !! j = Some (sub_Root sub)) as H1.
  { intros k sub. unfold valid_subtree. destruct (MerkleRoot (sub_TxIDs sub)) as [r| |]; [|naive_solver..].
    destruct (index (b_SubtreeRoots b) (Z.of_nat k)) as [c| |] eqn:E.
    - apply index_ok in E as [_ E]. rewrite Nat2Z.id in E. rewrite andb_true_iff, !bool_decide_eq_true.
      rewrite E. naive_solver.
    - split; [done|]. intros [_ Hk]. apply index_nat in Hk. congruence.
    - split; [done|]. intros [_ Hk]. apply index_nat in Hk. congruence. }
  revert j. induction subs as [|s subs IH]; intros j; simpl; [split; [intros _ i sub Hl; done|done]|].
  replace (Z.of_nat j + 1) with (Z.of_nat (j + 1)) by lia.
  specialize (H1 j s). specialize (IH (j + 1)%nat). split.
  - intros Hv [|i] sub Hl; destruct (valid_subtree b (Z.of_nat j) s) eqn:E; try done; simplify_eq/=.
    + rewrite Nat.add_0_r. by apply H1.
    + replace (j + Datatypes.S i)%nat with (j + 1 + i)%nat by lia. by apply IH.
  - intros Hall. assert (valid_subtree b (Z.of_nat j) s = true) as ->.
    { apply H1. specialize (Hall 0%nat s eq_refl). by rewrite Nat.add_0_r in Hall. }
    apply IH. intros i sub Hl. specialize (Hall (Datatypes.S i) sub Hl).
    by replace (j + 1 + i)%nat with (j + Datatypes.S i)%nat by lia.
Qed.

(** What validation checks. *)
Lemma validateBlock_ok b :
  validateBlock b = Ok tt <->
  length (b_Subtrees b) = length (b_SubtreeRoots b)
  /\ (forall i sub, b_Subtrees b !! i = Some sub ->
        MerkleRoot (sub_TxIDs sub) = Ok (sub_Root sub) /\ b_SubtreeRoots b !! i = Some (sub_Root sub))
  /\ MerkleRoot (b_SubtreeRoots b) = Ok (b_MerkleRoot b)
  /\ HeaderMerkleRoot (b_Header b) = b_MerkleRoot b.
Proof.
  pose proof (valid_subtrees_ok b (b_Subtrees b) 0) as Hs. change (Z.of_nat 0) with 0 in Hs.
  simpl in Hs. unfold validateBlock. split.
  - intros H. break_in H; zbool. split_and!; [lia| | |].
    + by apply Hs.
    + congruence.
    + done.
  - intros (Hl & Hsub & Hr & Hh). rewrite Hl, Z.eqb_refl. simpl.
    rewrite (proj2 Hs Hsub). simpl. rewrite Hr.
    rewrite (bool_decide_eq_true_2 _ eq_refl), (bool_decide_eq_true_2 _ Hh). done.
Qed.

(** The format of a sealed block: [Txs] is parallel to [TxIDs], a subtree root
    determines its leaves, at most [2^20] leaves per subtree. *)
Definition block_wf (b : Block) : Prop :=
  Forall (fun sub => sub_TxIDs sub = tx_TxID <$> sub_Txs sub
                     /\ Z.of_nat (length (sub_TxIDs sub)) <= 2 ^ 20) (b_Subtrees b)
  /\ Forall (fun s1 => Forall (fun s2 => sub_Root s1 = sub_Root s2 -> sub_TxIDs s1 = sub_TxIDs s2)
       (b_Subtrees b)) (b_Subtrees b)
  /\ Z.of_nat (length (b_SubtreeRoots b)) < 2 ^ 32
  /\ 0 <= b_Height b < 2 ^ 32.

(** No earlier height lists the block, its subtrees or its transactions for
    index retention. *)
Definition unlisted_block (b : Block) (f : Flat) : Prop :=
  forall k, k < b_Height b ->
  let e := entry_at (f_hidx f) k in
  (he_hasBlock e = true -> he_block e <> b_Hash b)
  /\ Forall (fun sub => sub_Root sub ∉ he_subtrees e
       /\ Forall (fun t => t ∉ he_txids e) (sub_TxIDs sub)) (b_Subtrees b).

Lemma entries_elem b e :
  e ∈ entries b <->
  exists si li sub, b_Subtrees b !! si = Some sub /\ sub_Txs sub !! li = Some (entry_tx e)
    /\ e.1 = Z.of_nat si /\ e.2.1 = Z.of_nat li.
Proof.
  unfold entries. rewrite list_elem_of_In, in_concat. setoid_rewrite <- list_elem_of_In. split.
  - intros (l & Hl & He). apply list_elem_of_fmap in Hl as ([si sub] & -> & Hs).
    apply list_elem_of_lookup in Hs as [j Hj]. apply numbered_lookup in Hj as (s' & Hj & E).
    injection E as -> ->. unfold sub_entries in He. apply list_elem_of_fmap in He as ([li tx] & -> & Ht).
    simpl in Ht. apply list_elem_of_lookup in Ht as [m Hm]. apply numbered_lookup in Hm as (tx' & Hm & E).
    injection E as -> ->. exists j, m, s'. done.
  - intros (si & li & sub & Hs & Ht & E1 & E2).
    exists (sub_entries (Z.of_nat si, sub)). split.
    + apply list_elem_of_fmap. exists (Z.of_nat si, sub). split; [done|].
      apply list_elem_of_lookup. exists si. apply numbered_lookup. exists sub. split; [done|]. f_equal. 
    + unfold sub_entries. apply list_elem_of_fmap. exists (Z.of_nat li, entry_tx e).
      destruct e as (a & c & tx). unfold entry_tx in *. simpl in *. subst. split; [done|].
      apply list_elem_of_lookup. exists li. apply numbered_lookup. exists tx. split; [done|]. f_equal.
Qed.

Lemma owned_entries_elem i b e :
  e ∈ owned_entries i b <-> owns i (tx_TxID (entry_tx e)) = true /\ e ∈ entries b.
Proof. unfold owned_entries. rewrite list_elem_of_filter. done. Qed.

Lemma own_any_owned i sub t : t ∈ sub_TxIDs sub -> owns i t = true -> own_any i sub = true.
Proof.
  intros Ht Ho. unfold own_any. apply orb_true_iff. right. apply existsb_exists. exists t.
  split; [by apply list_elem_of_In|done].
Qed.

Lemma stored_head i b f :
  block_wf b ->
  let f' := stored i b f in
  f_blocks f' !! b_Hash b = Some (block_rec b)
  /\ (forall sub, sub ∈ b_Subtrees b -> own_any i sub = true -> f_subtree f' !! sub_Root sub = Some (sub_TxIDs sub))
  /\ (forall k, k <> b_Height b -> f_hidx f' !! k = f_hidx f !! k).
Proof.
  intros (_ & Hroots & _ & _). cbv zeta. unfold stored.
  destruct (block_index b (owned_entries i b) (put_head i b f)) as (H1 & H2 & _ & H4 & _).
  rewrite H1, H2. unfold put_head, flat_put_block.
  set (subs := filter (fun sub => own_any i sub = true) (b_Subtrees b)).
  assert (forall s1 s2, s1 ∈ subs -> s2 ∈ subs -> sub_Root s1 = sub_Root s2 -> sub_TxIDs s1 = sub_TxIDs s2) as Hu.
  { intros s1 s2 Hs1 Hs2. apply list_elem_of_filter in Hs1 as [_ Hs1], Hs2 as [_ Hs2].
    rewrite Forall_forall in Hroots. specialize (Hroots _ Hs1). rewrite Forall_forall in Hroots. by apply Hroots. }
  split_and!.
  - simpl. by rewrite lookup_insert_eq.
  - intros sub Hin Ho. simpl. apply (put_subtrees_lookup subs f sub Hu). apply list_elem_of_filter. done.
  - intros k Hk. rewrite H4 by done. unfold put_head, flat_put_block. cbv zeta. fold subs.
    cbn [f_hidx set_hdr set_hidx set_blocks br_Height block_rec f_hdr]. rewrite lookup_insert_ne by done.
    destruct (put_subtrees_lookup subs f (mkSubtree zeroHash [] []) Hu) as (_ & _ & _ & -> & _). done.
Qed.

(** The index entry of an owned transaction names a position that holds it. *)
Lemma stored_tx i b f sub t :
  block_wf b -> sub ∈ b_Subtrees b -> t ∈ sub_TxIDs sub -> owns i t = true ->
  exists si li sub', b_Subtrees b !! si = Some sub' /\ sub_TxIDs sub' !! li = Some t
    /\ f_txindex (stored i b f) !! t = Some (tx_index b (Z.of_nat si) (Z.of_nat li)).
Proof.
  intros (Hpar & _) Hsub Ht Ho. rewrite Forall_forall in Hpar.
  unfold stored.
  destruct (block_index b (owned_entries i b) (put_head i b f)) as (_ & _ & _ & _ & _ & H6).
  destruct (H6 t) as (e & He & Et & Hix).
  - unfold es_txids. apply list_elem_of_fmap. destruct (Hpar _ Hsub) as [Hp _]. rewrite Hp in Ht.
    apply list_elem_of_fmap in Ht as (tx & -> & Htx). apply list_elem_of_lookup in Hsub as [si Hsi].
    apply list_elem_of_lookup in Htx as [li Hli].
    exists (Z.of_nat si, (Z.of_nat li, tx)). split; [done|]. apply owned_entries_elem. split; [done|].
    apply entries_elem. by exists si, li, sub.
  - apply owned_entries_elem in He as [_ He]. apply entries_elem in He as (si & li & sub' & Hs & Hl & E1 & E2).
    exists si, li, sub'. split; [done|]. rewrite E1, E2 in Hix. split; [|done].
    destruct (Hpar sub') as [-> _]; [by eapply list_elem_of_lookup_2|].
    rewrite list_lookup_fmap, Hl. simpl. by rewrite Et.
Qed.

(** The pruner keeps what a fresh block stored. *)
Lemma finish_keeps i b f pr n f' pr' :
  pruner_ok pr -> 0 <= b_Height b < 2 ^ 32 -> block_wf b ->
  (0 < IndexRetention (pr_policy pr) -> unlisted_block b f) ->
  finish i pr b (stored i b f) = (Ok (n, None), (f', pr')) ->
  f_blocks f' !! b_Hash b = f_blocks (stored i b f) !! b_Hash b
  /\ forall sub, sub ∈ b_Subtrees b ->
     f_subtree f' !! sub_Root sub = f_subtree (stored i b f) !! sub_Root sub
     /\ forall t, t ∈ sub_TxIDs sub -> f_txindex f' !! t = f_txindex (stored i b f) !! t.
Proof.
  intros Hpr Hh Hwf Hun E. unfold finish in E. destruct (in_pruner i); [|by simplify_eq].
  destruct (OnNewBlock_flat pr (b_Height b) (stored i b f) Hpr Hh) as (m & g & Eo & _ & _ & Hg).
  rewrite Eo in E. injection E as <- <- <-.
  destruct (0 <? IndexRetention (pr_policy pr)) eqn:ER; zbool; [|by destruct Hg as [-> _]].
  specialize (Hun ER). destruct (stored_head i b f Hwf) as (_ & _ & Hidx).
  assert (forall k, k <= band_hi pr (b_Height b) (IndexRetention (pr_policy pr)) ->
    band_lo pr (b_Height b) (IndexRetention (pr_policy pr)) <= k -> k < b_Height b) as Hlt.
  { unfold band_hi. intros k. case_match; lia. }
  assert (forall k, k < b_Height b -> entry_at (f_hidx (set_utxo (f_utxo g) (stored i b f))) k = entry_at (f_hidx f) k) as He.
  { intros k Hk. unfold entry_at. simpl. rewrite Hidx by lia. done. }
  split.
  - destruct (sw_blk _ _ _ _ Hg (b_Hash b)) as [->|(k & Hk & Hb & Eb)]; [done|].
    rewrite He in Hb, Eb by (apply Hlt; lia). destruct (Hun k) as [Hn _]; [apply Hlt; lia|]. by destruct Hn.
  - intros sub Hsub. split.
    + destruct (sw_sub _ _ _ _ Hg (sub_Root sub)) as [->|(k & Hk & Hin)]; [done|].
      rewrite He in Hin by (apply Hlt; lia). destruct (Hun k) as [_ Hn]; [apply Hlt; lia|].
      rewrite Forall_forall in Hn. by destruct (Hn _ Hsub) as [[] _].
    + intros t Ht. destruct (sw_tx _ _ _ _ Hg t) as [->|(k & Hk & Hin)]; [done|].
      rewrite He in Hin by (apply Hlt; lia). destruct (Hun k) as [_ Hn]; [apply Hlt; lia|].
      rewrite Forall_forall in Hn. destruct (Hn _ Hsub) as [_ Hn']. rewrite Forall_forall in Hn'.
      by destruct (Hn' _ Ht).
Qed.

(** The records of a validated block locate its transactions. *)
Lemma block_locates b f (si li : nat) sub t :
  validateBlock b = Ok tt -> block_wf b ->
  b_Subtrees b !! si = Some sub -> sub_TxIDs sub !! li = Some t ->
  f_txindex f !! t = Some (tx_index b (Z.of_nat si) (Z.of_nat li)) ->
  f_blocks f !! b_Hash b = Some (block_rec b) -> f_subtree f !! sub_Root sub = Some (sub_TxIDs sub) ->
  located f t (tx_index b (Z.of_nat si) (Z.of_nat li)) (block_rec b) (sub_TxIDs sub).
Proof.
  intros Hv (Hpar & _ & Hn & _) Hsi Hli Hix Hb Hs. apply validateBlock_ok in Hv as (Hlen & Hvs & Hvr & _).
  destruct (Hvs _ _ Hsi) as [Hr1 Hr2]. pose proof (list_elem_of_lookup_2 _ _ _ Hsi) as Hsub.
  rewrite Forall_forall in Hpar. destruct (Hpar _ Hsub) as [_ Hsz].
  pose proof (lookup_lt_Some _ _ _ Hli). pose proof (lookup_lt_Some _ _ _ Hsi).
  assert (u32 (Z.of_nat si) = Z.of_nat si) as Esi by (apply u32_small; lia).
  assert (u32 (Z.of_nat li) = Z.of_nat li) as Eli by (apply u32_small; lia).
  unfold tx_index in *. rewrite Esi, Eli in *.
  split; simpl; rewrite ?Nat2Z.id; try done; try lia. by exists (sub_Root sub).
Qed.

Lemma ingest_locates i b f pr n f' pr' sub t :
  validateBlock b = Ok tt -> block_wf b -> pruner_ok pr ->
  (0 < IndexRetention (pr_policy pr) -> unlisted_block b f) ->
  finish i pr b (stored i b f) = (Ok (n, None), (f', pr')) ->
  sub ∈ b_Subtrees b -> t ∈ sub_TxIDs sub -> owns i t = true ->
  exists ix leaves, located f' t ix (block_rec b) leaves /\ ix_Height ix = b_Height b.
Proof.
  intros Hv Hwf Hpr Hun Efin Hsub Ht Ho. pose proof Hwf as (_ & _ & _ & Hh).
  destruct (finish_keeps i b f pr n f' pr' Hpr Hh Hwf Hun Efin) as [Kb Ks].
  destruct (stored_head i b f Hwf) as (Hb & Hsubs & _).
  destruct (stored_tx i b f sub t Hwf Hsub Ht Ho) as (si & li & sub' & Hsi & Hli & Hix).
  destruct (Ks _ Hsub) as [_ Kt]. rewrite <- (Kt t Ht) in Hix. rewrite <- Kb in Hb.
  pose proof (list_elem_of_lookup_2 _ _ _ Hsi) as Hsub'. pose proof (list_elem_of_lookup_2 _ _ _ Hli) as Ht'.
  eexists _, _. split; [apply (block_locates b f' si li sub' t); try done|done].
  destruct (Ks _ Hsub') as [-> _]. apply Hsubs; [done|]. by eapply own_any_owned.
Qed.


(** ** Witness *)

Definition demo_mock : MockSource := NewMock (mkMockConfig 3 1 3 2 100 7).
Definition demo_block : Block :=
  match Next demo_mock with
  | (Ok (Some b), _) => b
  | _ => mkBlock zeroHash 0 0 zeroHash [] (azero 80) []
  end.
Definition demo_ingestor : Ingestor := mkIngestor 0 0 false true.

Lemma demo_block_valid : validateBlock demo_block = Ok tt.
Proof. vm_compute. reflexivity. Qed.

#[global] Instance block_wf_dec b : Decision (block_wf b).
Proof. unfold block_wf. apply _. Defined.

Lemma demo_block_wf : block_wf demo_block.
Proof. apply (bool_decide_unpack _). vm_compute. exact I. Qed.

Lemma demo_policy_ok : pruner_ok (NewPruner RecommendedPolicy).
Proof. unfold pruner_ok, policy_ok. simpl. lia. Qed.

