(* ===== verification/Reorg.v ===== *)
(** * ingest and prune together: reorganisations and the retention window
      ([src/ingest/ingest.go], [src/prune/prune.go])

    [RollbackBlock] undoes [IngestBlock] as long as the pruner has not freed
    the records it needs, which is what the reorg-horizon floor is for: a chain
    of blocks at most [D] deep is rolled back exactly.  Conversely the pruner
    keeps no spent record deeper than [D], whatever the gaps between the
    heights it is driven with. *)

From stdpp Require Import base gmap list strings sets relations.
From Stdlib Require Import ZArith Lia ZifyNat.
From S2P Require Import Prelude Sha256 Commitment Shard StoreSpec MemStore ProofPath Prune Teranode Ingest.
Open Scope go_scope.

(** ** Rollback on the reference store *)

Definition flat_unspend (f : Flat) (op : Outpoint) : Flat :=
  match f_utxo f !! op with
  | None => f
  | Some u => set_utxo (<[op := mark_unspent u]> (f_utxo f)) f
  end.
Definition flat_unmake (tx : Tx) (f : Flat) (p : Z * TxOut) : Flat :=
  set_utxo (delete (out_point tx p.1) (f_utxo f)) f.
Definition unapply_tx (f : Flat) (e : entry) : Flat :=
  let tx := entry_tx e in
  let f' := foldl (flat_unmake tx) (foldl flat_unspend f (tx_Inputs tx)) (numbered 0 (tx_Outputs tx)) in
  set_txindex (delete (tx_TxID tx) (f_txindex f')) f'.

Lemma for_each_foldl {A} (m : A -> M Flat unit) (g : Flat -> A -> Flat) l f :
  (forall x a, m a x = (Ok tt, g x a)) -> for_each m l f = (Ok tt, foldl g f l).
Proof.
  intros Hm. revert f. induction l as [|a r IH]; intros f; [done|].
  cbn [for_each foldl]. erewrite mbind_ok by apply Hm. apply IH.
Qed.

Lemma rollback_tx_flat i e (f : Flat) :
  owns i (tx_TxID (entry_tx e)) = true -> rollback_tx i (entry_tx e) f = (Ok tt, unapply_tx f e).
Proof.
  intros Ho. unfold rollback_tx, unapply_tx. rewrite Ho. cbn [negb].
  erewrite mbind_ok; [|apply (for_each_foldl _ flat_unspend); intros x op; unfold mbind, flat_unspend; simpl;
    by destruct (f_utxo x !! op)].
  erewrite mbind_ok; [|unfold for_eachi; rewrite for_each_from_numbered;
    apply (for_each_foldl _ (flat_unmake (entry_tx e))); intros x [v o]; unfold mbind, flat_unmake; simpl].
  - unfold mbind. simpl. set (f' := foldl _ _ _).
    destruct (f_txindex f' !! tx_TxID (entry_tx e)) eqn:E; simpl; [done|].
    rewrite delete_id by done. by destruct f'.
  - destruct (f_utxo x !! out_point (entry_tx e) v) eqn:E; [done|]. rewrite delete_id by done. by destruct x.
Qed.

Lemma RollbackBlock_flat i b (f : Flat) :
  RollbackBlock i b f = (Ok tt, foldl unapply_tx f (owned_entries i b)).
Proof.
  unfold RollbackBlock.
  assert (meq (S := Flat) (for_each (fun sub => for_each (rollback_tx i) (sub_Txs sub)) (b_Subtrees b))
    (for_each (fun e => rollback_tx i (entry_tx e)) (owned_entries i b))) as Hm.
  { intros s. unfold owned_entries.
    rewrite <- (for_each_filter _ (fun e => owns i (tx_TxID (entry_tx e)))).
    transitivity (for_each (fun e => rollback_tx i (entry_tx e)) (entries b) s).
    - unfold entries. rewrite <- for_each_concat.
      rewrite <- (numbered_snd 0 (b_Subtrees b)) at 1. generalize (numbered 0 (b_Subtrees b)). intros l.
      revert s. induction l as [|[si sub] r IH]; intros s; [done|]. cbn [for_each fmap list_fmap].
      apply mbind_meq; [|intros _; exact IH]. clear. intros s. simpl. unfold sub_entries. simpl.
      rewrite <- (numbered_snd 0 (sub_Txs sub)) at 1. generalize (numbered 0 (sub_Txs sub)). intros l.
      revert s. induction l as [|[li tx] r IH]; intros s; [done|]. cbn [for_each fmap list_fmap].
      apply mbind_meq; [done|]. intros _. exact IH.
    - revert s. apply for_each_meq. intros e s. unfold rollback_tx. by destruct (owns i _). }
  rewrite Hm. assert (Forall (fun e => owns i (tx_TxID (entry_tx e)) = true) (owned_entries i b)) as Ho.
  { apply Forall_forall. intros e He. by apply owned_entries_elem in He as [? _]. }
  revert f Ho. generalize (owned_entries i b). induction l as [|e r IH]; intros f Ho; [done|].
  inversion Ho; subst. cbn [for_each foldl]. erewrite mbind_ok by (by apply rollback_tx_flat). by apply IH.
Qed.

Lemma unspends_lookup ops f k :
  f_txindex (foldl flat_unspend f ops) = f_txindex f
  /\ f_utxo (foldl flat_unspend f ops) !! k
     = if bool_decide (k ∈ ops) then mark_unspent <$> f_utxo f !! k else f_utxo f !! k.
Proof.
  revert f. induction ops as [|op ops IH]; intros f; [done|]. cbn [foldl].
  destruct (IH (flat_unspend f op)) as [Hi Hl].
  assert (f_txindex (flat_unspend f op) = f_txindex f) as Ht by (unfold flat_unspend; by destruct (f_utxo f !! op)).
  assert (f_utxo (flat_unspend f op) !! k
    = if decide (k = op) then mark_unspent <$> f_utxo f !! k else f_utxo f !! k) as Hk.
  { unfold flat_unspend. destruct (decide (k = op)) as [->|Hne], (f_utxo f !! op) as [u|] eqn:E;
      cbn [fmap option_fmap option_map f_utxo set_utxo]; rewrite ?E; try done.
    - by rewrite lookup_insert_eq.
    - by rewrite lookup_insert_ne. }
  split; [congruence|]. rewrite Hl, Hk. case_decide as Hd.
  - subst. rewrite (bool_decide_eq_true_2 (op ∈ op :: ops)) by set_solver.
    case_bool_decide; [|done]. by destruct (f_utxo f !! op).
  - by rewrite (bool_decide_ext (k ∈ ops) (k ∈ op :: ops)) by set_solver.
Qed.

Lemma unmakes_lookup tx outs f k :
  f_txindex (foldl (flat_unmake tx) f outs) = f_txindex f
  /\ f_utxo (foldl (flat_unmake tx) f outs) !! k
     = if bool_decide (k ∈ (fun p => out_point tx p.1) <$> outs) then None else f_utxo f !! k.
Proof.
  revert f. induction outs as [|p outs IH]; intros f; [done|]. cbn [foldl].
  destruct (IH (flat_unmake tx f p)) as [Hi Hl]. split; [done|]. rewrite Hl. simpl. rewrite lookup_delete.
  repeat (case_bool_decide || case_decide); try done; set_solver.
Qed.

Lemma unapply_tx_lookup f e k t :
  f_utxo (unapply_tx f e) !! k
    = (if bool_decide (k ∈ out_keys (entry_tx e)) then None
       else if bool_decide (k ∈ tx_Inputs (entry_tx e)) then mark_unspent <$> f_utxo f !! k
       else f_utxo f !! k)
  /\ f_txindex (unapply_tx f e) !! t
    = if decide (t = tx_TxID (entry_tx e)) then None else f_txindex f !! t.
Proof.
  unfold unapply_tx, out_keys. cbv zeta. simpl. set (tx := entry_tx e).
  destruct (unspends_lookup (tx_Inputs tx) f k) as [Ht Hu].
  destruct (unmakes_lookup tx (numbered 0 (tx_Outputs tx)) (foldl flat_unspend f (tx_Inputs tx)) k) as [Ht' Hu'].
  split.
  - rewrite Hu'. case_bool_decide; [done|]. exact Hu.
  - rewrite Ht', Ht, lookup_delete. repeat case_decide; congruence.
Qed.

(** Rolling back a list of transactions, per key. *)
Definition undo (es : list entry) (k : Outpoint) (x : option UTXO) : option UTXO :=
  if bool_decide (k ∈ es_outputs es) then None
  else if bool_decide (k ∈ es_inputs es) then mark_unspent <$> x else x.

Lemma rollback_lookup es f k t :
  f_utxo (foldl unapply_tx f es) !! k = undo es k (f_utxo f !! k)
  /\ f_txindex (foldl unapply_tx f es) !! t
     = if bool_decide (t ∈ es_txids es) then None else f_txindex f !! t.
Proof.
  unfold undo. revert f. induction es as [|e es IH]; intros f; [done|].
  unfold es_outputs, es_inputs, es_txids in *. cbn [foldl fmap list_fmap concat].
  destruct (IH (unapply_tx f e)) as [-> ->]. destruct (unapply_tx_lookup f e k t) as [-> ->]. split.
  - rewrite !(bool_decide_ext (k ∈ _ ++ _) _ (elem_of_app _ _ _)), !bool_decide_or.
    generalize (bool_decide (k ∈ out_keys (entry_tx e))) (bool_decide (k ∈ tx_Inputs (entry_tx e))).
    generalize (bool_decide (k ∈ concat ((fun e => out_keys (entry_tx e)) <$> es))).
    generalize (bool_decide (k ∈ concat ((fun e => tx_Inputs (entry_tx e)) <$> es))).
    by intros [] [] [] []; destruct (f_utxo f !! k).
  - rewrite (bool_decide_ext (t ∈ _ :: _) _ (elem_of_cons _ _ _)), bool_decide_or, decide_bool_decide.
    generalize (bool_decide (t = tx_TxID (entry_tx e))).
    generalize (bool_decide (t ∈ (fun e => tx_TxID (entry_tx e)) <$> es)). by intros [] [].
Qed.

(** ** One block, per key *)

Lemma put_head_tables i b f : f_utxo (put_head i b f) = f_utxo f /\ f_txindex (put_head i b f) = f_txindex f.
Proof.
  unfold put_head, flat_put_block. cbv zeta. simpl.
  generalize (filter (fun sub => own_any i sub = true) (b_Subtrees b)). intros subs. revert f.
  induction subs as [|sub r IH]; intros f; [done|]. cbn [foldl].
  destruct (IH (set_subtree (<[sub_Root sub := sub_TxIDs sub]> (f_subtree f)) f)) as [-> ->]. done.
Qed.

(** A successful ingest, on the reference store. *)
Lemma IngestBlock_inv i b f pr st f1 pr1 :
  pruner_ok pr -> 0 <= b_Height b < 2 ^ 32 ->
  IngestBlock i b (f, pr) = (Ok (st, None), (f1, pr1)) ->
  exists n, finish i pr b (stored i b f) = (Ok (n, None), (f1, pr1))
    /\ (if in_pruner i then pr1 = mkPruner (pr_policy pr) (b_Height b) true (u64 (pr_total pr + n))
        else pr1 = pr)
    /\ f_utxo f1 = (if in_pruner i then kept_spends pr (b_Height b) (f_utxo (stored i b f))
                    else f_utxo (stored i b f))
    /\ (IndexRetention (pr_policy pr) = 0 -> f_txindex f1 = f_txindex (stored i b f)).
Proof.
  intros Hpr Hh E.
  assert (in_skipValidate i = true \/ validateBlock b = Ok tt) as Hv.
  { destruct (in_skipValidate i) eqn:Es; [by left|right].
    destruct (validateBlock_err b) as [|Hv]; [done|]. by rewrite (ingest_rejected i b f pr _ Es Hv) in E. }
  destruct (IngestBlock_flat i b f pr Hv Hpr Hh) as (st' & n & f' & pr' & Ef & E' & _).
  rewrite E in E'. injection E' as <- <- <-. exists n. split; [done|].
  unfold finish in Ef. destruct (in_pruner i); [|by injection Ef as <- <- <-].
  destruct (OnNewBlock_flat pr (b_Height b) (stored i b f) Hpr Hh) as (m & g & Eo & Hu & _ & Hx).
  rewrite Eo in Ef. injection Ef as -> -> <-. split_and!; [done|done|].
  intros HR. rewrite HR in Hx. destruct Hx as [-> _]. done.
Qed.

Lemma ingest_policy i b (f : Flat) pr st f1 pr1 :
  pruner_ok pr -> 0 <= b_Height b < 2 ^ 32 ->
  IngestBlock i b (f, pr) = (Ok (st, None), (f1, pr1)) ->
  pruner_ok pr1 /\ pr_policy pr1 = pr_policy pr.
Proof.
  intros Hpr Hh E. destruct (IngestBlock_inv _ _ _ _ _ _ _ Hpr Hh E) as (n & _ & Hp & _).
  destruct (in_pruner i); subst; [|done]. destruct Hpr as [Hpol _]. split; [|done]. by split.
Qed.

(** The pruner evicted a spend that was at least [D + 1] deep at height [h]. *)
Definition evicted (pr : Pruner) (h : Z) (x : option UTXO) : Prop :=
  exists u, x = Some u /\ u_Spent u = true /\ D (pr_policy pr) <= h - u_SpentHeight u.

Lemma kept_spends_lookup pr h (m : gmap Outpoint UTXO) k :
  kept_spends pr h m !! k = m !! k \/ (kept_spends pr h m !! k = None /\ evicted pr h (m !! k)).
Proof.
  unfold kept_spends. rewrite map_lookup_filter. destruct (m !! k) as [u|]; [|by left]. simpl.
  case_guard as Hg; [by left|]. right. split; [done|]. exists u. split; [done|].
  apply not_false_is_true in Hg. unfold in_band in Hg. zbool. split; [done|lia].
Qed.

Lemma ingest_key i b (f : Flat) pr st f1 pr1 k :
  pruner_ok pr -> 0 <= b_Height b < 2 ^ 32 ->
  IngestBlock i b (f, pr) = (Ok (st, None), (f1, pr1)) ->
  let es := owned_entries i b in
  k ∉ es_outputs es ->
  (k ∉ es_inputs es -> f_utxo f1 !! k = f_utxo f !! k
     \/ (in_pruner i = true /\ f_utxo f1 !! k = None /\ evicted pr (b_Height b) (f_utxo f !! k)))
  /\ (k ∈ es_inputs es -> (in_pruner i = true -> 0 < D (pr_policy pr)) ->
      exists by_, f_utxo f1 !! k = (fun u => mark_spent u by_ (b_Height b)) <$> f_utxo f !! k).
Proof.
  intros Hpr Hh E es Ho. destruct (IngestBlock_inv _ _ _ _ _ _ _ Hpr Hh E) as (n & _ & _ & Hu & _).
  destruct (block_utxo b es (put_head i b f) k) as (H1 & H2 & _).
  destruct (put_head_tables i b f) as [Hp _]. rewrite Hp in H1, H2.
  change (foldl (apply_tx b) (put_head i b f) es) with (stored i b f) in H1, H2.
  rewrite Hu. split.
  - intros Hi. rewrite <- (H1 Ho Hi). destruct (in_pruner i); [|by left].
    destruct (kept_spends_lookup pr (b_Height b) (f_utxo (stored i b f)) k) as [->|[-> ?]]; auto.
  - intros Hi HD. destruct (H2 Ho Hi) as [by_ Hs]. exists by_. rewrite <- Hs.
    destruct (in_pruner i); [|done].
    destruct (kept_spends_lookup pr (b_Height b) (f_utxo (stored i b f)) k) as [->|[_ (u & Eu & _ & Hd)]]; [done|].
    rewrite Hs in Eu. destruct (f_utxo f !! k); [|done]. injection Eu as <-. simpl in Hd.
    specialize (HD eq_refl). lia.
Qed.

(** ** Chains and their rollback *)

(** The block applies to the state: its transactions and outputs are new and
    it spends nothing that is already spent. *)
Definition block_applies (i : Ingestor) (b : Block) (f : Flat) : Prop :=
  let es := owned_entries i b in
  Forall (fun t => f_txindex f !! t = None) (es_txids es)
  /\ Forall (fun k => f_utxo f !! k = None) (es_outputs es)
  /\ Forall (fun k => forall u, f_utxo f !! k = Some u -> mark_unspent u = u) (es_inputs es).

Inductive extends {S} `{LawfulStore S} (i : Ingestor) : S * Pruner -> list Block -> S * Pruner -> Prop :=
| extends_nil p : extends i p [] p
| extends_cons s pr b st s1 pr1 bs q :
    block_applies i b (store_view s) -> 0 <= b_Height b < 2 ^ 32 ->
    IngestBlock i b (s, pr) = (Ok (st, None), (s1, pr1)) ->
    extends i (s1, pr1) bs q -> extends i (s, pr) (b :: bs) q.

(** The blocks of a reorganisation, the last one first. *)
Definition RollbackBlocks {S} `{Store S} (i : Ingestor) (bs : list Block) : M S unit :=
  for_each (RollbackBlock i) (rev bs).

(** All heights lie within the pruner's depth of each other. *)
Definition within_depth (i : Ingestor) (pr : Pruner) (bs : list Block) : Prop :=
  in_pruner i = true ->
  Forall (fun b => Forall (fun b' => b_Height b' - b_Height b < D (pr_policy pr)) bs) bs.

(** What a rollback may have lost: spends already too deep for the policy. *)
Definition restored (i : Ingestor) (pr : Pruner) (bs : list Block) (x z : option UTXO) : Prop :=
  z = x \/ (in_pruner i = true /\ z = None /\ exists b, b ∈ bs /\ evicted pr (b_Height b) x).

Lemma rollback_key i b pr (f : Flat) f1 pr1 st bs k z :
  pruner_ok pr -> 0 <= b_Height b < 2 ^ 32 -> block_applies i b f -> within_depth i pr (b :: bs) ->
  IngestBlock i b (f, pr) = (Ok (st, None), (f1, pr1)) ->
  restored i pr bs (f_utxo f1 !! k) z ->
  restored i pr (b :: bs) (f_utxo f !! k) (undo (owned_entries i b) k z).
Proof.
  intros Hpr Hh (_ & Hout & Hin) Hw E Hz. rewrite Forall_forall in Hout, Hin.
  unfold undo. destruct (decide (k ∈ es_outputs (owned_entries i b))) as [Ho|Ho].
  { rewrite bool_decide_eq_true_2 by done. left. symmetry. by apply Hout. }
  rewrite (bool_decide_eq_false_2 _ Ho).
  destruct (ingest_key i b f pr st f1 pr1 k Hpr Hh E Ho) as [K1 K2].
  destruct (decide (k ∈ es_inputs (owned_entries i b))) as [Hi|Hi].
  - rewrite bool_decide_eq_true_2 by done.
    assert (in_pruner i = true -> 0 < D (pr_policy pr)) as HD.
    { intros Hp. specialize (Hw Hp). inversion Hw as [|?? Hb _]; subst. inversion Hb; subst. lia. }
    destruct (K2 Hi HD) as [by_ Hy]. rewrite Hy in Hz.
    assert (mark_unspent <$> z = f_utxo f !! k) as ->; [|by left].
    assert (z = (fun u => mark_spent u by_ (b_Height b)) <$> f_utxo f !! k) as ->.
    { destruct Hz as [->|(Hp & -> & b' & Hb' & u & Eu & _ & Hd)]; [done|].
      destruct (f_utxo f !! k); [|done]. simpl in Eu. injection Eu as <-. simpl in Hd.
      specialize (Hw Hp). inversion Hw as [|?? Hb _]; subst. rewrite Forall_forall in Hb.
      specialize (Hb b' ltac:(set_solver)). simpl in Hb. lia. }
    destruct (f_utxo f !! k) as [u|] eqn:Eu; [|done]. simpl. f_equal. exact (Hin k Hi u Eu).
  - rewrite (bool_decide_eq_false_2 _ Hi).
    destruct (K1 Hi) as [Hy|(Hp & Hy & He)]; rewrite Hy in Hz.
    + destruct Hz as [->|(Hp & -> & b' & Hb' & ?)]; [by left|]. right. split_and!; [done..|].
      exists b'. set_solver.
    + right. split_and!; [done| |exists b; set_solver]. destruct Hz as [->|(_ & -> & _)]; done.
Qed.

Lemma within_depth_tail i pr b bs : within_depth i pr (b :: bs) -> within_depth i pr bs.
Proof.
  intros Hw Hp. specialize (Hw Hp). inversion Hw as [|?? _ Ht]; subst.
  eapply Forall_impl; [exact Ht|]. intros b' Hb. by inversion Hb.
Qed.

Lemma rollback_flat i (p q : Flat * Pruner) bs :
  extends i p bs q -> pruner_ok p.2 -> within_depth i p.2 bs ->
  exists f, RollbackBlocks i bs q.1 = (Ok tt, f)
    /\ (forall k, restored i p.2 bs (f_utxo p.1 !! k) (f_utxo f !! k))
    /\ (IndexRetention (pr_policy p.2) = 0 -> f_txindex f = f_txindex p.1).
Proof.
  intros He. induction He as [p|f pr b st f1 pr1 bs q Happ Hh E He IH]; intros Hpr Hw.
  { exists p.1. split_and!; [done|by left|done]. }
  simpl in Hpr, Hw, Happ, IH |- *. destruct (ingest_policy i b f pr st f1 pr1 Hpr Hh E) as [Hpr1 Hpol].
  destruct IH as (g & Eg & Hg & Hx); [done|unfold within_depth; rewrite Hpol; by eapply within_depth_tail|].
  exists (foldl unapply_tx g (owned_entries i b)). unfold RollbackBlocks in *. cbn [rev].
  rewrite for_each_app. erewrite mbind_ok by exact Eg. cbn [for_each]. unfold mbind.
  rewrite RollbackBlock_flat. split_and!; [done| |].
  - intros k. rewrite (proj1 (rollback_lookup _ g k zeroHash)).
    eapply rollback_key; [done..|exact E|]. specialize (Hg k).
    unfold restored, evicted in *. by rewrite Hpol in Hg.
  - intros HR. rewrite Hpol in Hx. specialize (Hx HR). apply map_eq. intros t.
    rewrite (proj2 (rollback_lookup _ g (mkOutpoint zeroHash 0) t)), Hx.
    destruct (IngestBlock_inv _ _ _ _ _ _ _ Hpr Hh E) as (n & _ & _ & _ & Ht). rewrite (Ht HR).
    destruct (block_index b (owned_entries i b) (put_head i b f)) as (_ & _ & _ & _ & H5 & _).
    destruct (put_head_tables i b f) as [_ Hp]. rewrite Hp in H5. destruct Happ as (Hnew & _).
    rewrite Forall_forall in Hnew. case_bool_decide as Hin; [by rewrite Hnew|]. by apply H5.
Qed.

Lemma extends_view {S} `{LawfulStore S} i (p q : S * Pruner) bs :
  extends i p bs q -> store_inv p.1 ->
  store_inv q.1 /\ extends i (store_view p.1, p.2) bs (store_view q.1, q.2).
Proof.
  intros He. induction He as [p|s pr b st s1 pr1 bs q Happ Hh E He IH]; intros Hi.
  { split; [done|constructor]. }
  destruct (sim_IngestBlock i b (s, pr) (store_view s, pr)) as (r & [s' pr'] & [f' pr''] & E1 & E2 & [[Hi' Hv] Hp]);
    [done|].
  rewrite E in E1. injection E1 as <- <- <-. simpl in Hv, Hp. subst f' pr''.
  destruct IH as [Hq Hext]; [done|]. split; [done|]. by econstructor.
Qed.

Lemma sim_RollbackBlocks {S} `{LawfulStore S} i bs :
  sim store_rel (RollbackBlocks (S := S) i bs) (RollbackBlocks (S := Flat) i bs).
Proof. apply sim_for_each. intros b. apply sim_RollbackBlock. Qed.


(** ** The retention window *)

(** Every spent record is at most [D] deep at the pruner's tip. *)
Definition in_window (pr : Pruner) (f : Flat) : Prop :=
  forall k u, f_utxo f !! k = Some u -> u_Spent u = true ->
  pr_hasTip pr = true /\ 0 <= u_SpentHeight u /\ pr_lastTip pr - D (pr_policy pr) < u_SpentHeight u.

(** A node's life: blocks ingested at any later height or within the horizon
    below the tip (whatever the outcome), and blocks rolled back. *)
Inductive node_step {S} `{Store S} (i : Ingestor) : S * Pruner -> S * Pruner -> Prop :=
| node_ingest s pr b r p' :
    0 <= b_Height b < 2 ^ 32 ->
    (pr_hasTip pr = true -> pr_lastTip pr - D (pr_policy pr) < b_Height b) ->
    IngestBlock i b (s, pr) = (r, p') -> node_step i (s, pr) p'
| node_rollback s pr b r s' : RollbackBlock i b s = (r, s') -> node_step i (s, pr) (s', pr).

Lemma IngestBlock_cases i b (f : Flat) pr :
  pruner_ok pr -> 0 <= b_Height b < 2 ^ 32 ->
  (exists st f1 pr1, IngestBlock i b (f, pr) = (Ok (st, None), (f1, pr1)))
  \/ (exists e, IngestBlock i b (f, pr) = (Ok (zeroStats, Some e), (f, pr))).
Proof.
  intros Hpr Hh. destruct (in_skipValidate i) eqn:Es.
  - left. destruct (IngestBlock_flat i b f pr (or_introl Es) Hpr Hh) as (st & n & f1 & pr1 & _ & E & _). eauto.
  - destruct (validateBlock_err b) as [Hv|Hv].
    + left. destruct (IngestBlock_flat i b f pr (or_intror Hv) Hpr Hh) as (st & n & f1 & pr1 & _ & E & _). eauto.
    + right. eexists. by apply ingest_rejected.
Qed.

Lemma in_band_below pr tip d h :
  0 <= pr_lastTip pr < 2 ^ 32 -> 0 <= d -> 0 <= h <= tip - d ->
  (pr_hasTip pr = false -> h = tip - d) -> (pr_hasTip pr = true -> pr_lastTip pr - d < h) ->
  in_band pr tip d h = true.
Proof.
  intros Hl Hd Hh Hf Ht. unfold in_band. apply andb_true_iff; split; [apply andb_true_iff; split|]; apply Z.leb_le.
  - lia.
  - unfold sweep_start. destruct (pr_hasTip pr); simpl; [|by rewrite Hf].
    specialize (Ht eq_refl). destruct (d <=? pr_lastTip pr) eqn:E; zbool; [|lia].
    rewrite (u32_small (pr_lastTip pr - d)) by lia.
    destruct (decide (pr_lastTip pr - d + 1 = 2 ^ 32)) as [->|]; [change (u32 (2 ^ 32)) with 0; lia|].
    rewrite u32_small by lia. lia.
  - lia.
Qed.

Lemma window_ingest i b (f : Flat) pr st f1 pr1 :
  in_pruner i = true -> pruner_ok pr -> 0 <= b_Height b < 2 ^ 32 ->
  (pr_hasTip pr = true -> pr_lastTip pr - D (pr_policy pr) < b_Height b) ->
  IngestBlock i b (f, pr) = (Ok (st, None), (f1, pr1)) ->
  in_window pr f -> in_window pr1 f1.
Proof.
  intros Hp Hpr Hh Ht E Hw k u Hu Hs.
  destruct (IngestBlock_inv _ _ _ _ _ _ _ Hpr Hh E) as (n & _ & Hpr1 & Hkept & _). rewrite Hp in Hpr1, Hkept.
  subst pr1. simpl. split; [done|]. rewrite Hkept in Hu.
  apply map_lookup_filter_Some in Hu as [Hu Hband]. simpl in Hband. rewrite Hs in Hband. simpl in Hband.
  destruct Hpr as [Hpol Hlast]. assert (0 <= D (pr_policy pr)) by (rewrite D_exact by done; unfold policy_ok in *; lia).
  assert ((pr_hasTip pr = true /\ 0 <= u_SpentHeight u /\ pr_lastTip pr - D (pr_policy pr) < u_SpentHeight u)
          \/ u_SpentHeight u = b_Height b) as [(Ht' & H0 & Hlo)|Heq].
  { destruct (block_utxo b (owned_entries i b) (put_head i b f) k) as (H1 & H2 & H3).
    rewrite (proj1 (put_head_tables i b f)) in H1, H2.
    change (foldl (apply_tx b) (put_head i b f) (owned_entries i b)) with (stored i b f) in H1, H2, H3.
    destruct (decide (k ∈ es_outputs (owned_entries i b))) as [Ho|Ho].
    - right. destruct (H3 Ho) as (u' & Eu & [|]); congruence.
    - destruct (decide (k ∈ es_inputs (owned_entries i b))) as [Hi|Hi].
      + right. destruct (H2 Ho Hi) as [by_ Eu]. rewrite Eu in Hu. destruct (f_utxo f !! k); [|done].
        injection Hu as <-. done.
      + left. rewrite (H1 Ho Hi) in Hu. by apply (Hw k u). }
  - split; [done|]. destruct (decide (b_Height b - D (pr_policy pr) < u_SpentHeight u)) as [|Hn]; [done|].
    rewrite in_band_below in Hband; [done|lia..| |]; [by rewrite Ht'|done].
  - split; [lia|]. destruct (decide (0 < D (pr_policy pr))) as [|Hn]; [lia|].
    rewrite in_band_below in Hband; [done|lia..| |]; [lia|]. intros Hx. specialize (Ht Hx). lia.
Qed.

Lemma window_rollback i b (f : Flat) pr : in_window pr f -> in_window pr (RollbackBlock i b f).2.
Proof.
  intros Hw k u. rewrite RollbackBlock_flat. simpl. rewrite (proj1 (rollback_lookup _ f k zeroHash)).
  unfold undo. case_bool_decide; [done|]. case_bool_decide; [|apply Hw].
  destruct (f_utxo f !! k) as [u'|]; [|done]. simpl. intros Eu. injection Eu as <-. done.
Qed.

Lemma window_step {S} `{LawfulStore S} i (p p' : S * Pruner) :
  in_pruner i = true -> node_step i p p' ->
  store_inv p.1 /\ pruner_ok p.2 /\ in_window p.2 (store_view p.1) ->
  store_inv p'.1 /\ pruner_ok p'.2 /\ in_window p'.2 (store_view p'.1).
Proof.
  intros Hp Hstep (Hi & Hpr & Hw). destruct Hstep as [s pr b r p' Hh Ht E|s pr b r s' E]; simpl in *.
  - destruct (sim_IngestBlock i b (s, pr) (store_view s, pr)) as (r' & q & [f pr''] & E1 & E2 & [[Hi' Hv] Hq]); [done|].
    rewrite E in E1. injection E1 as <- <-. simpl in Hv, Hq. subst f pr''. split; [done|].
    destruct (IngestBlock_cases i b (store_view s) pr Hpr Hh) as [(st & f1 & pr1 & E3)|[e E3]];
      rewrite E2 in E3; injection E3 as -> E4 E5.
    + destruct (ingest_policy i b (store_view s) pr st (store_view p'.1) p'.2 Hpr Hh E2) as [Hpr1 _].
      split; [done|]. by eapply (window_ingest i b (store_view s) pr).
    + rewrite E4, E5. done.
  - destruct (sim_RollbackBlock i b s (store_view s)) as (r' & q & f & E1 & E2 & [Hi' Hv]); [done|].
    rewrite E in E1. injection E1 as <- <-. split_and!; [done..|].
    pose proof (window_rollback i b (store_view s) pr Hw) as Hw'. rewrite E2 in Hw'. simpl in Hw'. by rewrite Hv.
Qed.

(** bounded retention.  Along any sequence of ingests (with gaps between the
    heights, rejected blocks, or replacements within the horizon) and
    rollbacks on a lawful store, every spent record still held is at most [D]
    deep at the pruner's tip: tip jumps leave no band behind. *)
Theorem retention_window {S} `{LawfulStore S} (i : Ingestor) (p p' : S * Pruner) :
  in_pruner i = true -> store_inv p.1 -> pruner_ok p.2 -> in_window p.2 (store_view p.1) ->
  rtc (node_step i) p p' -> in_window p'.2 (store_view p'.1).
Proof.
  intros Hp Hi Hpr Hw Hr. cut (store_inv p'.1 /\ pruner_ok p'.2 /\ in_window p'.2 (store_view p'.1)); [tauto|].
  induction Hr as [|p q p' Hs _ IH]; [done|].
  destruct (window_step i p q Hp Hs) as (? & ? & ?); [done|]. by apply IH.
Qed.

(** ** Witnesses *)

Lemma demo_height : 0 <= b_Height demo_block < 2 ^ 32.
Proof. vm_compute. split; [discriminate|reflexivity]. Qed.

Lemma demo_ingests :
  exists st s1 pr1, IngestBlock demo_ingestor demo_block (New, NewPruner RecommendedPolicy) = (Ok (st, None), (s1, pr1)).
Proof.
  destruct (IngestBlock_flat demo_ingestor demo_block (store_view New) (NewPruner RecommendedPolicy)
    (or_intror demo_block_valid) demo_policy_ok demo_height) as (st & n & f & pr1 & _ & E & _).
  destruct (sim_IngestBlock demo_ingestor demo_block (New, NewPruner RecommendedPolicy)
    (store_view New, NewPruner RecommendedPolicy)) as (r & [s1 pr2] & q & E1 & E2 & _).
  { split; [split; [exact New_inv|reflexivity]|reflexivity]. }
  rewrite E in E2. injection E2 as <- <-. eauto.
Qed.

Lemma demo_applies : block_applies demo_ingestor demo_block (store_view New).
Proof.
  change (store_view New) with (mem_view New). rewrite New_view.
  split_and!; apply Forall_forall; intros x _; [apply lookup_empty..|]. intros u Hu.
  change (f_utxo flatEmpty) with (∅ : gmap Outpoint UTXO) in Hu. by rewrite lookup_empty in Hu.
Qed.


Lemma retention_window_witness :
  exists s1 pr1, rtc (node_step demo_ingestor) (New, NewPruner RecommendedPolicy) (s1, pr1)
    /\ in_window pr1 (store_view s1).
Proof.
  destruct demo_ingests as (st & s1 & pr1 & E). exists s1, pr1.
  assert (rtc (node_step demo_ingestor) (New, NewPruner RecommendedPolicy) (s1, pr1)) as Hr.
  { apply rtc_once. econstructor; [exact demo_height|discriminate|exact E]. }
  split; [exact Hr|].
  apply (retention_window demo_ingestor (New, NewPruner RecommendedPolicy) (s1, pr1));
    [reflexivity|exact New_inv|exact demo_policy_ok| |exact Hr].
  intros k u Hu. change (f_utxo (mem_view New) !! k = Some u) in Hu. rewrite New_view in Hu.
  change (f_utxo flatEmpty) with (∅ : gmap Outpoint UTXO) in Hu. by rewrite lookup_empty in Hu.
Defined.
