(* ===== verification/Pipeline.v ===== *)
(** * The ingest pipeline: source, validation, store
      ([src/teranode/teranode.go], [src/ingest/ingest.go])

    The mock chain passes validation block by block, and draining it with
    [Run] terminates with every block indexed.  Two results record what the
    ingest checks do not cover: a repeated last transaction passes validation,
    and a sharded server does not see spends made by transactions of another
    shard. *)

From stdpp Require Import base gmap list strings sets.
From Stdlib Require Import ZArith Lia ZifyNat.
From Stdlib Require Strings.Byte.
From S2P Require Import Prelude Sha256 Commitment Shard StoreSpec MemStore ProofPath Prune Teranode Ingest Reorg.
Open Scope go_scope.

(** ** The mock chain *)

Definition mock_ok (m : MockSource) : Prop :=
  1 <= c_SubtreesPer (m_cfg m) /\ 1 <= c_TxsPerSubtree (m_cfg m) /\ 0 <= m_made m.

Lemma NewMock_ok cfg : mock_ok (NewMock cfg).
Proof. unfold mock_ok, NewMock, at_least_one. simpl. repeat case_match; zbool; lia. Qed.

(** A block as the mock source seals it. *)
Definition sealed (b : Block) : Prop :=
  b_SubtreeRoots b = sub_Root <$> b_Subtrees b /\ Forall sub_made (b_Subtrees b)
  /\ MerkleRoot (b_SubtreeRoots b) = Ok (b_MerkleRoot b)
  /\ HeaderMerkleRoot (b_Header b) = b_MerkleRoot b.

Lemma sealed_valid b : sealed b -> validateBlock b = Ok tt.
Proof.
  intros (Hr & Hm & Hroot & Hh). apply validateBlock_ok. rewrite Forall_forall in Hm.
  split_and!; [by rewrite Hr, length_fmap| |done|done].
  intros i sub Hi. split; [by apply Hm, list_elem_of_lookup_2 with i|].
  by rewrite Hr, list_lookup_fmap, Hi.
Qed.

Lemma mock_Next_sealed m :
  mock_ok m -> m_made m < c_Blocks (m_cfg m) ->
  exists b m', Next m = (Ok (Some b), m') /\ sealed b /\ b_Height b = m_height m
    /\ Z.of_nat (length (b_Subtrees b)) = c_SubtreesPer (m_cfg m)
    /\ Forall (fun sub => Z.of_nat (length (sub_Txs sub)) = c_TxsPerSubtree (m_cfg m)) (b_Subtrees b)
    /\ m_cfg m' = m_cfg m /\ m_made m' = m_made m + 1 /\ m_height m' = u32 (m_height m + 1).
Proof.
  intros (Hs & Ht & _) Hm. unfold Next, mock_source, mock_Next. rewrite (proj2 (Z.leb_gt _ _)) by lia.
  match goal with |- context [let '(_, _) := ?x in _] => destruct x as [ts m1] eqn:E1 end.
  assert (same_pos m m1) as (Hc1 & Hh1 & Hm1) by (case_match; by simplify_eq).
  destruct (mock_subtrees _ _ _ _ _ m1) as [subs m2] eqn:E2.
  apply mock_subtrees_made in E2 as ((Hc & Hh & Hmd) & Hlen & Hf); [|by rewrite Hc1].
  eexists _, _. split; [reflexivity|]. cbn [b_Height b_Subtrees m_cfg m_made m_height].
  assert (sub_Root <$> subs <> []) as Hne.
  { intros En. apply (f_equal length) in En. rewrite length_fmap in En. simpl in En. lia. }
  split_and!; [|done|lia| |congruence|congruence|done].
  - split_and!; cbn [b_SubtreeRoots b_Subtrees b_MerkleRoot b_Header].
    + done.
    + eapply Forall_impl; [exact Hf|]. by intros sub [? _].
    + by apply MerkleRoot_nonempty.
    + apply buildHeader_root.
  - eapply Forall_impl; [exact Hf|]. intros sub [_ Hn]. by rewrite Hc1 in Hn.
Qed.

(** while it has blocks left, the mock source produces the next block, which
    passes [validateBlock], lists the transactions of each subtree in the
    order of its leaves, has the configured shape and the next height. *)
Theorem mock_source_valid (m : MockSource) :
  mock_ok m -> m_made m < c_Blocks (m_cfg m) ->
  exists b m', Next m = (Ok (Some b), m') /\ validateBlock b = Ok tt
    /\ Forall (fun sub => sub_TxIDs sub = tx_TxID <$> sub_Txs sub
         /\ Z.of_nat (length (sub_Txs sub)) = c_TxsPerSubtree (m_cfg m)) (b_Subtrees b)
    /\ b_Height b = m_height m /\ TipHeight m' = u32 (u32 (m_height m + 1) - 1).
Proof.
  intros Hok Hm. destruct (mock_Next_sealed m Hok Hm) as (b & m' & E & Hs & Hh & _ & Hn & Hc & Hmd & Hht).
  exists b, m'. split_and!; [done|by apply sealed_valid| |done|].
  - apply Forall_and. split; [|done]. destruct Hs as (_ & Hs & _). eapply Forall_impl; [exact Hs|].
    by intros sub [? _].
  - unfold TipHeight, mock_source, mock_tip_height. rewrite Hmd, Hht.
    destruct Hok as (_ & _ & Hp). by rewrite (proj2 (Z.eqb_neq _ _)) by lia.
Qed.

(** ** Draining a source *)

Lemma entries_length b n :
  Forall (fun sub => Z.of_nat (length (sub_Txs sub)) = n) (b_Subtrees b) ->
  Z.of_nat (length (entries b)) = Z.of_nat (length (b_Subtrees b)) * n.
Proof.
  unfold entries, numbered. generalize 0. intros z.
  replace (imap (fun j x => (z + Z.of_nat j, x)) (b_Subtrees b)) with (numbered z (b_Subtrees b)) by done.
  generalize (b_Subtrees b). intros subs. revert z. induction subs as [|s r IH]; intros z Hf; [done|].
  inversion Hf; subst. rewrite numbered_cons. cbn [fmap list_fmap concat]. rewrite length_app.
  unfold sub_entries at 1. rewrite length_fmap. unfold numbered at 1. rewrite length_imap. simpl.
  rewrite Nat2Z.inj_add, IH by done. lia.
Qed.

Lemma owned_all i b : in_k i = 0 -> owned_entries i b = entries b.
Proof.
  intros Hk. unfold owned_entries. induction (entries b) as [|e r IH]; [done|].
  rewrite filter_cons_True, IH; [done|]. unfold owns. by rewrite Hk.
Qed.

Lemma ingest_lawful {S} `{LawfulStore S} i b (s : S) pr :
  store_inv s -> pruner_ok pr -> validateBlock b = Ok tt -> 0 <= b_Height b < 2 ^ 32 ->
  exists st s1 pr1, IngestBlock i b (s, pr) = (Ok (st, None), (s1, pr1))
    /\ store_inv s1 /\ pruner_ok pr1 /\ is_Blocks st = 1
    /\ is_TxsIndexed st = Z.of_nat (length (owned_entries i b)).
Proof.
  intros Hi Hpr Hv Hh.
  destruct (IngestBlock_flat i b (store_view s) pr (or_intror Hv) Hpr Hh) as (st & n & f & pr1 & _ & E & H1 & H2 & _).
  destruct (sim_IngestBlock i b (s, pr) (store_view s, pr)) as (r & [s1 pr2] & q & E1 & E2 & [[Hi1 Hv1] Hp]); [done|].
  pose proof (ingest_policy i b _ pr st f pr1 Hpr Hh E) as [Hpr1 _].
  rewrite E in E2. injection E2 as <- <-. simpl in Hp. subst pr2. by exists st, s1, pr1.
Qed.

Lemma run_loop_mock {S} `{LawfulStore S} (fuel : nat) i total (s : S) pr m :
  store_inv s -> pruner_ok pr -> mock_ok m -> in_k i = 0 -> m_made m <= c_Blocks (m_cfg m) ->
  0 <= m_height m -> m_height m + (c_Blocks (m_cfg m) - m_made m) < 2 ^ 32 ->
  c_Blocks (m_cfg m) - m_made m < Z.of_nat fuel ->
  let left_ := c_Blocks (m_cfg m) - m_made m in
  exists st q, run_loop fuel i total ((s, pr), m) = (Ok (st, None), q)
    /\ is_Blocks st = is_Blocks total + left_
    /\ is_TxsIndexed st = is_TxsIndexed total + left_ * (c_SubtreesPer (m_cfg m) * c_TxsPerSubtree (m_cfg m))
    /\ Next q.2 = (Ok None, q.2).
Proof.
  cbv zeta. revert total s pr m.
  induction fuel as [|fuel IH]; intros total s pr m Hi Hpr Hok Hk Hmade Hh0 Hh Hf; [lia|].
  cbn [run_loop]. unfold mbind at 1, mtry, on2. cbn [fst snd].
  destruct (decide (m_made m = c_Blocks (m_cfg m))) as [Hd|Hd].
  - assert (Next m = (Ok None, m)) as En.
    { unfold Next, mock_source, mock_Next. by rewrite (proj2 (Z.leb_le _ _)) by lia. }
    rewrite En. eexists _, _. split; [reflexivity|]. simpl. rewrite Hd. split_and!; [lia..|done].
  - destruct (mock_Next_sealed m Hok) as (b & m' & -> & Hs & Hbh & Hsn & Htn & Hc & Hmd & Hht); [lia|].
    cbn beta iota. unfold on1, mbind. cbn [fst snd].
    destruct (ingest_lawful i b s pr Hi Hpr (sealed_valid b Hs)) as (st & s1 & pr1 & -> & Hi1 & Hpr1 & Hb & Ht);
      [rewrite Hbh; lia|].
    cbn beta iota. rewrite u32_small in Hht by lia.
    destruct (IH (add_stats total st) s1 pr1 m') as (st' & q & -> & H1 & H2 & H3);
      rewrite ?Hc, ?Hmd, ?Hht; try done; try lia.
    { unfold mock_ok in *. rewrite Hc, Hmd. lia. }
    exists st', q. rewrite Hc, Hmd in *. simpl in H1, H2. split_and!; [done|lia| |done].
    rewrite owned_all in Ht by done. rewrite (entries_length b _ Htn), Hsn in Ht. lia.
Qed.

(** draining the mock chain terminates.  On an un-sharded lawful store, with
    fuel for one turn more than the blocks left, [Run] returns without an
    error, having ingested every block and indexed every transaction. *)
Theorem run_mock_terminates {S} `{LawfulStore S} (fuel : nat) (i : Ingestor) (s : S) (pr : Pruner)
    (cfg : MockConfig) :
  let m := NewMock cfg in
  let n := c_Blocks (m_cfg m) in
  store_inv s -> pruner_ok pr -> in_k i = 0 -> 0 <= c_StartHeight cfg ->
  c_StartHeight cfg + n < 2 ^ 32 -> n < Z.of_nat fuel ->
  exists st q, Run fuel i ((s, pr), m) = (Ok (st, None), q)
    /\ is_Blocks st = n
    /\ is_TxsIndexed st = n * (c_SubtreesPer (m_cfg m) * c_TxsPerSubtree (m_cfg m))
    /\ Next q.2 = (Ok None, q.2).
Proof.
  intros m n Hi Hpr Hk Hst Hh Hf.
  assert (1 <= n) by (unfold n, m, NewMock, at_least_one; simpl; case_match; zbool; lia).
  destruct (run_loop_mock fuel i zeroStats s pr m Hi Hpr (NewMock_ok cfg) Hk) as (st & q & E & Hb1 & Hb2 & Hb3);
    [fold n; simpl; lia|simpl; lia|fold n; simpl; lia|fold n; simpl; lia|].
  fold n in Hb1, Hb2. change (m_made m) with 0 in Hb1, Hb2. cbn [is_Blocks is_TxsIndexed zeroStats] in Hb1, Hb2.
  rewrite Z.sub_0_r in Hb1, Hb2.
  exists st, q. split_and!; [exact E|lia|lia|exact Hb3].
Qed.

(** ** What the ingest checks do not cover *)

(** The block with the last transaction of one subtree listed twice. *)
Definition dup_last (sub : Subtree) : Subtree :=
  match last (sub_TxIDs sub) with
  | Some t => mkSubtree (sub_Root sub) (sub_TxIDs sub ++ [t])
                (sub_Txs sub ++ match last (sub_Txs sub) with Some tx => [tx] | None => [] end)
  | None => sub
  end.
Definition dup_block (b : Block) (j : nat) : Block :=
  mkBlock (b_Hash b) (b_Height b) (b_Time b) (b_MerkleRoot b) (b_SubtreeRoots b) (b_Header b)
    (alter dup_last j (b_Subtrees b)).

Lemma MerkleRoot_dup leaves x :
  Nat.Odd (length leaves) -> (1 < length leaves)%nat -> last leaves = Some x ->
  MerkleRoot (leaves ++ [x]) = MerkleRoot leaves.
Proof.
  intros Ho Hl Hx. assert (leaves <> []) as Hne by (by intros ->).
  assert (leaves ++ [x] <> []) as Hne' by (by destruct leaves).
  destruct (BuildMerkleTree_ok leaves Hne) as (r & Hr & E).
  destruct (BuildMerkleTree_ok (leaves ++ [x]) Hne') as (r' & Hr' & E').
  unfold MerkleRoot. rewrite E, E'. simpl.
  rewrite layers_of_step in Hr, Hr' by (rewrite ?length_app; simpl; lia).
  rewrite next_level_dup in Hr' by done. unfold layers_of in *. rewrite last_cons_cons in Hr, Hr'. congruence.
Qed.

(** validation does not determine the transactions.  A valid block stays valid
    with the same header and roots when the last transaction of an odd subtree
    of more than one leaf is listed twice, and ingest then indexes one
    transaction more. *)
Theorem duplicate_tail_accepted (b : Block) (j : nat) (sub : Subtree) :
  validateBlock b = Ok tt -> b_Subtrees b !! j = Some sub ->
  Nat.Odd (length (sub_TxIDs sub)) -> (1 < length (sub_TxIDs sub))%nat ->
  validateBlock (dup_block b j) = Ok tt /\ dup_last sub <> sub.
Proof.
  intros Hv Hj Ho Hl. apply validateBlock_ok in Hv as (Hlen & Hs & Hr & Hh).
  destruct (last (sub_TxIDs sub)) as [t|] eqn:Et; [|apply last_None in Et; rewrite Et in Hl; simpl in Hl; lia].
  split.
  - apply validateBlock_ok. unfold dup_block. simpl. rewrite length_alter. split_and!; [done| |done|done].
    intros k s' Hk. destruct (decide (k = j)) as [->|Hne].
    + rewrite list_lookup_alter_eq, Hj in Hk. simpl in Hk. injection Hk as <-.
      destruct (Hs j sub Hj) as [H1 H2]. unfold dup_last. rewrite Et. simpl. split; [|done].
      by rewrite MerkleRoot_dup.
    + rewrite list_lookup_alter_ne in Hk by done. by apply Hs.
  - unfold dup_last. rewrite Et. intros E. apply (f_equal (fun s => length (sub_TxIDs s))) in E. simpl in E.
    rewrite length_app in E. simpl in E. lia.
Qed.

(** a sharded server does not see foreign spends.  If every transaction of the
    block that spends an output belongs to another shard, the output is stored
    unchanged after the block: a query on this server still reports it
    unspent (and the spender's server, which does not hold the output, records
    no spend either). *)
Theorem foreign_spend_unseen {S} `{LawfulStore S} (i : Ingestor) (b : Block) (s : S) (pr : Pruner)
    (op : Outpoint) (u : UTXO) :
  store_inv s -> pruner_ok pr -> 0 <= b_Height b < 2 ^ 32 -> validateBlock b = Ok tt ->
  f_utxo (store_view s) !! op = Some u -> u_Spent u = false ->
  Forall (fun e => op ∈ tx_Inputs (entry_tx e) \/ op ∈ out_keys (entry_tx e) ->
            owns i (tx_TxID (entry_tx e)) = false) (entries b) ->
  exists st s' pr' s'', IngestBlock i b (s, pr) = (Ok (st, None), (s', pr'))
    /\ GetUTXO op s' = (Ok (Some u), s'').
Proof.
  intros Hi Hpr Hh Hv Hu Hun Hfor.
  destruct (ingest_lawful i b s pr Hi Hpr Hv Hh) as (st & s' & pr' & E & Hi' & _).
  destruct (sim_IngestBlock i b (s, pr) (store_view s, pr)) as (r & [s1 pr1] & [f pr2] & E1 & E2 & [[_ Hvw] Hp]); [done|].
  rewrite E in E1. injection E1 as <- <- <-. simpl in Hvw, Hp. subst f pr2.
  destruct (sim_GetUTXO op s' (store_view s')) as (r & s'' & f'' & E3 & E4 & _); [done|].
  injection E4 as <- <-. exists st, s', pr', s''. split; [done|]. rewrite E3. repeat f_equal.
  rewrite Forall_forall in Hfor.
  assert (forall e, e ∈ owned_entries i b -> op ∉ tx_Inputs (entry_tx e) /\ op ∉ out_keys (entry_tx e)) as Hown.
  { intros e He. apply owned_entries_elem in He as [Ho He]. specialize (Hfor e He).
    rewrite Ho in Hfor. split; intros Hin; (assert (true = false) by (apply Hfor; auto)); done. }
  assert (op ∉ es_outputs (owned_entries i b)) as Hno.
  { unfold es_outputs. rewrite list_elem_of_In, in_concat. setoid_rewrite <- list_elem_of_In.
    intros (l & Hl & Hin). apply list_elem_of_fmap in Hl as (e & -> & He). by destruct (Hown e He). }
  assert (op ∉ es_inputs (owned_entries i b)) as Hni.
  { unfold es_inputs. rewrite list_elem_of_In, in_concat. setoid_rewrite <- list_elem_of_In.
    intros (l & Hl & Hin). apply list_elem_of_fmap in Hl as (e & -> & He). by destruct (Hown e He). }
  destruct (ingest_key i b (store_view s) pr st (store_view s') pr' op Hpr Hh E2 Hno) as [K _].
  destruct (K Hni) as [->|(_ & _ & u' & Eu & Hs & _)]; [done|]. congruence.
Qed.

(** ** Witnesses *)

Lemma mock_source_valid_witness :
  exists b m', Next demo_mock = (Ok (Some b), m') /\ validateBlock b = Ok tt
    /\ Forall (fun sub => sub_TxIDs sub = tx_TxID <$> sub_Txs sub
         /\ Z.of_nat (length (sub_Txs sub)) = c_TxsPerSubtree (m_cfg demo_mock)) (b_Subtrees b)
    /\ b_Height b = m_height demo_mock /\ TipHeight m' = u32 (u32 (m_height demo_mock + 1) - 1).
Proof. apply (mock_source_valid demo_mock); [apply NewMock_ok|reflexivity]. Defined.

Lemma run_mock_terminates_witness :
  exists st q, Run 4 demo_ingestor ((New, NewPruner RecommendedPolicy), demo_mock) = (Ok (st, None), q)
    /\ is_Blocks st = 3 /\ is_TxsIndexed st = 3 * (1 * 3) /\ Next q.2 = (Ok None, q.2).
Proof.
  apply (run_mock_terminates 4 demo_ingestor New (NewPruner RecommendedPolicy) (mkMockConfig 3 1 3 2 100 7)).
  - exact New_inv.
  - exact demo_policy_ok.
  - reflexivity.
  - vm_compute. discriminate.
  - vm_compute. reflexivity.
  - vm_compute. reflexivity.
Defined.

Lemma duplicate_tail_accepted_witness :
  exists sub, b_Subtrees demo_block !! 0%nat = Some sub
    /\ validateBlock (dup_block demo_block 0) = Ok tt /\ dup_last sub <> sub.
Proof.
  destruct (b_Subtrees demo_block !! 0%nat) as [sub|] eqn:E; [|by vm_compute in E].
  exists sub. split; [reflexivity|].
  assert (length (sub_TxIDs sub) = 3%nat) as Hl.
  { apply (f_equal (fun o => match o with Some s => length (sub_TxIDs s) | None => O end)) in E.
    rewrite <- E. vm_compute. reflexivity. }
  apply (duplicate_tail_accepted demo_block 0 sub demo_block_valid E); rewrite Hl; [exists 1%nat; reflexivity|lia].
Defined.

(** Shard 0 of 2 holds an output spent by a transaction of shard 1. *)
Definition shard_ingestor : Ingestor := mkIngestor 1 0 false true.
Definition id_low (n : Z) : Hash := arr 32 [Byte.x01; z2b n].
Definition id_high (n : Z) : Hash := arr 32 [Byte.xff; z2b n].
Definition foreign_op : Outpoint := mkOutpoint (id_low 1) 0.
Definition foreign_utxo : UTXO := mkUTXO 500 (id_low 9) false zeroHash 0.
Definition foreign_block : Block :=
  let txids := [id_high 2; id_low 3] in
  let root := root_or_zero txids in
  let top := root_or_zero [root] in
  mkBlock (id_low 77) 12 1700000000 top [root] (buildHeader 12 1700000000 top)
    [mkSubtree root txids [mkTx (id_high 2) [foreign_op] [mkTxOut 400 (id_low 9)]; mkTx (id_low 3) [] []]].
Definition foreign_store : Flat := set_utxo {[ foreign_op := foreign_utxo ]} flatEmpty.

Lemma foreign_spend_unseen_witness :
  exists st s' pr' s'', IngestBlock shard_ingestor foreign_block (foreign_store, NewPruner RecommendedPolicy)
      = (Ok (st, None), (s', pr'))
    /\ GetUTXO foreign_op s' = (Ok (Some foreign_utxo), s'').
Proof.
  apply (foreign_spend_unseen shard_ingestor foreign_block foreign_store (NewPruner RecommendedPolicy)
           foreign_op foreign_utxo).
  - exact I.
  - exact demo_policy_ok.
  - simpl. lia.
  - vm_compute. reflexivity.
  - apply lookup_singleton_eq.
  - reflexivity.
  - apply (bool_decide_unpack _). vm_compute. exact I.
Defined.
