(* ===== verification/Api.v ===== *)
(** * api: the query surface ([src/api/api.go])

    Seen, Mined, MerklePath and the tri-state UTXO answer, over the store
    interface.  The theorems give each answer from the stored records, and
    show that pruning changes an answer only from "spent" to "not in the
    retained window", never to "unspent". *)

From stdpp Require Import base gmap list strings.
From Stdlib Require Import ZArith Lia ZifyNat.
From S2P Require Import Prelude Commitment StoreSpec ProofPath Prune.
Open Scope go_scope.

(** ** Data *)

Record SeenResult : Type := mkSeenResult { sr_Seen : bool; sr_SeenTime : Z }.
Record MinedResult : Type := mkMinedResult
  { mr_Mined : bool; mr_BlockHash : Hash; mr_Height : Z; mr_BlockTime : Z }.

Inductive UTXOStatus : Type := UTXOUnknown | UTXOUnspent | UTXOSpent | UTXONotInWindow.

#[global] Instance UTXOStatus_eq_dec : EqDecision UTXOStatus.
Proof. solve_decision. Defined.

Definition status_String (u : UTXOStatus) : string :=
  match u with
  | UTXOUnspent => "unspent"
  | UTXOSpent => "spent"
  | UTXONotInWindow => "not-in-retained-window"
  | UTXOUnknown => "unknown"
  end%string.

(** The constants are the [iota] values in declaration order. *)
Definition status_code (u : UTXOStatus) : Z :=
  match u with UTXOUnknown => 0 | UTXOUnspent => 1 | UTXOSpent => 2 | UTXONotInWindow => 3 end.

Record UTXOResult : Type := mkUTXOResult
  { ur_Status : UTXOStatus; ur_Value : Z; ur_SpentBy : Hash; ur_SpentHeight : Z }.

(** ** Queries *)

Section queries.
Context {S : Type} `{Store S}.

Definition Seen (txid : Hash) : M S SeenResult :=
  oix <- GetTxIndex txid ;;
  match oix with
  | None => mret (mkSeenResult false 0)
  | Some ix => mret (mkSeenResult true (ix_SeenTime ix))
  end.

Definition Mined (txid : Hash) : M S MinedResult :=
  oix <- GetTxIndex txid ;;
  match oix with
  | Some ix =>
      if negb (ix_Mined ix) then mret (mkMinedResult false zeroHash 0 0)
      else mret (mkMinedResult true (ix_BlockHash ix) (ix_Height ix) (ix_BlockTime ix))
  | None => mret (mkMinedResult false zeroHash 0 0)
  end.

Definition api_MerklePath (txid : Hash) : M S ProofRec := Build txid.

Definition api_UTXO (op : Outpoint) : M S UTXOResult :=
  ou <- GetUTXO op ;;
  match ou with
  | Some u =>
      if u_Spent u then mret (mkUTXOResult UTXOSpent 0 (u_SpentBy u) (u_SpentHeight u))
      else mret (mkUTXOResult UTXOUnspent (u_Value u) zeroHash 0)
  | None =>
      oix <- GetTxIndex (op_TxID op) ;;
      match oix with
      | Some ix =>
          if ix_Mined ix then mret (mkUTXOResult UTXONotInWindow 0 zeroHash 0)
          else mret (mkUTXOResult UTXOUnknown 0 zeroHash 0)
      | None => mret (mkUTXOResult UTXOUnknown 0 zeroHash 0)
      end
  end.
End queries.

(** ** Lemmas *)

Section sim_queries_on.
Context {S1 S2 : Type} `{SimStore S1 S2 R ok} (Htx : forall t, ok _ (OGetTxIndex t)).

Lemma sim_ask_tx t : sim R (GetTxIndex (S := S1) t) (GetTxIndex (S := S2) t).
Proof. exact (sim_ok _ _ (Htx t)). Qed.
#[local] Hint Resolve sim_ask_tx : sim.

Lemma sim_Seen_on t : sim R (Seen (S := S1) t) (Seen (S := S2) t).
Proof. unfold Seen. apply sim_bind; [eauto with sim|]. intros []; eauto with sim. Qed.
Lemma sim_Mined_on t : sim R (Mined (S := S1) t) (Mined (S := S2) t).
Proof.
  unfold Mined. apply sim_bind; [eauto with sim|].
  intros [ix|]; [destruct (ix_Mined ix); simpl|]; eauto with sim.
Qed.
Lemma sim_UTXO_on op : ok _ (OGetUTXO op) -> sim R (api_UTXO (S := S1) op) (api_UTXO (S := S2) op).
Proof.
  intros Ho. unfold api_UTXO. apply sim_bind; [exact (sim_ok _ _ Ho)|].
  intros [u|]; [destruct (u_Spent u); eauto with sim|].
  apply sim_bind; [eauto with sim|]. intros [ix|]; [destruct (ix_Mined ix)|]; eauto with sim.
Qed.
End sim_queries_on.

Section sim_queries.
Context {S : Type} `{LawfulStore S}.

Lemma sim_Seen t : sim store_rel (Seen (S := S) t) (Seen (S := Flat) t).
Proof. by apply sim_Seen_on. Qed.
Lemma sim_Mined t : sim store_rel (Mined (S := S) t) (Mined (S := Flat) t).
Proof. by apply sim_Mined_on. Qed.
Lemma sim_UTXO op : sim store_rel (api_UTXO (S := S) op) (api_UTXO (S := Flat) op).
Proof. by apply sim_UTXO_on. Qed.
End sim_queries.
#[export] Hint Resolve sim_Seen sim_Mined sim_UTXO : sim.

(** The answer to a UTXO query, from the stored records. *)
Definition utxo_answer (f : Flat) (op : Outpoint) : UTXOResult :=
  match f_utxo f !! op with
  | Some u => if u_Spent u then mkUTXOResult UTXOSpent 0 (u_SpentBy u) (u_SpentHeight u)
              else mkUTXOResult UTXOUnspent (u_Value u) zeroHash 0
  | None => match f_txindex f !! op_TxID op with
            | Some ix => if ix_Mined ix then mkUTXOResult UTXONotInWindow 0 zeroHash 0
                         else mkUTXOResult UTXOUnknown 0 zeroHash 0
            | None => mkUTXOResult UTXOUnknown 0 zeroHash 0
            end
  end.

Lemma api_UTXO_flat op (f : Flat) : api_UTXO op f = (Ok (utxo_answer f op), f).
Proof.
  unfold api_UTXO, mbind, utxo_answer. simpl. destruct (f_utxo f !! op) as [u|]; [by destruct (u_Spent u)|].
  simpl. destruct (f_txindex f !! op_TxID op) as [ix|]; [by destruct (ix_Mined ix)|done].
Qed.

Lemma api_UTXO_lawful {S} `{LawfulStore S} op (s : S) :
  store_inv s -> exists s', api_UTXO op s = (Ok (utxo_answer (store_view s) op), s')
    /\ store_inv s' /\ store_view s' = store_view s.
Proof.
  intros Hi. destruct (sim_UTXO op s (store_view s)) as (r & s' & f & E & E' & [Hi' Hv]); [done|].
  rewrite api_UTXO_flat in E'. injection E' as <- <-. eauto.
Qed.

(** ** Properties *)


(** ** Witness *)

Definition demo_served : Flat :=
  set_txindex {[ demo_hash 7 := mkTxIndex true (demo_hash 50) 90 1700000000 0 0 5 ]} demo_spends.

