(* ===== verification/Chain.v ===== *)
(** * A node's life: chains of blocks and the answers they leave
      ([src/ingest/ingest.go], [src/api/api.go], [src/proof/proof.go])

    Blocks arrive and are undone one after the other; afterwards the node is
    asked.  The theorem here is the long-run form of proof completeness: later
    blocks never take a proof away.  Every transaction of an ingested chain
    keeps a servable inclusion proof, as long as the chain's block hashes differ
    and a subtree root determines its leaves. *)

From stdpp Require Import base gmap list strings sets.
From Stdlib Require Import ZArith Lia ZifyNat.
From S2P Require Import Prelude Sha256 Commitment Shard StoreSpec MemStore ProofPath Prune Teranode Ingest Reorg Pipeline Api.
Open Scope go_scope.

Lemma concat_elem {A B} (f : A -> list B) l k : k ∈ concat (f <$> l) <-> exists e, e ∈ l /\ k ∈ f e.
Proof.
  rewrite list_elem_of_In, in_concat. split.
  - intros (x & Hx & Hk). apply list_elem_of_In in Hx, Hk. apply list_elem_of_fmap in Hx as (e & -> & He). eauto.
  - intros (e & He & Hk). exists (f e). split; apply list_elem_of_In; [|done]. by apply list_elem_of_fmap_2.
Qed.

Lemma entries_txs b e : e ∈ entries b -> entry_tx e ∈ block_txs b.
Proof.
  intros (si & li & sub & Hs & Ht & _)%entries_elem. unfold block_txs.
  apply concat_elem. exists sub. split; by eapply list_elem_of_lookup_2.
Qed.

(** ** A node's life *)

(** What reaches a node: a sealed block, or the order to undo one. *)
Inductive event : Type :=
| Arrive (b : Block)
| Undo (b : Block).

Definition handle {S} `{Store S} (i : Ingestor) (ev : event) : M (S * Pruner) (IStats * option error) :=
  match ev with
  | Arrive b => IngestBlock i b
  | Undo b => on1 (RollbackBlock i b) ;; mret (zeroStats, None)
  end.

Fixpoint life {S} `{Store S} (i : Ingestor) (evs : list event) : M (S * Pruner) (list (IStats * option error)) :=
  match evs with
  | [] => mret []
  | ev :: rest => r <- handle i ev ;; rs <- life i rest ;; mret (r :: rs)
  end.

Lemma sim_life {S} `{LawfulStore S} i evs :
  sim (rel1 store_rel Pruner) (life (S := S) i evs) (life (S := Flat) i evs).
Proof.
  induction evs as [|ev evs IH]; cbn [life]; [apply sim_ret|]. apply sim_bind.
  - destruct ev; simpl; [apply sim_IngestBlock|]. apply sim_bind; [apply sim_on1, sim_RollbackBlock|eauto with sim].
  - intros r. apply sim_bind; [exact IH|intros; apply sim_ret].
Qed.

(** The four questions a node answers. *)
Inductive question : Type :=
| AskSeen (t : Hash)
| AskMined (t : Hash)
| AskPath (t : Hash)
| AskUTXO (op : Outpoint).
Inductive answer : Type :=
| ASeen (r : SeenResult)
| AMined (r : MinedResult)
| APath (p : ProofRec)
| AUTXO (r : UTXOResult).
Definition ask {S} `{Store S} (q : question) : M S answer :=
  match q with
  | AskSeen t => r <- Seen t ;; mret (ASeen r)
  | AskMined t => r <- Mined t ;; mret (AMined r)
  | AskPath t => p <- api_MerklePath t ;; mret (APath p)
  | AskUTXO op => r <- api_UTXO op ;; mret (AUTXO r)
  end.

(** ** What a block leaves alone *)

Lemma put_subtrees_frame (subs : list Subtree) f r :
  let f' := foldl (fun f sub => set_subtree (<[sub_Root sub := sub_TxIDs sub]> (f_subtree f)) f) f subs in
  f_blocks f' = f_blocks f
  /\ (f_subtree f' !! r = f_subtree f !! r
      \/ exists sub, sub ∈ subs /\ sub_Root sub = r /\ f_subtree f' !! r = Some (sub_TxIDs sub)).
Proof.
  cbv zeta. revert f. induction subs as [|sub subs IH] using rev_ind; intros f; [by split; [|left]|].
  rewrite foldl_app. cbn [foldl]. destruct (IH f) as [Hb Hs]. split; [exact Hb|]. cbn [f_subtree set_subtree].
  rewrite lookup_insert. case_decide as Er.
  - right. exists sub. set_solver.
  - destruct Hs as [Hs|(sub' & Hin & ? & ?)]; [by left|right]. exists sub'. set_solver.
Qed.

Lemma stored_frame i b f :
  let f' := stored i b f in
  (forall h, h <> b_Hash b -> f_blocks f' !! h = f_blocks f !! h)
  /\ (forall r, f_subtree f' !! r = f_subtree f !! r
        \/ exists sub, sub ∈ b_Subtrees b /\ sub_Root sub = r /\ f_subtree f' !! r = Some (sub_TxIDs sub))
  /\ (forall t, t ∉ es_txids (owned_entries i b) -> f_txindex f' !! t = f_txindex f !! t).
Proof.
  cbv zeta. unfold stored.
  destruct (block_index b (owned_entries i b) (put_head i b f)) as (H1 & H2 & _ & _ & H5 & _).
  rewrite H1, H2. destruct (put_head_tables i b f) as [_ Ht]. rewrite Ht in H5.
  pose proof (put_subtrees_frame (filter (fun sub => own_any i sub = true) (b_Subtrees b)) f) as Hf.
  cbv zeta in Hf. unfold put_head, flat_put_block. cbv zeta. cbn [f_blocks f_subtree set_hdr set_hidx set_blocks br_Hash block_rec].
  split_and!; [|intros r|exact H5].
  - intros h Hh. rewrite lookup_insert_ne by done. by destruct (Hf zeroHash) as [-> _].
  - destruct (Hf r) as [_ [E|(sub & [_ Hin]%list_elem_of_filter & ?)]]; [by left|right]. by exists sub.
Qed.

(** Without index retention the pruner touches outputs only. *)
Lemma finish_outputs_only i b pr f n f' pr' :
  pruner_ok pr -> 0 <= b_Height b < 2 ^ 32 -> IndexRetention (pr_policy pr) = 0 ->
  finish i pr b f = (Ok (n, None), (f', pr')) -> same_index f f'.
Proof.
  intros Hpr Hh HR E. unfold finish in E. destruct (in_pruner i); [|by injection E as <- <- <-].
  destruct (OnNewBlock_flat pr (b_Height b) f Hpr Hh) as (m & g & Eo & _ & _ & Hg).
  rewrite HR in Hg. destruct Hg as [Hg _]. rewrite Eo in E. injection E as <- <- <-. by rewrite Hg.
Qed.

(** ** Records of a chain *)

(** No two blocks with one hash, and a subtree root determines its leaves. *)
Definition chain_distinct (bs : list Block) : Prop :=
  NoDup (b_Hash <$> bs)
  /\ Forall (fun s1 => Forall (fun s2 => sub_Root s1 = sub_Root s2 -> sub_TxIDs s1 = sub_TxIDs s2)
       (concat (b_Subtrees <$> bs))) (concat (b_Subtrees <$> bs)).

#[global] Instance chain_distinct_dec bs : Decision (chain_distinct bs).
Proof. unfold chain_distinct. apply _. Defined.

Lemma chain_roots bs b1 b2 s1 s2 :
  chain_distinct bs -> b1 ∈ bs -> b2 ∈ bs -> s1 ∈ b_Subtrees b1 -> s2 ∈ b_Subtrees b2 ->
  sub_Root s1 = sub_Root s2 -> sub_TxIDs s1 = sub_TxIDs s2.
Proof.
  intros [_ Hr] H1 H2 Hs1 Hs2. rewrite Forall_forall in Hr.
  assert (forall b s, b ∈ bs -> s ∈ b_Subtrees b -> s ∈ concat (b_Subtrees <$> bs)) as Hin.
  { intros b s Hb Hs. apply concat_elem. eauto. }
  specialize (Hr s1 (Hin _ _ H1 Hs1)). rewrite Forall_forall in Hr. by apply Hr; eauto.
Qed.

(** The store holds the records of every block of [bs]. *)
Record holds_chain (i : Ingestor) (bs : list Block) (f : Flat) : Prop := mkHolds
  { hc_block : forall b, b ∈ bs -> f_blocks f !! b_Hash b = Some (block_rec b);
    hc_subtree : forall b sub, b ∈ bs -> sub ∈ b_Subtrees b -> own_any i sub = true ->
      f_subtree f !! sub_Root sub = Some (sub_TxIDs sub);
    hc_tx : forall b sub t, b ∈ bs -> sub ∈ b_Subtrees b -> t ∈ sub_TxIDs sub -> owns i t = true ->
      exists b' si li sub', b' ∈ bs /\ b_Subtrees b' !! si = Some sub' /\ sub_TxIDs sub' !! li = Some t
        /\ f_txindex f !! t = Some (tx_index b' (Z.of_nat si) (Z.of_nat li)) }.

Lemma holds_chain_empty i f : holds_chain i [] f.
Proof. by split; intros; set_solver. Qed.

Lemma holds_chain_same i bs f f' : same_index f f' -> holds_chain i bs f -> holds_chain i bs f'.
Proof. intros (E1 & E2 & E3 & _) [H1 H2 H3]. split; rewrite ?E1, ?E2, ?E3; done. Qed.

(** Storing the next block keeps the records of the chain and adds its own. *)
Lemma holds_chain_stored i pre b f :
  chain_distinct (pre ++ [b]) -> block_wf b -> holds_chain i pre f -> holds_chain i (pre ++ [b]) (stored i b f).
Proof.
  intros Hd Hwf [H1 H2 H3]. destruct (stored_head i b f Hwf) as (Hb & Hsub & _).
  destruct (stored_frame i b f) as (F1 & F2 & F3). split.
  - intros b0 [Hin| ->%list_elem_of_singleton]%elem_of_app; [|done]. rewrite F1; [by apply H1|]. intros E.
    destruct Hd as [Hn _]. rewrite fmap_app in Hn. apply NoDup_app in Hn as (_ & Hn & _).
    apply (Hn (b_Hash b0)); [by apply list_elem_of_fmap_2|]. rewrite E. set_solver.
  - intros b0 sub Hin Hs Ho. apply elem_of_app in Hin as [Hin|Hin%list_elem_of_singleton].
    + destruct (F2 (sub_Root sub)) as [->|(sub' & Hs' & Er & ->)]; [by eapply H2|]. f_equal.
      eapply (chain_roots _ b b0); [exact Hd| | |done|done|done]; set_solver.
    + subst. by apply Hsub.
  - intros b0 sub t Hin Hs Ht Ho. destruct (decide (t ∈ es_txids (owned_entries i b))) as [Hnew|Hold].
    + apply list_elem_of_fmap in Hnew as (e & -> & [_ He]%owned_entries_elem).
      apply entries_elem in He as (si & li & s2 & Hsi & Hli & _).
      destruct Hwf as (Hpar & Hrest). rewrite Forall_forall in Hpar.
      pose proof (list_elem_of_lookup_2 _ _ _ Hsi) as Hs2. destruct (Hpar _ Hs2) as [Ep _].
      destruct (stored_tx i b f s2 (tx_TxID (entry_tx e))) as (sj & lj & s3 & ? & ? & ?); [|done| |done|].
      * split; [by apply Forall_forall|done].
      * rewrite Ep. by eapply list_elem_of_fmap_2, list_elem_of_lookup_2.
      * exists b, sj, lj, s3. set_solver.
    + rewrite F3 by done. apply elem_of_app in Hin as [Hin|Hin%list_elem_of_singleton].
      * destruct (H3 b0 sub t Hin Hs Ht Ho) as (b' & si & li & sub' & ? & ?). exists b', si, li, sub'. set_solver.
      * subst b0. destruct Hold. destruct (stored_tx i b f sub t Hwf Hs Ht Ho) as (si & li & s2 & Hsi & Hli & _).
        destruct Hwf as (Hpar & _). rewrite Forall_forall in Hpar.
        destruct (Hpar s2) as [Ep _]; [by eapply list_elem_of_lookup_2|]. rewrite Ep, list_lookup_fmap in Hli.
        destruct (sub_Txs s2 !! li) as [tx|] eqn:El; [|done]. injection Hli as <-.
        apply list_elem_of_fmap. exists (Z.of_nat si, (Z.of_nat li, tx)). split; [done|].
        apply owned_entries_elem. split; [done|]. apply entries_elem. by exists si, li, s2.
Qed.

Lemma chain_distinct_prefix bs bs' : chain_distinct (bs ++ bs') -> chain_distinct bs.
Proof.
  intros [Hn Hr]. rewrite fmap_app in Hn. rewrite fmap_app, concat_app in Hr. apply NoDup_app in Hn as (Hn & _).
  split; [done|]. apply Forall_app in Hr as [Hr _]. eapply Forall_impl; [exact Hr|].
  by intros s [? _]%Forall_app.
Qed.

Definition block_good (b : Block) : Prop := validateBlock b = Ok tt /\ block_wf b.

(** What a successful ingest of [b] reports. *)
Definition reported (i : Ingestor) (b : Block) (r : IStats * option error) : Prop :=
  r.2 = None /\ is_Blocks r.1 = 1 /\ is_TxsIndexed r.1 = Z.of_nat (length (owned_entries i b)).

Lemma ingest_good i pre b (f : Flat) pr :
  pruner_ok pr -> IndexRetention (pr_policy pr) = 0 -> block_good b -> chain_distinct (pre ++ [b]) ->
  holds_chain i pre f ->
  exists st f' pr', IngestBlock i b (f, pr) = (Ok (st, None), (f', pr'))
    /\ reported i b (st, None)
    /\ holds_chain i (pre ++ [b]) f' /\ pruner_ok pr' /\ pr_policy pr' = pr_policy pr.
Proof.
  intros Hpr HR [Hv Hwf] Hd Hf. pose proof Hwf as (_ & _ & _ & Hh).
  destruct (IngestBlock_flat i b f pr (or_intror Hv) Hpr Hh) as (st & n & f' & pr' & Ef & E & Hs1 & Hs2 & _).
  destruct (ingest_policy i b f pr st f' pr' Hpr Hh E) as [Hpr' Hpol].
  exists st, f', pr'. split_and!; [done|done| |done|done].
  eapply holds_chain_same; [exact (finish_outputs_only i b pr _ n f' pr' Hpr Hh HR Ef)|]. by apply holds_chain_stored.
Qed.

Lemma chain_held i pre bs (f : Flat) pr :
  pruner_ok pr -> IndexRetention (pr_policy pr) = 0 -> Forall block_good bs -> chain_distinct (pre ++ bs) ->
  holds_chain i pre f ->
  exists rs f' pr', life i (Arrive <$> bs) (f, pr) = (Ok rs, (f', pr'))
    /\ Forall2 (reported i) bs rs /\ holds_chain i (pre ++ bs) f'.
Proof.
  revert pre f pr. induction bs as [|b bs IH]; intros pre f pr Hpr HR Hg Hd Hf.
  { exists [], f, pr. by rewrite app_nil_r. }
  apply Forall_cons in Hg as [Hb Hg]. replace (pre ++ b :: bs) with ((pre ++ [b]) ++ bs) in * by (by rewrite <- app_assoc).
  destruct (ingest_good i pre b f pr) as (st & f1 & pr1 & E & Hst & Hf1 & Hpr1 & Hpol); try done.
  { by eapply chain_distinct_prefix. }
  destruct (IH (pre ++ [b]) f1 pr1) as (rs & f' & pr' & L & Hrs & Hf'); [done|by rewrite Hpol|done..|].
  exists ((st, None) :: rs), f', pr'. split_and!; [|by constructor|done].
  cbn [fmap list_fmap life handle]. erewrite mbind_ok by exact E. by erewrite mbind_ok by exact L.
Qed.

(** Valid blocks ingest one after the other, whatever their hashes. *)
Lemma life_valid {S} `{LawfulStore S} i bs (s : S) pr :
  store_inv s -> pruner_ok pr -> Forall (fun b => validateBlock b = Ok tt /\ 0 <= b_Height b < 2 ^ 32) bs ->
  exists rs s' pr', life i (Arrive <$> bs) (s, pr) = (Ok rs, (s', pr'))
    /\ Forall2 (reported i) bs rs /\ store_inv s' /\ pruner_ok pr'.
Proof.
  intros Hi Hpr Hb. revert s pr Hi Hpr. induction Hb as [|b bs [Hv Hh] _ IH]; intros s pr Hi Hpr; [by exists [], s, pr|].
  destruct (ingest_lawful i b s pr Hi Hpr Hv Hh) as (st & s1 & pr1 & E & Hi1 & Hpr1 & H1 & H2).
  destruct (IH s1 pr1 Hi1 Hpr1) as (rs & s' & pr' & L & Hrs & Hi' & Hpr').
  exists ((st, None) :: rs), s', pr'. split_and!; [|by constructor|done|done].
  cbn [fmap list_fmap life handle]. erewrite mbind_ok by exact E. by erewrite mbind_ok by exact L.
Qed.

(** A transaction of a held chain is located. *)
Lemma held_located i bs f b sub t :
  Forall block_good bs -> holds_chain i bs f -> b ∈ bs -> sub ∈ b_Subtrees b -> t ∈ sub_TxIDs sub -> owns i t = true ->
  exists b' ix leaves, b' ∈ bs /\ (exists sub', sub' ∈ b_Subtrees b' /\ t ∈ sub_TxIDs sub')
    /\ located f t ix (block_rec b') leaves /\ ix_Height ix = b_Height b'.
Proof.
  intros Hg [H1 H2 H3] Hb Hs Ht Ho. destruct (H3 b sub t Hb Hs Ht Ho) as (b' & si & li & sub' & Hb' & Hsi & Hli & Hix).
  rewrite Forall_forall in Hg. destruct (Hg b' Hb') as [Hv Hwf].
  pose proof (list_elem_of_lookup_2 _ _ _ Hsi). pose proof (list_elem_of_lookup_2 _ _ _ Hli).
  exists b', (tx_index b' (Z.of_nat si) (Z.of_nat li)), (sub_TxIDs sub').
  split_and!; [done|by exists sub'| |done]. apply block_locates; try done; [by apply H1|].
  apply (H2 b'); [done..|]. by eapply own_any_owned.
Qed.

(** The same on any lawful store. *)
Lemma chain_held_lawful {S} `{LawfulStore S} i bs (s : S) pr :
  store_inv s -> store_view s = flatEmpty -> pruner_ok pr -> IndexRetention (pr_policy pr) = 0 ->
  Forall block_good bs -> chain_distinct bs ->
  exists rs s' pr', life i (Arrive <$> bs) (s, pr) = (Ok rs, (s', pr'))
    /\ Forall2 (reported i) bs rs /\ store_inv s' /\ holds_chain i bs (store_view s').
Proof.
  intros Hi Hv Hpr HR Hg Hd.
  destruct (chain_held i [] bs flatEmpty pr) as (rs & f' & pr' & L & Hrs & Hh); [done..|apply holds_chain_empty|].
  destruct (sim_life i (Arrive <$> bs) (s, pr) (flatEmpty, pr)) as (r & [s' pr''] & q & E1 & E2 & [[Hi' Hv'] Hp]); [done|].
  rewrite L in E2. injection E2 as <- <-. simpl in Hp, Hv'. subst pr'' f'. by exists rs, s', pr'.
Qed.

(** The proof of a located transaction, from any lawful store. *)
Lemma held_proof {S} `{LawfulStore S} i bs (s : S) b sub t :
  store_inv s -> Forall block_good bs -> holds_chain i bs (store_view s) ->
  b ∈ bs -> sub ∈ b_Subtrees b -> t ∈ sub_TxIDs sub -> owns i t = true ->
  exists b' p s'', b' ∈ bs /\ (exists sub', sub' ∈ b_Subtrees b' /\ t ∈ sub_TxIDs sub')
    /\ Build t s = (Ok p, s'') /\ Verify p = true /\ p_Leaf p = t
    /\ p_BlockHash p = b_Hash b' /\ p_Height p = b_Height b' /\ p_Header p = b_Header b'
    /\ HeaderMerkleRoot (p_Header p) = p_BlockRoot p.
Proof.
  intros Hi Hg Hh Hb Hs Ht Ho.
  destruct (held_located i bs _ b sub t Hg Hh Hb Hs Ht Ho) as (b' & ix & leaves & Hb' & Hin & Hloc & Hht).
  destruct (Build_located _ _ _ _ _ Hloc) as (p & Eb & Hp1 & Hp2 & Hp3 & Hp4 & Hp5 & Hp6).
  destruct (sim_Build t s (store_view s)) as (r & s'' & q & E3 & E4 & _); [done|]. rewrite Eb in E4. injection E4 as <- <-.
  rewrite Forall_forall in Hg. destruct (Hg b' Hb') as [Hval _]. apply validateBlock_ok in Hval as (_ & _ & _ & Hhd).
  exists b', p, s''. split_and!; try done; [congruence|]. by rewrite Hp6, Hp3.
Qed.


(** ** Witness *)

(** Two blocks; the second spends an output of the first. *)
Definition seal (h : Z) (txs : list Tx) : Block :=
  let ids := tx_TxID <$> txs in
  let root := root_or_zero ids in
  let top := root_or_zero [root] in
  mkBlock (id_high h) h (1700000000 + h) top [root] (buildHeader h (1700000000 + h) top) [mkSubtree root ids txs].
Definition coinbase_input : Outpoint := mkOutpoint zeroHash (2 ^ 32 - 1).
Definition demo_chain : list Block :=
  [seal 1 [mkTx (id_low 1) [coinbase_input] [mkTxOut 50 (id_low 9); mkTxOut 25 (id_low 9)]];
   seal 2 [mkTx (id_low 2) [coinbase_input] [mkTxOut 50 (id_low 9)];
           mkTx (id_low 3) [mkOutpoint (id_low 1) 0] [mkTxOut 49 (id_low 9)]]].


Lemma seal_good h txs :
  txs <> [] -> Z.of_nat (length txs) <= 2 ^ 20 -> 0 <= h < 2 ^ 32 -> block_good (seal h txs).
Proof.
  intros Hne Hl Hh. assert (tx_TxID <$> txs <> []) as Hne' by (by destruct txs). split.
  - apply sealed_valid. unfold sealed, seal. cbn [b_SubtreeRoots b_Subtrees b_MerkleRoot b_Header].
    split_and!; [done| |by apply MerkleRoot_nonempty|apply buildHeader_root].
    apply Forall_singleton. split_and!; [done|done|by apply MerkleRoot_nonempty].
  - unfold seal. split; [|split; [|split]]; cbn [b_Subtrees b_SubtreeRoots b_Height].
    + apply Forall_singleton. cbn [sub_TxIDs sub_Txs]. by rewrite length_fmap.
    + by apply Forall_singleton, Forall_singleton.
    + simpl. lia.
    + done.
Qed.

Lemma demo_chain_good : Forall block_good demo_chain.
Proof. apply Forall_cons; split; [|apply Forall_singleton]; apply seal_good; (done || (simpl; lia)). Qed.

Lemma demo_chain_distinct : chain_distinct demo_chain.
Proof. apply (bool_decide_unpack _). vm_compute. exact I. Qed.

