(* ===== verification/Footprint.v ===== *)
(** * The memory a node keeps ([src/prune/prune.go], [src/ingest/ingest.go])

    The pruning policy promises a footprint that follows the churn of the last
    [D] blocks and not the length of the history.  A node's life is followed
    with the blocks that arrived: every spent record it still holds was spent by
    an input of an arrived block within the window, so their number is bounded
    by the inputs of those blocks. *)

From stdpp Require Import base gmap list strings sets.
From Stdlib Require Import ZArith Lia ZifyNat.
From S2P Require Import Prelude Sha256 Commitment Shard StoreSpec MemStore ProofPath Prune Teranode Ingest Reorg Pipeline Api Chain.
Open Scope go_scope.

(** ** Lives whose blocks stay within the horizon *)

(** The inputs of the owned transactions of a block. *)
Definition block_spends (i : Ingestor) (b : Block) : list Outpoint := es_inputs (owned_entries i b).

(** The blocks that arrived. *)
Fixpoint arrived (evs : list event) : list Block :=
  match evs with
  | [] => []
  | Arrive b :: r => b :: arrived r
  | Undo _ :: r => arrived r
  end.

(** No block arrives [d] or more below one that arrived before it. *)
Fixpoint paced (d : Z) (seen : list Block) (evs : list event) : Prop :=
  match evs with
  | [] => True
  | Arrive b :: r =>
      0 <= b_Height b < 2 ^ 32 /\ Forall (fun b0 => b_Height b0 - d < b_Height b) seen /\ paced d (seen ++ [b]) r
  | Undo _ :: r => paced d seen r
  end.

(** The blocks of the window below [tip]. *)
Definition window (d tip : Z) (bs : list Block) : list Block := filter (fun b => tip - d < b_Height b) bs.

(** Every spent record comes from an input of one of the blocks. *)
Definition traced (i : Ingestor) (bs : list Block) (f : Flat) : Prop :=
  forall k u, f_utxo f !! k = Some u -> u_Spent u = true ->
  exists b, b ∈ bs /\ u_SpentHeight u = b_Height b /\ k ∈ block_spends i b.

Record followed (i : Ingestor) (bs : list Block) (f : Flat) (pr : Pruner) : Prop := mkFollowed
  { fo_ok : pruner_ok pr;
    fo_window : in_window pr f;
    fo_traced : traced i bs f;
    fo_tip : pr_hasTip pr = true -> exists b, b ∈ bs /\ pr_lastTip pr = b_Height b }.

Lemma traced_more i bs bs' f : traced i bs f -> traced i (bs ++ bs') f.
Proof. intros Ht k u Hu Hs. destruct (Ht k u Hu Hs) as (b & Hb & ?). exists b. set_solver. Qed.

(** A record an applied block leaves spent was spent by one of its inputs or was
    spent before. *)
Lemma block_spent b es f k u :
  f_utxo (foldl (apply_tx b) f es) !! k = Some u -> u_Spent u = true ->
  f_utxo f !! k = Some u \/ (k ∈ es_inputs es /\ u_SpentHeight u = b_Height b).
Proof.
  revert f. induction es as [|e es IH]; intros f; cbn [foldl]; [by left|]. intros Hu Hs.
  unfold es_inputs in *. cbn [fmap list_fmap concat]. destruct (IH _ Hu Hs) as [Hu'|[Hi Hh]]; [|right; set_solver].
  destruct (apply_tx_utxo b f e k) as [T1 T2].
  destruct (decide (k ∈ out_keys (entry_tx e))) as [Ho|Ho].
  - destruct (T2 Ho) as [o E]. rewrite E in Hu'. injection Hu' as <-. done.
  - rewrite (T1 Ho) in Hu'. case_bool_decide as Hin; [|by left]. right. split; [set_solver|].
    destruct (f_utxo f !! k); [|done]. by injection Hu' as <-.
Qed.

Lemma traced_ingest i b (f : Flat) pr st f1 pr1 bs :
  pruner_ok pr -> 0 <= b_Height b < 2 ^ 32 ->
  IngestBlock i b (f, pr) = (Ok (st, None), (f1, pr1)) -> traced i bs f -> traced i (bs ++ [b]) f1.
Proof.
  intros Hpr Hh E Ht k u Hu Hs.
  destruct (IngestBlock_inv _ _ _ _ _ _ _ Hpr Hh E) as (n & _ & _ & Hkept & _).
  assert (f_utxo (stored i b f) !! k = Some u) as Hu'.
  { destruct (in_pruner i); rewrite Hkept in Hu; [|done]. by apply map_lookup_filter_Some in Hu as [Hu _]. }
  destruct (block_spent b (owned_entries i b) (put_head i b f) k u Hu' Hs) as [Hf|[Hi Hht]].
  - rewrite (proj1 (put_head_tables i b f)) in Hf. by apply (traced_more i bs [b] f Ht).
  - exists b. set_solver.
Qed.

Lemma traced_rollback i b (f : Flat) bs : traced i bs f -> traced i bs (RollbackBlock i b f).2.
Proof.
  intros Ht k u. rewrite RollbackBlock_flat. simpl. rewrite (proj1 (rollback_lookup _ f k zeroHash)).
  unfold undo. case_bool_decide; [done|]. case_bool_decide; [|apply Ht].
  destruct (f_utxo f !! k) as [u'|]; [|done]. simpl. intros Eu. by injection Eu as <-.
Qed.

(** One event. *)
Lemma followed_arrive i b (f : Flat) pr bs r f1 pr1 :
  in_pruner i = true -> 0 <= b_Height b < 2 ^ 32 -> Forall (fun b0 => b_Height b0 - D (pr_policy pr) < b_Height b) bs ->
  IngestBlock i b (f, pr) = (r, (f1, pr1)) -> followed i bs f pr ->
  followed i (bs ++ [b]) f1 pr1 /\ pr_policy pr1 = pr_policy pr.
Proof.
  intros Hp Hh Hd E [Hpr Hw Ht Htip]. rewrite Forall_forall in Hd.
  destruct (IngestBlock_cases i b f pr Hpr Hh) as [(st & f2 & pr2 & E2)|[e E2]];
    rewrite E in E2; injection E2 as -> -> ->.
  - destruct (ingest_policy i b f pr st f2 pr2 Hpr Hh E) as [Hpr2 Hpol]. split; [|done]. split; [done| | |].
    + eapply (window_ingest i b f pr); try done. intros Hx. destruct (Htip Hx) as (b0 & Hb0 & ->). by apply Hd.
    + exact (traced_ingest i b f pr st f2 pr2 bs Hpr Hh E Ht).
    + destruct (IngestBlock_inv _ _ _ _ _ _ _ Hpr Hh E) as (n & _ & Hpr1 & _). rewrite Hp in Hpr1. subst pr2.
      intros _. exists b. cbn. set_solver.
  - split; [|done]. split; [done|done|by apply traced_more|]. intros Hx. destruct (Htip Hx) as (b0 & ? & ?). exists b0. set_solver.
Qed.

Lemma followed_life i evs (f : Flat) pr bs r f1 pr1 :
  in_pruner i = true -> paced (D (pr_policy pr)) bs evs -> followed i bs f pr ->
  life i evs (f, pr) = (r, (f1, pr1)) ->
  exists rs, r = Ok rs /\ followed i (bs ++ arrived evs) f1 pr1 /\ pr_policy pr1 = pr_policy pr.
Proof.
  intros Hp. revert f pr bs r f1 pr1. induction evs as [|ev evs IH]; intros f pr bs r f1 pr1 Hpc Hf L; cbn [life] in L.
  { injection L as <- <- <-. exists []. by rewrite app_nil_r. }
  unfold mbind in L. destruct ev as [b|b]; cbn [handle arrived paced] in *.
  - destruct Hpc as (Hh & Hd & Hpc). destruct (IngestBlock i b (f, pr)) as [rb [f2 pr2]] eqn:E.
    destruct (followed_arrive i b f pr bs rb f2 pr2 Hp Hh Hd E Hf) as [Hf2 Hpol]. rewrite <- Hpol in Hpc.
    destruct (IngestBlock_cases i b f pr (fo_ok _ _ _ _ Hf) Hh) as [(st & f3 & pr3 & E3)|[e E3]];
      rewrite E in E3; injection E3 as -> _ _;
      (destruct (life i evs (f2, pr2)) as [r2 [f4 pr4]] eqn:L2;
       destruct (IH f2 pr2 _ _ _ _ Hpc Hf2 L2) as (rs & -> & Hfin & Hpol'); injection L as <- <- <-; eexists;
       split; [done|]; rewrite <- app_assoc in Hfin; split; [exact Hfin|congruence]).
  - unfold mbind, on1, mret in L. pose proof (traced_rollback i b f bs (fo_traced _ _ _ _ Hf)) as Htr.
    pose proof (window_rollback i b f pr (fo_window _ _ _ _ Hf)) as Hwr. cbn [fst snd] in L.
    rewrite RollbackBlock_flat in L, Htr, Hwr. cbn [snd] in L, Htr, Hwr.
    destruct Hf as [Hok _ _ Htip].
    match type of Htr with traced _ _ ?f2 => destruct (life i evs (f2, pr)) as [r2 [f4 pr4]] eqn:L2;
      destruct (IH f2 pr bs r2 f4 pr4 Hpc) as (rs & -> & Hfin & Hpol'); [by split|exact L2|] end.
    injection L as <- <- <-. eauto.
Qed.

(** ** The bound *)

Definition spent_held (f : Flat) : nat := size (filter (fun p => u_Spent p.2 = true) (f_utxo f)).

Lemma size_keys {Key A} `{Countable Key} (m : gmap Key A) (l : list Key) :
  (forall k, is_Some (m !! k) -> k ∈ l) -> (size m <= length l)%nat.
Proof.
  intros Hk. rewrite <- length_map_to_list, <- (length_fmap fst). apply submseteq_length, NoDup_submseteq.
  - apply NoDup_fst_map_to_list.
  - intros k Hin. apply list_elem_of_fmap in Hin as ([k' a] & -> & Hin). apply elem_of_map_to_list in Hin.
    apply Hk. by exists a.
Qed.

Lemma followed_bound i bs f pr :
  followed i bs f pr ->
  (spent_held f <= length (concat (block_spends i <$> window (D (pr_policy pr)) (pr_lastTip pr) bs)))%nat.
Proof.
  intros [_ Hw Ht _]. apply size_keys. intros k [u Hu]. apply map_lookup_filter_Some in Hu as [Hu Hs]. simpl in Hs.
  destruct (Hw k u Hu Hs) as (_ & _ & Hlo). destruct (Ht k u Hu Hs) as (b & Hb & Eh & Hin).
  apply concat_elem. exists b. split; [|done]. apply list_elem_of_filter. split; [lia|done].
Qed.

Lemma followed_empty i pr : pruner_ok pr -> pr_hasTip pr = false -> followed i [] flatEmpty pr.
Proof.
  intros Hpr Hn. split; [done| | |by rewrite Hn].
  - intros k u Hu. done.
  - intros k u Hu. done.
Qed.

Lemma footprint_lawful {S} `{LawfulStore S} (i : Ingestor) (evs : list event) (s s' : S) (pr pr' : Pruner) r :
  in_pruner i = true -> store_inv s -> store_view s = flatEmpty -> pruner_ok pr -> pr_hasTip pr = false ->
  paced (D (pr_policy pr)) [] evs -> life i evs (s, pr) = (r, (s', pr')) ->
  (exists rs, r = Ok rs) /\ pr_policy pr' = pr_policy pr
  /\ (spent_held (store_view s')
      <= length (concat (block_spends i <$> window (D (pr_policy pr)) (pr_lastTip pr') (arrived evs))))%nat.
Proof.
  intros Hp Hi Hv Hpr Hn Hpc L.
  destruct (sim_life i evs (s, pr) (flatEmpty, pr)) as (r' & q & [f pr''] & E1 & E2 & [[_ Hv'] Hq]); [done|].
  rewrite L in E1. injection E1 as <- <-. simpl in Hq, Hv'. subst pr'' f.
  destruct (followed_life i evs flatEmpty pr [] r (store_view s') pr' Hp Hpc (followed_empty i pr Hpr Hn) E2)
    as (rs & -> & Hf & Hpol). split_and!; [eauto|done|]. rewrite <- Hpol. exact (followed_bound i _ _ _ Hf).
Qed.

(** C15: The footprint follows the window.  From an empty store, after any
    sequence of arrivals (accepted or rejected) and rollbacks in which no block
    arrives [D] or more below an earlier one, the number of spent records a
    node keeps is at most the number of inputs of the owned transactions of the
    blocks that arrived less than [D] below the tip, whatever the length of the
    history. *)
Theorem footprint_bounded {S} `{LawfulStore S} (i : Ingestor) (evs : list event) (s s' : S) (pr pr' : Pruner) r :
  in_pruner i = true -> store_inv s -> store_view s = flatEmpty -> pruner_ok pr -> pr_hasTip pr = false ->
  paced (D (pr_policy pr)) [] evs -> life i evs (s, pr) = (r, (s', pr')) ->
  (exists rs, r = Ok rs) /\ pr_policy pr' = pr_policy pr
  /\ (spent_held (store_view s')
      <= length (concat (block_spends i <$> window (D (pr_policy pr)) (pr_lastTip pr') (arrived evs))))%nat.
Proof. apply footprint_lawful. Qed.

(** *** A chain of consecutive blocks *)

Lemma life_tip i bs (f : Flat) pr rs f1 pr1 :
  in_pruner i = true -> pruner_ok pr -> Forall (fun b => 0 <= b_Height b < 2 ^ 32) bs ->
  Forall (fun r => r.2 = None) rs -> life i (Arrive <$> bs) (f, pr) = (Ok rs, (f1, pr1)) ->
  pr_lastTip pr1 = default (pr_lastTip pr) (last (b_Height <$> bs)).
Proof.
  intros Hp Hpr Hh. revert f pr rs Hpr. induction Hh as [|b bs Hb _ IH]; intros f pr rs Hpr Hrs L.
  { by injection L as <- <- <-. }
  cbn [fmap list_fmap life handle] in L. unfold mbind in L.
  destruct (IngestBlock i b (f, pr)) as [[[st oe]|e|] [f2 pr2]] eqn:E; [|done..].
  destruct (life i (Arrive <$> bs) (f2, pr2)) as [[rs2|e|] [f3 pr3]] eqn:L2; [|done..].
  injection L as <- <- <-. apply Forall_cons in Hrs as [Hr Hrs]. simpl in Hr. subst oe.
  destruct (ingest_policy i b f pr st f2 pr2 Hpr Hb E) as [Hpr2 _]. rewrite (IH f2 pr2 rs2 Hpr2 Hrs L2).
  destruct (IngestBlock_inv _ _ _ _ _ _ _ Hpr Hb E) as (n & _ & Hpr1 & _). rewrite Hp in Hpr1. subst pr2.
  rewrite fmap_cons, last_cons. by destruct (last (b_Height <$> bs)).
Qed.

(** The heights [lo], [lo + 1], ... *)
Definition consecutive (lo : Z) (bs : list Block) : Prop := b_Height <$> bs = seqZ lo (Z.of_nat (length bs)).

Lemma consecutive_cons lo b bs : consecutive lo (b :: bs) -> b_Height b = lo /\ consecutive (lo + 1) bs.
Proof.
  unfold consecutive. rewrite fmap_cons. cbn [length]. rewrite seqZ_cons by lia. intros [= Eb Er]. split; [done|].
  rewrite Er. f_equal; lia.
Qed.

Lemma consecutive_range lo bs :
  consecutive lo bs -> Forall (fun b => lo <= b_Height b < lo + Z.of_nat (length bs)) bs.
Proof.
  intros Hc. apply Forall_forall. intros b Hb. assert (b_Height b ∈ b_Height <$> bs) as Hin by (by apply list_elem_of_fmap_2).
  rewrite Hc in Hin. apply elem_of_seqZ in Hin. lia.
Qed.

Lemma consecutive_last lo bs :
  consecutive lo bs -> bs <> [] -> last (b_Height <$> bs) = Some (lo + Z.of_nat (length bs) - 1).
Proof.
  intros -> Hne. destruct bs as [|b bs]; [done|]. cbn [length].
  rewrite last_lookup, length_seqZ, lookup_seqZ_lt by lia. f_equal. lia.
Qed.

Lemma consecutive_paced d lo seen bs :
  0 <= d -> 0 <= lo -> lo + Z.of_nat (length bs) <= 2 ^ 32 -> Forall (fun b0 => b_Height b0 < lo) seen ->
  consecutive lo bs -> paced d seen (Arrive <$> bs).
Proof.
  intros Hd. revert lo seen. induction bs as [|b bs IH]; intros lo seen Hlo Hhi Hs Hc; [done|].
  cbn [fmap list_fmap paced length] in *. apply consecutive_cons in Hc as [Hb Hc]. split_and!; [lia|lia| |].
  - eapply Forall_impl; [exact Hs|]. simpl. lia.
  - apply (IH (lo + 1)); [lia..| |done]. apply Forall_app. split; [|by apply Forall_singleton; lia].
    eapply Forall_impl; [exact Hs|]. simpl. lia.
Qed.

Lemma arrived_all bs : arrived (Arrive <$> bs) = bs.
Proof. induction bs as [|b bs IH]; [done|]. cbn. by rewrite IH. Qed.

(** At most [d] of them are in the window of the last one. *)
Lemma window_length d lo bs :
  0 <= d -> consecutive lo bs ->
  Z.of_nat (length (window d (lo + Z.of_nat (length bs) - 1) bs)) <= d.
Proof.
  intros Hd Hc. set (tip := lo + _ - 1).
  assert (b_Height <$> window d tip bs ⊆+ seqZ (tip - d + 1) d) as Hsub.
  { apply NoDup_submseteq.
    - apply (sublist_NoDup _ (b_Height <$> bs)); [rewrite Hc; apply NoDup_seqZ|]. apply fmap_sublist. exact (sublist_filter _ _).
    - intros h Hh. apply list_elem_of_fmap in Hh as (b & -> & Hb). apply list_elem_of_filter in Hb as [Hw Hb].
      pose proof (consecutive_range lo bs Hc) as Hr. rewrite Forall_forall in Hr. apply elem_of_seqZ.
      specialize (Hr b Hb). unfold tip in *. lia. }
  apply submseteq_length in Hsub. rewrite length_fmap, length_seqZ in Hsub. lia.
Qed.

Lemma concat_bound {A B} (f : A -> list B) (l : list A) (c : Z) :
  Forall (fun a => Z.of_nat (length (f a)) <= c) l -> Z.of_nat (length (concat (f <$> l))) <= Z.of_nat (length l) * c.
Proof.
  induction 1 as [|a l Ha _ IH]; [done|]. cbn [fmap list_fmap concat length]. rewrite length_app. lia.
Qed.

Lemma footprint_chain {S} `{LawfulStore S} (i : Ingestor) lo c bs (s s' : S) pr pr' rs :
  in_pruner i = true -> store_inv s -> store_view s = flatEmpty -> pruner_ok pr -> pr_hasTip pr = false ->
  consecutive lo bs -> bs <> [] -> 0 <= lo -> lo + Z.of_nat (length bs) <= 2 ^ 32 -> 0 <= c ->
  Forall (fun b => Z.of_nat (length (block_spends i b)) <= c) bs ->
  Forall (fun r => r.2 = None) rs -> life i (Arrive <$> bs) (s, pr) = (Ok rs, (s', pr')) ->
  Z.of_nat (spent_held (store_view s')) <= D (pr_policy pr) * c.
Proof.
  intros Hp Hi Hv Hpr Hn Hc Hne Hlo Hhi Hc0 Hb Hrs L. pose proof (consecutive_range lo bs Hc) as Hr.
  assert (0 <= D (pr_policy pr)) as HD by (destruct Hpr as [Hpol _]; rewrite D_exact by done; unfold policy_ok in *; lia).
  destruct (sim_life i (Arrive <$> bs) (s, pr) (flatEmpty, pr)) as (r & q & [f pr2] & E1 & E2 & [[_ Hf] Hq]); [done|].
  rewrite L in E1. injection E1 as <- <-. simpl in Hf, Hq. subst f pr2.
  apply life_tip in E2; [|done|done|eapply Forall_impl; [exact Hr|]; simpl; lia|done].
  destruct (footprint_lawful i (Arrive <$> bs) s s' pr pr' (Ok rs)) as (_ & _ & Hle); try done.
  { by apply (consecutive_paced _ lo). }
  rewrite (consecutive_last lo bs Hc Hne) in E2. cbn [default] in E2.
  rewrite arrived_all, E2 in Hle. etransitivity; [apply inj_le, Hle|].
  etransitivity; [apply (concat_bound _ _ c)|].
  - apply Forall_forall. intros b Hin. apply list_elem_of_filter in Hin as [_ Hin]. rewrite Forall_forall in Hb. by apply Hb.
  - apply Z.mul_le_mono_nonneg_r; [done|]. by apply window_length.
Qed.

(** ** Witness *)

(** The demonstration chain, its second block undone and received again, with a
    window of one block. *)
Definition demo_events : list event :=
  (Arrive <$> demo_chain) ++ (Undo <$> drop 1 demo_chain) ++ (Arrive <$> drop 1 demo_chain).
Definition one_block : Policy := mkPolicy 1 0 0.

Lemma footprint_bounded_witness :
  let '(r, (s', pr')) := life (S := MemStore) demo_ingestor demo_events (New, NewPruner one_block) in
  (exists rs, r = Ok rs) /\ pr_policy pr' = one_block
  /\ (spent_held (store_view s')
      <= length (concat (block_spends demo_ingestor <$> window (D one_block) (pr_lastTip pr') (arrived demo_events))))%nat.
Proof.
  destruct (life demo_ingestor demo_events (New, NewPruner one_block)) as [r [s' pr']] eqn:L.
  apply (footprint_bounded demo_ingestor demo_events New s' (NewPruner one_block) pr' r).
  - reflexivity.
  - exact New_inv.
  - exact New_view.
  - split; [unfold policy_ok; cbn; lia|cbn; lia].
  - reflexivity.
  - cbn [demo_events demo_chain fmap list_fmap app paced drop b_Height seal]. change (D (pr_policy (NewPruner one_block))) with 1.
    repeat split; try lia; repeat constructor; cbn [b_Height seal]; lia.
  - exact L.
Defined.
