(* ===== verification/Bsvtx.v ===== *)
(** * bsvtx: transactions, scripts, sighash, channel transactions, DER
      ([src/bsvtx/tx.go], [script.go], [sighash.go], [channeltx.go], [sign.go])

    Serialisation is modelled byte for byte.  The theorems show that the
    serialisation is injective, that the FORKID sighash of a commitment binds
    the amount, the funding output and both keys unless one of two explicit
    pairs of byte strings is a SHA-256d collision, that a commitment conserves
    the funded value when no sum wraps, and that DER signatures round-trip. *)

From stdpp Require Import base list strings.
From Stdlib Require Import ZArith Lia ZifyNat.
From Stdlib Require Strings.Byte.
From S2P Require Import Prelude Commitment.
Open Scope go_scope.

(** ** Transactions *)

Record OutPoint : Type := mkOutPoint { o_Hash : array 32; o_Index : Z }.
Record TxIn : Type := mkTxIn { i_PrevOut : OutPoint; i_ScriptSig : list byte; i_Sequence : Z }.
Record TxOut : Type := mkTxOut { o_Value : Z; o_ScriptPubKey : list byte }.
Record Tx : Type := mkTx
  { t_Version : Z; t_Inputs : list TxIn; t_Outputs : list TxOut; t_LockTime : Z }.

Definition FinalSequence : Z := 0xffffffff.
Definition EnableLockTimeSequence : Z := 0xfffffffe.

Definition putVarInt (n : Z) : list byte :=
  if n <? 0xfd then [z2b n]
  else if n <=? 0xffff then z2b 0xfd :: le_bytes 2 n
  else if n <=? 0xffffffff then z2b 0xfe :: le_bytes 4 n
  else z2b 0xff :: le_bytes 8 n.
Definition putU32 (v : Z) : list byte := le_bytes 4 v.
Definition putU64 (v : Z) : list byte := le_bytes 8 v.
(** A length-prefixed script. *)
Definition put_script (s : list byte) : list byte := putVarInt (Z.of_nat (length s)) ++ s.

Definition put_outpoint (o : OutPoint) : list byte := abytes (o_Hash o) ++ putU32 (o_Index o).
Definition put_in (i : TxIn) : list byte :=
  put_outpoint (i_PrevOut i) ++ put_script (i_ScriptSig i) ++ putU32 (i_Sequence i).
Definition put_out (o : TxOut) : list byte := putU64 (o_Value o) ++ put_script (o_ScriptPubKey o).

Definition Serialize (t : Tx) : list byte :=
  putU32 (u32 (t_Version t))
  ++ putVarInt (Z.of_nat (length (t_Inputs t))) ++ concat (put_in <$> t_Inputs t)
  ++ putVarInt (Z.of_nat (length (t_Outputs t))) ++ concat (put_out <$> t_Outputs t)
  ++ putU32 (t_LockTime t).

Definition TxID (t : Tx) : Hash := DoubleSHA256 (Serialize t).
Definition DisplayID (t : Tx) : Hash := arr 32 (rev (abytes (TxID t))).

(** ** Scripts *)

Definition op0 : Z := 0x00.
Definition op2 : Z := 0x52.
Definition opCheckSig : Z := 0xac.
Definition opCheckMultiSig : Z := 0xae.

Definition pushData (data : list byte) : list byte :=
  let n := Z.of_nat (length data) in
  (if n <? 0x4c then [z2b n]
   else if n <=? 0xff then [z2b 0x4c; z2b n]
   else [z2b 0x4d; z2b n; z2b (Z.shiftr n 8)]) ++ data.

Definition P2PK (compressedPub : list byte) : list byte := pushData compressedPub ++ [z2b opCheckSig].
Definition Multisig2of2 (pubA pubB : list byte) : list byte :=
  [z2b op2] ++ pushData pubA ++ pushData pubB ++ [z2b op2; z2b opCheckMultiSig].
Definition ScriptSigP2PK (sigWithType : list byte) : list byte := pushData sigWithType.
Definition ScriptSig2of2 (sigA sigB : list byte) : list byte :=
  [z2b op0] ++ pushData sigA ++ pushData sigB.

(** ** FORKID sighash *)

Definition SighashAll : Z := 0x01.
Definition SighashNone : Z := 0x02.
Definition SighashSingle : Z := 0x03.
Definition SighashForkIDFlag : Z := 0x40.
Definition SighashAnyone : Z := 0x80.
Definition SighashAllFork : Z := Z.lor SighashAll SighashForkIDFlag.

Definition hash_prevouts (t : Tx) (hashType : Z) : Hash :=
  if Z.land hashType SighashAnyone =? 0
  then DoubleSHA256 (concat ((fun i => put_outpoint (i_PrevOut i)) <$> t_Inputs t))
  else zeroHash.
Definition hash_sequence (t : Tx) (hashType : Z) : Hash :=
  if (Z.land hashType SighashAnyone =? 0) && negb (Z.land hashType 0x1f =? SighashSingle)
     && negb (Z.land hashType 0x1f =? SighashNone)
  then DoubleSHA256 (concat ((fun i => putU32 (i_Sequence i)) <$> t_Inputs t))
  else zeroHash.
Definition hash_outputs (t : Tx) (idx hashType : Z) : result Hash :=
  if negb (Z.land hashType 0x1f =? SighashSingle) && negb (Z.land hashType 0x1f =? SighashNone)
  then Ok (DoubleSHA256 (concat (put_out <$> t_Outputs t)))
  else if (Z.land hashType 0x1f =? SighashSingle) && (idx <? Z.of_nat (length (t_Outputs t)))
  then let! out := index (t_Outputs t) idx in Ok (DoubleSHA256 (put_out out))
  else Ok zeroHash.

(** The bytes that are hashed for one input. *)
Definition preimage (t : Tx) (i : TxIn) (scriptCode : list byte) (amount hashType : Z) (outs : Hash)
  : list byte :=
  putU32 (u32 (t_Version t)) ++ abytes (hash_prevouts t hashType) ++ abytes (hash_sequence t hashType)
  ++ put_outpoint (i_PrevOut i) ++ put_script scriptCode ++ putU64 amount ++ putU32 (i_Sequence i)
  ++ abytes outs ++ putU32 (t_LockTime t) ++ putU32 hashType.

Definition SighashForkID (t : Tx) (idx : Z) (scriptCode : list byte) (amount hashType : Z)
  : result (list byte) :=
  let! outs := hash_outputs t idx hashType in
  let! i := index (t_Inputs t) idx in
  Ok (abytes (DoubleSHA256 (preimage t i scriptCode amount hashType outs))).

(** ** Channel transactions *)

Record ChannelTx : Type := mkChannelTx
  { ct_FundingOut : OutPoint; ct_FundingValue : Z; ct_ClientPub : list byte;
    ct_ServerPub : list byte; ct_Fee : Z }.

Definition ErrAmount : error := "bsvtx: payout exceeds funded value minus fee"%string.

Definition Redeem (c : ChannelTx) : list byte := Multisig2of2 (ct_ClientPub c) (ct_ServerPub c).
Definition FundingOutput (c : ChannelTx) : TxOut := mkTxOut (ct_FundingValue c) (Redeem c).

Definition CommitmentTx (c : ChannelTx) (toServer : Z) : result Tx :=
  if ct_FundingValue c <? u64 (toServer + ct_Fee c) then Err ErrAmount
  else
    let toClient := u64 (u64 (ct_FundingValue c - toServer) - ct_Fee c) in
    Ok (mkTx 2 [mkTxIn (ct_FundingOut c) [] FinalSequence]
          [mkTxOut toServer (P2PK (ct_ServerPub c)); mkTxOut toClient (P2PK (ct_ClientPub c))] 0).

Definition CommitmentSighash (c : ChannelTx) (toServer : Z) : result (list byte) :=
  let! tx := CommitmentTx c toServer in
  SighashForkID tx 0 (Redeem c) (ct_FundingValue c) SighashAllFork.

Definition RefundTx (c : ChannelTx) (lockTime : Z) : Tx :=
  mkTx 2 [mkTxIn (ct_FundingOut c) [] EnableLockTimeSequence]
    [mkTxOut (u64 (ct_FundingValue c - ct_Fee c)) (P2PK (ct_ClientPub c))] lockTime.

Definition RefundSighash (c : ChannelTx) (lockTime : Z) : result (list byte) :=
  SighashForkID (RefundTx c lockTime) 0 (Redeem c) (ct_FundingValue c) SighashAllFork.

Definition Finalize2of2 (tx : Tx) (clientSig serverSig : list byte) : result Tx :=
  match t_Inputs tx with
  | [] => Panic
  | i :: r => Ok (mkTx (t_Version tx)
                    (mkTxIn (i_PrevOut i) (ScriptSig2of2 clientSig serverSig) (i_Sequence i) :: r)
                    (t_Outputs tx) (t_LockTime tx))
  end.

(** ** DER *)

(** [big.Int.Bytes]: big-endian, no leading zero byte. *)
Definition big_bytes (v : Z) : list byte :=
  if v =? 0 then [] else be_bytes (Z.to_nat (Z.log2 v / 8 + 1)) v.

Definition derEncodeInt (v : Z) : list byte :=
  let b := big_bytes v in
  let b := match b with [] => [Byte.x00] | _ => b end in
  let b := match b with
           | x :: _ => if Z.land (b2z x) 0x80 =? 0 then b else Byte.x00 :: b
           | [] => b
           end in
  z2b 0x02 :: z2b (Z.of_nat (length b)) :: b.

Definition derEncode (r s : Z) : list byte :=
  let body := derEncodeInt r ++ derEncodeInt s in
  z2b 0x30 :: z2b (Z.of_nat (length body)) :: body.
Definition DEREncode (r s : Z) : list byte := derEncode r s.

Definition errDER : error := "bsvtx: malformed DER signature"%string.

(** The closure [readInt] on the bytes from index [i] on; returns the integer
    and the new index. *)
Definition readInt (b : list byte) (i : Z) : result (Z * Z) :=
  let n := Z.of_nat (length b) in
  if n <? i + 2 then Err errDER
  else
    let! tag := index b i in
    if negb (b2z tag =? 0x02) then Err errDER
    else
      let! lb := index b (i + 1) in
      let l := b2z lb in
      let i := i + 2 in
      if n <? i + l then Err errDER
      else Ok (be_Z (take (Z.to_nat l) (drop (Z.to_nat i) b)), i + l).

Definition derDecode (b : list byte) : result (Z * Z) :=
  let n := Z.of_nat (length b) in
  if n <? 8 then Err errDER
  else
    let! b0 := index b 0 in
    if negb (b2z b0 =? 0x30) then Err errDER
    else
      let! b1 := index b 1 in
      if negb (b2z b1 =? n - 2) then Err errDER
      else
        let! (r, i) := readInt b 2 in
        let! (s, _) := readInt b i in
        Ok (r, s).

(** ** Lemmas: encodings *)

Definition u64_ok (n : Z) : Prop := 0 <= n < 2 ^ 64.
Definition u32_ok (n : Z) : Prop := 0 <= n < 2 ^ 32.

Lemma z2b_neq a b : a mod 256 <> b mod 256 -> z2b a <> z2b b.
Proof. intros Hn E. apply (f_equal b2z) in E. by rewrite !b2z_z2b in E. Qed.

Lemma prefix_inj_u32 : prefix_inj u32_ok putU32.
Proof. intros x y a b Hx Hy. by apply (prefix_inj_le 4). Qed.
Lemma prefix_inj_u64 : prefix_inj u64_ok putU64.
Proof. intros x y a b Hx Hy. by apply (prefix_inj_le 8). Qed.

Lemma prefix_inj_varint : prefix_inj u64_ok putVarInt.
Proof.
  intros x y a b Hx Hy. unfold u64_ok in *. unfold putVarInt.
  assert (forall n u v c d (z w : Z), n = n ->
    (0 <= z < 256 ^ Z.of_nat n) -> (0 <= w < 256 ^ Z.of_nat n) ->
    (u :: le_bytes n z) ++ c = (v :: le_bytes n w) ++ d -> z = w /\ c = d) as Hsame.
  { intros n u v c d z w _ Hz Hw E. injection E as _ E. by apply prefix_inj_le in E. }
  repeat match goal with |- context [if ?c then _ else _] => destruct c eqn:?; zbool end; intros E;
    try (apply (Hsame _ _ _ _ _ _ _ eq_refl) in E; [done|lia..]);
    try (exfalso; injection E as E _; revert E; apply z2b_neq; rewrite ?(Z.mod_small _ 256) by lia; lia).
  injection E as E ->. split; [|done]. apply (f_equal b2z) in E. rewrite !b2z_z2b in E.
  rewrite !Z.mod_small in E by lia. done.
Qed.

Definition script_ok (s : list byte) : Prop := u64_ok (Z.of_nat (length s)).

Lemma prefix_inj_script : prefix_inj script_ok put_script.
Proof.
  intros x y a b Hx Hy. unfold put_script. rewrite <- !app_assoc. intros E.
  apply prefix_inj_varint in E as [Hl E]; [|done..]. apply app_inj_len in E; [done|lia].
Qed.

Definition outpoint_ok (o : OutPoint) : Prop := u32_ok (o_Index o).
Lemma prefix_inj_outpoint : prefix_inj outpoint_ok put_outpoint.
Proof.
  intros [h i] [h' i'] a b Hx Hy. unfold put_outpoint. cbn [o_Hash o_Index]. rewrite <- !app_assoc. intros E.
  apply prefix_inj_array in E as [-> E]; [|done..]. by apply prefix_inj_u32 in E as [-> ->].
Qed.

Definition in_ok (i : TxIn) : Prop := outpoint_ok (i_PrevOut i) /\ script_ok (i_ScriptSig i) /\ u32_ok (i_Sequence i).
Lemma prefix_inj_in : prefix_inj in_ok put_in.
Proof.
  intros [p s q] [p' s' q'] a b (H1 & H2 & H3) (G1 & G2 & G3). unfold put_in. cbn [i_PrevOut i_ScriptSig i_Sequence] in *.
  rewrite <- !app_assoc. intros E. apply prefix_inj_outpoint in E as [-> E]; [|done..].
  apply prefix_inj_script in E as [-> E]; [|done..]. by apply prefix_inj_u32 in E as [-> ->].
Qed.

Definition out_ok (o : TxOut) : Prop := u64_ok (o_Value o) /\ script_ok (o_ScriptPubKey o).
Lemma prefix_inj_out : prefix_inj out_ok put_out.
Proof.
  intros [v s] [v' s'] a b (H1 & H2) (G1 & G2). unfold put_out. cbn [o_Value o_ScriptPubKey] in *. rewrite <- !app_assoc. intros E.
  apply prefix_inj_u64 in E as [-> E]; [|done..]. by apply prefix_inj_script in E as [-> ->].
Qed.

(** A transaction as Go's types hold it (the version taken as [uint32]). *)
Definition tx_ok (t : Tx) : Prop :=
  u32_ok (t_Version t) /\ Forall in_ok (t_Inputs t) /\ Forall out_ok (t_Outputs t) /\ u32_ok (t_LockTime t)
  /\ u64_ok (Z.of_nat (length (t_Inputs t))) /\ u64_ok (Z.of_nat (length (t_Outputs t))).

Lemma Serialize_inj t1 t2 : tx_ok t1 -> tx_ok t2 -> Serialize t1 = Serialize t2 -> t1 = t2.
Proof.
  destruct t1 as [v1 i1 o1 l1], t2 as [v2 i2 o2 l2].
  intros (V1 & I1 & O1 & L1 & NI1 & NO1) (V2 & I2 & O2 & L2 & NI2 & NO2). unfold Serialize.
  cbn [t_Version t_Inputs t_Outputs t_LockTime] in *. intros E.
  rewrite !u32_small in E by done. apply prefix_inj_u32 in E as [-> E]; [|done..].
  apply prefix_inj_varint in E as [Hi E]; [|done..].
  apply (prefix_inj_list in_ok) in E as [-> E]; [|apply prefix_inj_in|done|done|lia].
  apply prefix_inj_varint in E as [Ho E]; [|done..].
  apply (prefix_inj_list out_ok) in E as [-> E]; [|apply prefix_inj_out|done|done|lia].
  apply (prefix_inj_inj _ _ _ _ prefix_inj_u32) in E as ->; done.
Qed.

(** A push of at most [2^16 - 1] bytes. *)
Definition push_ok (d : list byte) : Prop := Z.of_nat (length d) < 2 ^ 16.

Lemma prefix_inj_push : prefix_inj push_ok pushData.
Proof.
  intros x y a b Hx Hy. unfold push_ok, pushData in *. cbv zeta. rewrite <- !app_assoc. intros E.
  set (n := Z.of_nat (length x)) in *. set (m := Z.of_nat (length y)) in *.
  assert (n = m /\ x ++ a = y ++ b) as [Hl E'].
  { assert (forall u v, z2b u = z2b v -> 0 <= u < 256 -> 0 <= v < 256 -> u = v) as Hb.
    { intros u v Huv Hu Hv. apply (f_equal b2z) in Huv. rewrite !b2z_z2b in Huv. by rewrite !Z.mod_small in Huv. }
    assert (forall u v, z2b u = z2b v -> u mod 256 = v mod 256) as Hm.
    { intros u v Huv. apply (f_equal b2z) in Huv. by rewrite !b2z_z2b in Huv. }
    assert (0 <= n /\ 0 <= m) by lia.
    destruct (n <? 0x4c) eqn:E1, (m <? 0x4c) eqn:E2; zbool; simpl in E.
    - injection E as Eh E. apply Hb in Eh; lia || done.
    - exfalso. destruct (m <=? 0xff); injection E as Eh _; apply Hm in Eh; rewrite ?Z.mod_small in Eh by lia; lia.
    - exfalso. destruct (n <=? 0xff); injection E as Eh _; apply Hm in Eh; rewrite ?Z.mod_small in Eh by lia; lia.
    - destruct (n <=? 0xff) eqn:E3, (m <=? 0xff) eqn:E4; zbool; simpl in E.
      + injection E as Eh E. apply Hb in Eh; lia || done.
      + exfalso. injection E as Eh. apply Hm in Eh. done.
      + exfalso. injection E as Eh. apply Hm in Eh. done.
      + injection E as Elo Ehi E. apply Hm in Elo. rewrite !Z.shiftr_div_pow2 in Ehi by lia.
        apply Hb in Ehi; [|change (2 ^ 8) with 256; Z.div_mod_to_equations; lia..].
        split; [|done]. change (2 ^ 8) with 256 in *. Z.div_mod_to_equations; lia. }
  apply app_inj_len in E' as [-> ->]; [done|lia].
Qed.

(** ** Lemmas: commitments *)

Definition chan_ok (c : ChannelTx) : Prop :=
  outpoint_ok (ct_FundingOut c) /\ u64_ok (ct_FundingValue c) /\ u64_ok (ct_Fee c)
  /\ push_ok (ct_ClientPub c) /\ push_ok (ct_ServerPub c).

Lemma length_pushData d : Z.of_nat (length (pushData d)) <= Z.of_nat (length d) + 3.
Proof. unfold pushData. cbv zeta. rewrite length_app. repeat case_match; simpl; lia. Qed.

Lemma P2PK_ok d : push_ok d -> script_ok (P2PK d).
Proof.
  intros Hd. unfold script_ok, u64_ok, P2PK, push_ok in *. pose proof (length_pushData d).
  rewrite length_app. simpl. lia.
Qed.
Lemma P2PK_inj d d' : push_ok d -> push_ok d' -> P2PK d = P2PK d' -> d = d'.
Proof. intros Hd Hd' E. by apply prefix_inj_push in E as [-> _]. Qed.

Lemma Redeem_ok c : chan_ok c -> script_ok (Redeem c).
Proof.
  intros (_ & _ & _ & Hc & Hs). unfold script_ok, u64_ok, Redeem, Multisig2of2, push_ok in *.
  pose proof (length_pushData (ct_ClientPub c)). pose proof (length_pushData (ct_ServerPub c)).
  rewrite !length_app. simpl. lia.
Qed.

Lemma Redeem_inj c c' : chan_ok c -> chan_ok c' -> Redeem c = Redeem c' ->
  ct_ClientPub c = ct_ClientPub c' /\ ct_ServerPub c = ct_ServerPub c'.
Proof.
  intros (_ & _ & _ & Hc & Hs) (_ & _ & _ & Hc' & Hs') E. unfold Redeem, Multisig2of2 in E.
  injection E as E. apply prefix_inj_push in E as [-> E]; [|done..].
  by apply prefix_inj_push in E as [-> _].
Qed.

(** The commitment's outputs and sighash preimage, as hashed. *)
Definition to_client (c : ChannelTx) (v : Z) : Z := u64 (u64 (ct_FundingValue c - v) - ct_Fee c).
Definition commit_outs (c : ChannelTx) (v : Z) : list TxOut :=
  [mkTxOut v (P2PK (ct_ServerPub c)); mkTxOut (to_client c v) (P2PK (ct_ClientPub c))].
Definition commit_out_bytes (c : ChannelTx) (v : Z) : list byte := concat (put_out <$> commit_outs c v).
Definition commit_tx (c : ChannelTx) (v : Z) : Tx :=
  mkTx 2 [mkTxIn (ct_FundingOut c) [] FinalSequence] (commit_outs c v) 0.
Definition commit_preimage (c : ChannelTx) (v : Z) : list byte :=
  preimage (commit_tx c v) (mkTxIn (ct_FundingOut c) [] FinalSequence) (Redeem c) (ct_FundingValue c)
    SighashAllFork (DoubleSHA256 (commit_out_bytes c v)).

Lemma CommitmentSighash_ok c v h :
  CommitmentSighash c v = Ok h ->
  h = abytes (DoubleSHA256 (commit_preimage c v)) /\ u64 (v + ct_Fee c) <= ct_FundingValue c.
Proof.
  unfold CommitmentSighash, CommitmentTx. destruct (ct_FundingValue c <? u64 (v + ct_Fee c)) eqn:E; [done|].
  zbool. intros H. injection H as <-. done.
Qed.

Lemma commit_outs_ok c v : chan_ok c -> u64_ok v -> Forall out_ok (commit_outs c v).
Proof.
  intros (_ & _ & _ & Hc & Hs) Hv. repeat constructor; simpl; try apply P2PK_ok; try done; try apply Hv;
    apply u64_range.
Qed.

Lemma commit_tx_ok c v : chan_ok c -> u64_ok v -> tx_ok (commit_tx c v).
Proof.
  intros Hc Hv. pose proof Hc as (Ho & _). unfold tx_ok, commit_tx, u32_ok, u64_ok.
  cbn [t_Version t_Inputs t_Outputs t_LockTime commit_outs length].
  split_and!; try lia; [|by apply commit_outs_ok].
  constructor; [|constructor]. unfold in_ok, script_ok, u32_ok, u64_ok.
  cbn [i_PrevOut i_ScriptSig i_Sequence length]. unfold FinalSequence. split_and!; [done|lia..].
Qed.

(** ** Lemmas: DER *)

Lemma length_big_bytes v n : 0 <= v < 256 ^ Z.of_nat n -> (length (big_bytes v) <= n)%nat.
Proof.
  intros Hv. unfold big_bytes. destruct (v =? 0) eqn:E; zbool; [simpl; lia|]. rewrite length_be_bytes.
  assert (Z.log2 v < 8 * Z.of_nat n).
  { apply Z.log2_lt_pow2; [lia|]. rewrite Z.pow_mul_r by lia. change (2 ^ 8) with 256. lia. }
  pose proof (Z.log2_nonneg v). Z.div_mod_to_equations; lia.
Qed.

Lemma be_Z_big_bytes v : 0 <= v -> be_Z (big_bytes v) = v.
Proof.
  intros Hv. unfold big_bytes. destruct (v =? 0) eqn:E; zbool; [by subst|].
  rewrite be_Z_bytes. apply Z.mod_small. split; [lia|].
  pose proof (Z.log2_spec v ltac:(lia)) as [_ Hu]. pose proof (Z.log2_nonneg v).
  rewrite Z2Nat.id by (Z.div_mod_to_equations; lia).
  eapply Z.lt_le_trans; [exact Hu|]. change 256 with (2 ^ 8). rewrite <- Z.pow_mul_r by (Z.div_mod_to_equations; lia).
  apply Z.pow_le_mono_r; [lia|]. Z.div_mod_to_equations; lia.
Qed.

Lemma be_Z_zero_cons b : be_Z (Byte.x00 :: b) = be_Z b.
Proof.
  unfold be_Z. simpl. rewrite le_Z_app. change (le_Z [Byte.x00]) with 0. lia.
Qed.

(** The content octets of an encoded integer. *)
Lemma derEncodeInt_content v : 0 <= v < 2 ^ 256 ->
  exists b, derEncodeInt v = z2b 0x02 :: z2b (Z.of_nat (length b)) :: b /\ be_Z b = v
    /\ (1 <= length b <= 33)%nat.
Proof.
  intros Hv. unfold derEncodeInt. cbv zeta. eexists. split; [reflexivity|].
  pose proof (be_Z_big_bytes v ltac:(lia)) as Hb.
  pose proof (length_big_bytes v 32 ltac:(change (256 ^ Z.of_nat 32) with (2 ^ 256); lia)) as Hl.
  destruct (big_bytes v) as [|x r].
  { change (be_Z []) with 0 in Hb. subst v. split; [reflexivity|simpl; lia]. }
  destruct (Z.land (b2z x) 0x80 =? 0); rewrite ?be_Z_zero_cons; simpl in *; split; [done|lia|done|lia].
Qed.

Lemma readInt_at (pre b post : list byte) :
  (length b < 256)%nat ->
  readInt (pre ++ (z2b 0x02 :: z2b (Z.of_nat (length b)) :: b) ++ post) (Z.of_nat (length pre))
  = Ok (be_Z b, Z.of_nat (length pre) + 2 + Z.of_nat (length b)).
Proof.
  intros Hl. unfold readInt. cbv zeta. rewrite !length_app. cbn [length].
  rewrite (proj2 (Z.ltb_ge _ _)) by lia.
  rewrite (index_nat _ (length pre) (z2b 0x02)) by (by rewrite lookup_app_r, Nat.sub_diag by lia).
  cbn [rbind]. change (negb (b2z (z2b 2) =? 2)) with false. cbn iota.
  replace (Z.of_nat (length pre) + 1) with (Z.of_nat (length pre + 1)) by lia.
  rewrite (index_nat _ (length pre + 1) (z2b (Z.of_nat (length b)))).
  2: { rewrite lookup_app_r by lia. by replace (length pre + 1 - length pre)%nat with 1%nat by lia. }
  cbn [rbind]. rewrite b2z_z2b, Z.mod_small by lia.
  rewrite (proj2 (Z.ltb_ge _ _)) by lia. do 2 f_equal.
  replace (Z.to_nat (Z.of_nat (length pre) + 2)) with (length (pre ++ [z2b 0x02; z2b (Z.of_nat (length b))]))
    by (rewrite length_app; simpl; lia).
  replace (pre ++ (z2b 2 :: z2b (Z.of_nat (length b)) :: b) ++ post)
    with ((pre ++ [z2b 2; z2b (Z.of_nat (length b))]) ++ b ++ post) by (by rewrite <- !app_assoc).
  rewrite drop_app_length, Nat2Z.id, take_app_length. done.
Qed.

Lemma der_roundtrip r s : 0 <= r < 2 ^ 256 -> 0 <= s < 2 ^ 256 -> derDecode (derEncode r s) = Ok (r, s).
Proof.
  intros Hr Hs. destruct (derEncodeInt_content r Hr) as (br & Er & Hbr & Hlr).
  destruct (derEncodeInt_content s Hs) as (bs & Es & Hbs & Hls).
  unfold derEncode, derDecode. cbv zeta. rewrite Er, Es.
  set (body := (z2b 2 :: z2b (Z.of_nat (length br)) :: br) ++ z2b 2 :: z2b (Z.of_nat (length bs)) :: bs).
  assert (length body = (length br + length bs + 4)%nat) as Hlb by (unfold body; rewrite length_app; simpl; lia).
  cbn [length]. rewrite (proj2 (Z.ltb_ge _ _)) by lia.
  change (index (z2b 48 :: z2b (Z.of_nat (length body)) :: body) 0) with (Ok (z2b 48)). cbn [rbind].
  change (negb (b2z (z2b 48) =? 48)) with false. cbn iota.
  change (index (z2b 48 :: z2b (Z.of_nat (length body)) :: body) 1) with (Ok (z2b (Z.of_nat (length body)))).
  cbn [rbind]. rewrite b2z_z2b, Z.mod_small by lia.
  replace (Z.of_nat (S (S (length body))) - 2) with (Z.of_nat (length body)) by lia. rewrite Z.eqb_refl. cbn [negb].
  pose proof (readInt_at [z2b 48; z2b (Z.of_nat (length body))] br
    (z2b 2 :: z2b (Z.of_nat (length bs)) :: bs) ltac:(lia)) as R1.
  change ([z2b 48; z2b (Z.of_nat (length body))] ++ (z2b 2 :: z2b (Z.of_nat (length br)) :: br) ++
    z2b 2 :: z2b (Z.of_nat (length bs)) :: bs) with (z2b 48 :: z2b (Z.of_nat (length body)) :: body) in R1.
  change (Z.of_nat (length [z2b 48; z2b (Z.of_nat (length body))])) with 2 in R1. rewrite R1. cbn [rbind].
  pose proof (readInt_at ([z2b 48; z2b (Z.of_nat (length body))] ++ z2b 2 :: z2b (Z.of_nat (length br)) :: br)
    bs [] ltac:(lia)) as R2.
  rewrite app_nil_r, <- app_assoc in R2.
  change ([z2b 48; z2b (Z.of_nat (length body))] ++ (z2b 2 :: z2b (Z.of_nat (length br)) :: br) ++
    z2b 2 :: z2b (Z.of_nat (length bs)) :: bs) with (z2b 48 :: z2b (Z.of_nat (length body)) :: body) in R2.
  replace (Z.of_nat (length ([z2b 48; z2b (Z.of_nat (length body))] ++ z2b 2 :: z2b (Z.of_nat (length br)) :: br)))
    with (2 + 2 + Z.of_nat (length br)) in R2 by (rewrite length_app; simpl; lia).
  rewrite R2. cbn [rbind]. by rewrite Hbr, Hbs.
Qed.

(** ** Properties *)

(** the serialisation determines the transaction: two well-typed transactions
    with the same bytes are equal, so a txid names one transaction up to a
    SHA-256d collision of the two serialisations. *)
Theorem txid_binds (t1 t2 : Tx) :
  tx_ok t1 -> tx_ok t2 -> TxID t1 = TxID t2 ->
  t1 = t2 \/ is_collision (Serialize t1, Serialize t2).
Proof.
  intros H1 H2 E. destruct (decide (Serialize t1 = Serialize t2)) as [Es|Es].
  - left. by apply Serialize_inj.
  - right. split; [done|]. exact E.
Qed.

(** C26: a commitment signature binds what it pays.  If the FORKID sighashes of two
    commitments agree, then the amounts, the funding outputs and values, both
    keys and the fees agree, or the two preimages or the two serialised
    outputs are a SHA-256d collision. *)
Theorem commitment_sighash_binds (c1 c2 : ChannelTx) (v1 v2 : Z) (h : list byte) :
  chan_ok c1 -> chan_ok c2 -> u64_ok v1 -> u64_ok v2 ->
  CommitmentSighash c1 v1 = Ok h -> CommitmentSighash c2 v2 = Ok h ->
  (v1 = v2 /\ c1 = c2)
  \/ is_collision (commit_preimage c1 v1, commit_preimage c2 v2)
  \/ is_collision (commit_out_bytes c1 v1, commit_out_bytes c2 v2).
Proof.
  intros H1 H2 V1 V2 E1 E2. apply CommitmentSighash_ok in E1 as [-> _], E2 as [E2 _].
  apply array_ext in E2.
  destruct (decide (commit_preimage c1 v1 = commit_preimage c2 v2)) as [Ep|Ep]; [|right; left; by split].
  destruct (decide (commit_out_bytes c1 v1 = commit_out_bytes c2 v2)) as [Eo|Eo].
  - left. pose proof H1 as (O1 & F1 & Fe1 & C1 & S1). pose proof H2 as (O2 & F2 & Fe2 & C2 & S2).
    unfold commit_out_bytes in Eo. rewrite <- (app_nil_r (concat _)), <- (app_nil_r (concat (_ <$> commit_outs c2 v2))) in Eo.
    apply (prefix_inj_list out_ok) in Eo as [Eo _]; [|apply prefix_inj_out|by apply commit_outs_ok..|done].
    injection Eo as -> Hs Hc Hp. apply P2PK_inj in Hs, Hp; [|done..].
    unfold commit_preimage, preimage in Ep.
    apply app_inj_len in Ep as [_ Ep]; [|len]. apply app_inj_len in Ep as [_ Ep]; [|len].
    apply app_inj_len in Ep as [_ Ep]; [|len].
    apply prefix_inj_outpoint in Ep as [Eout Ep]; [|done..].
    apply prefix_inj_script in Ep as [_ Ep]; [|by apply Redeem_ok..].
    apply prefix_inj_u64 in Ep as [Ef _]; [|done..]. split; [done|].
    destruct c1 as [a1 f1 p1 s1 e1], c2 as [a2 f2 p2 s2 e2]. simpl in *. subst. f_equal.
    unfold to_client, u64_ok in *. simpl in Hc. go_lia.
  - right. right. split; [done|]. simpl.
    unfold commit_preimage, preimage in Ep.
    apply app_inj_len in Ep as [_ Ep]; [|len]. apply app_inj_len in Ep as [_ Ep]; [|len].
    apply app_inj_len in Ep as [_ Ep]; [|len].
    apply prefix_inj_outpoint in Ep as [_ Ep]; [|apply H1|apply H2].
    apply prefix_inj_script in Ep as [_ Ep]; [|by apply Redeem_ok..].
    apply app_inj_len in Ep as [_ Ep]; [|len]. apply app_inj_len in Ep as [_ Ep]; [|len].
    by apply prefix_inj_array in Ep as [-> _].
Qed.

(** value conservation.  Where amount plus fee does not wrap, [CommitmentTx]
    fails exactly when they exceed the funded value, and otherwise spends only
    the funding output, pays the amount to the server's key, the rest to the
    client's, and its outputs with the fee add up to the funded value. *)
Theorem commitment_tx_conserves (c : ChannelTx) (v : Z) :
  u64_ok (ct_FundingValue c) -> u64_ok (ct_Fee c) -> u64_ok v -> v + ct_Fee c < 2 ^ 64 ->
  (ct_FundingValue c < v + ct_Fee c /\ CommitmentTx c v = Err ErrAmount)
  \/ (exists tx back, CommitmentTx c v = Ok tx
        /\ i_PrevOut <$> t_Inputs tx = [ct_FundingOut c]
        /\ t_Outputs tx = [mkTxOut v (P2PK (ct_ServerPub c)); mkTxOut back (P2PK (ct_ClientPub c))]
        /\ 0 <= back /\ v + back + ct_Fee c = ct_FundingValue c).
Proof.
  intros Hf He Hv Hw. unfold u64_ok in *. unfold CommitmentTx. rewrite (u64_small (v + ct_Fee c)) by lia.
  destruct (ct_FundingValue c <? v + ct_Fee c) eqn:E; zbool; [by left|right].
  eexists _, _. split; [reflexivity|]. simpl. rewrite (u64_small (ct_FundingValue c - v)) by lia.
  rewrite u64_small by lia. split_and!; [done..|lia|lia].
Qed.

(** with a fee that makes the sum wrap, the check passes and the commitment
    pays out more than the funded value. *)
Theorem commitment_tx_wraps (out : OutPoint) (F v : Z) (client server : list byte) :
  1 <= v <= F -> F < 2 ^ 64 - 1 ->
  let c := mkChannelTx out F client server (2 ^ 64 - 1) in
  exists tx, CommitmentTx c v = Ok tx
    /\ o_Value <$> t_Outputs tx = [v; F - v + 1] /\ v + (F - v + 1) > F.
Proof.
  intros Hv HF c. unfold CommitmentTx, c. simpl.
  replace (u64 (v + (2 ^ 64 - 1))) with (v - 1) by go_lia.
  rewrite (proj2 (Z.ltb_ge _ _)) by lia. eexists. split; [reflexivity|]. simpl.
  split; [|lia]. do 2 f_equal. rewrite (u64_small (F - v)) by lia. f_equal. go_lia.
Qed.

(** DER round trip: decoding the encoding of two 256-bit integers returns them. *)
Theorem der_decode_encode (r s : Z) :
  0 <= r < 2 ^ 256 -> 0 <= s < 2 ^ 256 -> derDecode (DEREncode r s) = Ok (r, s).
Proof. apply der_roundtrip. Qed.

(** ** Witnesses *)

Definition demo_out : OutPoint := mkOutPoint (demo_hash 1) 0.
Definition demo_chan : ChannelTx :=
  mkChannelTx demo_out 100000 (be_bytes 33 (2 ^ 257 + 5)) (be_bytes 33 (2 ^ 257 + 9)) 500.
Definition demo_tx : Tx := commit_tx demo_chan 700.

Lemma demo_chan_ok : chan_ok demo_chan.
Proof. repeat split; vm_compute; congruence. Qed.

Lemma demo_tx_ok : tx_ok demo_tx.
Proof. apply commit_tx_ok; [exact demo_chan_ok|unfold u64_ok; lia]. Qed.

Lemma txid_binds_witness : demo_tx = demo_tx \/ is_collision (Serialize demo_tx, Serialize demo_tx).
Proof. apply (txid_binds demo_tx demo_tx demo_tx_ok demo_tx_ok eq_refl). Defined.

Lemma commitment_sighash_binds_witness :
  (700 = 700 /\ demo_chan = demo_chan)
  \/ is_collision (commit_preimage demo_chan 700, commit_preimage demo_chan 700)
  \/ is_collision (commit_out_bytes demo_chan 700, commit_out_bytes demo_chan 700).
Proof.
  apply (commitment_sighash_binds demo_chan demo_chan 700 700
           (abytes (DoubleSHA256 (commit_preimage demo_chan 700))));
    [exact demo_chan_ok|exact demo_chan_ok|unfold u64_ok; lia|unfold u64_ok; lia|reflexivity|reflexivity].
Defined.

Lemma commitment_tx_conserves_witness :
  (ct_FundingValue demo_chan < 700 + ct_Fee demo_chan /\ CommitmentTx demo_chan 700 = Err ErrAmount)
  \/ (exists tx back, CommitmentTx demo_chan 700 = Ok tx
        /\ i_PrevOut <$> t_Inputs tx = [ct_FundingOut demo_chan]
        /\ t_Outputs tx = [mkTxOut 700 (P2PK (ct_ServerPub demo_chan)); mkTxOut back (P2PK (ct_ClientPub demo_chan))]
        /\ 0 <= back /\ 700 + back + ct_Fee demo_chan = ct_FundingValue demo_chan).
Proof. apply (commitment_tx_conserves demo_chan 700); unfold u64_ok; simpl; lia. Defined.

Lemma commitment_tx_wraps_witness :
  exists tx, CommitmentTx (mkChannelTx demo_out 1000 [] [] (2 ^ 64 - 1)) 500 = Ok tx
    /\ o_Value <$> t_Outputs tx = [500; 1000 - 500 + 1] /\ 500 + (1000 - 500 + 1) > 1000.
Proof. apply (commitment_tx_wraps demo_out 1000 500 [] []); lia. Defined.

Lemma der_decode_encode_witness : derDecode (DEREncode 200 (2 ^ 255)) = Ok (200, 2 ^ 255).
Proof. apply (der_decode_encode 200 (2 ^ 255)); lia. Defined.
