(* ===== verification/CtField.v ===== *)
(** * crypto/ct: limb field arithmetic and the constant-time ladder
      ([src/crypto/ct.go])

    GF(p) elements as four 64-bit limbs, written with the carries of
    [bits.Add64], [bits.Sub64] and [bits.Mul64].  The theorems show that every
    field operation returns a reduced element with the right value modulo
    [p = 2^256 - 2^32 - 977] for all inputs, that [completeAdd] computes the
    Renes-Costello-Batina polynomials, and that the masked ladder equals the
    branching double-and-add. *)

From stdpp Require Import base list.
From Stdlib Require Import ZArith Lia ZifyNat.
From S2P Require Import Prelude.

(** ** 64-bit words *)

Definition W : Z := 2 ^ 64.
Definition word (x : Z) : Prop := 0 <= x < W.

(** [math/bits]. *)
Definition Add64 (x y c : Z) : Z * Z := (u64 (x + y + c), (x + y + c) / W).
Definition Sub64 (x y b : Z) : Z * Z := (u64 (x - y - b), if x - y - b <? 0 then 1 else 0).
Definition Mul64 (x y : Z) : Z * Z := ((x * y) / W, u64 (x * y)).
Definition andnot (x m : Z) : Z := Z.land x (Z.lxor m (W - 1)).

Record fe : Type := mkFe { f0 : Z; f1 : Z; f2 : Z; f3 : Z }.

(** ** Constants *)

Definition pl0 : Z := 0xFFFFFFFEFFFFFC2F.
Definition pl1 : Z := 0xFFFFFFFFFFFFFFFF.
Definition feC : Z := 0x1000003D1.
Definition fe_p : Z := 2 ^ 256 - 2 ^ 32 - 977.

(** ** Conversions *)

Definition feFromBig (x : Z) : result fe :=
  if 2 ^ 256 <=? x then Panic
  else
    let b := be_bytes 32 x in
    Ok (mkFe (be_Z (take 8 (drop 24 b))) (be_Z (take 8 (drop 16 b))) (be_Z (take 8 (drop 8 b)))
          (be_Z (take 8 b))).
Definition fe_big (f : fe) : Z :=
  be_Z (be_bytes 8 (f3 f) ++ be_bytes 8 (f2 f) ++ be_bytes 8 (f1 f) ++ be_bytes 8 (f0 f)).
Definition scalarBits (k : Z) : result fe := feFromBig k.

(** ** Operations *)

Definition feCondSubP (a : fe) : fe :=
  let '(r0, b) := Sub64 (f0 a) pl0 0 in
  let '(r1, b) := Sub64 (f1 a) pl1 b in
  let '(r2, b) := Sub64 (f2 a) pl1 b in
  let '(r3, b) := Sub64 (f3 a) pl1 b in
  let mask := u64 (b - 1) in
  mkFe (Z.lor (Z.land r0 mask) (andnot (f0 a) mask)) (Z.lor (Z.land r1 mask) (andnot (f1 a) mask))
    (Z.lor (Z.land r2 mask) (andnot (f2 a) mask)) (Z.lor (Z.land r3 mask) (andnot (f3 a) mask)).

(** [r += c*feC], returning the new carry. *)
Definition fold_carry (r : fe) (c : Z) : fe * Z :=
  let '(r0, c) := Add64 (f0 r) (u64 (c * feC)) 0 in
  let '(r1, c) := Add64 (f1 r) 0 c in
  let '(r2, c) := Add64 (f2 r) 0 c in
  let '(r3, c) := Add64 (f3 r) 0 c in
  (mkFe r0 r1 r2 r3, c).

Definition feAdd (a b : fe) : fe :=
  let '(r0, c) := Add64 (f0 a) (f0 b) 0 in
  let '(r1, c) := Add64 (f1 a) (f1 b) c in
  let '(r2, c) := Add64 (f2 a) (f2 b) c in
  let '(r3, c) := Add64 (f3 a) (f3 b) c in
  let '(r, c) := fold_carry (mkFe r0 r1 r2 r3) c in
  let '(r, _) := fold_carry r c in
  feCondSubP r.

Definition feSub (a b : fe) : fe :=
  let '(r0, br) := Sub64 (f0 a) (f0 b) 0 in
  let '(r1, br) := Sub64 (f1 a) (f1 b) br in
  let '(r2, br) := Sub64 (f2 a) (f2 b) br in
  let '(r3, br) := Sub64 (f3 a) (f3 b) br in
  let mask := u64 (0 - br) in
  let '(r0, c) := Add64 r0 (Z.land pl0 mask) 0 in
  let '(r1, c) := Add64 r1 (Z.land pl1 mask) c in
  let '(r2, c) := Add64 r2 (Z.land pl1 mask) c in
  let '(r3, _) := Add64 r3 (Z.land pl1 mask) c in
  mkFe r0 r1 r2 r3.

(** One iteration of [mul256by64]. *)
Definition mul_step (a b carry : Z) : Z * Z :=
  let '(hi, lo) := Mul64 a b in
  let '(s, c) := Add64 lo carry 0 in
  (s, u64 (hi + c)).
Definition mul256by64 (a : fe) (b : Z) : fe * Z :=
  let '(m0, carry) := mul_step (f0 a) b 0 in
  let '(m1, carry) := mul_step (f1 a) b carry in
  let '(m2, carry) := mul_step (f2 a) b carry in
  let '(m3, carry) := mul_step (f3 a) b carry in
  (mkFe m0 m1 m2 m3, carry).

(** The body of the inner schoolbook loop. *)
Definition mac (t a b carry : Z) : Z * Z :=
  let '(hi, lo) := Mul64 a b in
  let '(s, c1) := Add64 t lo 0 in
  let '(s, c2) := Add64 s carry 0 in
  (s, u64 (u64 (hi + c1) + c2)).

(** One row: [t[i..i+3] += a_i * b], the carry added to [t[i+4]]. *)
Definition mul_row (ai : Z) (b : fe) (t0 t1 t2 t3 t4 : Z) : Z * Z * Z * Z * Z :=
  let '(t0, carry) := mac t0 ai (f0 b) 0 in
  let '(t1, carry) := mac t1 ai (f1 b) carry in
  let '(t2, carry) := mac t2 ai (f2 b) carry in
  let '(t3, carry) := mac t3 ai (f3 b) carry in
  (t0, t1, t2, t3, u64 (t4 + carry)).

Definition mul_wide (a b : fe) : fe * fe :=
  let '(t0, t1, t2, t3, t4) := mul_row (f0 a) b 0 0 0 0 0 in
  let '(t1, t2, t3, t4, t5) := mul_row (f1 a) b t1 t2 t3 t4 0 in
  let '(t2, t3, t4, t5, t6) := mul_row (f2 a) b t2 t3 t4 t5 0 in
  let '(t3, t4, t5, t6, t7) := mul_row (f3 a) b t3 t4 t5 t6 0 in
  (mkFe t0 t1 t2 t3, mkFe t4 t5 t6 t7).

(** 512 to 256 bits with [2^256 = feC (mod p)]. *)
Definition reduce_wide (lo hi : fe) : fe :=
  let '(m, m4) := mul256by64 hi feC in
  let '(r0, c) := Add64 (f0 lo) (f0 m) 0 in
  let '(r1, c) := Add64 (f1 lo) (f1 m) c in
  let '(r2, c) := Add64 (f2 lo) (f2 m) c in
  let '(r3, c) := Add64 (f3 lo) (f3 m) c in
  let r4 := u64 (m4 + c) in
  let '(h4, l4) := Mul64 r4 feC in
  let '(r0, c) := Add64 r0 l4 0 in
  let '(r1, c) := Add64 r1 h4 c in
  let '(r2, c) := Add64 r2 0 c in
  let '(r3, c) := Add64 r3 0 c in
  let '(r, _) := fold_carry (mkFe r0 r1 r2 r3) c in
  feCondSubP r.

Definition feMul (a b : fe) : fe := let '(lo, hi) := mul_wide a b in reduce_wide lo hi.
Definition feSqr (a : fe) : fe := feMul a a.

(** The bits of four words, most significant first: [for word := 3 ..] and
    [for bit := 63 ..]. *)
Definition word_bits (w : Z) : list Z := (fun i => Z.land (Z.shiftr w (63 - i)) 1) <$> seqZ 0 64.
Definition limb_bits (k : fe) : list Z :=
  word_bits (f3 k) ++ word_bits (f2 k) ++ word_bits (f1 k) ++ word_bits (f0 k).

Definition inv_exp : fe :=
  mkFe 0xFFFFFFFEFFFFFC2D 0xFFFFFFFFFFFFFFFF 0xFFFFFFFFFFFFFFFF 0xFFFFFFFFFFFFFFFF.
(** The body of the square-and-multiply loop. *)
Definition pow_step (a res : fe) (bit : Z) : fe :=
  let res := feSqr res in if bit =? 1 then feMul res a else res.
Definition feInv (a : fe) : fe := foldl (pow_step a) (mkFe 1 0 0 0) (limb_bits inv_exp).

Definition feIsZero (a : fe) : bool := Z.lor (Z.lor (Z.lor (f0 a) (f1 a)) (f2 a)) (f3 a) =? 0.

Definition feCSelect (choose : Z) (a b : fe) : fe :=
  let mask := u64 (0 - choose) in
  mkFe (Z.lor (Z.land (f0 a) mask) (andnot (f0 b) mask)) (Z.lor (Z.land (f1 a) mask) (andnot (f1 b) mask))
    (Z.lor (Z.land (f2 a) mask) (andnot (f2 b) mask)) (Z.lor (Z.land (f3 a) mask) (andnot (f3 b) mask)).

(** ** Projective points *)

Record jac : Type := mkJac { jX : fe; jY : fe; jZ : fe }.
Definition feB3 : fe := mkFe 21 0 0 0.

Definition completeAdd (p q : jac) : jac :=
  let X1 := jX p in let Y1 := jY p in let Z1 := jZ p in
  let X2 := jX q in let Y2 := jY q in let Z2 := jZ q in
  let t0 := feMul X1 X2 in
  let t1 := feMul Y1 Y2 in
  let t2 := feMul Z1 Z2 in
  let t3 := feAdd X1 Y1 in
  let t4 := feAdd X2 Y2 in
  let t3 := feMul t3 t4 in
  let t4 := feAdd t0 t1 in
  let t3 := feSub t3 t4 in
  let t4 := feAdd Y1 Z1 in
  let X3 := feAdd Y2 Z2 in
  let t4 := feMul t4 X3 in
  let X3 := feAdd t1 t2 in
  let t4 := feSub t4 X3 in
  let X3 := feAdd X1 Z1 in
  let Y3 := feAdd X2 Z2 in
  let X3 := feMul X3 Y3 in
  let Y3 := feAdd t0 t2 in
  let Y3 := feSub X3 Y3 in
  let X3 := feAdd t0 t0 in
  let t0 := feAdd X3 t0 in
  let t2 := feMul feB3 t2 in
  let Z3 := feAdd t1 t2 in
  let t1 := feSub t1 t2 in
  let Y3 := feMul feB3 Y3 in
  let X3 := feMul t4 Y3 in
  let t2 := feMul t3 t1 in
  let X3 := feSub t2 X3 in
  let Y3 := feMul Y3 t0 in
  let t1 := feMul t1 Z3 in
  let Y3 := feAdd t1 Y3 in
  let t0 := feMul t0 t3 in
  let Z3 := feMul Z3 t4 in
  let Z3 := feAdd Z3 t0 in
  mkJac X3 Y3 Z3.

Definition jacCSelect (choose : Z) (a b : jac) : jac :=
  mkJac (feCSelect choose (jX a) (jX b)) (feCSelect choose (jY a) (jY b)) (feCSelect choose (jZ a) (jZ b)).

Definition identity : jac := mkJac (mkFe 0 0 0 0) (mkFe 1 0 0 0) (mkFe 0 0 0 0).

(** One bit of the ladder: double, add always, masked select. *)
Definition ct_step (P R : jac) (b : Z) : jac :=
  let R := completeAdd R R in let T := completeAdd R P in jacCSelect b T R.
Definition scalarMultCT (kBits : fe) (P : jac) : jac := foldl (ct_step P) identity (limb_bits kBits).

Definition affineX (P : jac) : fe := let zi := feInv (jZ P) in feMul (jX P) zi.
Definition affineXY (P : jac) : fe * fe :=
  let zi := feInv (jZ P) in (feMul (jX P) zi, feMul (jY P) zi).

(** ** Values *)

Definition val (a : fe) : Z := f0 a + W * f1 a + W ^ 2 * f2 a + W ^ 3 * f3 a.
Definition limbs_ok (a : fe) : Prop := word (f0 a) /\ word (f1 a) /\ word (f2 a) /\ word (f3 a).
Definition reduced (a : fe) : Prop := limbs_ok a /\ val a < fe_p.

(** ** Lemmas: words *)

Lemma Add64_spec x y c : word x -> word y -> 0 <= c <= 1 ->
  exists s c', Add64 x y c = (s, c') /\ word s /\ 0 <= c' <= 1 /\ s + W * c' = x + y + c.
Proof.
  intros Hx Hy Hc. unfold Add64. eexists _, _. split; [reflexivity|]. unfold word, u64, wrap in *.
  change W with 18446744073709551616 in *. change (2 ^ 64) with 18446744073709551616.
  Z.div_mod_to_equations; lia.
Qed.

Lemma Sub64_spec x y b : word x -> word y -> 0 <= b <= 1 ->
  exists s b', Sub64 x y b = (s, b') /\ word s /\ 0 <= b' <= 1 /\ s - W * b' = x - y - b.
Proof.
  intros Hx Hy Hb. unfold Sub64. eexists _, _. split; [reflexivity|]. unfold word, u64, wrap in *.
  change W with 18446744073709551616 in *. change (2 ^ 64) with 18446744073709551616.
  destruct (x - y - b <? 0) eqn:E; zbool; Z.div_mod_to_equations; lia.
Qed.

Lemma Mul64_spec x y : word x -> word y ->
  exists hi lo, Mul64 x y = (hi, lo) /\ word hi /\ word lo /\ lo + W * hi = x * y
    /\ x * y <= (W - 1) * (W - 1).
Proof.
  intros Hx Hy. unfold Mul64. eexists _, _. split; [reflexivity|]. unfold word, u64, wrap in *.
  assert (0 <= x * y <= (W - 1) * (W - 1)) as Hb by nia.
  change (2 ^ 64) with W. pose proof (Z.div_mod (x * y) W ltac:(done)). pose proof (Z.mod_pos_bound (x * y) W eq_refl).
  split_and!; try lia; try nia.
Qed.

Lemma mask_select m x y : word x -> word y -> m = 0 \/ m = W - 1 ->
  Z.lor (Z.land x m) (andnot y m) = if m =? 0 then y else x.
Proof.
  intros Hx Hy [-> | ->]; unfold andnot.
  - rewrite Z.land_0_r, Z.lor_0_l, Z.lxor_0_l. change (W - 1) with (Z.ones 64).
    rewrite Z.land_ones by lia. by apply Z.mod_small.
  - rewrite Z.lxor_nilpotent, Z.land_0_r, Z.lor_0_r. change (W - 1) with (Z.ones 64).
    rewrite Z.land_ones by lia. by apply Z.mod_small.
Qed.

(** Linear arithmetic on limbs, with the powers of the word size evaluated. *)
Ltac limb_lia :=
  unfold reduced, limbs_ok, word, val in *; cbn [f0 f1 f2 f3] in *;
  change fe_p with 115792089237316195423570985008687907853269984665640564039457584007908834671663 in *;
  change feC with 4294968273 in *; change pl0 with 18446744069414583343 in *;
  change pl1 with 18446744073709551615 in *;
  change (W ^ 2) with 340282366920938463463374607431768211456 in *;
  change (W ^ 3) with 6277101735386680763835789423207666416102355444464034512896 in *;
  change W with 18446744073709551616 in *; lia.

Ltac limb_step :=
  match goal with
  | |- context [Add64 ?x ?y ?c] =>
      let s := fresh "s" in let c' := fresh "c" in let E := fresh "E" in
      destruct (Add64_spec x y c) as (s & c' & E & ? & ? & ?); [limb_lia..|]; rewrite E; clear E
  | |- context [Sub64 ?x ?y ?c] =>
      let s := fresh "s" in let c' := fresh "b" in let E := fresh "E" in
      destruct (Sub64_spec x y c) as (s & c' & E & ? & ? & ?); [limb_lia..|]; rewrite E; clear E
  end.

Lemma val_range a : limbs_ok a -> 0 <= val a < 2 ^ 256.
Proof.
  intros H. change (2 ^ 256) with 115792089237316195423570985008687907853269984665640564039457584007913129639936.
  limb_lia.
Qed.

Lemma feCondSubP_spec a : limbs_ok a -> reduced (feCondSubP a) /\ val (feCondSubP a) = val a mod fe_p.
Proof.
  intros H. unfold feCondSubP. repeat limb_step.
  assert (b2 = 0 \/ b2 = 1) as [-> | ->] by lia.
  - change (u64 (0 - 1)) with (W - 1). rewrite !mask_select by (limb_lia || auto). cbn [Z.eqb].
    change (W - 1 =? 0) with false. cbn iota. rewrite (Z.mod_eq _ fe_p) by done.
    replace (val a / fe_p) with 1; [limb_lia|]. apply Z.div_unique with (val a - fe_p); limb_lia.
  - change (u64 (1 - 1)) with 0. rewrite !mask_select by (limb_lia || auto). change (0 =? 0) with true. cbn iota.
    rewrite Z.mod_small; limb_lia.
Qed.

(** Folding a small carry keeps the value modulo [p]. *)
Lemma fold_carry_spec r c : limbs_ok r -> 0 <= c <= 1 ->
  exists r' c', fold_carry r c = (r', c') /\ limbs_ok r' /\ 0 <= c' <= 1
    /\ val r' + 2 ^ 256 * c' = val r + feC * c.
Proof.
  intros Hr Hc. unfold fold_carry.
  assert (u64 (c * feC) = feC * c) as -> by (rewrite u64_small; unfold feC; lia).
  assert (word (feC * c)) by limb_lia.
  repeat limb_step. eexists _, _. split; [reflexivity|].
  change (2 ^ 256) with 115792089237316195423570985008687907853269984665640564039457584007913129639936.
  split_and!; limb_lia.
Qed.

(** Folding twice leaves no carry when the carried value is below [2^256 + k]
    with [k] small. *)
Lemma mod_p_fold x c : (x + 2 ^ 256 * c) mod fe_p = (x + feC * c) mod fe_p.
Proof.
  replace (x + 2 ^ 256 * c) with (x + feC * c + c * fe_p) by (unfold fe_p, feC; lia).
  apply Z_mod_plus_full.
Qed.

Lemma feAdd_spec a b : limbs_ok a -> limbs_ok b ->
  reduced (feAdd a b) /\ val (feAdd a b) = (val a + val b) mod fe_p.
Proof.
  intros Ha Hb. unfold feAdd. repeat limb_step.
  destruct (fold_carry_spec (mkFe s s0 s1 s2) c2) as (r & c3 & -> & Hr & Hc3 & Er); [limb_lia|limb_lia|].
  destruct (fold_carry_spec r c3) as (r' & c4 & -> & Hr' & Hc4 & Er'); [done|done|].
  pose proof (val_range r Hr). pose proof (val_range r' Hr').
  assert (val (mkFe s s0 s1 s2) + 2 ^ 256 * c2 = val a + val b) as Esum.
  { change (2 ^ 256) with 115792089237316195423570985008687907853269984665640564039457584007913129639936. limb_lia. }
  pose proof (val_range a Ha). pose proof (val_range b Hb).
  assert (c4 = 0) as ->.
  { unfold feC in *. assert (c4 = 0 \/ c4 = 1) as [|] by lia; [done|]. exfalso.
    pose proof (val_range (mkFe s s0 s1 s2) ltac:(limb_lia)). lia. }
  destruct (feCondSubP_spec r' Hr') as [Hred Hval]. split; [done|]. rewrite Hval, <- Esum.
  rewrite mod_p_fold, <- Er, mod_p_fold. f_equal. lia.
Qed.

Lemma feSub_spec a b : reduced a -> reduced b ->
  reduced (feSub a b) /\ val (feSub a b) = (val a - val b) mod fe_p.
Proof.
  intros Ha Hb. unfold feSub. do 4 limb_step.
  assert (b3 = 0 \/ b3 = 1) as [-> | ->] by lia.
  - change (u64 (0 - 0)) with 0. rewrite !Z.land_0_r. repeat limb_step.
    rewrite Z.mod_small; limb_lia.
  - change (u64 (0 - 1)) with (Z.ones 64). rewrite !Z.land_ones by lia.
    change (pl0 mod 2 ^ 64) with pl0. change (pl1 mod 2 ^ 64) with pl1. repeat limb_step.
    replace ((val a - val b) mod fe_p) with (val a - val b + fe_p); [limb_lia|].
    apply Z.mod_unique with (-1); limb_lia.
Qed.

Lemma mul_step_spec a b carry : word a -> word b -> word carry ->
  exists s c, mul_step a b carry = (s, c) /\ word s /\ word c /\ s + W * c = a * b + carry.
Proof.
  intros Ha Hb Hc. unfold mul_step. destruct (Mul64_spec a b Ha Hb) as (hi & lo & -> & Hhi & Hlo & E & Hm).
  limb_step. eexists _, _. split; [reflexivity|].
  assert (u64 (hi + c) = hi + c) as -> by (apply u64_small; change (2 ^ 64) with W; limb_lia).
  split_and!; limb_lia.
Qed.

Lemma mac_spec t a b carry : word t -> word a -> word b -> word carry ->
  exists s c, mac t a b carry = (s, c) /\ word s /\ word c /\ s + W * c = t + a * b + carry.
Proof.
  intros Ht Ha Hb Hc. unfold mac. destruct (Mul64_spec a b Ha Hb) as (hi & lo & -> & Hhi & Hlo & E & Hm).
  limb_step. limb_step. eexists _, _. split; [reflexivity|].
  assert (u64 (hi + c) = hi + c) as -> by (apply u64_small; change (2 ^ 64) with W; limb_lia).
  assert (u64 (hi + c + c0) = hi + c + c0) as -> by (apply u64_small; change (2 ^ 64) with W; limb_lia).
  split_and!; limb_lia.
Qed.

Lemma mul256by64_spec a b : limbs_ok a -> word b ->
  exists m m4, mul256by64 a b = (m, m4) /\ limbs_ok m /\ word m4 /\ val m + 2 ^ 256 * m4 = val a * b.
Proof.
  intros (H0 & H1 & H2 & H3) Hb. unfold mul256by64.
  destruct (mul_step_spec (f0 a) b 0) as (m0 & k0 & -> & ? & ? & E0); [done|done|done|].
  destruct (mul_step_spec (f1 a) b k0) as (m1 & k1 & -> & ? & ? & E1); [done..|].
  destruct (mul_step_spec (f2 a) b k1) as (m2 & k2 & -> & ? & ? & E2); [done..|].
  destruct (mul_step_spec (f3 a) b k2) as (m3 & k3 & -> & ? & ? & E3); [done..|].
  eexists _, _. split; [reflexivity|]. split_and!; [done|done|].
  replace (2 ^ 256) with (W ^ 4) by done. unfold val. simpl.
  replace (m3) with (f3 a * b + k2 - W * k3) by lia. replace m2 with (f2 a * b + k1 - W * k2) by lia.
  replace m1 with (f1 a * b + k0 - W * k1) by lia. replace m0 with (f0 a * b - W * k0) by lia. ring.
Qed.

Lemma mul_row_spec ai b t0 t1 t2 t3 : word ai -> limbs_ok b -> word t0 -> word t1 -> word t2 -> word t3 ->
  exists r0 r1 r2 r3 r4, mul_row ai b t0 t1 t2 t3 0 = (r0, r1, r2, r3, r4)
    /\ word r0 /\ word r1 /\ word r2 /\ word r3 /\ word r4
    /\ r0 + W * r1 + W ^ 2 * r2 + W ^ 3 * r3 + W ^ 4 * r4
       = t0 + W * t1 + W ^ 2 * t2 + W ^ 3 * t3 + ai * val b.
Proof.
  intros Ha (B0 & B1 & B2 & B3) H0 H1 H2 H3. unfold mul_row.
  destruct (mac_spec t0 ai (f0 b) 0) as (r0 & k0 & -> & ? & ? & E0); [done..|].
  destruct (mac_spec t1 ai (f1 b) k0) as (r1 & k1 & -> & ? & ? & E1); [done..|].
  destruct (mac_spec t2 ai (f2 b) k1) as (r2 & k2 & -> & ? & ? & E2); [done..|].
  destruct (mac_spec t3 ai (f3 b) k2) as (r3 & k3 & -> & ? & Hk & E3); [done..|].
  rewrite Z.add_0_l, (u64_small k3) by exact Hk.
  eexists _, _, _, _, _. split; [reflexivity|]. split_and!; [done..|]. unfold val.
  replace r3 with (t3 + ai * f3 b + k2 - W * k3) by lia. replace r2 with (t2 + ai * f2 b + k1 - W * k2) by lia.
  replace r1 with (t1 + ai * f1 b + k0 - W * k1) by lia. replace r0 with (t0 + ai * f0 b - W * k0) by lia. ring.
Qed.

Lemma mul_wide_spec a b : limbs_ok a -> limbs_ok b ->
  exists lo hi, mul_wide a b = (lo, hi) /\ limbs_ok lo /\ limbs_ok hi
    /\ val lo + 2 ^ 256 * val hi = val a * val b.
Proof.
  intros (A0 & A1 & A2 & A3) Hb. unfold mul_wide.
  destruct (mul_row_spec (f0 a) b 0 0 0 0) as (t0 & t1 & t2 & t3 & t4 & -> & ? & ? & ? & ? & ? & E0); [done..|].
  destruct (mul_row_spec (f1 a) b t1 t2 t3 t4) as (u1 & u2 & u3 & u4 & u5 & -> & ? & ? & ? & ? & ? & E1); [done..|].
  destruct (mul_row_spec (f2 a) b u2 u3 u4 u5) as (v2 & v3 & v4 & v5 & v6 & -> & ? & ? & ? & ? & ? & E2); [done..|].
  destruct (mul_row_spec (f3 a) b v3 v4 v5 v6) as (w3 & w4 & w5 & w6 & w7 & -> & ? & ? & ? & ? & ? & E3); [done..|].
  eexists _, _. split; [reflexivity|]. split_and!; [done..|].
  replace (2 ^ 256) with (W ^ 4) by done. unfold val at 1 2 3. simpl.
  transitivity (f0 a * val b + W * (f1 a * val b) + W ^ 2 * (f2 a * val b) + W ^ 3 * (f3 a * val b)); [|ring].
  replace (f0 a * val b) with (t0 + W * t1 + W ^ 2 * t2 + W ^ 3 * t3 + W ^ 4 * t4) by lia.
  replace (f1 a * val b) with (u1 + W * u2 + W ^ 2 * u3 + W ^ 3 * u4 + W ^ 4 * u5
    - (t1 + W * t2 + W ^ 2 * t3 + W ^ 3 * t4)) by lia.
  replace (f2 a * val b) with (v2 + W * v3 + W ^ 2 * v4 + W ^ 3 * v5 + W ^ 4 * v6
    - (u2 + W * u3 + W ^ 2 * u4 + W ^ 3 * u5)) by lia.
  replace (f3 a * val b) with (w3 + W * w4 + W ^ 2 * w5 + W ^ 3 * w6 + W ^ 4 * w7
    - (v3 + W * v4 + W ^ 2 * v5 + W ^ 3 * v6)) by lia. ring.
Qed.

Lemma reduce_wide_spec lo hi : limbs_ok lo -> limbs_ok hi ->
  reduced (reduce_wide lo hi) /\ val (reduce_wide lo hi) = (val lo + 2 ^ 256 * val hi) mod fe_p.
Proof.
  intros Hlo Hhi. unfold reduce_wide.
  destruct (mul256by64_spec hi feC) as (m & m4 & -> & Hm & Hm4 & Em); [done|done|].
  pose proof (val_range hi Hhi). pose proof (val_range m Hm). pose proof (val_range lo Hlo).
  change (2 ^ 256) with 115792089237316195423570985008687907853269984665640564039457584007913129639936 in *.
  assert (m4 <= 4294968273) by (unfold feC in Em; lia).
  do 4 limb_step.
  assert (u64 (m4 + c2) = m4 + c2) as -> by (apply u64_small; change (2 ^ 64) with W; limb_lia).
  destruct (Mul64_spec (m4 + c2) feC) as (h4 & l4 & -> & Hh4 & Hl4 & E4 & _); [limb_lia|done|].
  assert ((m4 + c2) * feC <= 4294968274 * 4294968273) by (unfold feC; nia).
  do 4 limb_step.
  destruct (fold_carry_spec (mkFe s3 s4 s5 s6) c6) as (r & c7 & -> & Hr & Hc7 & Er); [limb_lia|limb_lia|].
  pose proof (val_range r Hr).
  change (2 ^ 256) with 115792089237316195423570985008687907853269984665640564039457584007913129639936 in *.
  assert (c7 = 0) as -> by limb_lia.
  destruct (feCondSubP_spec r Hr) as [Hred Hval]. split; [done|]. rewrite Hval.
  replace (val r) with (val (mkFe s3 s4 s5 s6) + feC * c6) by lia. rewrite <- mod_p_fold.
  replace (val (mkFe s3 s4 s5 s6) + 2 ^ 256 * c6) with (val (mkFe s s0 s1 s2) + feC * (m4 + c2)).
  2: { change (2 ^ 256) with 115792089237316195423570985008687907853269984665640564039457584007913129639936. limb_lia. }
  rewrite <- mod_p_fold.
  replace (val (mkFe s s0 s1 s2) + 2 ^ 256 * (m4 + c2)) with (val lo + feC * val hi).
  2: { change (2 ^ 256) with 115792089237316195423570985008687907853269984665640564039457584007913129639936. limb_lia. }
  rewrite <- mod_p_fold. done.
Qed.

Lemma feMul_spec a b : limbs_ok a -> limbs_ok b ->
  reduced (feMul a b) /\ val (feMul a b) = (val a * val b) mod fe_p.
Proof.
  intros Ha Hb. unfold feMul. destruct (mul_wide_spec a b Ha Hb) as (lo & hi & -> & Hlo & Hhi & E).
  rewrite <- E. by apply reduce_wide_spec.
Qed.

(** ** Congruence modulo [p] *)

Definition eqp (x y : Z) : Prop := x mod fe_p = y mod fe_p.
#[global] Instance eqp_equiv : Equivalence eqp.
Proof. split; unfold eqp; [by intros ?|by intros ?|by intros ??? -> ->]. Qed.
#[global] Instance eqp_add : Proper (eqp ==> eqp ==> eqp) Z.add.
Proof. intros a b H c d G. unfold eqp in *. by rewrite Z.add_mod, H, G, <- Z.add_mod. Qed.
#[global] Instance eqp_sub : Proper (eqp ==> eqp ==> eqp) Z.sub.
Proof. intros a b H c d G. unfold eqp in *. by rewrite Zminus_mod, H, G, <- Zminus_mod. Qed.
#[global] Instance eqp_mul : Proper (eqp ==> eqp ==> eqp) Z.mul.
Proof. intros a b H c d G. unfold eqp in *. by rewrite Z.mul_mod, H, G, <- Z.mul_mod. Qed.

Lemma reduced_limbs a : reduced a -> limbs_ok a.
Proof. by intros [? _]. Qed.
Lemma feAdd_red a b : reduced a -> reduced b -> reduced (feAdd a b).
Proof. intros Ha Hb. by apply feAdd_spec; apply reduced_limbs. Qed.
Lemma feSub_red a b : reduced a -> reduced b -> reduced (feSub a b).
Proof. intros Ha Hb. by apply feSub_spec. Qed.
Lemma feMul_red a b : reduced a -> reduced b -> reduced (feMul a b).
Proof. intros Ha Hb. by apply feMul_spec; apply reduced_limbs. Qed.
Lemma feAdd_eqp a b : reduced a -> reduced b -> eqp (val (feAdd a b)) (val a + val b).
Proof. intros Ha Hb. unfold eqp. rewrite (proj2 (feAdd_spec a b (reduced_limbs _ Ha) (reduced_limbs _ Hb))). apply Zmod_mod. Qed.
Lemma feSub_eqp a b : reduced a -> reduced b -> eqp (val (feSub a b)) (val a - val b).
Proof. intros Ha Hb. unfold eqp. rewrite (proj2 (feSub_spec a b Ha Hb)). apply Zmod_mod. Qed.
Lemma feMul_eqp a b : reduced a -> reduced b -> eqp (val (feMul a b)) (val a * val b).
Proof. intros Ha Hb. unfold eqp. rewrite (proj2 (feMul_spec a b (reduced_limbs _ Ha) (reduced_limbs _ Hb))). apply Zmod_mod. Qed.

#[global] Opaque feAdd feSub feMul.

Create HintDb fe.
#[export] Hint Resolve feAdd_red feSub_red feMul_red reduced_limbs : fe.

Lemma reduced_small z : word z -> z < fe_p -> reduced (mkFe z 0 0 0).
Proof. intros. limb_lia. Qed.
Lemma feB3_red : reduced feB3.
Proof. apply reduced_small; limb_lia. Qed.
Lemma fe1_red : reduced (mkFe 1 0 0 0).
Proof. apply reduced_small; limb_lia. Qed.
Lemma fe0_red : reduced (mkFe 0 0 0 0).
Proof. apply reduced_small; limb_lia. Qed.
#[export] Hint Resolve feB3_red fe1_red fe0_red : fe.

(** ** Bits and powers *)

Definition bits_val (e : Z) (l : list Z) : Z := foldl (fun e b => 2 * e + b) e l.

Lemma land_1 x : Z.land x 1 = x mod 2.
Proof. change 1 with (Z.ones 1). by rewrite Z.land_ones. Qed.

Lemma top_bits_prefix (N : Z) (n : nat) e w : Z.of_nat n <= N -> 0 <= w < 2 ^ N ->
  bits_val e ((fun i => Z.land (Z.shiftr w (N - 1 - i)) 1) <$> seqZ 0 (Z.of_nat n))
  = e * 2 ^ Z.of_nat n + w / 2 ^ (N - Z.of_nat n).
Proof.
  intros Hn Hw. induction n as [|n IH].
  - rewrite Z.sub_0_r, Z.div_small by exact Hw. simpl. lia.
  - rewrite Nat2Z.inj_succ, <- Z.add_1_r, seqZ_app, fmap_app by lia. unfold bits_val in *.
    rewrite foldl_app, IH by lia. change (seqZ (0 + Z.of_nat n) 1) with [0 + Z.of_nat n].
    cbn [fmap list_fmap foldl]. rewrite land_1, Z.shiftr_div_pow2 by lia.
    replace (N - Z.of_nat n) with (N - (Z.of_nat n + 1) + 1) by lia.
    rewrite (Z.pow_add_r 2 (N - (Z.of_nat n + 1))) by lia.
    rewrite <- Z.div_div by (try apply Z.pow_nonzero; lia).
    replace (N - 1 - (0 + Z.of_nat n)) with (N - (Z.of_nat n + 1)) by lia.
    set (q := w / 2 ^ (N - (Z.of_nat n + 1))). rewrite Z.pow_add_r by lia. change (2 ^ 1) with 2.
    pose proof (Z.div_mod q 2 ltac:(lia)). lia.
Qed.

Lemma word_bits_val e w : word w -> bits_val e (word_bits w) = e * W + w.
Proof.
  intros Hw. unfold word_bits. change 63 with (64 - 1). change (seqZ 0 64) with (seqZ 0 (Z.of_nat 64)).
  rewrite (top_bits_prefix 64 64 e w ltac:(lia) Hw). change (2 ^ (64 - Z.of_nat 64)) with 1. by rewrite Z.div_1_r.
Qed.

(** A list of bits is determined by its length and its value. *)
Lemma bits_val_shift e l : bits_val e l = e * 2 ^ Z.of_nat (length l) + bits_val 0 l.
Proof.
  revert e. induction l as [|b l IH]; intros e; [simpl; lia|].
  change (bits_val e (b :: l)) with (bits_val (2 * e + b) l). change (bits_val 0 (b :: l)) with (bits_val (2 * 0 + b) l).
  rewrite (IH (2 * e + b)), (IH (2 * 0 + b)). cbn [length]. rewrite Nat2Z.inj_succ, Z.pow_succ_r by lia. ring.
Qed.

Lemma bits_val_range l : Forall (fun b => b = 0 \/ b = 1) l -> 0 <= bits_val 0 l < 2 ^ Z.of_nat (length l).
Proof.
  induction 1 as [|b l Hb _ IH]; [simpl; lia|].
  change (bits_val 0 (b :: l)) with (bits_val (2 * 0 + b) l). rewrite bits_val_shift.
  cbn [length]. rewrite Nat2Z.inj_succ, Z.pow_succ_r by lia. destruct Hb as [-> | ->]; lia.
Qed.

Lemma bits_val_inj l1 l2 :
  Forall (fun b => b = 0 \/ b = 1) l1 -> Forall (fun b => b = 0 \/ b = 1) l2 ->
  length l1 = length l2 -> bits_val 0 l1 = bits_val 0 l2 -> l1 = l2.
Proof.
  intros H1. revert l2. induction H1 as [|b l Hb Hl IH]; intros [|c m] H2 Hlen E; try done.
  inversion H2 as [|?? Hc Hm]; subst. simpl in Hlen.
  change (bits_val 0 (b :: l)) with (bits_val (2 * 0 + b) l) in E.
  change (bits_val 0 (c :: m)) with (bits_val (2 * 0 + c) m) in E.
  rewrite (bits_val_shift _ l), (bits_val_shift _ m) in E.
  pose proof (bits_val_range l Hl) as R1. pose proof (bits_val_range m Hm) as R2.
  injection Hlen as Hlen. rewrite Hlen in *.
  assert (b = c) as -> by (destruct Hb as [-> | ->], Hc as [-> | ->]; lia). f_equal. apply IH; [done|done|lia].
Qed.

Lemma bits_val_app e l1 l2 : bits_val e (l1 ++ l2) = bits_val (bits_val e l1) l2.
Proof. apply foldl_app. Qed.

Lemma limb_bits_val k : limbs_ok k -> bits_val 0 (limb_bits k) = val k.
Proof.
  intros (H0 & H1 & H2 & H3). unfold limb_bits. rewrite !bits_val_app, !word_bits_val by done.
  unfold val. ring.
Qed.

Lemma word_bits_01 w b : b ∈ word_bits w -> b = 0 \/ b = 1.
Proof.
  unfold word_bits. intros Hb. apply list_elem_of_fmap in Hb as (i & -> & _). rewrite land_1.
  pose proof (Z.mod_pos_bound (Z.shiftr w (63 - i)) 2). lia.
Qed.
Lemma limb_bits_01 k : Forall (fun b => b = 0 \/ b = 1) (limb_bits k).
Proof.
  apply Forall_forall. intros b Hb. unfold limb_bits in Hb. rewrite !elem_of_app in Hb.
  destruct Hb as [Hb|[Hb|[Hb|Hb]]]; by apply word_bits_01 in Hb.
Qed.

(** Square-and-multiply over a list of bits. *)
Lemma pow_loop a l res e : reduced a -> reduced res -> 0 <= e ->
  Forall (fun b => b = 0 \/ b = 1) l -> eqp (val res) (val a ^ e) ->
  reduced (foldl (pow_step a) res l) /\ eqp (val (foldl (pow_step a) res l)) (val a ^ bits_val e l).
Proof.
  intros Ha. revert res e. induction l as [|b l IH]; intros res e Hr He Hl Heq; [done|].
  inversion Hl as [|?? Hb Hl']; subst. cbn [foldl]. unfold pow_step at 2 4, feSqr. cbv zeta.
  assert (reduced (feMul res res)) as Hsr by auto with fe.
  assert (eqp (val (feMul res res)) (val a ^ (2 * e))) as Hsq.
  { rewrite (feMul_eqp res res Hr Hr), Heq. replace (2 * e) with (e + e) by lia. by rewrite Z.pow_add_r by lia. }
  change (bits_val e (b :: l)) with (bits_val (2 * e + b) l).
  destruct Hb as [-> | ->]; cbn [Z.eqb Pos.eqb].
  - apply IH; [done|lia|done|]. by replace (2 * e + 0) with (2 * e) by lia.
  - apply IH; [auto with fe|lia|done|].
    rewrite (feMul_eqp (feMul res res) a Hsr Ha), Hsq. by rewrite Z.pow_add_r, Z.pow_1_r by lia.
Qed.

Lemma feInv_spec a : reduced a -> reduced (feInv a) /\ val (feInv a) = val a ^ (fe_p - 2) mod fe_p.
Proof.
  intros Ha. pose proof (pow_loop a (limb_bits inv_exp) (mkFe 1 0 0 0) 0 Ha fe1_red ltac:(lia)
    (limb_bits_01 _) (reflexivity _)) as HH.
  unfold feInv. revert HH. generalize (foldl (pow_step a) (mkFe 1 0 0 0) (limb_bits inv_exp)).
  intros out [Hr He].
  rewrite limb_bits_val in He by (repeat split; vm_compute; congruence).
  assert (val inv_exp = fe_p - 2) as Hexp by reflexivity. rewrite Hexp in He.
  split; [exact Hr|]. unfold eqp in He. rewrite <- He. symmetry. apply Z.mod_small.
  destruct Hr as [Hl Hp]. split; [by apply val_range|exact Hp].
Qed.
#[global] Opaque feInv.

(** ** Conversions *)

Lemma be_Z_word w : word w -> be_Z (be_bytes 8 w) = w.
Proof. intros Hw. rewrite be_Z_bytes. change (256 ^ Z.of_nat 8) with W. by apply Z.mod_small. Qed.

Lemma fe_big_val a : limbs_ok a -> fe_big a = val a.
Proof.
  intros (H0 & H1 & H2 & H3). unfold fe_big. rewrite !be_Z_app, !length_app, !length_be_bytes, !be_Z_word by done.
  change (256 ^ Z.of_nat 8) with W. change (256 ^ Z.of_nat (8 + 8)) with (W ^ 2).
  change (256 ^ Z.of_nat (8 + (8 + 8))) with (W ^ 3). unfold val. ring.
Qed.

Lemma feFromBig_spec x : 0 <= x < 2 ^ 256 -> exists f, feFromBig x = Ok f /\ limbs_ok f /\ val f = x.
Proof.
  intros Hx. unfold feFromBig. rewrite (proj2 (Z.leb_gt _ _)) by lia. cbv zeta. eexists. split; [reflexivity|].
  assert (forall n, word (be_Z (take 8 (drop n (be_bytes 32 x))))) as Hw.
  { intros n. pose proof (be_Z_range (take 8 (drop n (be_bytes 32 x)))) as Hr. unfold word, W.
    split; [lia|]. eapply Z.lt_le_trans; [apply Hr|]. change (2 ^ 64) with (256 ^ 8).
    apply Z.pow_le_mono_r; [lia|]. rewrite length_take. lia. }
  split; [split_and!; [apply Hw..|apply (Hw 0%nat)]|].
  assert (be_Z (be_bytes 32 x) = x) as Ex by (rewrite be_Z_bytes; by apply Z.mod_small).
  set (b := be_bytes 32 x) in *. assert (length b = 32%nat) as Hl by (unfold b; apply length_be_bytes).
  rewrite <- Ex at 1. rewrite <- (take_drop 8 b) at 5. rewrite <- (take_drop 8 (drop 8 b)) at 2.
  rewrite drop_drop. change (8 + 8)%nat with 16%nat. rewrite <- (take_drop 8 (drop 16 b)) at 2.
  rewrite drop_drop. change (16 + 8)%nat with 24%nat.
  rewrite !be_Z_app, !length_app, !length_take, !length_drop, !Hl. unfold val. cbn [f0 f1 f2 f3].
  rewrite (take_ge (drop 24 b)) by (rewrite length_drop; lia).
  change (256 ^ Z.of_nat (8 `min` (32 - 8) + (8 `min` (32 - 16) + (32 - 24)))) with (W ^ 3).
  change (256 ^ Z.of_nat (8 `min` (32 - 16) + (32 - 24))) with (W ^ 2).
  change (256 ^ Z.of_nat (32 - 24)) with W. ring.
Qed.

(** ** Points *)

Definition jac_red (p : jac) : Prop := reduced (jX p) /\ reduced (jY p) /\ reduced (jZ p).

(** The complete addition polynomials for [y^2 z = x^3 + b z^3], [b3 = 3 b]. *)
Definition rcb_X (b3 x1 y1 z1 x2 y2 z2 : Z) : Z :=
  (x1 * y2 + x2 * y1) * (y1 * y2 - b3 * (z1 * z2))
  - b3 * ((y1 * z2 + y2 * z1) * (x1 * z2 + x2 * z1)).
Definition rcb_Y (b3 x1 y1 z1 x2 y2 z2 : Z) : Z :=
  (y1 * y2 + b3 * (z1 * z2)) * (y1 * y2 - b3 * (z1 * z2))
  + 3 * b3 * (x1 * x2 * (x1 * z2 + x2 * z1)).
Definition rcb_Z (b3 x1 y1 z1 x2 y2 z2 : Z) : Z :=
  (y1 * z2 + y2 * z1) * (y1 * y2 + b3 * (z1 * z2)) + 3 * (x1 * x2 * (x1 * y2 + x2 * y1)).

(** Rewrites the value of a field expression to its integer polynomial. *)
Ltac fe_eval :=
  repeat first [rewrite feAdd_eqp by auto 12 with fe | rewrite feSub_eqp by auto 12 with fe
               | rewrite feMul_eqp by auto 12 with fe].

Lemma completeAdd_spec p q : jac_red p -> jac_red q ->
  jac_red (completeAdd p q)
  /\ eqp (val (jX (completeAdd p q)))
       (rcb_X 21 (val (jX p)) (val (jY p)) (val (jZ p)) (val (jX q)) (val (jY q)) (val (jZ q)))
  /\ eqp (val (jY (completeAdd p q)))
       (rcb_Y 21 (val (jX p)) (val (jY p)) (val (jZ p)) (val (jX q)) (val (jY q)) (val (jZ q)))
  /\ eqp (val (jZ (completeAdd p q)))
       (rcb_Z 21 (val (jX p)) (val (jY p)) (val (jZ p)) (val (jX q)) (val (jY q)) (val (jZ q))).
Proof.
  destruct p as [X1 Y1 Z1], q as [X2 Y2 Z2]. unfold jac_red. cbn [jX jY jZ].
  intros (HX1 & HY1 & HZ1) (HX2 & HY2 & HZ2). unfold completeAdd. cbv zeta. cbn [jX jY jZ].
  assert (eqp (val feB3) 21) as HB by done.
  split; [split_and!; auto 12 with fe|].
  split_and!; unfold rcb_X, rcb_Y, rcb_Z; fe_eval; rewrite ?HB; (match goal with |- eqp ?a ?b => replace a with b by ring end; reflexivity).
Qed.
#[global] Opaque completeAdd.

Lemma feCSelect_spec choose a b : limbs_ok a -> limbs_ok b -> choose = 0 \/ choose = 1 ->
  feCSelect choose a b = if choose =? 1 then a else b.
Proof.
  intros (A0 & A1 & A2 & A3) (B0 & B1 & B2 & B3) [-> | ->]; unfold feCSelect; cbv zeta.
  - change (u64 (0 - 0)) with 0. rewrite !mask_select by auto. by destruct b.
  - change (u64 (0 - 1)) with (W - 1). rewrite !mask_select by auto. by destruct a.
Qed.

Lemma jacCSelect_spec choose a b : jac_red a -> jac_red b -> choose = 0 \/ choose = 1 ->
  jacCSelect choose a b = if choose =? 1 then a else b.
Proof.
  intros (A0 & A1 & A2) (B0 & B1 & B2) Hc. unfold jacCSelect.
  rewrite !feCSelect_spec by auto with fe. destruct (choose =? 1); [by destruct a|by destruct b].
Qed.

Lemma identity_red : jac_red identity.
Proof. split_and!; auto with fe. Qed.

Lemma top_bits_01 (N : Z) k l : Forall (fun b => b = 0 \/ b = 1) ((fun i => Z.land (Z.shiftr k (N - 1 - i)) 1) <$> l).
Proof.
  apply Forall_forall. intros b Hb. apply list_elem_of_fmap in Hb as (i & -> & _). rewrite land_1.
  pose proof (Z.mod_pos_bound (Z.shiftr k (N - 1 - i)) 2). lia.
Qed.

(** The limbs' bits are the bits of the value, from the top. *)
Lemma limb_bits_top k : limbs_ok k ->
  limb_bits k = (fun i => Z.land (Z.shiftr (val k) (Z.of_nat 256 - 1 - i)) 1) <$> seqZ 0 (Z.of_nat 256).
Proof.
  intros Hk. apply bits_val_inj; [apply limb_bits_01|apply top_bits_01| |].
  - rewrite length_fmap, length_seqZ. unfold limb_bits, word_bits. rewrite !length_app, !length_fmap, !length_seqZ. done.
  - rewrite limb_bits_val by done. rewrite (top_bits_prefix (Z.of_nat 256) 256 0 (val k)).
    + rewrite Z.sub_diag. change (2 ^ 0) with 1. by rewrite Z.div_1_r.
    + done.
    + by apply val_range.
Qed.

(** Double-and-add with a branch on the bit. *)
Definition ladder_step (P R : jac) (b : Z) : jac :=
  let R := completeAdd R R in if b =? 1 then completeAdd R P else R.
Definition double_and_add (k : Z) (n : nat) (P : jac) : jac :=
  foldl (ladder_step P) identity ((fun i => Z.land (Z.shiftr k (Z.of_nat n - 1 - i)) 1) <$> seqZ 0 (Z.of_nat n)).

Lemma ladder_eq P l R : jac_red P -> jac_red R -> Forall (fun b => b = 0 \/ b = 1) l ->
  foldl (ct_step P) R l
  = foldl (ladder_step P) R l /\ jac_red (foldl (ladder_step P) R l).
Proof.
  intros HP. revert R. induction l as [|b l IH]; intros R HR Hl; [done|].
  inversion Hl as [|?? Hb Hl']; subst. cbn [foldl]. unfold ct_step at 2, ladder_step at 2 4. cbv zeta.
  destruct (completeAdd_spec R R HR HR) as [HRR _]. destruct (completeAdd_spec _ P HRR HP) as [HT _].
  rewrite jacCSelect_spec by done. destruct (b =? 1); by apply IH.
Qed.

(** ** Properties *)

(** C27: field arithmetic.  For all reduced elements the limb operations return
    reduced elements whose values are the sum, difference and product modulo
    [p]; inversion returns the power [p - 2]; conversion from and to integers
    is exact. *)
Theorem field_ops_correct (a b : fe) :
  reduced a -> reduced b ->
  (reduced (feAdd a b) /\ fe_big (feAdd a b) = (fe_big a + fe_big b) mod fe_p)
  /\ (reduced (feSub a b) /\ fe_big (feSub a b) = (fe_big a - fe_big b) mod fe_p)
  /\ (reduced (feMul a b) /\ fe_big (feMul a b) = (fe_big a * fe_big b) mod fe_p)
  /\ (reduced (feInv a) /\ fe_big (feInv a) = fe_big a ^ (fe_p - 2) mod fe_p)
  /\ feFromBig (fe_big a) = Ok a.
Proof.
  intros Ha Hb. pose proof (reduced_limbs a Ha) as La. pose proof (reduced_limbs b Hb) as Lb.
  rewrite (fe_big_val a La), (fe_big_val b Lb).
  destruct (feAdd_spec a b La Lb) as [R1 V1]. destruct (feSub_spec a b Ha Hb) as [R2 V2].
  destruct (feMul_spec a b La Lb) as [R3 V3]. destruct (feInv_spec a Ha) as [R4 V4].
  rewrite (fe_big_val _ (reduced_limbs _ R1)), (fe_big_val _ (reduced_limbs _ R2)),
    (fe_big_val _ (reduced_limbs _ R3)), (fe_big_val _ (reduced_limbs _ R4)).
  split; [exact (conj R1 V1)|]. split; [exact (conj R2 V2)|]. split; [exact (conj R3 V3)|].
  split; [exact (conj R4 V4)|].
  destruct (feFromBig_spec (val a) (val_range a La)) as (f & -> & Lf & Vf). f_equal.
  destruct a as [a0 a1 a2 a3], f as [g0 g1 g2 g3]. clear -La Lf Vf.
  assert (g3 = a3) by limb_lia. assert (g2 = a2) by limb_lia. assert (g1 = a1) by limb_lia.
  assert (g0 = a0) by limb_lia. by subst.
Qed.

(** C28: the constant-time ladder computes double-and-add.  On reduced inputs the
    masked selects choose exactly what a branch on the scalar's bits would,
    over the 256 bits of the scalar's value from the top. *)
Theorem ladder_is_double_and_add (k : fe) (P : jac) :
  limbs_ok k -> jac_red P ->
  scalarMultCT k P = double_and_add (fe_big k) 256 P /\ jac_red (scalarMultCT k P).
Proof.
  intros Hk HP. unfold scalarMultCT. destruct (ladder_eq P (limb_bits k) identity HP identity_red (limb_bits_01 k)) as [-> Hr].
  split; [|exact Hr]. unfold double_and_add. f_equal. rewrite (fe_big_val k Hk). by apply limb_bits_top.
Qed.

(** [completeAdd] evaluates the Renes-Costello-Batina complete addition
    polynomials of the curve [y^2 z = x^3 + 7 z^3] modulo [p], for every pair
    of reduced points and without exceptional cases. *)
Theorem complete_add_polynomials (P Q : jac) :
  jac_red P -> jac_red Q ->
  let R := completeAdd P Q in
  let at_ (f : Z -> Z -> Z -> Z -> Z -> Z -> Z -> Z) :=
    f 21 (fe_big (jX P)) (fe_big (jY P)) (fe_big (jZ P)) (fe_big (jX Q)) (fe_big (jY Q)) (fe_big (jZ Q)) mod fe_p in
  jac_red R /\ fe_big (jX R) = at_ rcb_X /\ fe_big (jY R) = at_ rcb_Y /\ fe_big (jZ R) = at_ rcb_Z.
Proof.
  intros HP HQ R at_. destruct (completeAdd_spec P Q HP HQ) as (HR & HX & HY & HZ). fold R in HR, HX, HY, HZ.
  pose proof HP as (P1 & P2 & P3). pose proof HQ as (Q1 & Q2 & Q3). pose proof HR as (R1 & R2 & R3).
  unfold at_. rewrite (fe_big_val _ (reduced_limbs _ P1)), (fe_big_val _ (reduced_limbs _ P2)),
    (fe_big_val _ (reduced_limbs _ P3)), (fe_big_val _ (reduced_limbs _ Q1)), (fe_big_val _ (reduced_limbs _ Q2)),
    (fe_big_val _ (reduced_limbs _ Q3)), (fe_big_val _ (reduced_limbs _ R1)), (fe_big_val _ (reduced_limbs _ R2)),
    (fe_big_val _ (reduced_limbs _ R3)).
  assert (forall f z, reduced f -> eqp (val f) z -> val f = z mod fe_p) as Hmod.
  { intros f z Hf E. unfold eqp in E. rewrite <- E. symmetry. apply Z.mod_small.
    destruct Hf as [Hl Hp]. split; [by apply val_range|exact Hp]. }
  split; [exact HR|]. split; [exact (Hmod _ _ R1 HX)|]. split; [exact (Hmod _ _ R2 HY)|exact (Hmod _ _ R3 HZ)].
Qed.

(** ** Witnesses *)

Definition demo_a : fe := mkFe 5 0 0 0.
Definition demo_b : fe := mkFe 0xFFFFFFFEFFFFFC2E 0xFFFFFFFFFFFFFFFF 0xFFFFFFFFFFFFFFFF 0xFFFFFFFFFFFFFFFF.
Definition demo_P : jac := mkJac (mkFe 2 0 0 0) (mkFe 3 0 0 0) (mkFe 1 0 0 0).

Lemma demo_a_red : reduced demo_a.
Proof. unfold demo_a. limb_lia. Qed.
Lemma demo_b_red : reduced demo_b.
Proof. unfold demo_b. limb_lia. Qed.
Lemma demo_P_red : jac_red demo_P.
Proof. unfold demo_P, jac_red. cbn [jX jY jZ]. split_and!; apply reduced_small; limb_lia. Qed.

Example demo_sum : fe_big (feAdd demo_a demo_b) = 4.
Proof. vm_compute. reflexivity. Qed.

Lemma field_ops_correct_witness :
  (reduced (feAdd demo_a demo_b) /\ fe_big (feAdd demo_a demo_b) = (fe_big demo_a + fe_big demo_b) mod fe_p)
  /\ (reduced (feSub demo_a demo_b) /\ fe_big (feSub demo_a demo_b) = (fe_big demo_a - fe_big demo_b) mod fe_p)
  /\ (reduced (feMul demo_a demo_b) /\ fe_big (feMul demo_a demo_b) = (fe_big demo_a * fe_big demo_b) mod fe_p)
  /\ (reduced (feInv demo_a) /\ fe_big (feInv demo_a) = fe_big demo_a ^ (fe_p - 2) mod fe_p)
  /\ feFromBig (fe_big demo_a) = Ok demo_a.
Proof. exact (field_ops_correct demo_a demo_b demo_a_red demo_b_red). Defined.

Lemma ladder_is_double_and_add_witness :
  scalarMultCT demo_a demo_P = double_and_add (fe_big demo_a) 256 demo_P
  /\ jac_red (scalarMultCT demo_a demo_P).
Proof. exact (ladder_is_double_and_add demo_a demo_P (reduced_limbs _ demo_a_red) demo_P_red). Defined.

Lemma complete_add_polynomials_witness :
  let R := completeAdd demo_P identity in
  let at_ (f : Z -> Z -> Z -> Z -> Z -> Z -> Z -> Z) :=
    f 21 (fe_big (jX demo_P)) (fe_big (jY demo_P)) (fe_big (jZ demo_P)) (fe_big (jX identity))
      (fe_big (jY identity)) (fe_big (jZ identity)) mod fe_p in
  jac_red R /\ fe_big (jX R) = at_ rcb_X /\ fe_big (jY R) = at_ rcb_Y /\ fe_big (jZ R) = at_ rcb_Z.
Proof. exact (complete_add_polynomials demo_P identity demo_P_red identity_red). Defined.
