(* ===== verification/Crypto.v ===== *)
(** * crypto: secp256k1 keys and ECDSA ([src/crypto/secp256k1.go])

    Affine point arithmetic on integers, keys and their compressed form, the
    RFC 6979 nonce, signing through the constant-time ladder, verification and
    the 64-byte signature form.  [math/big] is modelled by [Z]; [ModInverse] is
    the extended Euclidean algorithm, [Exp] is square-and-multiply. *)

From stdpp Require Import base sets list strings.
From Stdlib Require Import ZArith Lia ZifyNat Znumtheory.
From Stdlib Require Strings.Byte.
From S2P Require Import Prelude Sha256 Bsvtx CtField.
Open Scope go_scope.

(** ** Domain parameters *)

Definition curveP : Z := 0xFFFFFFFFFFFFFFFFFFFFFFFFFFFFFFFFFFFFFFFFFFFFFFFFFFFFFFFEFFFFFC2F.
Definition curveN : Z := 0xFFFFFFFFFFFFFFFFFFFFFFFFFFFFFFFEBAAEDCE6AF48A03BBFD25E8CD0364141.
Definition curveB : Z := 7.
Definition curveGx : Z := 0x79BE667EF9DCBBAC55A06295CE870B07029BFCDB2DCE28D959F2815B16F81798.
Definition curveGy : Z := 0x483ADA7726A3C4655DA4FBFC0E1108A8FD17B448A68554199C47D08FFB10D4B8.
Definition nHalf : Z := Z.shiftr curveN 1.

Definition ErrInvalidKey : error := "crypto: invalid private key"%string.
Definition ErrSign : error := "crypto: signing failed"%string.

(** ** math/big *)

(** Extended Euclid on [(r0, r1)] with the coefficients of the first argument. *)
Fixpoint egcd (fuel : nat) (r0 r1 s0 s1 : Z) : Z * Z :=
  match fuel with
  | O => (r0, s0)
  | S fuel' =>
      if r1 =? 0 then (r0, s0)
      else let q := r0 / r1 in egcd fuel' r1 (r0 - q * r1) s1 (s0 - q * s1)
  end.
Definition ModInverse (g n : Z) : option Z :=
  let '(d, s) := egcd (Z.to_nat (2 * Z.log2 n + 4)) n (g mod n) 0 1 in
  if d =? 1 then Some (s mod n) else None.
(** [z.ModInverse(z, n)] leaves [z] unchanged when there is no inverse. *)
Definition inv_in_place (g n : Z) : Z := match ModInverse g n with Some i => i | None => g end.

Definition BitLen (k : Z) : Z := if k <=? 0 then 0 else Z.log2 k + 1.
Definition big_bit (k i : Z) : Z := Z.land (Z.shiftr k i) 1.
(** The bits [BitLen-1 .. 0]. *)
Definition big_bits (k : Z) : list Z :=
  (fun i => big_bit k (BitLen k - 1 - i)) <$> seqZ 0 (BitLen k).

(** [Exp(b, e, m)] for a positive exponent. *)
Fixpoint exp_pos (b : Z) (e : positive) (m : Z) : Z :=
  match e with
  | xH => b mod m
  | xO e' => let h := exp_pos b e' m in (h * h) mod m
  | xI e' => let h := exp_pos b e' m in ((h * h) mod m * b) mod m
  end.
Definition big_Exp (b e m : Z) : Z := match e with Zpos e' => exp_pos b e' m | _ => 1 mod m end.

(** ** Affine points, [None] at infinity *)

Definition point : Type := option (Z * Z).

Definition pointDouble (p : point) : point :=
  match p with
  | None => None
  | Some (x1, y1) =>
      if y1 =? 0 then None
      else
        let num := x1 * x1 * 3 in
        let den := inv_in_place (Z.shiftl y1 1) curveP in
        let lam := (num * den) mod curveP in
        let x3 := (lam * lam - Z.shiftl x1 1) mod curveP in
        let y3 := ((x1 - x3) * lam - y1) mod curveP in
        Some (x3, y3)
  end.

Definition pointAdd (p q : point) : point :=
  match p, q with
  | None, _ => q
  | _, None => p
  | Some (x1, y1), Some (x2, y2) =>
      if x1 =? x2 then if y1 =? y2 then pointDouble p else None
      else
        let num := y2 - y1 in
        let den := inv_in_place (x2 - x1) curveP in
        let lam := (num * den) mod curveP in
        let x3 := (lam * lam - x1 - x2) mod curveP in
        let y3 := ((x1 - x3) * lam - y1) mod curveP in
        Some (x3, y3)
  end.

Definition scalarMult (k : Z) (p : point) : point :=
  foldl (fun r bit => let r := pointDouble r in if bit =? 1 then pointAdd r p else r) None (big_bits k).
Definition scalarBaseMult (k : Z) : point := scalarMult k (Some (curveGx, curveGy)).

Definition onCurve (p : point) : bool :=
  match p with
  | None => false
  | Some (x, y) =>
      if (x <? 0) || (y <? 0) || (curveP <=? x) || (curveP <=? y) then false
      else (y * y) mod curveP =? (x * x * x + curveB) mod curveP
  end.

(** ** Keys *)

Definition NewPrivateKey (seed : list byte) : Z := be_Z seed mod (curveN - 1) + 1.
Definition Public (d : Z) : point := scalarBaseMult d.

(** [copy(out[n-len(b):], b)] into a buffer of length [n]. *)
Definition copy_tail (out b : list byte) : result (list byte) :=
  let n := length out in
  if (n <? length b)%nat then Panic else Ok (take (n - length b) out ++ b).

Definition SerializeCompressed (p : point) : result (list byte) :=
  match p with
  | None => Panic
  | Some (x, y) =>
      let prefix := if big_bit y 0 =? 0 then z2b 0x02 else z2b 0x03 in
      copy_tail (prefix :: replicate 32 Byte.x00) (big_bytes x)
  end.

Definition ErrBadPub : error := "crypto: bad compressed public key"%string.
Definition ErrXRange : error := "crypto: x out of field range"%string.
Definition ErrNotOnCurve : error := "crypto: point not on curve"%string.
Definition ErrDecompressed : error := "crypto: decompressed point not on curve"%string.

Definition ParseCompressed (b : list byte) : result point :=
  if negb (length b =? 33)%nat then Err ErrBadPub
  else
    let! b0 := index b 0 in
    if negb ((b2z b0 =? 0x02) || (b2z b0 =? 0x03)) then Err ErrBadPub
    else
      let x := be_Z (drop 1 b) in
      if curveP <=? x then Err ErrXRange
      else
        let rhs := (x * x * x + curveB) mod curveP in
        let y := big_Exp rhs (Z.shiftr (curveP + 1) 2) curveP in
        if negb ((y * y) mod curveP =? rhs) then Err ErrNotOnCurve
        else
          let wantOdd := b2z b0 =? 0x03 in
          let y := if negb (Bool.eqb (big_bit y 0 =? 1) wantOdd) then curveP - y else y in
          if negb (onCurve (Some (x, y))) then Err ErrDecompressed
          else Ok (Some (x, y)).

(** The receiver and the argument are pointers: nil compares unequal. *)
Definition Equal (p other : option point) : result bool :=
  match p, other with
  | Some p, Some other =>
      let! a := SerializeCompressed p in
      let! b := SerializeCompressed other in
      Ok (bool_decide (a = b))
  | _, _ => Ok false
  end.

(** ** RFC 6979 *)

Definition int2octets (v : Z) (rolen : nat) : list byte :=
  let b := big_bytes v in
  if (length b <? rolen)%nat then replicate (rolen - length b) Byte.x00 ++ b
  else if (rolen <? length b)%nat then drop (length b - rolen) b
  else b.
Definition bits2int (b : list byte) (qlen : Z) : Z :=
  let v := be_Z b in
  let blen := Z.of_nat (length b) * 8 in
  if qlen <? blen then Z.shiftr v (blen - qlen) else v.
Definition bits2octets (b : list byte) (rolen : nat) : list byte :=
  let z1 := bits2int b (BitLen curveN) in
  let z2 := z1 - curveN in
  if z2 <? 0 then int2octets z1 rolen else int2octets z2 rolen.

(** The outer loop: each turn takes one 32-byte block (one block fills the
    requested 32 bytes) and retries while it is not in [[1, n-1]]. *)
Fixpoint nonce_loop (fuel : nat) (kk v : list byte) : option Z :=
  match fuel with
  | O => None
  | S fuel' =>
      let v := hmac_sha256 kk v in
      let k := bits2int v 256 in
      if (0 <? k) && (k <? curveN) then Some k
      else
        let kk := hmac_sha256 kk (v ++ [Byte.x00]) in
        nonce_loop fuel' kk (hmac_sha256 kk v)
  end.
Definition rfc6979Nonce (fuel : nat) (d : Z) (hash : list byte) : option Z :=
  let bx := int2octets d 32 ++ bits2octets hash 32 in
  let v := replicate 32 Byte.x01 in
  let kk := replicate 32 Byte.x00 in
  let kk := hmac_sha256 kk (v ++ [Byte.x00] ++ bx) in
  let v := hmac_sha256 kk v in
  let kk := hmac_sha256 kk (v ++ [Byte.x01] ++ bx) in
  let v := hmac_sha256 kk v in
  nonce_loop fuel kk v.

(** ** Signatures *)

Record Signature : Type := mkSig { sig_R : Z; sig_S : Z }.
#[global] Instance Signature_eq_dec : EqDecision Signature.
Proof. solve_decision. Defined.

Definition ctBaseG : result jac :=
  let! gx := feFromBig curveGx in
  let! gy := feFromBig curveGy in
  Ok (mkJac gx gy (mkFe 1 0 0 0)).

(** One iteration of the signing loop: [None] is [continue]. *)
Definition sign_try (d z kNonce : Z) : result (option Signature) :=
  let! kb := scalarBits kNonce in
  let! g := ctBaseG in
  let R := scalarMultCT kb g in
  let r := fe_big (affineX R) mod curveN in
  if r =? 0 then Ok None
  else
    let kInv := match ModInverse kNonce curveN with Some i => i | None => 0 end in
    let s := ((r * d + z) * kInv) mod curveN in
    if s =? 0 then Ok None
    else Ok (Some (mkSig r (if nHalf <? s then curveN - s else s))).

(** [for i := 0; i < 1000; i++]; [nf] is the fuel of each nonce search. *)
Fixpoint sign_loop (n : nat) (nf : nat) (i : Z) (d z : Z) (hash : list byte) : result Signature :=
  match n with
  | O => Err ErrSign
  | S n' =>
      match rfc6979Nonce nf d (if 0 <? i then sha256 (hash ++ [z2b i]) else hash) with
      | None => Panic
      | Some kNonce =>
          let! o := sign_try d z kNonce in
          match o with
          | Some sig => Ok sig
          | None => sign_loop n' nf (i + 1) d z hash
          end
      end
  end.

Definition Sign (nf : nat) (d : Z) (hash : list byte) : result Signature :=
  if (d =? 0) || (curveN <=? d) then Err ErrInvalidKey
  else sign_loop 1000 nf 0 d (bits2int hash (BitLen curveN)) hash.

Definition Verify (pub : point) (hash : list byte) (sig : Signature) : bool :=
  if negb (onCurve pub) then false
  else if (sig_R sig <=? 0) || (curveN <=? sig_R sig) || (sig_S sig <=? 0) || (curveN <=? sig_S sig)
  then false
  else
    let z := bits2int hash (BitLen curveN) in
    let w := match ModInverse (sig_S sig) curveN with Some i => i | None => 0 end in
    let u1 := (z * w) mod curveN in
    let u2 := (sig_R sig * w) mod curveN in
    match pointAdd (scalarBaseMult u1) (scalarMult u2 pub) with
    | None => false
    | Some (x, _) => x mod curveN =? sig_R sig
    end.

Definition IsLowS (sig : Signature) : bool := sig_S sig <=? nHalf.

Definition sig_Serialize (sig : Signature) : result (list byte) :=
  let! r := copy_tail (replicate 32 Byte.x00) (big_bytes (sig_R sig)) in
  let! s := copy_tail (replicate 32 Byte.x00) (big_bytes (sig_S sig)) in
  Ok (r ++ s).

Definition ErrSigLen : error := "crypto: signature must be 64 bytes"%string.
Definition ParseSignature (b : list byte) : result Signature :=
  if negb (length b =? 64)%nat then Err ErrSigLen
  else Ok (mkSig (be_Z (take 32 b)) (be_Z (drop 32 b))).

Definition Malleate (sig64 : list byte) : result (list byte) :=
  let! s := ParseSignature sig64 in
  sig_Serialize (mkSig (sig_R s) (curveN - sig_S s)).

(** * Lemmas *)

(** ** math/big *)

Lemma egcd_spec (n g : Z) (k fuel : nat) r0 r1 s0 s1 :
  (2 * k + 1 <= fuel)%nat -> 0 <= r0 -> 0 <= r1 < 2 ^ Z.of_nat k ->
  (n | r0 - s0 * g) -> (n | r1 - s1 * g) ->
  exists s, egcd fuel r0 r1 s0 s1 = (Z.gcd r0 r1, s) /\ (n | Z.gcd r0 r1 - s * g).
Proof.
  revert k r0 r1 s0 s1. induction fuel as [fuel IH] using lt_wf_ind.
  intros k r0 r1 s0 s1 Hf H0 H1 D0 D1.
  assert (Hstep : forall a b sa sb : Z, (n | a - sa * g) -> (n | b - sb * g) ->
    (n | a - a / b * b - (sa - a / b * sb) * g)).
  { intros a b sa sb Ha Hb.
    replace (a - a / b * b - (sa - a / b * sb) * g) with ((a - sa * g) - a / b * (b - sb * g)) by ring.
    apply Z.divide_sub_r; [done|]. by apply Z.divide_mul_r. }
  assert (Hg : forall a b : Z, 0 <= a -> 0 < b -> Z.gcd b (a - a / b * b) = Z.gcd a b
    /\ a - a / b * b = a mod b).
  { intros a b Ha Hb. replace (a - a / b * b) with (a mod b) by (rewrite Z.mod_eq; lia). split; [|done].
    by rewrite Z.gcd_comm, Z.gcd_mod, Z.gcd_comm by lia. }
  destruct fuel as [|fuel]; [lia|]. simpl. destruct (Z.eqb_spec r1 0) as [->|Hn1].
  { exists s0. rewrite Z.gcd_0_r_nonneg by lia. done. }
  destruct k as [|k]; [simpl in H1; lia|]. destruct fuel as [|fuel]; [lia|].
  pose proof (Hg r0 r1 H0 ltac:(lia)) as [G1 M1].
  pose proof (Hstep r0 r1 s0 s1 D0 D1) as D2. pose proof (Z.mod_pos_bound r0 r1 ltac:(lia)) as B1.
  simpl. rewrite M1 in *. destruct (Z.eqb_spec (r0 mod r1) 0) as [E2|Hn2].
  { exists s1. rewrite <- G1, E2, Z.gcd_0_r_nonneg by lia. done. }
  pose proof (Hg r1 (r0 mod r1) ltac:(lia) ltac:(lia)) as [G2 M2].
  pose proof (Hstep r1 (r0 mod r1) s1 (s0 - r0 / r1 * s1) D1 D2) as D3.
  pose proof (Z.mod_pos_bound r1 (r0 mod r1) ltac:(lia)) as B2.
  rewrite M2 in *. rewrite <- G1, <- G2. apply (IH fuel ltac:(lia) k); [lia..| |done|done].
  rewrite Nat2Z.inj_succ, Z.pow_succ_r in H1 by lia.
  assert (1 <= r1 / (r0 mod r1)) by (apply Z.div_le_lower_bound; lia).
  rewrite (Z.div_mod r1 (r0 mod r1)) in H1 by lia. nia.
Qed.

(** [ModInverse] finds the inverse in [[0, n)] exactly when there is one. *)
Lemma ModInverse_spec g n : 1 < n ->
  match ModInverse g n with
  | Some i => 0 <= i < n /\ (g * i) mod n = 1
  | None => Z.gcd g n <> 1
  end.
Proof.
  intros Hn. unfold ModInverse.
  pose proof (Z.mod_pos_bound g n ltac:(lia)) as Hg. pose proof (Z.log2_spec n ltac:(lia)) as [_ HL].
  pose proof (Z.log2_nonneg n).
  destruct (egcd_spec n g (Z.to_nat (Z.log2 n + 1)) (Z.to_nat (2 * Z.log2 n + 4)) n (g mod n) 0 1)
    as (s & -> & D).
  { lia. } { lia. } { rewrite Z2Nat.id by lia. unfold Z.succ in HL. lia. }
  { rewrite Z.mul_0_l, Z.sub_0_r. by exists 1; lia. }
  { exists (- (g / n)). rewrite Z.mod_eq by lia. ring. }
  assert (Hgcd : Z.gcd n (g mod n) = Z.gcd g n) by (rewrite Z.gcd_comm, Z.gcd_mod by lia; apply Z.gcd_comm).
  rewrite Hgcd in *. destruct (Z.eqb_spec (Z.gcd g n) 1) as [E|E]; [|done].
  rewrite E in D. split; [by apply Z.mod_pos_bound; lia|].
  rewrite Z.mul_mod_idemp_r by lia. destruct D as [q Hq].
  replace (g * s) with (1 + (- q) * n) by lia. rewrite Z.mod_add by lia. apply Z.mod_small; lia.
Qed.

Lemma exp_pos_spec b e m : 0 < m -> exp_pos b e m = b ^ Zpos e mod m.
Proof.
  intros Hm. induction e as [e IH|e IH|]; simpl exp_pos; rewrite ?IH.
  - rewrite Pos2Z.inj_xI, Z.pow_add_r, Z.pow_1_r, (Z.mul_comm 2), Z.pow_mul_r, Z.pow_2_r by lia.
    rewrite <- Z.mul_mod by lia. by rewrite Z.mul_mod_idemp_l by lia.
  - rewrite Pos2Z.inj_xO, (Z.mul_comm 2), Z.pow_mul_r, Z.pow_2_r by lia. by rewrite <- Z.mul_mod by lia.
  - by rewrite Z.pow_1_r.
Qed.
(** Square-and-multiply is modular exponentiation. *)
Lemma big_Exp_spec b e m : 0 < m -> 0 <= e -> big_Exp b e m = b ^ e mod m.
Proof. intros Hm He. destruct e; [done|by apply exp_pos_spec|lia]. Qed.

Lemma curve_order_small : 1 < curveN < 2 ^ 256.
Proof. by vm_compute. Qed.
Lemma curve_prime_small : 1 < curveP < 2 ^ 256.
Proof. by vm_compute. Qed.
Lemma nHalf_spec : curveN = 2 * nHalf + 1.
Proof. by vm_compute. Qed.

(** ** Big-endian buffers *)

Lemma be_Z_pad n x b : 0 <= x < 256 ^ Z.of_nat n -> length b = n -> be_Z b = x -> b = be_bytes n x.
Proof. intros Hx Hl <-. by rewrite be_bytes_Z. Qed.

(** Copying a number to the end of a zeroed buffer is its fixed-width big-endian form. *)
Lemma copy_tail_be pre n x : 0 <= x < 256 ^ Z.of_nat n ->
  copy_tail (pre ++ replicate n Byte.x00) (big_bytes x) = Ok (pre ++ be_bytes n x).
Proof.
  intros Hx. pose proof (length_big_bytes x n Hx) as Hl. unfold copy_tail.
  rewrite length_app, length_replicate. case_match eqn:E; [apply Nat.ltb_lt in E; lia|].
  f_equal. rewrite take_app, take_ge, <- app_assoc by lia. f_equal. rewrite take_replicate.
  apply be_Z_pad; [done|rewrite length_app, length_replicate; lia|].
  rewrite be_Z_zeros_app. apply be_Z_big_bytes, Hx.
Qed.
Lemma int2octets_be n x : 0 <= x < 256 ^ Z.of_nat n -> int2octets x n = be_bytes n x.
Proof.
  intros Hx. pose proof (length_big_bytes x n Hx) as Hl. unfold int2octets.
  destruct (Nat.ltb_spec (length (big_bytes x)) n); [|destruct (Nat.ltb_spec n (length (big_bytes x))); [lia|]];
    (apply be_Z_pad; [done|rewrite ?length_app, ?length_replicate; lia|]).
  - rewrite be_Z_zeros_app. apply be_Z_big_bytes, Hx.
  - apply be_Z_big_bytes, Hx.
Qed.

Definition sig_bytes (sig : Signature) : list byte := be_bytes 32 (sig_R sig) ++ be_bytes 32 (sig_S sig).
Definition sig_fits (sig : Signature) : Prop := 0 <= sig_R sig < 2 ^ 256 /\ 0 <= sig_S sig < 2 ^ 256.

Lemma sig_Serialize_eq sig : sig_fits sig -> sig_Serialize sig = Ok (sig_bytes sig).
Proof.
  intros [HR HS]. unfold sig_Serialize.
  pose proof (copy_tail_be [] 32 (sig_R sig) HR) as ER. pose proof (copy_tail_be [] 32 (sig_S sig) HS) as ES.
  rewrite !app_nil_l in ER, ES. by rewrite ER, ES.
Qed.
Lemma ParseSignature_bytes sig : sig_fits sig -> ParseSignature (sig_bytes sig) = Ok sig.
Proof.
  intros [HR HS]. unfold ParseSignature, sig_bytes. rewrite length_app, !length_be_bytes.
  cbn [Nat.add Nat.eqb negb]. rewrite take_app_length', drop_app_length' by (by rewrite length_be_bytes).
  rewrite !be_Z_bytes, !Z.mod_small by done. by destruct sig.
Qed.
Lemma ParseSignature_spec b : length b = 64%nat ->
  exists sig, ParseSignature b = Ok sig /\ sig_fits sig /\ sig_bytes sig = b.
Proof.
  intros Hb. unfold ParseSignature. rewrite Hb. cbn [Nat.eqb negb]. eexists; split; [done|].
  assert (H1 : length (take 32 b) = 32%nat) by (rewrite length_take; lia).
  assert (H2 : length (drop 32 b) = 32%nat) by (rewrite length_drop; lia).
  pose proof (be_Z_range (take 32 b)) as R1. pose proof (be_Z_range (drop 32 b)) as R2.
  rewrite H1 in R1. rewrite H2 in R2. split; [by split|].
  unfold sig_bytes; cbn [sig_R sig_S]. by rewrite !be_bytes_Z, take_drop.
Qed.

(** ** Nonces and signatures *)

Lemma nonce_loop_range fuel kk v k : nonce_loop fuel kk v = Some k -> 0 < k < curveN.
Proof.
  revert kk v. induction fuel as [|fuel IH]; intros kk v; cbn [nonce_loop]; [done|].
  case_match eqn:E; [|apply IH]. intros [= <-]. apply andb_true_iff in E. lia.
Qed.

Definition low_s_sig (sig : Signature) : Prop :=
  1 <= sig_R sig < curveN /\ 1 <= sig_S sig <= nHalf.

Lemma ctBaseG_ok : exists g, ctBaseG = Ok g.
Proof. eexists. by vm_compute. Qed.

Lemma sign_try_spec d z k : 0 < k < curveN ->
  exists o, sign_try d z k = Ok o /\ forall sig, o = Some sig -> low_s_sig sig.
Proof.
  intros Hk. unfold sign_try.
  destruct (feFromBig_spec k) as (kb & Hkb & _); [pose proof curve_order_small; lia|].
  unfold scalarBits. rewrite Hkb. destruct ctBaseG_ok as [g ->]. cbn [rbind].
  pose proof curve_order_small. pose proof nHalf_spec.
  generalize (fe_big (affineX (scalarMultCT kb g))). intros x. cbv zeta.
  pose proof (Z.mod_pos_bound x curveN ltac:(lia)) as HR.
  destruct (Z.eqb_spec (x mod curveN) 0) as [|HR0]; [by exists None|].
  generalize dependent (x mod curveN). intros r HR HR0.
  generalize (match ModInverse k curveN with Some i => i | None => 0 end). intros kInv.
  pose proof (Z.mod_pos_bound ((r * d + z) * kInv) curveN ltac:(lia)) as HS.
  destruct (Z.eqb_spec (((r * d + z) * kInv) mod curveN) 0) as [|HS0]; [by exists None|].
  generalize dependent (((r * d + z) * kInv) mod curveN). intros s HS HS0.
  eexists; split; [done|]. intros sig [= <-]. unfold low_s_sig; cbn [sig_R sig_S].
  destruct (Z.ltb_spec nHalf s); lia.
Qed.

(** The message whose nonce is searched in iteration [i]. *)
Definition retry_hash (hash : list byte) (i : Z) : list byte :=
  if 0 <? i then sha256 (hash ++ [z2b i]) else hash.

Lemma sign_loop_spec n nf i d z hash : 0 <= i ->
  match sign_loop n nf i d z hash with
  | Ok sig => low_s_sig sig
  | Err e => e = ErrSign
  | Panic => exists j, 0 <= j < i + Z.of_nat n /\ rfc6979Nonce nf d (retry_hash hash j) = None
  end.
Proof.
  revert i. induction n as [|n IH]; intros i Hi; cbn [sign_loop]; [done|]. fold (retry_hash hash i).
  destruct (rfc6979Nonce nf d (retry_hash hash i)) as [k|] eqn:E; [|exists i; split; [lia|done]].
  destruct (sign_try_spec d z k) as (o & Ho & Hs); [by eapply nonce_loop_range|].
  rewrite Ho. cbn [rbind]. destruct o as [sig|]; [by apply Hs|].
  specialize (IH (i + 1) ltac:(lia)). destruct (sign_loop n nf (i + 1) d z hash); [done..|].
  destruct IH as (j & ? & ?). exists j. split; [lia|done].
Qed.

(** ** The chord and tangent formulas stay on the curve *)

Lemma curveP_fe_p : curveP = fe_p.
Proof. by vm_compute. Qed.
Lemma eqp_mod z : eqp (z mod curveP) z.
Proof. unfold eqp. rewrite curveP_fe_p. by rewrite Z.mod_mod. Qed.
Lemma eqp_sub_0 a b : eqp a b <-> eqp (a - b) 0.
Proof.
  split; intros E.
  - rewrite E. by rewrite Z.sub_diag.
  - replace a with (a - b + b) by ring. rewrite E. by rewrite Z.add_0_l.
Qed.

Lemma onCurve_iff x y : onCurve (Some (x, y)) = true <->
  0 <= x < curveP /\ 0 <= y < curveP /\ eqp (y * y) (x * x * x + curveB).
Proof.
  unfold onCurve, eqp. rewrite <- curveP_fe_p.
  destruct ((x <? 0) || (y <? 0) || (curveP <=? x) || (curveP <=? y)) eqn:E.
  - split; [done|]. intros (? & ? & _). rewrite !orb_true_iff in E. lia.
  - rewrite !orb_false_iff in E. rewrite Z.eqb_eq. split; [|naive_solver]. intros; split_and!; [lia..|done].
Qed.

Lemma inverse_eqp z : Z.gcd z curveP = 1 -> eqp (z * inv_in_place z curveP) 1.
Proof.
  intros Hg. unfold inv_in_place. pose proof curve_prime_small.
  pose proof (ModInverse_spec z curveP ltac:(lia)) as Hi. destruct (ModInverse z curveP) as [i|]; [|done].
  unfold eqp. rewrite <- curveP_fe_p, (proj2 Hi). symmetry. apply Z.mod_small. lia.
Qed.

(** The deviation of the line [y = y1 + lam (x - x1)] from the curve. *)
Definition line_dev (x1 y1 lam x : Z) : Z :=
  x * x * x + curveB - (y1 + lam * (x - x1)) * (y1 + lam * (x - x1)).

Lemma third_point x1 y1 lam X Y : eqp (line_dev x1 y1 lam X) 0 -> eqp Y ((x1 - X) * lam - y1) ->
  eqp (Y * Y) (X * X * X + curveB).
Proof.
  intros E EY. symmetry. apply eqp_sub_0. rewrite EY. etransitivity; [|exact E].
  unfold line_dev. match goal with |- eqp ?a ?b => replace a with b by ring end. done.
Qed.

Lemma chord_dev x1 y1 x2 y2 i lam X :
  eqp (y1 * y1) (x1 * x1 * x1 + curveB) -> eqp (y2 * y2) (x2 * x2 * x2 + curveB) ->
  eqp ((x2 - x1) * i) 1 -> eqp lam ((y2 - y1) * i) -> eqp X (lam * lam - x1 - x2) ->
  eqp (line_dev x1 y1 lam X) 0.
Proof.
  intros E1 E2 Ei El EX.
  set (f := line_dev x1 y1 lam) in *.
  assert (F1 : eqp (f x1) 0).
  { unfold f, line_dev. rewrite <- E1. match goal with |- eqp ?a _ => replace a with 0 by ring end. done. }
  assert (F2 : eqp (f x2) 0).
  { unfold f, line_dev. rewrite El.
    replace (y1 + (y2 - y1) * i * (x2 - x1)) with (y1 + (y2 - y1) * ((x2 - x1) * i)) by ring.
    rewrite Ei, <- E2. match goal with |- eqp ?a _ => replace a with 0 by ring end. done. }
  set (a := x1 * x1 + x1 * x2 + x2 * x2 - 2 * y1 * lam - lam * lam * (x2 - x1)).
  assert (Ha : eqp a 0).
  { replace a with (a * 1) by ring. rewrite <- Ei.
    replace (a * ((x2 - x1) * i)) with ((f x2 - f x1) * i) by (unfold f, line_dev, a; ring).
    rewrite F1, F2. done. }
  assert (HX : eqp (f X) (f x1 + a * (X - x1) + (X - x1) * (X - x2) * (X - (lam * lam - x1 - x2)))).
  { match goal with |- eqp ?l ?r => replace r with l by (unfold f, line_dev, a; ring) end. done. }
  rewrite HX, F1, Ha. rewrite EX at 4. by rewrite Z.sub_diag, Z.mul_0_r.
Qed.

Lemma tangent_dev x1 y1 i lam X :
  eqp (y1 * y1) (x1 * x1 * x1 + curveB) -> eqp (Z.shiftl y1 1 * i) 1 -> eqp lam (x1 * x1 * 3 * i) ->
  eqp X (lam * lam - Z.shiftl x1 1) -> eqp (line_dev x1 y1 lam X) 0.
Proof.
  rewrite !Z.shiftl_mul_pow2 by lia. change (2 ^ 1) with 2. intros E1 Ei El EX.
  set (d := 3 * x1 * x1 - 2 * y1 * lam).
  assert (Hd : eqp d 0).
  { unfold d. rewrite El. replace (2 * y1 * (x1 * x1 * 3 * i)) with (x1 * x1 * 3 * (y1 * 2 * i)) by ring.
    rewrite Ei. match goal with |- eqp ?a _ => replace a with 0 by ring end. done. }
  assert (F1 : eqp (x1 * x1 * x1 + curveB - y1 * y1) 0) by (rewrite E1; by rewrite Z.sub_diag).
  assert (HX : eqp (line_dev x1 y1 lam X)
    (x1 * x1 * x1 + curveB - y1 * y1 + d * (X - x1) + (X - x1) * (X - x1) * (X - (lam * lam - x1 * 2)))).
  { match goal with |- eqp ?a ?b => replace b with a by (unfold line_dev, d; ring) end. done. }
  rewrite HX, F1, Hd. rewrite EX at 4. by rewrite Z.sub_diag, Z.mul_0_r.
Qed.

Lemma onCurve_line x1 y1 lam x3 : eqp (line_dev x1 y1 lam (x3 mod curveP)) 0 ->
  onCurve (Some (x3 mod curveP, ((x1 - x3 mod curveP) * lam - y1) mod curveP)) = true.
Proof.
  intros E. pose proof curve_prime_small. apply onCurve_iff. split_and!; try (apply Z.mod_pos_bound; lia).
  eapply third_point; [exact E|]. apply eqp_mod.
Qed.

Lemma pointDouble_on_curve x y : onCurve (Some (x, y)) = true -> y <> 0 -> Z.gcd (2 * y) curveP = 1 ->
  onCurve (pointDouble (Some (x, y))) = true.
Proof.
  intros (_ & _ & E)%onCurve_iff Hy Hg. unfold pointDouble. destruct (Z.eqb_spec y 0); [done|]. cbv zeta.
  apply onCurve_line. eapply tangent_dev; [done| |apply eqp_mod|apply eqp_mod].
  apply inverse_eqp. rewrite Z.shiftl_mul_pow2, Z.mul_comm by lia. exact Hg.
Qed.

Lemma big_bit_0 k : big_bit k 0 = k mod 2.
Proof. unfold big_bit. by rewrite Z.shiftr_0_r, land_1. Qed.
Lemma curveP_odd : curveP mod 2 = 1.
Proof. by vm_compute. Qed.

(** The parity the prefix byte asks for is the parity of the root chosen. *)
Lemma parity_choice y (odd : bool) (y' := if negb (Bool.eqb (big_bit y 0 =? 1) odd) then curveP - y else y) :
  (if big_bit y' 0 =? 0 then z2b 0x02 else z2b 0x03) = if odd then z2b 0x03 else z2b 0x02.
Proof.
  assert (Hy : y' mod 2 = if odd then 1 else 0).
  { unfold y'. rewrite big_bit_0. pose proof curveP_odd. pose proof (Z.mod_pos_bound y 2 ltac:(lia)).
    destruct (Z.eqb_spec (y mod 2) 1), odd; cbn [Bool.eqb negb]; [done| | |lia];
      rewrite Zminus_mod; rewrite curveP_odd.
    - by replace (y mod 2) with 1 by lia.
    - by replace (y mod 2) with 0 by lia. }
  rewrite big_bit_0, Hy. by destruct odd.
Qed.

Lemma SerializeCompressed_eq x y : 0 <= x < 2 ^ 256 ->
  SerializeCompressed (Some (x, y)) = Ok ((if big_bit y 0 =? 0 then z2b 0x02 else z2b 0x03) :: be_bytes 32 x).
Proof. intros Hx. exact (copy_tail_be [if big_bit y 0 =? 0 then z2b 0x02 else z2b 0x03] 32 x Hx). Qed.

(** A signature that verifies is in range. *)
Lemma Verify_range pub h sig : Verify pub h sig = true ->
  1 <= sig_R sig < curveN /\ 1 <= sig_S sig < curveN.
Proof.
  unfold Verify. destruct (negb (onCurve pub)); [done|].
  destruct ((sig_R sig <=? 0) || (curveN <=? sig_R sig) || (sig_S sig <=? 0) || (curveN <=? sig_S sig)) eqn:E; [done|].
  intros _. lia.
Qed.

(** The outcomes of [Sign]. *)
Lemma Sign_spec (nf : nat) (d : Z) (hash : list byte) :
  0 <= d ->
  match Sign nf d hash with
  | Ok sig => low_s_sig sig /\ IsLowS sig = true /\ 1 <= d < curveN
  | Err e => (e = ErrInvalidKey /\ ~ 1 <= d < curveN) \/ e = ErrSign
  | Panic => exists i, 0 <= i < 1000 /\ rfc6979Nonce nf d (retry_hash hash i) = None
  end.
Proof.
  intros Hd. unfold Sign.
  destruct ((d =? 0) || (curveN <=? d)) eqn:E; [left; split; [done|]; lia|].
  pose proof (sign_loop_spec 1000 nf 0 d (bits2int hash (BitLen curveN)) hash ltac:(lia)) as Hs.
  change (0 + Z.of_nat 1000) with 1000 in Hs.
  destruct (sign_loop 1000 nf 0 d _ hash) as [sig|e|]; [|by right|exact Hs].
  split; [exact Hs|]. split; [|lia]. unfold IsLowS. destruct Hs as [_ [_ Hs]]. by apply Z.leb_le.
Qed.

(** * Theorems *)


(** C34: decoding a compressed public key is total and sound: it never panics, and
    a key it accepts is a point of the curve whose compressed form is the input,
    byte for byte. *)
Theorem parse_compressed_sound (b : list byte) :
  match ParseCompressed b with
  | Ok p => onCurve p = true /\ SerializeCompressed p = Ok b
  | Err e => e ∈ [ErrBadPub; ErrXRange; ErrNotOnCurve; ErrDecompressed]
  | Panic => False
  end.
Proof.
  unfold ParseCompressed. destruct (Nat.eqb_spec (length b) 33) as [Hl|]; cbn [negb]; [|set_solver].
  destruct b as [|b0 r]; [done|]. change (index (b0 :: r) 0) with (Ok b0). cbn [rbind drop].
  change (drop 0 r) with r.
  destruct ((b2z b0 =? 0x02) || (b2z b0 =? 0x03)) eqn:Eb; cbn [negb]; [|set_solver].
  destruct (Z.leb_spec curveP (be_Z r)) as [|Hx]; [set_solver|].
  destruct (_ mod curveP =? _); cbn [negb]; [|set_solver].
  set (y := big_Exp _ _ _). clearbody y. set (y' := if negb (Bool.eqb _ _) then _ else _).
  destruct (onCurve (Some (be_Z r, y'))) eqn:Eo; cbn [negb]; [|set_solver]. split; [done|].
  assert (length r = 32%nat) as Hr by (simpl in Hl; lia).
  pose proof (be_Z_range r) as Hrange. rewrite Hr in Hrange.
  rewrite SerializeCompressed_eq by exact Hrange. rewrite be_bytes_Z by done. do 2 f_equal.
  etransitivity; [exact (parity_choice y (b2z b0 =? 0x03))|].
  apply b2z_inj. destruct (Z.eqb_spec (b2z b0) 3) as [->|]; [done|].
  destruct (Z.eqb_spec (b2z b0) 2) as [->|]; [done|]. done.
Qed.

(** the 64-byte form round-trips, and [Malleate] turns a signature with [s] in
    [[1, n-1]] into the other one with the same [r]: it flips [IsLowS], and
    applied twice gives the signature back. *)
Theorem malleate_flips_low_s (b : list byte) (sig : Signature) :
  ParseSignature b = Ok sig -> 1 <= sig_S sig < curveN ->
  sig_Serialize sig = Ok b /\
  exists b', Malleate b = Ok b' /\ ParseSignature b' = Ok (mkSig (sig_R sig) (curveN - sig_S sig))
    /\ IsLowS (mkSig (sig_R sig) (curveN - sig_S sig)) = negb (IsLowS sig) /\ Malleate b' = Ok b.
Proof.
  intros Hp HS. pose proof curve_order_small. pose proof nHalf_spec.
  assert (length b = 64%nat) as Hb by (unfold ParseSignature in Hp; destruct (Nat.eqb_spec (length b) 64); done).
  destruct (ParseSignature_spec b Hb) as (sig' & Hp' & Hf & Hsb). rewrite Hp' in Hp. injection Hp as ->.
  assert (sig_fits (mkSig (sig_R sig) (curveN - sig_S sig))) as Hf'.
  { split; cbn [sig_R sig_S]; [apply Hf|lia]. }
  split; [by rewrite sig_Serialize_eq, Hsb|].
  exists (sig_bytes (mkSig (sig_R sig) (curveN - sig_S sig))). unfold Malleate at 1. rewrite Hp'. cbn [rbind].
  split_and!; [by apply sig_Serialize_eq|by apply ParseSignature_bytes| |].
  - unfold IsLowS; cbn [sig_R sig_S]. destruct (Z.leb_spec (sig_S sig) nHalf); cbn [negb]; lia.
  - unfold Malleate. rewrite ParseSignature_bytes by done. cbn [rbind sig_R sig_S].
    replace (curveN - (curveN - sig_S sig)) with (sig_S sig) by ring.
    destruct sig; cbn [sig_R sig_S] in *. by rewrite sig_Serialize_eq, Hsb.
Qed.

(** affine addition is closed on the curve: two curve points add to the point
    at infinity exactly when they are mirror images, and otherwise to a curve
    point (the chord or tangent denominator being invertible modulo [p]). *)
Theorem point_add_on_curve (x1 y1 x2 y2 : Z) :
  onCurve (Some (x1, y1)) = true -> onCurve (Some (x2, y2)) = true ->
  Z.gcd (if x1 =? x2 then 2 * y1 else x2 - x1) curveP = 1 ->
  if (x1 =? x2) && negb (y1 =? y2)
  then pointAdd (Some (x1, y1)) (Some (x2, y2)) = None
  else onCurve (pointAdd (Some (x1, y1)) (Some (x2, y2))) = true.
Proof.
  intros C1 C2 Hg. unfold pointAdd. destruct (Z.eqb_spec x1 x2) as [->|Hx]; cbn [andb].
  - destruct (Z.eqb_spec y1 y2) as [->|Hy]; cbn [negb]; [|done].
    apply pointDouble_on_curve; [done| |done]. intros ->. by vm_compute in Hg.
  - apply onCurve_iff in C1 as (_ & _ & E1), C2 as (_ & _ & E2). cbv zeta.
    apply onCurve_line. eapply chord_dev; [exact E1|exact E2| |apply eqp_mod|apply eqp_mod].
    by apply inverse_eqp.
Qed.

(** * Witnesses *)


Definition demo_sig : Signature := mkSig 5 7.

Lemma malleate_flips_low_s_witness :
  ParseSignature (sig_bytes demo_sig) = Ok demo_sig /\
  sig_Serialize demo_sig = Ok (sig_bytes demo_sig) /\
  exists b', Malleate (sig_bytes demo_sig) = Ok b' /\ ParseSignature b' = Ok (mkSig 5 (curveN - 7))
    /\ IsLowS (mkSig 5 (curveN - 7)) = false /\ Malleate b' = Ok (sig_bytes demo_sig).
Proof.
  assert (Hp : ParseSignature (sig_bytes demo_sig) = Ok demo_sig) by (by vm_compute).
  split; [exact Hp|]. apply (malleate_flips_low_s (sig_bytes demo_sig) demo_sig Hp). by vm_compute.
Defined.

(** [2G], the double of the base point. *)
Definition demo_2G : Z * Z :=
  (0xC6047F9441ED7D6D3045406E95C07CD85C778E4B8CEF3CA7ABAC09B95C709EE5,
   0x1AE168FEA63DC339A3C58419466CEAEEF7F632653266D0E1236431A950CFE52A).

Lemma point_add_on_curve_witness :
  onCurve (pointAdd (Some (curveGx, curveGy)) (Some (fst demo_2G, snd demo_2G))) = true.
Proof.
  apply (point_add_on_curve curveGx curveGy (fst demo_2G) (snd demo_2G)); by vm_compute.
Defined.
