(* ===== verification/Channel.v ===== *)
(** * payment/channel: the pay-per-use channel ([src/payment/channel/channel.go],
      the signing half of [src/bsvtx/sign.go])

    The server-side channel state and every operation on it, commitment
    signing and verification over the real commitment-transaction sighash, the
    broadcastable settlement and the refund.  The theorems show that no
    operation can take the channel past its deposit or lose the commitment
    that backs what was paid, that payment covers every access served while no
    sum wraps, that settling splits the deposit exactly and closes the channel,
    and that the settlement transaction carries a client signature the input
    verifier accepts. *)

From stdpp Require Import base relations list strings.
From Stdlib Require Import ZArith Lia ZifyNat.
From Stdlib Require Strings.Byte.
From S2P Require Import Prelude Commitment Bsvtx Crypto.
Open Scope go_scope.

(** ** Input signatures (bsvtx/sign.go) *)

Definition SignInput (nf : nat) (priv : Z) (t : Tx) (idx : Z) (scriptCode : list byte) (amount hashType : Z)
  : result (list byte) :=
  let! h := SighashForkID t idx scriptCode amount hashType in
  let! sig := Sign nf priv h in
  Ok (derEncode (sig_R sig) (sig_S sig) ++ [z2b hashType]).

Definition VerifyInput (pub : point) (t : Tx) (idx : Z) (scriptCode : list byte) (amount : Z)
  (sigWithType : list byte) : result bool :=
  let n := Z.of_nat (length sigWithType) in
  if n <? 9 then Ok false
  else
    let! ht := index sigWithType (n - 1) in
    let hashType := b2z ht in
    match derDecode (take (length sigWithType - 1) sigWithType) with
    | Err _ => Ok false
    | Panic => Panic
    | Ok (r, s) =>
        let sig := mkSig r s in
        if negb (IsLowS sig) then Ok false
        else
          let! h := SighashForkID t idx scriptCode amount hashType in
          Ok (Verify pub h sig)
    end.

(** ** Prices *)

(** [type QueryType uint8]: the declared constants, other values possible. *)
Definition QSeen : Z := 0.
Definition QMined : Z := 1.
Definition QMerklePath : Z := 2.
Definition QUTXO : Z := 3.
Definition numQueryTypes : Z := 4.

Definition FeeUpfront : Z := 0.
Definition FeeAmortized : Z := 1.

Record Pricing : Type := mkPricing
  { Flat : bool; FlatPrice : Z; PerType : list Z; SettleFee : Z; FeeMode : Z }.

Definition service (p : Pricing) (q : Z) : result Z :=
  if Flat p then Ok (FlatPrice p)
  else if q <? Z.of_nat (length (PerType p)) then index (PerType p) q
  else Ok 0.

Definition ceilDiv (a b : Z) : Z := if b =? 0 then 0 else u64 (u64 (a + b) - 1) / b.

(** ** Channel data *)

Record Params : Type := mkParams
  { p_ChannelID : Hash; p_FundingTxID : Hash; p_FundingVout : Z; p_ClientPub : list byte;
    p_ServerPub : list byte; p_FundingValue : Z; p_Fee : Z }.

Definition channelTx (p : Params) : ChannelTx :=
  mkChannelTx (mkOutPoint (p_FundingTxID p) (p_FundingVout p)) (p_FundingValue p)
    (p_ClientPub p) (p_ServerPub p) (p_Fee p).

(** [Sig] is a pointer: [None] is nil. *)
Record Commitment : Type := mkCommitment { c_CumAmount : Z; c_Sig : option Signature }.

Record Config : Type := mkConfig
  { cfg_Params : Params; cfg_Deposit : Z; cfg_ClientPub : option point; cfg_Pricing : Pricing;
    cfg_N : Z; cfg_RefundLockTime : Z; cfg_SettleBefore : Z }.

Definition ErrBadSig : error := "channel: invalid or non-canonical commitment signature"%string.
Definition ErrUnderpaid : error := "channel: commitment does not cover the next access"%string.
Definition ErrExceedsDeposit : error := "channel: cumulative amount exceeds the deposit"%string.
Definition ErrClosed : error := "channel: already settled/closed"%string.
Definition ErrConfig : error := "channel: invalid configuration"%string.
Definition ErrNoCommitment : error := "channel: no commitment to settle"%string.

Record Channel : Type := mkChannel
  { ch_cfg : Config; ch_accesses : Z; ch_cumPaid : Z; ch_best : option Commitment; ch_closed : bool }.

(** ** Opening *)

Definition set_Params (cfg : Config) (p : Params) : Config :=
  mkConfig p (cfg_Deposit cfg) (cfg_ClientPub cfg) (cfg_Pricing cfg) (cfg_N cfg)
    (cfg_RefundLockTime cfg) (cfg_SettleBefore cfg).

Definition Open (cfg : Config) : result Channel :=
  match cfg_ClientPub cfg with
  | None => Err ErrConfig
  | Some pub =>
      if cfg_Deposit cfg =? 0 then Err ErrConfig
      else if (FeeMode (cfg_Pricing cfg) =? FeeAmortized) && (cfg_N cfg =? 0) then Err ErrConfig
      else if (cfg_N cfg =? 0) && (cfg_SettleBefore cfg =? 0) then Err ErrConfig
      else if negb (cfg_RefundLockTime cfg =? 0) && negb (cfg_SettleBefore cfg =? 0)
              && (cfg_RefundLockTime cfg <=? cfg_SettleBefore cfg) then Err ErrConfig
      else
        let p := cfg_Params cfg in
        let p := if p_FundingValue p =? 0
                 then mkParams (p_ChannelID p) (p_FundingTxID p) (p_FundingVout p) (p_ClientPub p)
                        (p_ServerPub p) (cfg_Deposit cfg) (p_Fee p)
                 else p in
        let! cp := match p_ClientPub p with
                   | [] => SerializeCompressed pub
                   | b => Ok b
                   end in
        let p := mkParams (p_ChannelID p) (p_FundingTxID p) (p_FundingVout p) cp
                   (p_ServerPub p) (p_FundingValue p) (p_Fee p) in
        Ok (mkChannel (set_Params cfg p) 0 0 None false)
  end.

(** ** Prepayment *)

Definition feeComponent (ch : Channel) (accessNo : Z) : Z :=
  let pr := cfg_Pricing (ch_cfg ch) in
  if FeeMode pr =? FeeUpfront then if accessNo =? 1 then SettleFee pr else 0
  else if FeeMode pr =? FeeAmortized then ceilDiv (SettleFee pr) (cfg_N (ch_cfg ch))
  else 0.

Definition Quote (ch : Channel) (q : Z) : result Z :=
  let! p := service (cfg_Pricing (ch_cfg ch)) q in
  Ok (u64 (u64 (ch_cumPaid ch + p) + feeComponent ch (u64 (ch_accesses ch + 1)))).

Definition sighash (p : Params) (cum : Z) : result (list byte) := CommitmentSighash (channelTx p) cum.

Definition verify (pub : option point) (p : Params) (cum : Z) (sig : Signature) : result bool :=
  if negb (IsLowS sig) then Ok false
  else
    match sighash p cum with
    | Err _ => Ok false
    | Panic => Panic
    | Ok h => Ok (match pub with Some pub => Verify pub h sig | None => false end)
    end.

Definition Authorize (c : option Commitment) (q : Z) : M Channel unit := fun ch =>
  if ch_closed ch then (Err ErrClosed, ch)
  else match c with
  | None => (Err ErrBadSig, ch)
  | Some c =>
      match c_Sig c with
      | None => (Err ErrBadSig, ch)
      | Some sig =>
          match Quote ch q with
          | Err e => (Err e, ch)
          | Panic => (Panic, ch)
          | Ok required =>
              if c_CumAmount c <? required then (Err ErrUnderpaid, ch)
              else if cfg_Deposit (ch_cfg ch) <? c_CumAmount c then (Err ErrExceedsDeposit, ch)
              else match verify (cfg_ClientPub (ch_cfg ch)) (cfg_Params (ch_cfg ch)) (c_CumAmount c) sig with
              | Err e => (Err e, ch)
              | Panic => (Panic, ch)
              | Ok false => (Err ErrBadSig, ch)
              | Ok true =>
                  (Ok tt, mkChannel (ch_cfg ch) (u64 (ch_accesses ch + 1)) (c_CumAmount c) (Some c) false)
              end
          end
      end
  end.

Record Snapshot : Type := mkSnapshot
  { sn_Accesses : Z; sn_CumPaid : Z; sn_Deposit : Z; sn_Closed : bool }.
Definition ch_Snapshot (ch : Channel) : Snapshot :=
  mkSnapshot (ch_accesses ch) (ch_cumPaid ch) (cfg_Deposit (ch_cfg ch)) (ch_closed ch).

(** ** Settlement and refund *)

Definition ShouldSettle (ch : Channel) (now : Z) : bool * string :=
  if ch_closed ch then (false, "closed"%string)
  else if (0 <? cfg_N (ch_cfg ch)) && (cfg_N (ch_cfg ch) <=? ch_accesses ch) then (true, "count"%string)
  else if (0 <? cfg_SettleBefore (ch_cfg ch)) && (cfg_SettleBefore (ch_cfg ch) <=? now)
  then (true, "time"%string)
  else (false, ""%string).

Record Settlement : Type := mkSettlement
  { st_ToServer : Z; st_ToClient : Z; st_MiningFee : Z; st_NetServer : Z; st_Accesses : Z }.

Definition Settle : M Channel Settlement := fun ch =>
  if ch_closed ch then (Err ErrClosed, ch)
  else
    let ch := mkChannel (ch_cfg ch) (ch_accesses ch) (ch_cumPaid ch) (ch_best ch) true in
    let mining := SettleFee (cfg_Pricing (ch_cfg ch)) in
    let mining := if ch_cumPaid ch <? mining then ch_cumPaid ch else mining in
    (Ok (mkSettlement (ch_cumPaid ch) (u64 (cfg_Deposit (ch_cfg ch) - ch_cumPaid ch)) mining
           (u64 (ch_cumPaid ch - mining)) (ch_accesses ch)), ch).

Record RefundTerms : Type := mkRefund { rf_LockTime : Z; rf_Amount : Z; rf_ToClient : bool }.
Definition Refund (ch : Channel) : RefundTerms :=
  mkRefund (cfg_RefundLockTime (ch_cfg ch)) (cfg_Deposit (ch_cfg ch)) true.

Definition SignCommitment (nf : nat) (priv : Z) (p : Params) (cum : Z) : result Commitment :=
  let! h := sighash p cum in
  let! sig := Sign nf priv h in
  Ok (mkCommitment cum (Some sig)).

Definition derFromSig (s : Signature) : list byte := DEREncode (sig_R s) (sig_S s).

Definition SettlementTx (nf : nat) (serverPriv : Z) (ch : Channel) : result Tx :=
  match ch_best ch with
  | None => Err ErrNoCommitment
  | Some best =>
      let c := channelTx (cfg_Params (ch_cfg ch)) in
      let! tx := CommitmentTx c (ch_cumPaid ch) in
      let! serverSig := SignInput nf serverPriv tx 0 (Redeem c) (ct_FundingValue c) SighashAllFork in
      match c_Sig best with
      | None => Panic
      | Some s => Finalize2of2 tx (derFromSig s ++ [z2b SighashAllFork]) serverSig
      end
  end.

Definition RefundTxUnsigned (ch : Channel) : Tx :=
  RefundTx (channelTx (cfg_Params (ch_cfg ch))) (cfg_RefundLockTime (ch_cfg ch)).

Definition DeriveChannelID (fundingTxID : Hash) (vout : Z) : Hash :=
  DoubleSHA256 (abytes fundingTxID
    ++ [z2b vout; z2b (Z.shiftr vout 8); z2b (Z.shiftr vout 16); z2b (Z.shiftr vout 24)]).

(** * Lemmas *)

(** ** Well-typed values: what Go's types hold *)

Definition pricing_ok (p : Pricing) : Prop :=
  u64_ok (FlatPrice p) /\ u64_ok (SettleFee p) /\ length (PerType p) = 4%nat /\ Forall u64_ok (PerType p).
Definition cfg_ok (cfg : Config) : Prop :=
  u64_ok (cfg_Deposit cfg) /\ u64_ok (cfg_N cfg) /\ pricing_ok (cfg_Pricing cfg).
Definition comm_ok (c : option Commitment) : Prop :=
  match c with Some c => u64_ok (c_CumAmount c) | None => True end.

Definition price (cfg : Config) (q : Z) : Z :=
  match service (cfg_Pricing cfg) q with Ok p => p | _ => 0 end.

Lemma service_price cfg q : cfg_ok cfg -> 0 <= q ->
  service (cfg_Pricing cfg) q = Ok (price cfg q) /\ u64_ok (price cfg q).
Proof.
  intros (_ & _ & Hf & _ & Hl & Hp) Hq. unfold price.
  assert (exists p, service (cfg_Pricing cfg) q = Ok p /\ u64_ok p) as (p & -> & Hk); [|done].
  unfold service. destruct (Flat (cfg_Pricing cfg)); [by eexists|].
  destruct (Z.ltb_spec q (Z.of_nat (length (PerType (cfg_Pricing cfg))))) as [Hlt|]; [|by exists 0].
  destruct (lookup_lt_is_Some_2 (PerType (cfg_Pricing cfg)) (Z.to_nat q)) as [p Ep]; [lia|].
  exists p. split; [by apply index_ok|]. by eapply Forall_lookup_1.
Qed.

Lemma feeComponent_range ch n : cfg_ok (ch_cfg ch) -> 0 <= feeComponent ch n < 2 ^ 64.
Proof.
  intros (_ & HN & _ & HS & _). unfold feeComponent, ceilDiv, u64_ok in *.
  repeat case_match; zbool; try lia.
  pose proof (u64_range (u64 (SettleFee (cfg_Pricing (ch_cfg ch)) + cfg_N (ch_cfg ch)) - 1)) as Hr.
  split; [apply Z.div_pos; lia|]. apply Z.div_lt_upper_bound; nia.
Qed.

(** ** Verification *)

Lemma CommitmentSighash_total c v : CommitmentSighash c v <> Panic.
Proof. unfold CommitmentSighash, CommitmentTx. by destruct (_ <? _). Qed.

Lemma verify_total pub p cum sig : exists b, verify pub p cum sig = Ok b.
Proof.
  unfold verify, sighash. destruct (negb (IsLowS sig)); [by eexists|].
  pose proof (CommitmentSighash_total (channelTx p) cum).
  destruct (CommitmentSighash (channelTx p) cum); [by eexists..|done].
Qed.

(** What an accepted commitment signature proves. *)
Lemma verify_true pub p cum sig : verify pub p cum sig = Ok true ->
  exists k h, pub = Some k /\ CommitmentSighash (channelTx p) cum = Ok h
    /\ IsLowS sig = true /\ Verify k h sig = true.
Proof.
  unfold verify, sighash. destruct (IsLowS sig); cbn [negb]; [|done].
  destruct (CommitmentSighash (channelTx p) cum) as [h| |]; [|done..].
  destruct pub as [k|]; [|done]. intros [= Hv]. eauto 10.
Qed.

(** ** The branches of [Authorize] *)

Definition accepts (ch : Channel) (c : Commitment) (q : Z) : Prop :=
  ch_closed ch = false /\ (exists sig, c_Sig c = Some sig
    /\ verify (cfg_ClientPub (ch_cfg ch)) (cfg_Params (ch_cfg ch)) (c_CumAmount c) sig = Ok true)
  /\ (exists required, Quote ch q = Ok required /\ required <= c_CumAmount c <= cfg_Deposit (ch_cfg ch)).

Definition accepted (ch : Channel) (c : Commitment) : Channel :=
  mkChannel (ch_cfg ch) (u64 (ch_accesses ch + 1)) (c_CumAmount c) (Some c) false.

Lemma Authorize_cases c q ch : cfg_ok (ch_cfg ch) -> 0 <= q ->
  (exists c', c = Some c' /\ accepts ch c' q /\ Authorize c q ch = (Ok tt, accepted ch c'))
  \/ ((exists e, Authorize c q ch = (Err e, ch)
         /\ (e = ErrClosed \/ e = ErrBadSig \/ e = ErrUnderpaid \/ e = ErrExceedsDeposit))
      /\ ~ exists c', c = Some c' /\ accepts ch c' q).
Proof.
  intros Hc Hq. unfold Authorize.
  destruct (ch_closed ch) eqn:Ecl.
  { right. split; [eauto|]. intros (c' & _ & Ha & _). congruence. }
  destruct c as [c|]; [|right; split; [eauto|by intros (? & ? & _)]].
  destruct (c_Sig c) as [sig|] eqn:Es.
  2:{ right. split; [eauto|]. intros (c' & [= <-] & _ & (sig & Hs & _) & _). congruence. }
  destruct (service_price (ch_cfg ch) q Hc Hq) as [Hp _].
  assert (exists r, Quote ch q = Ok r) as [r Er] by (unfold Quote; rewrite Hp; by eexists). rewrite Er.
  destruct (Z.ltb_spec (c_CumAmount c) r).
  { right. split; [eauto 6|]. intros (c' & [= <-] & _ & _ & (r' & Hr & ?)). rewrite Er in Hr. injection Hr as <-. lia. }
  destruct (Z.ltb_spec (cfg_Deposit (ch_cfg ch)) (c_CumAmount c)).
  { right. split; [eauto 6|]. intros (c' & [= <-] & _ & _ & (r' & Hr & ?)). lia. }
  destruct (verify_total (cfg_ClientPub (ch_cfg ch)) (cfg_Params (ch_cfg ch)) (c_CumAmount c) sig) as [[] Ev];
    rewrite Ev.
  - left. exists c. split_and!; [done| |done]. split_and!; eauto.
  - right. split; [eauto|]. intros (c' & [= <-] & _ & (sig' & Hs & Hv) & _). congruence.
Qed.

(** ** Invariant *)

(** The paid total is backed by the commitment that is kept. *)
Definition backed (ch : Channel) : Prop :=
  match ch_best ch with
  | None => ch_cumPaid ch = 0 /\ ch_accesses ch = 0
  | Some c => c_CumAmount c = ch_cumPaid ch /\ exists sig, c_Sig c = Some sig
      /\ verify (cfg_ClientPub (ch_cfg ch)) (cfg_Params (ch_cfg ch)) (ch_cumPaid ch) sig = Ok true
  end.
Definition ch_inv (ch : Channel) : Prop :=
  cfg_ok (ch_cfg ch) /\ u64_ok (ch_accesses ch) /\ 0 <= ch_cumPaid ch <= cfg_Deposit (ch_cfg ch) /\ backed ch.

(** The operations that change a channel, with well-typed arguments. *)
Inductive ch_step : Channel -> Channel -> Prop :=
| step_authorize c q ch : comm_ok c -> 0 <= q -> ch_step ch (snd (Authorize c q ch))
| step_settle ch : ch_step ch (snd (Settle ch)).

Lemma Open_inv cfg ch : cfg_ok cfg -> Open cfg = Ok ch -> ch_inv ch.
Proof.
  intros Hc. unfold Open. repeat case_match; try done.
  all: match goal with |- context [rbind ?r _] => destruct r; [|done..] end; intros [= <-].
  all: pose proof Hc as (Hd & _); unfold u64_ok in Hd; split_and!; [exact Hc|done|simpl; lia..|done].
Qed.

(** A fresh channel: nothing paid, the terms of the configuration. *)
Lemma Open_terms cfg ch : Open cfg = Ok ch ->
  ch_accesses ch = 0 /\ ch_cumPaid ch = 0 /\ cfg_Deposit (ch_cfg ch) = cfg_Deposit cfg
  /\ cfg_N (ch_cfg ch) = cfg_N cfg /\ cfg_Pricing (ch_cfg ch) = cfg_Pricing cfg
  /\ (FeeMode (cfg_Pricing cfg) = FeeAmortized -> cfg_N cfg <> 0) /\ cfg_ClientPub (ch_cfg ch) = cfg_ClientPub cfg.
Proof.
  unfold Open. destruct (cfg_ClientPub cfg) eqn:Ek; [|done]. destruct (cfg_Deposit cfg =? 0); [done|].
  destruct ((FeeMode (cfg_Pricing cfg) =? FeeAmortized) && (cfg_N cfg =? 0)) eqn:EA; [done|].
  destruct ((cfg_N cfg =? 0) && _); [done|]. destruct (negb _ && negb _ && _); [done|]. cbv zeta.
  match goal with |- rbind ?m _ = _ -> _ => destruct m; [|done..] end. intros [= <-]. simpl.
  split_and!; try done. intros Hm. rewrite Hm in EA. by destruct (Z.eqb_spec (cfg_N cfg) 0).
Qed.

Lemma Authorize_inv c q ch : ch_inv ch -> comm_ok c -> 0 <= q -> ch_inv (snd (Authorize c q ch)).
Proof.
  intros Hi Hc Hq. pose proof Hi as (Hcfg & Ha & Hp & Hb).
  destruct (Authorize_cases c q ch Hcfg Hq) as [(c' & -> & (_ & (sig & Hs & Hv) & (r & _ & Hr)) & ->)|[(e & -> & _) _]];
    [|done].
  split; [done|]. simpl in *. unfold u64_ok in Hc. split_and!; [apply u64_range|lia|lia|].
  split; [done|]. by exists sig.
Qed.

Lemma Settle_inv ch : ch_inv ch -> ch_inv (snd (Settle ch)).
Proof. intros Hi. unfold Settle. destruct (ch_closed ch); exact Hi. Qed.

Lemma step_inv ch ch' : ch_step ch ch' -> ch_inv ch -> ch_inv ch'.
Proof. intros [c q ? Hc Hq|?] Hi; [by apply Authorize_inv|by apply Settle_inv]. Qed.

Lemma steps_inv ch ch' : rtc ch_step ch ch' -> ch_inv ch -> ch_inv ch'.
Proof. induction 1; eauto using step_inv. Qed.

Lemma Authorize_cfg c q ch : ch_cfg (snd (Authorize c q ch)) = ch_cfg ch.
Proof. unfold Authorize. repeat case_match; done. Qed.

(** ** Accounting of a run of access attempts *)

(** Attempts in order; the query types of the accepted ones are the accesses served. *)
Fixpoint serve (l : list (option Commitment * Z)) (ch : Channel) : list Z * Channel :=
  match l with
  | [] => ([], ch)
  | (c, q) :: r =>
      match Authorize c q ch with
      | (Ok _, ch') => let '(qs, ch'') := serve r ch' in (q :: qs, ch'')
      | (_, ch') => serve r ch'
      end
  end.

Fixpoint price_sum (cfg : Config) (qs : list Z) : Z :=
  match qs with [] => 0 | q :: r => price cfg q + price_sum cfg r end.

(** The settlement fee collected over accesses [from+1 .. from+k]. *)
Fixpoint fee_sum (ch : Channel) (from : Z) (k : nat) : Z :=
  match k with O => 0 | S k' => feeComponent ch (from + 1) + fee_sum ch (from + 1) k' end.

(** No quote of the channel wraps. *)
Definition no_wrap (cfg : Config) : Prop :=
  cfg_N cfg + SettleFee (cfg_Pricing cfg) < 2 ^ 64 /\
  forall q, 0 <= q -> cfg_Deposit cfg + price cfg q + SettleFee (cfg_Pricing cfg) < 2 ^ 64.

Lemma ceilDiv_bounds a b : 0 <= a -> 0 < b -> a + b < 2 ^ 64 -> a <= b * ceilDiv a b /\ 0 <= ceilDiv a b <= a.
Proof.
  intros Ha Hb Hw. unfold ceilDiv. destruct (Z.eqb_spec b 0); [lia|].
  rewrite (u64_small (a + b)), u64_small by lia.
  pose proof (Z.div_mod (a + b - 1) b ltac:(lia)). pose proof (Z.mod_pos_bound (a + b - 1) b ltac:(lia)). nia.
Qed.

Lemma fee_le ch n : cfg_ok (ch_cfg ch) -> no_wrap (ch_cfg ch) ->
  0 <= feeComponent ch n <= SettleFee (cfg_Pricing (ch_cfg ch)).
Proof.
  intros (_ & HN & _ & HS & _) [Hw _]. unfold feeComponent, u64_ok in *.
  repeat case_match; zbool; try lia. destruct (Z.eqb_spec (cfg_N (ch_cfg ch)) 0) as [E|].
  - rewrite E. unfold ceilDiv. simpl. lia.
  - apply ceilDiv_bounds; lia.
Qed.

Lemma Quote_exact ch q : ch_inv ch -> no_wrap (ch_cfg ch) -> 0 <= q -> ch_accesses ch + 1 < 2 ^ 64 ->
  Quote ch q = Ok (ch_cumPaid ch + price (ch_cfg ch) q + feeComponent ch (ch_accesses ch + 1)).
Proof.
  intros (Hc & Ha & Hp & _) Hw Hq Hk. destruct (service_price _ q Hc Hq) as [Hs Hu]. unfold Quote. rewrite Hs.
  cbn [rbind]. unfold u64_ok in *. pose proof (fee_le ch (ch_accesses ch + 1) Hc Hw) as Hf. destruct Hw as [_ Hw].
  specialize (Hw q Hq). rewrite (u64_small (ch_accesses ch + 1)) by lia.
  rewrite (u64_small (ch_cumPaid ch + price (ch_cfg ch) q)) by lia. by rewrite u64_small by lia.
Qed.

Lemma feeComponent_cfg ch ch' n : ch_cfg ch = ch_cfg ch' -> feeComponent ch n = feeComponent ch' n.
Proof. intros E. unfold feeComponent. by rewrite E. Qed.
Lemma fee_sum_cfg ch ch' from k : ch_cfg ch = ch_cfg ch' -> fee_sum ch from k = fee_sum ch' from k.
Proof.
  intros E. revert from. induction k as [|k IH]; intros from; [done|]. simpl.
  by rewrite IH, (feeComponent_cfg ch ch').
Qed.

(** Every served access raises the paid total by at least its price and its share of the fee. *)
Lemma serve_accounts l ch qs ch' :
  ch_inv ch -> no_wrap (ch_cfg ch) -> Forall (fun a => comm_ok (fst a) /\ 0 <= snd a) l ->
  ch_accesses ch + Z.of_nat (length l) < 2 ^ 64 -> serve l ch = (qs, ch') ->
  ch_inv ch' /\ ch_cfg ch' = ch_cfg ch /\ ch_accesses ch' = ch_accesses ch + Z.of_nat (length qs)
  /\ ch_cumPaid ch + price_sum (ch_cfg ch) qs + fee_sum ch (ch_accesses ch) (length qs) <= ch_cumPaid ch'.
Proof.
  revert ch qs. induction l as [|[c q] l IH]; intros ch qs Hi Hw Hl Hk; simpl.
  { intros [= <- <-]. simpl. split_and!; [done..|lia|lia]. }
  apply Forall_cons in Hl as [[Hc Hq] Hl]. simpl in Hc, Hq, Hk. pose proof Hi as (Hcfg & Ha & _).
  pose proof (Authorize_inv c q ch Hi Hc Hq) as Hi'. unfold u64_ok in Ha.
  destruct (Authorize_cases c q ch Hcfg Hq) as [(c' & -> & (_ & _ & (r & Hr & Hle)) & E)|[(e & E & _) _]];
    rewrite E in *; [|intros Hs; apply IH; [done..|lia|done]].
  rewrite Quote_exact in Hr by (done || lia). injection Hr as <-.
  destruct (serve l (accepted ch c')) as [qs' ch''] eqn:Es. intros [= <- <-].
  simpl in Hi'. assert (Hacc : ch_accesses (accepted ch c') = ch_accesses ch + 1) by (apply u64_small; lia).
  apply IH in Es as (H1 & H2 & H3 & H4); [|done..|rewrite Hacc; lia].
  rewrite Hacc in *. rewrite (fee_sum_cfg (accepted ch c') ch) in H4 by done.
  change (ch_cfg (accepted ch c')) with (ch_cfg ch) in *. change (ch_cumPaid (accepted ch c')) with (c_CumAmount c') in *.
  simpl. split_and!; [done..|lia|lia].
Qed.

Lemma fee_sum_nonneg ch from k : cfg_ok (ch_cfg ch) -> no_wrap (ch_cfg ch) -> 0 <= fee_sum ch from k.
Proof.
  intros Hc Hw. revert from. induction k as [|k IH]; intros from; simpl; [lia|].
  pose proof (fee_le ch (from + 1) Hc Hw). specialize (IH (from + 1)). lia.
Qed.
Lemma fee_sum_upfront ch k from : FeeMode (cfg_Pricing (ch_cfg ch)) = FeeUpfront -> from = 0 -> (0 < k)%nat ->
  cfg_ok (ch_cfg ch) -> no_wrap (ch_cfg ch) -> SettleFee (cfg_Pricing (ch_cfg ch)) <= fee_sum ch from k.
Proof.
  intros Hm -> Hk Hc Hw. destruct k as [|k]; [lia|]. simpl.
  pose proof (fee_sum_nonneg ch (0 + 1) k Hc Hw).
  unfold feeComponent at 1. rewrite Hm. simpl. lia.
Qed.
Lemma fee_sum_amortized ch k from : FeeMode (cfg_Pricing (ch_cfg ch)) = FeeAmortized ->
  fee_sum ch from k = Z.of_nat k * ceilDiv (SettleFee (cfg_Pricing (ch_cfg ch))) (cfg_N (ch_cfg ch)).
Proof.
  intros Hm. revert from. induction k as [|k IH]; intros from; simpl fee_sum; [lia|]. rewrite IH.
  rewrite Nat2Z.inj_succ, Z.mul_succ_l, Z.add_comm. unfold feeComponent. by rewrite Hm.
Qed.

(** ** Settlement transactions *)

(** The sighash ignores unlocking scripts, so finalising does not change it. *)
Lemma SighashForkID_finalize tx tx' a b idx code amount ht : Finalize2of2 tx a b = Ok tx' ->
  SighashForkID tx' idx code amount ht = SighashForkID tx idx code amount ht.
Proof.
  unfold Finalize2of2. destruct tx as [v ins outs lt]; cbn [t_Inputs]. destruct ins as [|i r]; [discriminate|].
  intros [= <-]. unfold SighashForkID, hash_outputs, preimage, hash_prevouts, hash_sequence.
  cbn [t_Version t_Inputs t_Outputs t_LockTime]. rewrite !fmap_cons. cbn [i_PrevOut i_Sequence].
  match goal with |- rbind ?m _ = _ => destruct m as [o| |]; [|reflexivity..] end. cbn [rbind].
  unfold index. destruct (idx <? 0); [reflexivity|]. destruct (Z.to_nat idx) as [|n]; [reflexivity|].
  rewrite !lookup_cons. destruct (r !! n); reflexivity.
Qed.

Lemma der_sig_length r s : 0 <= r < 2 ^ 256 -> 0 <= s < 2 ^ 256 -> (8 <= length (derEncode r s))%nat.
Proof.
  intros Hr Hs. destruct (derEncodeInt_content r Hr) as (br & Er & _ & Hlr).
  destruct (derEncodeInt_content s Hs) as (bs & Es & _ & Hls).
  unfold derEncode. cbv zeta. rewrite Er, Es. cbn [length]. rewrite length_app. simpl. lia.
Qed.

(** The client's stored signature, in scriptSig form, passes the input verifier. *)
Lemma VerifyInput_der pub tx idx code amount h sig :
  0 <= sig_R sig < 2 ^ 256 -> 0 <= sig_S sig < 2 ^ 256 -> IsLowS sig = true ->
  SighashForkID tx idx code amount SighashAllFork = Ok h ->
  VerifyInput pub tx idx code amount (derFromSig sig ++ [z2b SighashAllFork]) = Ok (Verify pub h sig).
Proof.
  intros HR HS Hlow Hh. pose proof (der_sig_length _ _ HR HS) as Hl. unfold VerifyInput, derFromSig, DEREncode.
  rewrite length_app. cbn [length]. rewrite (proj2 (Z.ltb_ge _ _)) by lia.
  replace (Z.of_nat (length (derEncode (sig_R sig) (sig_S sig)) + 1) - 1)
    with (Z.of_nat (length (derEncode (sig_R sig) (sig_S sig)))) by lia.
  rewrite (index_nat _ _ (z2b SighashAllFork)) by (by rewrite list_lookup_middle). cbn [rbind].
  rewrite Nat.add_sub, take_app_length. rewrite der_roundtrip by done. destruct sig as [R S]. cbn [sig_R sig_S] in *.
  rewrite Hlow. cbn [negb]. change (b2z (z2b SighashAllFork)) with SighashAllFork. by rewrite Hh.
Qed.

Lemma CommitmentTx_sighash c v h : CommitmentSighash c v = Ok h ->
  exists tx, CommitmentTx c v = Ok tx /\ SighashForkID tx 0 (Redeem c) (ct_FundingValue c) SighashAllFork = Ok h
    /\ exists i, t_Inputs tx = [i].
Proof.
  unfold CommitmentSighash. destruct (CommitmentTx c v) as [tx| |] eqn:E; [|done..]. cbn [rbind]. intros H.
  exists tx. split_and!; [done..|]. unfold CommitmentTx in E. destruct (_ <? _); [done|]. injection E as <-. by eexists.
Qed.

Lemma CommitmentTx_shape c v tx : CommitmentTx c v = Ok tx -> exists back,
  tx = mkTx 2 [mkTxIn (ct_FundingOut c) [] FinalSequence]
         [mkTxOut v (P2PK (ct_ServerPub c)); mkTxOut back (P2PK (ct_ClientPub c))] 0.
Proof. unfold CommitmentTx. destruct (_ <? _); [discriminate|]. intros [= <-]. by eexists. Qed.

(** * Theorems *)

(** C10: whatever sequence of prepayments (valid, forged, replayed) and
    settlements a freshly opened channel goes through, the paid total stays
    within the deposit and is the amount of the commitment that is kept, whose
    low-S signature verifies under the client's key over the sighash of the
    commitment transaction paying exactly that total; the terms of the channel
    never change. *)
Theorem channel_invariant (cfg : Config) (ch0 ch : Channel) :
  cfg_ok cfg -> Open cfg = Ok ch0 -> rtc ch_step ch0 ch ->
  0 <= ch_cumPaid ch <= cfg_Deposit cfg /\ ch_cfg ch = ch_cfg ch0 /\
  match ch_best ch with
  | None => ch_cumPaid ch = 0 /\ ch_accesses ch = 0
  | Some c => c_CumAmount c = ch_cumPaid ch /\ exists sig pub h,
      c_Sig c = Some sig /\ cfg_ClientPub cfg = Some pub
      /\ CommitmentSighash (channelTx (cfg_Params (ch_cfg ch))) (ch_cumPaid ch) = Ok h
      /\ IsLowS sig = true /\ Verify pub h sig = true
  end.
Proof.
  intros Hc Ho Hs. pose proof (Open_inv cfg ch0 Hc Ho) as Hi0.
  assert (Hcfg : ch_cfg ch = ch_cfg ch0).
  { clear Hi0 Ho Hc. induction Hs as [|? ? ? Hst _ IH]; [done|]. rewrite IH.
    destruct Hst; [apply Authorize_cfg|]. unfold Settle. by destruct (ch_closed ch). }
  destruct (Open_terms cfg ch0 Ho) as (_ & _ & Hd & _ & _ & _ & Hk).
  pose proof (steps_inv ch0 ch Hs Hi0) as (_ & _ & Hp & Hb). rewrite Hcfg in *.
  rewrite Hd in Hp. split_and!; [lia..|done|].
  unfold backed in Hb. destruct (ch_best ch) as [c|]; [|done].
  destruct Hb as [He (sig & Es & Hv)]. split; [done|]. rewrite Hcfg in Hv.
  apply verify_true in Hv as (pub & h & Hpub & Hh & Hl & Hver). exists sig, pub, h.
  rewrite <- Hk. done.
Qed.

(** C20: the outcome of [Authorize] on every branch: an open channel accepts
    exactly a commitment with a valid low-S signature whose amount covers the
    quote for the query and stays within the deposit, and then records it;
    otherwise one of the four errors is returned and the channel is unchanged. *)
Theorem authorize_exact (c : option Commitment) (q : Z) (ch : Channel) :
  cfg_ok (ch_cfg ch) -> 0 <= q ->
  (exists c', c = Some c' /\ accepts ch c' q /\ Authorize c q ch = (Ok tt, accepted ch c'))
  \/ ((exists e, Authorize c q ch = (Err e, ch)
         /\ (e = ErrClosed \/ e = ErrBadSig \/ e = ErrUnderpaid \/ e = ErrExceedsDeposit))
      /\ ~ exists c', c = Some c' /\ accepts ch c' q).
Proof. apply Authorize_cases. Qed.


(** settling splits the deposit.  On an open channel that satisfies the
    invariant, [Settle] returns the paid total for the server and the rest of
    the deposit for the client, takes the mining fee out of the server's share
    without making it negative, and closes the channel: a second [Settle] and
    every later [Authorize] return [ErrClosed] and change nothing. *)
Theorem settle_splits_deposit (ch : Channel) :
  ch_inv ch -> ch_closed ch = false ->
  exists st ch', Settle ch = (Ok st, ch')
    /\ st_ToServer st = ch_cumPaid ch /\ st_ToServer st + st_ToClient st = cfg_Deposit (ch_cfg ch)
    /\ st_NetServer st + st_MiningFee st = st_ToServer st /\ 0 <= st_NetServer st /\ 0 <= st_ToClient st
    /\ st_MiningFee st = Z.min (SettleFee (cfg_Pricing (ch_cfg ch))) (ch_cumPaid ch)
    /\ Settle ch' = (Err ErrClosed, ch') /\ forall c q, Authorize c q ch' = (Err ErrClosed, ch').
Proof.
  intros (Hc & _ & Hp & _) Hcl. unfold Settle at 1. rewrite Hcl. eexists _, _. split; [done|].
  cbn [ch_cfg ch_cumPaid ch_closed st_ToServer st_ToClient st_NetServer st_MiningFee].
  destruct Hc as (Hd & _ & _ & HS & _). unfold u64_ok in *.
  rewrite (u64_small (_ - ch_cumPaid ch)) by lia.
  destruct (Z.ltb_spec (ch_cumPaid ch) (SettleFee (cfg_Pricing (ch_cfg ch))));
    rewrite u64_small by lia; split_and!; (done || lia).
Qed.

(** C23: the settlement transaction is built whenever something was paid and the
    server can sign: it pays the paid total to the server's key and spends the
    funding output with a scriptSig holding the client's stored signature,
    which the input verifier accepts for the finished transaction. *)
Theorem settlement_tx_valid (nf : nat) (serverPriv : Z) (ch : Channel) (best : Commitment) :
  ch_inv ch -> ch_best ch = Some best -> 0 <= serverPriv ->
  let c := channelTx (cfg_Params (ch_cfg ch)) in
  match SettlementTx nf serverPriv ch with
  | Ok tx =>
      exists pub clientSig serverSig back,
        cfg_ClientPub (ch_cfg ch) = Some pub
        /\ i_PrevOut <$> t_Inputs tx = [ct_FundingOut c]
        /\ i_ScriptSig <$> t_Inputs tx = [ScriptSig2of2 clientSig serverSig]
        /\ t_Outputs tx = [mkTxOut (ch_cumPaid ch) (P2PK (ct_ServerPub c)); mkTxOut back (P2PK (ct_ClientPub c))]
        /\ VerifyInput pub tx 0 (Redeem c) (ct_FundingValue c) clientSig = Ok true
  | Err e => (e = ErrInvalidKey /\ ~ 1 <= serverPriv < curveN) \/ e = ErrSign
  | Panic => exists h i, rfc6979Nonce nf serverPriv (retry_hash h i) = None
  end.
Proof.
  intros (_ & _ & _ & Hb) Hbest Hd c. unfold backed in Hb. rewrite Hbest in Hb.
  destruct Hb as [He (sig & Hs & Hv)]. apply verify_true in Hv as (pub & h & Hpub & Hh & Hl & Hver).
  destruct (CommitmentTx_sighash _ _ _ Hh) as (tx & Etx & Hsh & _). unfold SettlementTx. rewrite Hbest. cbv zeta.
  fold c. fold c in Etx, Hsh. rewrite Etx. cbn [rbind]. unfold SignInput. rewrite Hsh. cbn [rbind].
  pose proof (Sign_spec nf serverPriv h Hd) as Hsig.
  destruct (Sign nf serverPriv h) as [ssig|e|]; cbn [rbind]; [|exact Hsig|destruct Hsig as (i & _ & ?); eauto].
  rewrite Hs. set (csig := derFromSig sig ++ _). set (wsig := derEncode _ _ ++ _).
  destruct (CommitmentTx_shape c (ch_cumPaid ch) tx Etx) as (back & Htx).
  destruct (Finalize2of2 tx csig wsig) as [tx'| |] eqn:Ef; [|rewrite Htx in Ef; discriminate..].
  exists pub, csig, wsig, back. pose proof (SighashForkID_finalize _ _ _ _ 0 (Redeem c) (ct_FundingValue c) SighashAllFork Ef) as Hsf.
  rewrite Hsh in Hsf. rewrite Htx in Ef. injection Ef as Ef. rewrite <- Ef at 1 2 3.
  split_and!; [done..|]. destruct (Verify_range _ _ _ Hver) as [HR HS]. pose proof curve_order_small.
  rewrite <- Hver. apply VerifyInput_der; [lia|lia|done|exact Hsf].
Qed.

(** the quote can wrap.  Where the paid total plus the price of the next query
    is [2^64], the required amount is 0, so the commitment already held is
    accepted again and a priced access is served for no further payment. *)
Theorem quote_wrap_serves_unpaid (ch : Channel) (c : Commitment) (q : Z) :
  ch_inv ch -> ch_closed ch = false -> ch_best ch = Some c -> 0 <= q -> 1 <= ch_accesses ch < 2 ^ 64 - 1 ->
  FeeMode (cfg_Pricing (ch_cfg ch)) = FeeUpfront ->
  ch_cumPaid ch + price (ch_cfg ch) q = 2 ^ 64 ->
  exists ch', Authorize (Some c) q ch = (Ok tt, ch') /\ 0 < price (ch_cfg ch) q
    /\ ch_cumPaid ch' = ch_cumPaid ch /\ ch_accesses ch' = ch_accesses ch + 1.
Proof.
  intros (Hc & Ha & Hp & Hb) Hcl Hbest Hq Hacc Hm Hwrap. unfold backed in Hb. rewrite Hbest in Hb.
  destruct Hb as [He Hsig]. destruct (service_price _ q Hc Hq) as [Hs Hu]. pose proof Hc as (Hd & _).
  unfold u64_ok in *.
  assert (Hquote : Quote ch q = Ok 0).
  { unfold Quote. rewrite Hs. cbn [rbind]. rewrite Hwrap. unfold feeComponent. rewrite Hm.
    rewrite (u64_small (ch_accesses ch + 1)) by lia. rewrite Z.eqb_refl, (proj2 (Z.eqb_neq _ _)) by lia. done. }
  destruct (Authorize_cases (Some c) q ch Hc Hq) as [(c' & [= <-] & _ & E)|[_ Hno]].
  - exists (accepted ch c). split_and!; [done|lia|done|]. simpl. apply u64_small. lia.
  - exfalso. apply Hno. exists c. split; [done|]. split_and!; [done| |].
    + rewrite He. exact Hsig.
    + exists 0. split; [done|]. lia.
Qed.

(** * Witnesses *)

(** Signature [(z, z)] of the commitment paying 100 under [Q = R - G], where [z]
    is its sighash and [R] a curve point with abscissa [z]. *)
Definition demo_z : Z := 0x394d8d8e52db7538ca4f6fc88c1ddebe44448ead6e6df96452a53dd5bd6866f4.
Definition demo_pub : point :=
  Some (0xa460f566d3dae9cdfad368b2385cff2f2f1b769a063b1c93a5bb92468c207fe6,
        0x4e5611ef16000a0864a0a6527bfa6c08353789ed128526ee2b43ef7d661d1965).
Definition demo_params : Params :=
  mkParams (demo_hash 2) (demo_hash 1) 3 (be_bytes 33 (2 ^ 257 + 5)) (be_bytes 33 (2 ^ 257 + 9)) 100000 500.
Definition demo_cfg (prices : list Z) : Config :=
  mkConfig demo_params 99500 (Some demo_pub) (mkPricing false 0 prices 40 FeeUpfront) 5 0 0.
Definition demo_prices : list Z := [60; 70; 80; 90].
Definition demo_wrapping : list Z := [60; 2 ^ 64 - 100; 80; 90].
Definition demo_comm : Commitment := mkCommitment 100 (Some (mkSig demo_z demo_z)).
Definition demo_open (prices : list Z) : Channel := mkChannel (demo_cfg prices) 0 0 None false.
Definition demo_paid (prices : list Z) : Channel := mkChannel (demo_cfg prices) 1 100 (Some demo_comm) false.

Lemma demo_cfg_ok prices : length prices = 4%nat -> Forall u64_ok prices -> cfg_ok (demo_cfg prices).
Proof. intros Hl Hp. unfold cfg_ok, pricing_ok, u64_ok. simpl. split_and!; (lia || done). Qed.
Lemma demo_prices_ok : Forall u64_ok demo_prices.
Proof. repeat constructor; unfold u64_ok; lia. Qed.
Lemma demo_wrapping_ok : Forall u64_ok demo_wrapping.
Proof. repeat constructor; unfold u64_ok; lia. Qed.

Lemma demo_verify : verify (Some demo_pub) demo_params 100 (mkSig demo_z demo_z) = Ok true.
Proof. by vm_compute. Qed.

(** The demo commitment is accepted for a first access of any type priced 60. *)
Lemma demo_authorize prices : length prices = 4%nat -> Forall u64_ok prices -> prices !! 0%nat = Some 60 ->
  Authorize (Some demo_comm) QSeen (demo_open prices) = (Ok tt, demo_paid prices).
Proof.
  intros Hl Hp H0. destruct (Authorize_cases (Some demo_comm) QSeen (demo_open prices)) as
    [(c' & [= <-] & _ & E)|[_ Hno]]; [by apply demo_cfg_ok|done|exact E|].
  exfalso. apply Hno. exists demo_comm. split; [done|]. split_and!; [done| |].
  - eexists. split; [done|]. exact demo_verify.
  - exists 100. split; [|simpl; lia].
    assert (service (cfg_Pricing (demo_cfg prices)) QSeen = Ok 60) as Hs.
    { unfold service. cbn [cfg_Pricing demo_cfg Flat PerType]. rewrite Hl. by apply index_ok. }
    unfold Quote. change (ch_cfg (demo_open prices)) with (demo_cfg prices). by rewrite Hs.
Qed.

Lemma demo_paid_inv prices : length prices = 4%nat -> Forall u64_ok prices -> ch_inv (demo_paid prices).
Proof.
  intros Hl Hp. split; [by apply demo_cfg_ok|]. unfold u64_ok. simpl. split_and!; [lia..|].
  split; [done|]. eexists. split; [done|]. exact demo_verify.
Qed.

Lemma demo_Open prices : Open (demo_cfg prices) = Ok (demo_open prices).
Proof. done. Qed.

Lemma channel_invariant_witness :
  rtc ch_step (demo_open demo_prices) (demo_paid demo_prices) /\
  c_CumAmount demo_comm = 100 /\ exists sig pub h,
    c_Sig demo_comm = Some sig /\ Some demo_pub = Some pub
    /\ CommitmentSighash (channelTx demo_params) 100 = Ok h /\ IsLowS sig = true /\ Verify pub h sig = true.
Proof.
  assert (Hs : rtc ch_step (demo_open demo_prices) (demo_paid demo_prices)).
  { apply rtc_once. pose proof (step_authorize (Some demo_comm) QSeen (demo_open demo_prices)) as Hst.
    rewrite (demo_authorize demo_prices eq_refl demo_prices_ok eq_refl) in Hst. apply Hst; [|unfold QSeen; lia].
    unfold comm_ok, u64_ok. simpl. lia. }
  split; [exact Hs|].
  apply (channel_invariant (demo_cfg demo_prices) (demo_open demo_prices) (demo_paid demo_prices)
           (demo_cfg_ok demo_prices eq_refl demo_prices_ok) (demo_Open demo_prices) Hs).
Defined.

Lemma authorize_exact_witness :
  (exists c', Some demo_comm = Some c' /\ accepts (demo_open demo_prices) c' QSeen
     /\ Authorize (Some demo_comm) QSeen (demo_open demo_prices) = (Ok tt, accepted (demo_open demo_prices) c'))
  \/ ((exists e, Authorize (Some demo_comm) QSeen (demo_open demo_prices) = (Err e, demo_open demo_prices)
         /\ (e = ErrClosed \/ e = ErrBadSig \/ e = ErrUnderpaid \/ e = ErrExceedsDeposit))
      /\ ~ exists c', Some demo_comm = Some c' /\ accepts (demo_open demo_prices) c' QSeen).
Proof.
  apply (authorize_exact (Some demo_comm) QSeen (demo_open demo_prices));
    [exact (demo_cfg_ok demo_prices eq_refl demo_prices_ok)|unfold QSeen; lia].
Defined.

Lemma demo_no_wrap : no_wrap (demo_cfg demo_prices).
Proof.
  split; [simpl; lia|]. intros q Hq. unfold price, service, demo_cfg, demo_prices. simpl.
  destruct (Z.ltb_spec q (Z.of_nat 4)); [|simpl; lia].
  assert (q = 0 \/ q = 1 \/ q = 2 \/ q = 3) as [-> | [-> | [-> | ->]]] by lia; unfold index; simpl; lia.
Qed.

Definition demo_attempts : list (option Commitment * Z) := [(Some demo_comm, QSeen); (Some demo_comm, QSeen)].
Lemma demo_attempts_ok : Forall (fun a => comm_ok (fst a) /\ 0 <= snd a) demo_attempts.
Proof. repeat constructor; unfold u64_ok, QSeen; simpl; lia. Qed.


Lemma settle_splits_deposit_witness :
  exists st ch', Settle (demo_paid demo_prices) = (Ok st, ch')
    /\ st_ToServer st = 100 /\ st_ToServer st + st_ToClient st = 99500
    /\ st_NetServer st + st_MiningFee st = st_ToServer st /\ 0 <= st_NetServer st /\ 0 <= st_ToClient st
    /\ st_MiningFee st = Z.min 40 100
    /\ Settle ch' = (Err ErrClosed, ch') /\ forall c q, Authorize c q ch' = (Err ErrClosed, ch').
Proof.
  apply (settle_splits_deposit (demo_paid demo_prices)); [exact (demo_paid_inv demo_prices eq_refl demo_prices_ok)|reflexivity].
Defined.

Lemma settlement_tx_valid_witness :
  match SettlementTx 1 7 (demo_paid demo_prices) with
  | Ok tx =>
      exists pub clientSig serverSig back,
        Some demo_pub = Some pub
        /\ i_PrevOut <$> t_Inputs tx = [mkOutPoint (demo_hash 1) 3]
        /\ i_ScriptSig <$> t_Inputs tx = [ScriptSig2of2 clientSig serverSig]
        /\ t_Outputs tx = [mkTxOut 100 (P2PK (p_ServerPub demo_params)); mkTxOut back (P2PK (p_ClientPub demo_params))]
        /\ VerifyInput pub tx 0 (Redeem (channelTx demo_params)) 100000 clientSig = Ok true
  | Err e => (e = ErrInvalidKey /\ ~ 1 <= 7 < curveN) \/ e = ErrSign
  | Panic => exists h i, rfc6979Nonce 1 7 (retry_hash h i) = None
  end.
Proof.
  apply (settlement_tx_valid 1 7 (demo_paid demo_prices) demo_comm
    (demo_paid_inv demo_prices eq_refl demo_prices_ok) eq_refl ltac:(lia)).
Defined.

Lemma quote_wrap_serves_unpaid_witness :
  exists ch', Authorize (Some demo_comm) QMined (demo_paid demo_wrapping) = (Ok tt, ch')
    /\ 0 < price (demo_cfg demo_wrapping) QMined /\ ch_cumPaid ch' = 100 /\ ch_accesses ch' = 1 + 1.
Proof.
  apply (quote_wrap_serves_unpaid (demo_paid demo_wrapping) demo_comm QMined);
    [exact (demo_paid_inv demo_wrapping eq_refl demo_wrapping_ok)|reflexivity|reflexivity|unfold QMined; lia|simpl; lia
    |reflexivity|reflexivity].
Defined.
