(* ===== verification/Paid.v ===== *)
(** * payment: the payment-gated server and its abuse policy
      ([src/payment/paid.go], [src/payment/abuse.go])

    The registry of channels with its bad-attempt counters and bans, opening
    under the policy, and the four paid queries in front of the lookup API.
    The mutex sections are separate definitions, so that a sequential call is
    their composition and a race is an interleaving of them.  Alerts are kept
    in the order the notifier receives them.  The theorems show that a query is
    answered only after its commitment is accepted, that failed attempts per
    channel are bounded by the ban budget, that the channel cap holds when
    opens do not overlap, and how re-opening and overlapping opens escape. *)

From stdpp Require Import base gmap list strings.
From Stdlib Require Import ZArith Lia ZifyNat.
From S2P Require Import Prelude Commitment StoreSpec ProofPath Api Bsvtx Crypto Channel.
Open Scope go_scope.

(** ** Policy and alerts (abuse.go) *)

Record Policy : Type := mkPolicy { MinDeposit : Z; MaxChannels : Z; MaxBadAttempts : Z }.
Definition DefaultPolicy : Policy := mkPolicy 0 0 64.

Inductive AlertKind : Type := AlertChannelBanned | AlertOpenRejected | AlertOpenFlood.
Definition AlertKind_String (k : AlertKind) : string :=
  match k with
  | AlertChannelBanned => "channel-banned"
  | AlertOpenRejected => "open-rejected"
  | AlertOpenFlood => "open-flood"
  end%string.
Record Alert : Type := mkAlert { a_Kind : AlertKind; a_ChannelID : Hash; a_Detail : string; a_Count : Z }.

(** ** State (paid.go) *)

Definition ErrNoChannel : error := "payment: unknown channel"%string.
Definition ErrChannelBanned : error := "payment: channel banned (abuse budget exceeded)"%string.
Definition ErrDepositTooSmall : error := "payment: deposit below MinDeposit policy"%string.
Definition ErrTooManyChannels : error := "payment: MaxChannels reached"%string.

Record PaidServer : Type := mkPaidServer
  { ps_policy : Policy; ps_channels : gmap Hash Channel; ps_bad : gmap Hash Z;
    ps_banned : gmap Hash bool; ps_alerts : list Alert }.

Definition NewWithPolicy (p : Policy) : PaidServer := mkPaidServer p ∅ ∅ ∅ [].
Definition paid_New : PaidServer := NewWithPolicy DefaultPolicy.

Definition set_channel (id : Hash) (ch : Channel) (s : PaidServer) : PaidServer :=
  mkPaidServer (ps_policy s) (<[id := ch]> (ps_channels s)) (ps_bad s) (ps_banned s) (ps_alerts s).
Definition Notify (a : Alert) (s : PaidServer) : PaidServer :=
  mkPaidServer (ps_policy s) (ps_channels s) (ps_bad s) (ps_banned s) (ps_alerts s ++ [a]).
Definition channel_count (s : PaidServer) : Z := Z.of_nat (size (ps_channels s)).

(** ** Opening *)

(** The checks, up to the first unlock. *)
Definition open_check (cfg : Config) : M PaidServer unit := fun s =>
  if (0 <? MinDeposit (ps_policy s)) && (cfg_Deposit cfg <? MinDeposit (ps_policy s)) then
    (Err ErrDepositTooSmall,
     Notify (mkAlert AlertOpenRejected (p_ChannelID (cfg_Params cfg)) "deposit below MinDeposit" 0) s)
  else if (0 <? MaxChannels (ps_policy s)) && (MaxChannels (ps_policy s) <=? channel_count s) then
    (Err ErrTooManyChannels,
     Notify (mkAlert AlertOpenFlood (p_ChannelID (cfg_Params cfg)) "MaxChannels reached" (channel_count s)) s)
  else (Ok tt, s).

(** [channel.Open] and the second critical section. *)
Definition open_register (cfg : Config) : M PaidServer Channel := fun s =>
  match Open cfg with
  | Ok ch => (Ok ch, set_channel (p_ChannelID (cfg_Params cfg)) ch s)
  | Err e => (Err e, s)
  | Panic => (Panic, s)
  end.

Definition OpenChannel (cfg : Config) : M PaidServer Channel :=
  _ <- open_check cfg ;; open_register cfg.

(** ** Authorisation *)

Definition paid_lookup (id : Hash) (s : PaidServer) : result Channel :=
  if default false (ps_banned s !! id) then Err ErrChannelBanned
  else match ps_channels s !! id with Some ch => Ok ch | None => Err ErrNoChannel end.

Definition recordBad (id : Hash) (s : PaidServer) : PaidServer :=
  if MaxBadAttempts (ps_policy s) <=? 0 then s
  else
    let n := default 0 (ps_bad s !! id) + 1 in
    let s1 := mkPaidServer (ps_policy s) (ps_channels s) (<[id := n]> (ps_bad s)) (ps_banned s) (ps_alerts s) in
    if (MaxBadAttempts (ps_policy s) <=? n) && negb (default false (ps_banned s !! id)) then
      Notify (mkAlert AlertChannelBanned id "bad-attempt budget exceeded" n)
        (mkPaidServer (ps_policy s1) (ps_channels s1) (ps_bad s1) (<[id := true]> (ps_banned s1)) (ps_alerts s1))
    else s1.

Definition paid_Quote (id : Hash) (q : Z) (s : PaidServer) : result Z :=
  let! ch := paid_lookup id s in Quote ch q.

Definition authorize (id : Hash) (c : option Commitment) (q : Z) : M PaidServer unit := fun s =>
  match paid_lookup id s with
  | Err e => (Err e, s)
  | Panic => (Panic, s)
  | Ok ch =>
      match Authorize c q ch with
      | (Ok _, ch') => (Ok tt, set_channel id ch' s)
      | (Err e, ch') => (Err e, recordBad id (set_channel id ch' s))
      | (Panic, ch') => (Panic, set_channel id ch' s)
      end
  end.

(** ** Paid queries *)

Section paid_queries.
Context {S : Type} `{Store S}.

Definition paid_Seen (id : Hash) (c : option Commitment) (txid : Hash) : M (S * PaidServer) SeenResult :=
  _ <- on2 (authorize id c QSeen) ;; on1 (Seen txid).
Definition paid_Mined (id : Hash) (c : option Commitment) (txid : Hash) : M (S * PaidServer) MinedResult :=
  _ <- on2 (authorize id c QMined) ;; on1 (Mined txid).
Definition paid_MerklePath (id : Hash) (c : option Commitment) (txid : Hash) : M (S * PaidServer) ProofRec :=
  _ <- on2 (authorize id c QMerklePath) ;; on1 (api_MerklePath txid).
Definition paid_UTXO (id : Hash) (c : option Commitment) (op : Outpoint) : M (S * PaidServer) UTXOResult :=
  _ <- on2 (authorize id c QUTXO) ;; on1 (api_UTXO op).
End paid_queries.

(** ** Metrics *)

Definition Revenue (s : PaidServer) : Z :=
  foldr (fun ch total => u64 (total + sn_CumPaid (ch_Snapshot ch))) 0 (map_to_list (ps_channels s)).*2.
Definition Counts (s : PaidServer) : Z * Z := (channel_count s, Z.of_nat (size (ps_banned s))).

(** * Lemmas *)

Definition bad_count (s : PaidServer) (id : Hash) : Z := default 0 (ps_bad s !! id).
Definition is_banned (s : PaidServer) (id : Hash) : bool := default false (ps_banned s !! id).

(** Every registered channel satisfies the channel invariant. *)
Definition paid_inv (s : PaidServer) : Prop := map_Forall (fun _ ch => ch_inv ch) (ps_channels s).
(** A channel is banned exactly when its budget is used up. *)
Definition ban_inv (s : PaidServer) (id : Hash) : Prop :=
  0 <= bad_count s id <= MaxBadAttempts (ps_policy s)
  /\ (is_banned s id = true <-> bad_count s id = MaxBadAttempts (ps_policy s)).

Lemma recordBad_channels id s : ps_channels (recordBad id s) = ps_channels s.
Proof. unfold recordBad. repeat case_match; done. Qed.
Lemma recordBad_policy id s : ps_policy (recordBad id s) = ps_policy s.
Proof. unfold recordBad. repeat case_match; done. Qed.

(** The outcomes of [authorize]: refused without a usable channel, accepted, or
    refused by the channel and charged to the budget. *)
Lemma authorize_cases id c q s : paid_inv s -> 0 <= q ->
  (is_banned s id = true /\ authorize id c q s = (Err ErrChannelBanned, s))
  \/ (is_banned s id = false /\ ps_channels s !! id = None /\ authorize id c q s = (Err ErrNoChannel, s))
  \/ (exists ch c', is_banned s id = false /\ ps_channels s !! id = Some ch /\ c = Some c' /\ accepts ch c' q
        /\ authorize id c q s = (Ok tt, set_channel id (accepted ch c') s))
  \/ (exists ch e, is_banned s id = false /\ ps_channels s !! id = Some ch
        /\ (~ exists c', c = Some c' /\ accepts ch c' q)
        /\ (e = ErrClosed \/ e = ErrBadSig \/ e = ErrUnderpaid \/ e = ErrExceedsDeposit)
        /\ authorize id c q s = (Err e, recordBad id s)).
Proof.
  intros Hi Hq. unfold authorize, paid_lookup, is_banned.
  destruct (default false (ps_banned s !! id)) eqn:Eb; [by left|right].
  destruct (ps_channels s !! id) as [ch|] eqn:Ech; [right|by left].
  destruct (Hi id ch Ech) as [Hcfg _].
  destruct (Authorize_cases c q ch Hcfg Hq) as [(c' & -> & Ha & E)|[(e & E & He) Hno]]; rewrite E; [left|right].
  - eauto 10.
  - exists ch, e. split_and!; [done..|].
    assert (set_channel id ch s = s) as -> by (unfold set_channel; rewrite insert_id by done; by destruct s). done.
Qed.

Lemma set_channel_inv id ch s : paid_inv s -> ch_inv ch -> paid_inv (set_channel id ch s).
Proof. intros Hs Hc. by apply map_Forall_insert_2. Qed.

Lemma accepted_inv ch c q : ch_inv ch -> u64_ok (c_CumAmount c) -> 0 <= q -> accepts ch c q -> ch_inv (accepted ch c).
Proof.
  intros Hi Hc Hq Ha. pose proof (Authorize_inv (Some c) q ch Hi Hc Hq) as H. pose proof Hi as [Hcfg _].
  destruct (Authorize_cases (Some c) q ch Hcfg Hq) as [(c' & [= <-] & _ & E)|[_ Hno]]; [by rewrite E in H|].
  exfalso. eauto.
Qed.

Lemma authorize_inv id c q s : paid_inv s -> comm_ok c -> 0 <= q -> paid_inv (snd (authorize id c q s)).
Proof.
  intros Hi Hc Hq. destruct (authorize_cases id c q s Hi Hq) as
    [(_ & ->)|[(_ & _ & ->)|[(ch & c' & _ & Ech & -> & Ha & ->)|(ch & e & _ & _ & _ & _ & ->)]]]; [done..| |].
  - simpl. apply set_channel_inv; [done|]. eapply accepted_inv; [by eapply Hi|done..].
  - simpl. unfold paid_inv. by rewrite recordBad_channels.
Qed.

Lemma OpenChannel_inv cfg s : paid_inv s -> cfg_ok cfg -> paid_inv (snd (OpenChannel cfg s)).
Proof.
  intros Hi Hc. unfold OpenChannel, mbind, open_check. repeat case_match; simplify_eq; try done.
  unfold open_register. destruct (Open cfg) as [ch| |] eqn:E; [|done..]. apply set_channel_inv; [done|].
  by eapply Open_inv.
Qed.

Lemma recordBad_effect id s (n := bad_count s id + 1) (ban := MaxBadAttempts (ps_policy s) <=? n) :
  0 < MaxBadAttempts (ps_policy s) -> is_banned s id = false ->
  bad_count (recordBad id s) id = n /\ is_banned (recordBad id s) id = ban
  /\ ps_alerts (recordBad id s) = ps_alerts s ++
       (if ban then [mkAlert AlertChannelBanned id "bad-attempt budget exceeded" n] else []).
Proof.
  intros Hm Hnb. unfold recordBad. fold (bad_count s id). fold (is_banned s id). rewrite Hnb.
  rewrite (proj2 (Z.leb_gt _ _)) by lia. cbv zeta. cbn [negb]. rewrite andb_true_r. fold n. fold ban.
  destruct ban; unfold Notify, bad_count, is_banned; cbn [ps_bad ps_banned ps_alerts];
    rewrite !lookup_insert_eq, ?app_nil_r; done.
Qed.
(** One failed attempt uses one unit of the budget; the last one bans. *)
Lemma recordBad_charge id s : 0 < MaxBadAttempts (ps_policy s) -> ban_inv s id -> is_banned s id = false ->
  bad_count (recordBad id s) id = bad_count s id + 1 /\ ban_inv (recordBad id s) id
  /\ ps_alerts (recordBad id s) = ps_alerts s ++
       (if is_banned (recordBad id s) id
        then [mkAlert AlertChannelBanned id "bad-attempt budget exceeded" (MaxBadAttempts (ps_policy s))] else []).
Proof.
  intros Hm (Hr & Hb) Hnb. assert (bad_count s id <> MaxBadAttempts (ps_policy s)) as Hne.
  { intros E. apply Hb in E. congruence. }
  destruct (recordBad_effect id s Hm Hnb) as (E1 & E2 & E3). unfold ban_inv. rewrite recordBad_policy, E1, E2, E3.
  destruct (Z.leb_spec (MaxBadAttempts (ps_policy s)) (bad_count s id + 1)) as [Hle|Hlt].
  - replace (bad_count s id + 1) with (MaxBadAttempts (ps_policy s)) by lia. split_and!; (done || lia).
  - split_and!; (done || lia).
Qed.

(** ** Runs of attempts on one channel *)

Fixpoint attempts (id : Hash) (l : list (option Commitment * Z)) (s : PaidServer)
  : list (result unit) * PaidServer :=
  match l with
  | [] => ([], s)
  | (c, q) :: r =>
      let '(res, s1) := authorize id c q s in
      let '(rs, s2) := attempts id r s1 in (res :: rs, s2)
  end.

(** An attempt that made the server examine the commitment in vain. *)
Definition wasted (r : result unit) : bool :=
  match r with
  | Err e => bool_decide (e = ErrClosed) || bool_decide (e = ErrBadSig) || bool_decide (e = ErrUnderpaid)
             || bool_decide (e = ErrExceedsDeposit)
  | _ => false
  end.
Definition wasted_count (rs : list (result unit)) : Z := Z.of_nat (length (List.filter wasted rs)).

Lemma ban_inv_set_channel id id' ch s : ban_inv s id -> ban_inv (set_channel id' ch s) id.
Proof. done. Qed.

Lemma authorize_ban id c q s : paid_inv s -> 0 <= q -> 0 < MaxBadAttempts (ps_policy s) -> ban_inv s id ->
  let '(r, s1) := authorize id c q s in
  ban_inv s1 id /\ ps_policy s1 = ps_policy s /\ bad_count s1 id = bad_count s id + (if wasted r then 1 else 0)
  /\ (is_banned s id = true -> s1 = s /\ r = Err ErrChannelBanned)
  /\ ps_alerts s1 = ps_alerts s ++ (if is_banned s1 id && negb (is_banned s id)
       then [mkAlert AlertChannelBanned id "bad-attempt budget exceeded" (MaxBadAttempts (ps_policy s))] else []).
Proof.
  intros Hi Hq Hm Hb. destruct (authorize_cases id c q s Hi Hq) as
    [(En & ->)|[(En & _ & ->)|[(ch & c' & En & _ & -> & Ha & ->)|(ch & e & En & _ & _ & He & ->)]]].
  1,2: change (wasted _) with false; rewrite En, ?app_nil_r; split_and!; (done || lia).
  - change (is_banned (set_channel id (accepted ch c') s) id) with (is_banned s id). rewrite En. cbn [andb].
    change (bad_count (set_channel id (accepted ch c') s) id) with (bad_count s id).
    rewrite app_nil_r. split_and!; [by apply ban_inv_set_channel|done|simpl; lia|done|done].
  - destruct (recordBad_charge id s Hm Hb En) as (E1 & E2 & E3). rewrite En. cbn [negb]. rewrite andb_true_r.
    split_and!; [done|apply recordBad_policy| |done|done]. rewrite E1.
    assert (wasted (Err e) = true) as ->; [|done].
    by destruct He as [-> | [-> | [-> | ->]]].
Qed.

Lemma attempts_ban id l s rs s' : paid_inv s -> Forall (fun a => comm_ok (fst a) /\ 0 <= snd a) l ->
  0 < MaxBadAttempts (ps_policy s) -> ban_inv s id -> attempts id l s = (rs, s') ->
  ban_inv s' id /\ ps_policy s' = ps_policy s /\ bad_count s' id = bad_count s id + wasted_count rs
  /\ (is_banned s id = true -> s' = s)
  /\ ps_alerts s' = ps_alerts s ++ (if is_banned s' id && negb (is_banned s id)
       then [mkAlert AlertChannelBanned id "bad-attempt budget exceeded" (MaxBadAttempts (ps_policy s))] else []).
Proof.
  revert s rs. induction l as [|[c q] l IH]; intros s rs Hi Hl Hm Hb; simpl.
  { intros [= <- <-]. rewrite andb_negb_r, app_nil_r. unfold wasted_count; simpl. split_and!; (done || lia). }
  apply Forall_cons in Hl as [[Hc Hq] Hl]. simpl in Hc, Hq.
  pose proof (authorize_ban id c q s Hi Hq Hm Hb) as Ha. pose proof (authorize_inv id c q s Hi Hc Hq) as Hi1.
  destruct (authorize id c q s) as [r s1]. destruct Ha as (B1 & P1 & C1 & F1 & A1).
  destruct (attempts id l s1) as [rs1 s2] eqn:Ea. intros [= <- <-].
  destruct (IH s1 rs1 Hi1 Hl ltac:(by rewrite P1) B1 Ea) as (B2 & P2 & C2 & F2 & A2).
  split_and!; [done|congruence| | |].
  - rewrite C2, C1. unfold wasted_count. simpl. destruct (wasted r); simpl; lia.
  - intros Hban. destruct (F1 Hban) as [-> _]. auto.
  - rewrite A2, A1, P1, <- app_assoc. f_equal.
    destruct (is_banned s id) eqn:E0; [destruct (F1 eq_refl) as [-> _]; rewrite E0, andb_false_r; done|].
    destruct (is_banned s1 id) eqn:E1; [rewrite F2 by done; by rewrite E1|]. by rewrite andb_true_r.
Qed.

(** ** Prepaid queries *)

(** A gated query, from store [st] and server [s]: either its commitment is
    accepted and it answers what the API answers, or it returns an error
    without touching the store or any channel. *)
Definition prepaid {S A} (gated : M (S * PaidServer) A) (answer : M S A) (id : Hash) (c : option Commitment)
  (q : Z) (st : S) (s : PaidServer) : Prop :=
  (exists ch c', is_banned s id = false /\ ps_channels s !! id = Some ch /\ c = Some c' /\ accepts ch c' q
     /\ gated (st, s) = (fst (answer st), (snd (answer st), set_channel id (accepted ch c') s)))
  \/ (exists e s', gated (st, s) = (Err e, (st, s')) /\ ps_channels s' = ps_channels s
        /\ ~ exists ch c', is_banned s id = false /\ ps_channels s !! id = Some ch /\ c = Some c' /\ accepts ch c' q).

Lemma gate_prepaid {S A} (answer : M S A) id c q st s : paid_inv s -> 0 <= q ->
  prepaid (_ <- on2 (authorize id c q) ;; on1 answer) answer id c q st s.
Proof.
  intros Hi Hq. unfold prepaid, mbind, on2, on1. cbn [fst snd].
  destruct (authorize_cases id c q s Hi Hq) as
    [(En & ->)|[(En & Ech & ->)|[(ch & c' & En & Ech & -> & Ha & ->)|(ch & e & En & Ech & Hno & He & ->)]]].
  - right. exists ErrChannelBanned, s. split_and!; [done..|]. intros (? & ? & ? & _). congruence.
  - right. exists ErrNoChannel, s. split_and!; [done..|]. intros (? & ? & _ & ? & _). congruence.
  - left. exists ch, c'. split_and!; [done..|]. cbn [fst snd]. by destruct (answer st).
  - right. exists e, (recordBad id s). split_and!; [done|apply recordBad_channels|].
    intros (ch' & c' & _ & Ech' & ? & ?). apply Hno. exists c'. split; [done|]. congruence.
Qed.

(** ** The channel cap *)

Lemma set_channel_count id ch s : channel_count (set_channel id ch s)
  = channel_count s + (if ps_channels s !! id then 0 else 1).
Proof.
  unfold channel_count, set_channel. cbn [ps_channels]. rewrite map_size_insert.
  destruct (ps_channels s !! id); simpl; lia.
Qed.

Lemma OpenChannel_cap cfg s : 0 < MaxChannels (ps_policy s) -> channel_count s <= MaxChannels (ps_policy s) ->
  ps_policy (snd (OpenChannel cfg s)) = ps_policy s
  /\ channel_count (snd (OpenChannel cfg s)) <= MaxChannels (ps_policy s).
Proof.
  intros Hm Hc. unfold OpenChannel, mbind, open_check.
  destruct ((0 <? MinDeposit (ps_policy s)) && _); [done|].
  destruct ((0 <? MaxChannels (ps_policy s)) && _) eqn:E; [done|].
  unfold open_register. destruct (Open cfg) as [ch| |]; [|done..]. cbn [snd]. split; [done|].
  rewrite set_channel_count. case_match; lia.
Qed.

(** * Theorems *)

(** C9: prepay, then serve.  For each of the four queries, on every store and every
    reachable registry: the API is consulted only after the channel named in
    the request, known and not banned, has accepted the commitment for that
    query type; in every other case an error is returned and neither the store
    nor any channel has changed. *)
Theorem queries_prepaid {S} `{Store S} (st : S) (s : PaidServer) (id : Hash) (c : option Commitment)
  (txid : Hash) (op : Outpoint) :
  paid_inv s ->
  prepaid (paid_Seen id c txid) (Seen txid) id c QSeen st s
  /\ prepaid (paid_Mined id c txid) (Mined txid) id c QMined st s
  /\ prepaid (paid_MerklePath id c txid) (api_MerklePath txid) id c QMerklePath st s
  /\ prepaid (paid_UTXO id c op) (api_UTXO op) id c QUTXO st s.
Proof. intros Hi. split_and!; by apply gate_prepaid. Qed.

(** C37: the ban budget.  From a registry where a channel is not over its budget, any
    run of attempts on it wastes at most the remaining budget: the counter
    rises by one per examined and refused commitment and never passes
    [MaxBadAttempts]; the channel is banned exactly when the budget is used up,
    with one alert. *)
Theorem ban_budget (id : Hash) (l : list (option Commitment * Z)) (s s' : PaidServer) (rs : list (result unit)) :
  paid_inv s -> Forall (fun a => comm_ok (fst a) /\ 0 <= snd a) l -> 0 < MaxBadAttempts (ps_policy s) ->
  ban_inv s id -> attempts id l s = (rs, s') ->
  bad_count s' id = bad_count s id + wasted_count rs
  /\ wasted_count rs <= MaxBadAttempts (ps_policy s) - bad_count s id
  /\ (is_banned s' id = true <-> bad_count s' id = MaxBadAttempts (ps_policy s))
  /\ ps_alerts s' = ps_alerts s ++ (if is_banned s' id && negb (is_banned s id)
       then [mkAlert AlertChannelBanned id "bad-attempt budget exceeded" (MaxBadAttempts (ps_policy s))] else []).
Proof.
  intros Hi Hl Hm Hb Ha. destruct (attempts_ban id l s rs s' Hi Hl Hm Hb Ha) as ((B1 & B2) & P & C & _ & A).
  rewrite P in *. split_and!; [done|lia|done|done].
Qed.

(** opens that do not overlap respect [MaxChannels]. *)
Theorem max_channels_sequential (p : Policy) (cfgs : list Config) :
  0 < MaxChannels p ->
  channel_count (foldl (fun s cfg => snd (OpenChannel cfg s)) (NewWithPolicy p) cfgs) <= MaxChannels p.
Proof.
  intros Hm.
  assert (forall s, ps_policy s = p -> channel_count s <= MaxChannels p ->
    channel_count (foldl (fun s cfg => snd (OpenChannel cfg s)) s cfgs) <= MaxChannels p) as Hgo.
  { induction cfgs as [|cfg cfgs IH]; intros s Hp Hc; [done|]. simpl.
    destruct (OpenChannel_cap cfg s) as [Hp' Hc']; [by rewrite Hp..|]. apply IH; congruence. }
  apply Hgo; [done|]. unfold channel_count, NewWithPolicy. simpl. rewrite map_size_empty. lia.
Qed.

(** overlapping opens can pass the cap: when two requests both run their check
    before either registers, a registry one below [MaxChannels] ends one above. *)
Theorem max_channels_race (s : PaidServer) (a b : Config) (cha chb : Channel) :
  MinDeposit (ps_policy s) = 0 -> 0 < MaxChannels (ps_policy s) ->
  channel_count s = MaxChannels (ps_policy s) - 1 ->
  Open a = Ok cha -> Open b = Ok chb ->
  p_ChannelID (cfg_Params a) <> p_ChannelID (cfg_Params b) ->
  ps_channels s !! p_ChannelID (cfg_Params a) = None -> ps_channels s !! p_ChannelID (cfg_Params b) = None ->
  exists s', (_ <- open_check a ;; _ <- open_check b ;; _ <- open_register a ;; open_register b) s = (Ok chb, s')
    /\ channel_count s' = MaxChannels (ps_policy s') + 1.
Proof.
  intros Hd Hm Hc Ea Eb Hne Ha Hb.
  assert (forall cfg, open_check cfg s = (Ok tt, s)) as Hchk.
  { intros cfg. unfold open_check. rewrite Hd.
    destruct (Z.leb_spec (MaxChannels (ps_policy s)) (channel_count s)); [lia|]. by rewrite andb_false_r. }
  unfold mbind. rewrite !Hchk. unfold open_register. rewrite Ea, Eb. eexists. split; [done|].
  rewrite !set_channel_count, Ha. cbn [ps_channels set_channel].
  rewrite lookup_insert_ne by done. rewrite Hb. cbn [ps_policy set_channel]. lia.
Qed.

(** re-opening forgets payments.  A second [OpenChannel] with the channel id of
    a registered channel replaces it, so a commitment that was accepted once is
    accepted again: two accesses are served for one payment, and the recorded
    total is the same after both. *)
Theorem reopen_replays_commitment (s : PaidServer) (cfg : Config) (ch0 : Channel) (c : Commitment) (q : Z)
  (id := p_ChannelID (cfg_Params cfg)) :
  paid_inv s -> cfg_ok cfg -> u64_ok (c_CumAmount c) -> 0 <= q ->
  MinDeposit (ps_policy s) = 0 -> MaxChannels (ps_policy s) = 0 -> is_banned s id = false ->
  Open cfg = Ok ch0 -> accepts ch0 c q ->
  exists s1 s2, (_ <- OpenChannel cfg ;; authorize id (Some c) q) s = (Ok tt, s1)
    /\ (_ <- OpenChannel cfg ;; authorize id (Some c) q) s1 = (Ok tt, s2)
    /\ ps_channels s1 !! id = Some (accepted ch0 c) /\ ps_channels s2 = ps_channels s1.
Proof.
  intros Hi Hc Hu Hq Hd Hm Hb Ho Ha.
  assert (forall t, paid_inv t -> ps_policy t = ps_policy s -> is_banned t id = false ->
    (_ <- OpenChannel cfg ;; authorize id (Some c) q) t
    = (Ok tt, set_channel id (accepted ch0 c) (set_channel id ch0 t))) as Hrun.
  { intros t Ht Hp Hbt. unfold OpenChannel, mbind, open_check. rewrite Hp, Hd, Hm. simpl.
    unfold open_register. rewrite Ho. fold id.
    destruct (authorize_cases id (Some c) q (set_channel id ch0 t)) as
      [(En & _)|[(_ & En & _)|[(ch & c' & _ & Ech & [= <-] & _ & E)|(ch & e & _ & Ech & Hno & _)]]];
      [apply set_channel_inv; [done|by eapply Open_inv]|done|unfold is_banned in *; simpl in En; congruence
      |cbn [ps_channels set_channel] in *; rewrite lookup_insert_eq in *..].
    - done.
    - injection Ech as <-. exact E.
    - injection Ech as <-. exfalso. eauto. }
  eexists _, _. split_and!; [by apply Hrun|apply Hrun| |]; [|done|done| |].
  - apply set_channel_inv; [apply set_channel_inv; [done|by eapply Open_inv]|].
    eapply accepted_inv; [by eapply Open_inv|done..].
  - cbn [ps_channels set_channel]. by rewrite lookup_insert_eq.
  - cbn [ps_channels set_channel]. by rewrite !insert_insert_eq.
Qed.

(** * Witnesses *)

Definition demo_id : Hash := p_ChannelID demo_params.
Definition demo_registry (p : Policy) (ch : Channel) : PaidServer := set_channel demo_id ch (NewWithPolicy p).

Lemma demo_open_inv : ch_inv (demo_open demo_prices).
Proof. exact (Open_inv _ _ (demo_cfg_ok demo_prices eq_refl demo_prices_ok) (demo_Open demo_prices)). Qed.
Lemma NewWithPolicy_inv p : paid_inv (NewWithPolicy p).
Proof. apply map_Forall_empty. Qed.
Lemma demo_registry_inv p ch : ch_inv ch -> paid_inv (demo_registry p ch).
Proof. intros Hc. by apply set_channel_inv; [apply NewWithPolicy_inv|]. Qed.
Lemma demo_accepts : accepts (demo_open demo_prices) demo_comm QSeen.
Proof.
  destruct (Authorize_cases (Some demo_comm) QSeen (demo_open demo_prices)) as [(c' & [= <-] & Ha & _)|[(e & E & _) _]];
    [exact (demo_cfg_ok demo_prices eq_refl demo_prices_ok)|done|done|].
  rewrite (demo_authorize demo_prices eq_refl demo_prices_ok eq_refl) in E. discriminate.
Qed.

Lemma queries_prepaid_witness :
  prepaid (S := StoreSpec.Flat) (paid_Seen demo_id (Some demo_comm) (demo_hash 9)) (Seen (demo_hash 9)) demo_id
    (Some demo_comm) QSeen flatEmpty (demo_registry DefaultPolicy (demo_open demo_prices)).
Proof.
  apply (queries_prepaid flatEmpty (demo_registry DefaultPolicy (demo_open demo_prices)) demo_id (Some demo_comm)
    (demo_hash 9) (mkOutpoint (demo_hash 9) 0)). exact (demo_registry_inv _ _ demo_open_inv).
Defined.

(** Four attempts without a commitment under a budget of two: two are examined,
    then the channel is banned. *)
Definition demo_flood : list (option Commitment * Z) := [(None, QSeen); (None, QSeen); (None, QSeen); (None, QSeen)].
Definition demo_strict : PaidServer := demo_registry (mkPolicy 0 0 2) (demo_open demo_prices).
Definition demo_refusals : list (result unit) :=
  [Err ErrBadSig; Err ErrBadSig; Err ErrChannelBanned; Err ErrChannelBanned].

Lemma demo_strict_ban : ban_inv demo_strict demo_id.
Proof. split; [by vm_compute|]. by vm_compute. Qed.
Lemma demo_flood_ok : Forall (fun a => comm_ok (fst a) /\ 0 <= snd a) demo_flood.
Proof. repeat constructor; unfold QSeen; simpl; lia. Qed.

Lemma ban_budget_witness :
  exists s', attempts demo_id demo_flood demo_strict = (demo_refusals, s')
    /\ bad_count s' demo_id = 0 + 2 /\ (is_banned s' demo_id = true <-> bad_count s' demo_id = 2).
Proof.
  assert (Hr : fst (attempts demo_id demo_flood demo_strict) = demo_refusals) by (vm_compute; reflexivity).
  exists (snd (attempts demo_id demo_flood demo_strict)).
  assert (Ha : attempts demo_id demo_flood demo_strict
    = (demo_refusals, snd (attempts demo_id demo_flood demo_strict)))
    by (rewrite <- Hr; apply surjective_pairing).
  destruct (ban_budget demo_id demo_flood demo_strict _ _ (demo_registry_inv _ _ demo_open_inv) demo_flood_ok
    eq_refl demo_strict_ban Ha) as (H1 & _ & H3 & _).
  split; [exact Ha|]. split; [exact H1|exact H3].
Defined.

Lemma max_channels_sequential_witness :
  channel_count (foldl (fun s cfg => snd (OpenChannel cfg s)) (NewWithPolicy (mkPolicy 0 1 0))
    [demo_cfg demo_prices; demo_cfg demo_wrapping]) <= 1.
Proof. apply (max_channels_sequential (mkPolicy 0 1 0) [demo_cfg demo_prices; demo_cfg demo_wrapping]). reflexivity. Defined.

(** The demo channel and one with another id. *)
Definition demo_other : Config :=
  set_Params (demo_cfg demo_prices)
    (mkParams (demo_hash 5) (demo_hash 1) 3 (be_bytes 33 (2 ^ 257 + 5)) (be_bytes 33 (2 ^ 257 + 9)) 100000 500).

Definition demo_other_open : Channel := mkChannel demo_other 0 0 None false.
Lemma demo_other_Open : Open demo_other = Ok demo_other_open.
Proof. by vm_compute. Qed.
Lemma demo_ids_differ : p_ChannelID (cfg_Params (demo_cfg demo_prices)) <> p_ChannelID (cfg_Params demo_other).
Proof. intros E. apply (f_equal abytes) in E. vm_compute in E. discriminate E. Qed.

Lemma max_channels_race_witness :
  exists s', (_ <- open_check (demo_cfg demo_prices) ;; _ <- open_check demo_other ;;
              _ <- open_register (demo_cfg demo_prices) ;; open_register demo_other)
               (NewWithPolicy (mkPolicy 0 1 0)) = (Ok demo_other_open, s')
    /\ channel_count s' = MaxChannels (ps_policy s') + 1.
Proof.
  exact (max_channels_race (NewWithPolicy (mkPolicy 0 1 0)) (demo_cfg demo_prices) demo_other (demo_open demo_prices)
    demo_other_open eq_refl eq_refl eq_refl (demo_Open demo_prices) demo_other_Open demo_ids_differ
    (lookup_empty _) (lookup_empty _)).
Defined.

Lemma reopen_replays_commitment_witness :
  exists s1 s2,
    (_ <- OpenChannel (demo_cfg demo_prices) ;; authorize demo_id (Some demo_comm) QSeen) paid_New = (Ok tt, s1)
    /\ (_ <- OpenChannel (demo_cfg demo_prices) ;; authorize demo_id (Some demo_comm) QSeen) s1 = (Ok tt, s2)
    /\ ps_channels s1 !! demo_id = Some (accepted (demo_open demo_prices) demo_comm)
    /\ ps_channels s2 = ps_channels s1.
Proof.
  apply (reopen_replays_commitment paid_New (demo_cfg demo_prices) (demo_open demo_prices) demo_comm QSeen).
  - apply NewWithPolicy_inv.
  - exact (demo_cfg_ok demo_prices eq_refl demo_prices_ok).
  - unfold u64_ok. simpl. lia.
  - unfold QSeen. lia.
  - reflexivity.
  - reflexivity.
  - reflexivity.
  - reflexivity.
  - exact demo_accepts.
Defined.
