(* ===== verification/Attest.v ===== *)
(** * attest: signed answers, endorsements and fraud proofs ([src/attest/attest.go])

    Statements and their canonical bytes, attestations, endorsements, and the
    two kinds of fraud proof with their verification.  The theorems show that
    a signature binds the whole statement, what exactly a verifying fraud proof
    establishes, and that an operator whose answers are a function of query and
    tip cannot be accused of equivocation; they also show that a false-negative
    proof can be made against any signed negative answer, since the inclusion
    proof is not compared with its header. *)

From stdpp Require Import base list strings.
From Stdlib Require Import ZArith Lia ZifyNat.
From Stdlib Require Strings.Byte.
From S2P Require Import Prelude Sha256 Commitment StoreSpec ProofPath Crypto.
Open Scope go_scope.

(** ** Statements *)

(** [type Kind uint8]. *)
Definition StmtSeen : Z := 0.
Definition StmtMined : Z := 1.
Definition StmtUTXO : Z := 2.

Record Statement : Type := mkStatement
  { st_Kind : Z; st_TxID : Hash; st_Vout : Z; st_Flag : bool; st_Height : Z; st_BlockHash : Hash; st_Tip : Z }.

#[global] Instance Statement_eq_dec : EqDecision Statement.
Proof. solve_decision. Defined.

Definition b32 (v : Z) : list byte := be_bytes 4 v.

Definition encode (s : Statement) : list byte :=
  [z2b (st_Kind s)] ++ abytes (st_TxID s) ++ b32 (st_Vout s)
  ++ [if st_Flag s then Byte.x01 else Byte.x00]
  ++ b32 (st_Height s) ++ abytes (st_BlockHash s) ++ b32 (st_Tip s).

Definition st_sighash (s : Statement) : list byte := abytes (DoubleSHA256 (encode s)).

Definition queryKey (s : Statement) : array 69 :=
  arr 69 ([z2b (st_Kind s)] ++ abytes (st_TxID s) ++ b32 (st_Vout s) ++ b32 (st_Tip s)).

Definition contradicts (s o : Statement) : bool :=
  if negb (bool_decide (queryKey s = queryKey o)) then false
  else negb (Bool.eqb (st_Flag s) (st_Flag o)) || negb (st_Height s =? st_Height o)
       || negb (bool_decide (st_BlockHash s = st_BlockHash o)).

(** ** Attestations *)

Record Attestation : Type := mkAttestation
  { att_Statement : Statement; att_Operator : option point; att_Sig : option Signature }.

Definition att_Verify (a : Attestation) : bool :=
  match att_Operator a, att_Sig a with
  | Some op, Some sig =>
      if negb (IsLowS sig) then false else Crypto.Verify op (st_sighash (att_Statement a)) sig
  | _, _ => false
  end.

Record Identity : Type := mkIdentity { id_priv : Z }.
Definition NewIdentity (seed : list byte) : Identity := mkIdentity (NewPrivateKey seed).
Definition id_Public (i : Identity) : point := Public (id_priv i).
Definition Attest (nf : nat) (i : Identity) (s : Statement) : result Attestation :=
  let! sig := Sign nf (id_priv i) (st_sighash s) in
  Ok (mkAttestation s (Some (Public (id_priv i))) (Some sig)).

(** ** Endorsements *)

Record Endorsement : Type := mkEndorsement
  { en_Operator : option point; en_Miner : option point; en_Sig : option Signature }.

(** The tag text, byte by byte. *)
Definition endorse_tag : list byte := String.list_byte_of_string "memserve-endorse-v1".
Definition endorseHash (operator : point) : result (list byte) :=
  let! k := SerializeCompressed operator in Ok (abytes (DoubleSHA256 (endorse_tag ++ k))).

Definition Endorse (nf : nat) (minerPriv : Z) (operator : point) : result Endorsement :=
  let! h := endorseHash operator in
  let! sig := Sign nf minerPriv h in
  Ok (mkEndorsement (Some operator) (Some (Public minerPriv)) (Some sig)).

Definition en_Verify (e : Endorsement) : result bool :=
  match en_Operator e, en_Miner e, en_Sig e with
  | Some op, Some miner, Some sig =>
      if negb (IsLowS sig) then Ok false
      else let! h := endorseHash op in Ok (Crypto.Verify miner h sig)
  | _, _, _ => Ok false
  end.

(** ** Fraud proofs *)

Definition FraudFalseNegative : Z := 0.
Definition FraudEquivocation : Z := 1.

Record FraudProof : Type := mkFraudProof
  { fp_Kind : Z; fp_Att : Attestation; fp_Att2 : option Attestation; fp_Inclusion : option ProofRec;
    fp_Endorsement : option Endorsement }.

Definition ErrNoContradiction : error :=
  "attest: statements do not contradict / evidence does not refute"%string.
Definition ErrBadAttestation : error := "attest: attestation signature invalid"%string.
Definition ErrOperatorMismatch : error := "attest: attestations are from different operators"%string.

Definition negative (s : Statement) : bool :=
  ((st_Kind s =? StmtSeen) || (st_Kind s =? StmtMined)) && negb (st_Flag s).

Definition ProveFalseNegative (att : Attestation) (incl : ProofRec) : result FraudProof :=
  if negb (att_Verify att) then Err ErrBadAttestation
  else
    let st := att_Statement att in
    if negb (negative st) then Err ErrNoContradiction
    else if negb (bool_decide (p_Leaf incl = st_TxID st)) || negb (ProofPath.Verify incl)
    then Err ErrNoContradiction
    else Ok (mkFraudProof FraudFalseNegative att None (Some incl) None).

Definition ProveEquivocation (a b : Attestation) : result FraudProof :=
  if negb (att_Verify a) || negb (att_Verify b) then Err ErrBadAttestation
  else
    let! same := Equal (att_Operator a) (att_Operator b) in
    if negb same then Err ErrOperatorMismatch
    else if negb (contradicts (att_Statement a) (att_Statement b)) then Err ErrNoContradiction
    else Ok (mkFraudProof FraudEquivocation a (Some b) None None).

Definition WithEndorsement (fp : FraudProof) (e : Endorsement) : FraudProof :=
  mkFraudProof (fp_Kind fp) (fp_Att fp) (fp_Att2 fp) (fp_Inclusion fp) (Some e).

(** The evidence alone: the accountable operator, [None] when it fails. *)
Definition fp_operator (fp : FraudProof) : result (option (option point)) :=
  if fp_Kind fp =? FraudFalseNegative then
    match fp_Inclusion fp with
    | None => Ok None
    | Some incl => match ProveFalseNegative (fp_Att fp) incl with
                   | Ok _ => Ok (Some (att_Operator (fp_Att fp)))
                   | Err _ => Ok None
                   | Panic => Panic
                   end
    end
  else if fp_Kind fp =? FraudEquivocation then
    match fp_Att2 fp with
    | None => Ok None
    | Some a2 => match ProveEquivocation (fp_Att fp) a2 with
                 | Ok _ => Ok (Some (att_Operator (fp_Att fp)))
                 | Err _ => Ok None
                 | Panic => Panic
                 end
    end
  else Ok None.

Definition fp_Verify (fp : FraudProof) : result (option point * option point * bool) :=
  let! o := fp_operator fp in
  match o with
  | None => Ok (None, None, false)
  | Some operator =>
      match fp_Endorsement fp with
      | None => Ok (operator, None, true)
      | Some e =>
          let! v := en_Verify e in
          if negb v then Ok (operator, None, true)
          else let! same := Equal (en_Operator e) operator in
               Ok (operator, if same : bool then en_Miner e else None, true)
      end
  end.

(** * Lemmas *)

(** A statement as Go's types hold it. *)
Definition st_ok (s : Statement) : Prop :=
  0 <= st_Kind s < 256 /\ is_u 32 (st_Vout s) /\ is_u 32 (st_Height s) /\ is_u 32 (st_Tip s).

Lemma prefix_inj_b32 : prefix_inj (is_u 32) b32.
Proof. intros x y a b Hx Hy. unfold is_u in *. by apply (prefix_inj_be 4). Qed.

Lemma z2b_byte_inj a b : 0 <= a < 256 -> 0 <= b < 256 -> z2b a = z2b b -> a = b.
Proof. intros Ha Hb E. apply (f_equal b2z) in E. rewrite !b2z_z2b, !Z.mod_small in E by lia. done. Qed.

Lemma cons_inv {A} (x y : A) l m : x :: l = y :: m -> x = y /\ l = m.
Proof. by intros [= -> ->]. Qed.

Lemma encode_inj s o : st_ok s -> st_ok o -> encode s = encode o -> s = o.
Proof.
  destruct s as [k t v f h bh tip], o as [k' t' v' f' h' bh' tip']. intros (K & V & H & T) (K' & V' & H' & T').
  cbn [st_Kind st_Vout st_Height st_Tip] in *. unfold encode.
  cbn [st_Kind st_TxID st_Vout st_Flag st_Height st_BlockHash st_Tip app]. intros E.
  apply cons_inv in E as [Ek E]. apply z2b_byte_inj in Ek as ->; [|done..].
  apply prefix_inj_array in E as [-> E]; [|done..]. apply prefix_inj_b32 in E as [-> E]; [|done..].
  apply cons_inv in E as [Ef E]. apply prefix_inj_b32 in E as [-> E]; [|done..].
  apply prefix_inj_array in E as [-> E]; [|done..].
  assert (f = f') as -> by (by destruct f, f').
  f_equal. unfold b32 in E. apply be_bytes_inj in E; unfold is_u in *; lia || done.
Qed.

Lemma abytes_arr_fit n l : abytes (arr n l) = fit n l.
Proof. reflexivity. Qed.

Lemma queryKey_inj s o : st_ok s -> st_ok o -> queryKey s = queryKey o ->
  st_Kind s = st_Kind o /\ st_TxID s = st_TxID o /\ st_Vout s = st_Vout o /\ st_Tip s = st_Tip o.
Proof.
  intros (K & V & _ & T) (K' & V' & _ & T') E. unfold queryKey in E.
  apply (f_equal abytes) in E. rewrite !abytes_arr_fit in E. unfold fit in E.
  rewrite !take_ge in E by (rewrite !length_app, !abytes_length; unfold b32; rewrite !length_be_bytes; simpl; lia).
  rewrite <- !app_assoc in E. cbn [app] in E. apply cons_inv in E as [Ek E]. apply z2b_byte_inj in Ek; [|done..].
  apply prefix_inj_array in E as [Et E]; [|done..]. apply prefix_inj_b32 in E as [Ev E]; [|done..].
  apply prefix_inj_b32 in E as [Ep _]; done.
Qed.

(** Same query at the same tip. *)
Definition same_query (s o : Statement) : Prop :=
  st_Kind s = st_Kind o /\ st_TxID s = st_TxID o /\ st_Vout s = st_Vout o /\ st_Tip s = st_Tip o.
Definition same_answer (s o : Statement) : Prop :=
  st_Flag s = st_Flag o /\ st_Height s = st_Height o /\ st_BlockHash s = st_BlockHash o.

Lemma contradicts_iff s o : st_ok s -> st_ok o ->
  contradicts s o = true <-> same_query s o /\ ~ same_answer s o.
Proof.
  intros Hs Ho. unfold contradicts. destruct (bool_decide_reflect (queryKey s = queryKey o)) as [E|E]; cbn [negb].
  - pose proof (queryKey_inj s o Hs Ho E) as Hq. rewrite !orb_true_iff, !negb_true_iff, eqb_false_iff, Z.eqb_neq, bool_decide_eq_false.
    split; [intros Hd; split; [done|unfold same_answer; tauto]|]. intros [_ Hd]. unfold same_answer in Hd.
    destruct (decide (st_Flag s = st_Flag o)), (decide (st_Height s = st_Height o)),
      (decide (st_BlockHash s = st_BlockHash o)); tauto.
  - split; [done|]. intros [(E1 & E2 & E3 & E4) _]. exfalso. apply E. unfold queryKey. congruence.
Qed.

Lemma att_Verify_true a : att_Verify a = true ->
  exists k sig, att_Operator a = Some k /\ att_Sig a = Some sig /\ IsLowS sig = true
    /\ Crypto.Verify k (st_sighash (att_Statement a)) sig = true.
Proof.
  unfold att_Verify. destruct (att_Operator a) as [k|], (att_Sig a) as [sig|]; [|done..].
  destruct (IsLowS sig) eqn:El; cbn [negb]; [|done]. eauto 10.
Qed.

Lemma Verify_on_curve k h sig : Crypto.Verify k h sig = true -> onCurve k = true.
Proof. unfold Crypto.Verify. by destruct (onCurve k). Qed.

Lemma on_curve_serializes k : onCurve k = true -> exists b, SerializeCompressed k = Ok b.
Proof.
  destruct k as [[x y]|]; [|done]. intros (Hx & _)%onCurve_iff. pose proof curve_prime_small.
  rewrite SerializeCompressed_eq by lia. eauto.
Qed.

(** [Equal] on curve points compares their compressed forms. *)
Lemma Equal_curve k k' : onCurve k = true -> onCurve k' = true ->
  exists b, Equal (Some k) (Some k') = Ok b /\ (b = true <-> SerializeCompressed k = SerializeCompressed k').
Proof.
  intros Hk Hk'. destruct (on_curve_serializes k Hk) as [b Eb], (on_curve_serializes k' Hk') as [b' Eb'].
  unfold Equal. rewrite Eb, Eb'. cbn [rbind]. eexists. split; [done|]. rewrite bool_decide_eq_true. split; congruence.
Qed.

(** ** What the two kinds of evidence establish *)

(** The statement of [a] was signed, low-S, under key [k]. *)
Definition signed_by (k : point) (a : Attestation) : Prop :=
  att_Operator a = Some k /\ onCurve k = true /\ exists sig, att_Sig a = Some sig /\ IsLowS sig = true
    /\ Crypto.Verify k (st_sighash (att_Statement a)) sig = true.

Lemma att_Verify_signed a : att_Verify a = true <-> exists k, signed_by k a.
Proof.
  split.
  - intros H. destruct (att_Verify_true a H) as (k & sig & Hk & Hs & Hl & Hv). exists k.
    pose proof (Verify_on_curve _ _ _ Hv). unfold signed_by. eauto 10.
  - intros (k & Hk & _ & sig & Hs & Hl & Hv). unfold att_Verify. by rewrite Hk, Hs, Hl.
Qed.

Definition refutes (incl : ProofRec) (s : Statement) : Prop :=
  negative s = true /\ p_Leaf incl = st_TxID s /\ ProofPath.Verify incl = true.

Lemma ProveFalseNegative_spec att incl :
  match ProveFalseNegative att incl with
  | Ok fp => fp = mkFraudProof FraudFalseNegative att None (Some incl) None
             /\ (exists k, signed_by k att) /\ refutes incl (att_Statement att)
  | Err e => (e = ErrBadAttestation /\ ~ exists k, signed_by k att)
             \/ (e = ErrNoContradiction /\ ~ refutes incl (att_Statement att))
  | Panic => False
  end.
Proof.
  unfold ProveFalseNegative. destruct (att_Verify att) eqn:Ev; cbn [negb].
  2:{ left. split; [done|]. intros Hs. apply att_Verify_signed in Hs. congruence. }
  apply att_Verify_signed in Ev.
  cbv zeta. unfold refutes. destruct (negative (att_Statement att)); cbn [negb]; [|right; by split; [|intros [? _]]].
  destruct (bool_decide_reflect (p_Leaf incl = st_TxID (att_Statement att))); cbn [negb orb]; [|right; split; [done|tauto]].
  destruct (ProofPath.Verify incl); cbn [negb]; [done|]. right. split; [done|]. by intros (_ & _ & ?).
Qed.

Definition equivocates (a b : Attestation) : Prop :=
  exists k k', signed_by k a /\ signed_by k' b /\ SerializeCompressed k = SerializeCompressed k'
    /\ contradicts (att_Statement a) (att_Statement b) = true.

Lemma ProveEquivocation_spec a b :
  match ProveEquivocation a b with
  | Ok fp => fp = mkFraudProof FraudEquivocation a (Some b) None None /\ equivocates a b
  | Err e => ~ equivocates a b /\ (e = ErrBadAttestation \/ e = ErrOperatorMismatch \/ e = ErrNoContradiction)
  | Panic => False
  end.
Proof.
  unfold ProveEquivocation. destruct (att_Verify a) eqn:Ea; cbn [negb orb].
  2:{ split; [|by left]. intros (k & k' & Ha & _). assert (att_Verify a = true) by (apply att_Verify_signed; eauto). congruence. }
  destruct (att_Verify b) eqn:Eb; cbn [negb].
  2:{ split; [|by left]. intros (k & k' & _ & Hb & _). assert (att_Verify b = true) by (apply att_Verify_signed; eauto). congruence. }
  apply att_Verify_signed in Ea as [k Ha], Eb as [k' Hb].
  pose proof Ha as (Ek & Ck & _). pose proof Hb as (Ek' & Ck' & _).
  destruct (Equal_curve k k' Ck Ck') as (eb & Ee & Hee). rewrite Ek, Ek', Ee. cbn [rbind].
  assert (Hk : forall j j', signed_by j a -> signed_by j' b -> j = k /\ j' = k').
  { intros j j' (? & _) (? & _). split; congruence. }
  destruct eb; cbn [negb].
  - destruct (contradicts (att_Statement a) (att_Statement b)) eqn:Ec; cbn [negb].
    + split; [done|]. exists k, k'. split_and!; [done..|by apply Hee|done].
    + split; [|tauto]. intros (? & ? & _ & _ & _ & ?). congruence.
  - split; [|tauto]. intros (j & j' & Hj & Hj' & Hs & _). destruct (Hk j j' Hj Hj') as [-> ->].
    apply Hee in Hs. discriminate.
Qed.

(** The evidence of a fraud proof holds against key [k]. *)
Definition evidence (fp : FraudProof) (k : point) : Prop :=
  signed_by k (fp_Att fp) /\
  ((fp_Kind fp = FraudFalseNegative
    /\ exists incl, fp_Inclusion fp = Some incl /\ refutes incl (att_Statement (fp_Att fp)))
   \/ (fp_Kind fp = FraudEquivocation /\ exists b, fp_Att2 fp = Some b /\ equivocates (fp_Att fp) b)).

Definition endorsed_by (m k : point) (e : Endorsement) : Prop :=
  exists k' sig h, en_Operator e = Some k' /\ SerializeCompressed k' = SerializeCompressed k /\ en_Miner e = Some m
    /\ en_Sig e = Some sig /\ IsLowS sig = true /\ endorseHash k' = Ok h /\ Crypto.Verify m h sig = true.

(** The evidence half of [Verify]: total, and it accepts exactly the evidence. *)
Lemma fp_operator_spec fp : exists o, fp_operator fp = Ok o /\
  match o with
  | Some op => exists k, op = Some k /\ evidence fp k
  | None => forall k, ~ evidence fp k
  end.
Proof.
  unfold fp_operator. destruct (Z.eqb_spec (fp_Kind fp) FraudFalseNegative) as [Ek|Ek].
  - destruct (fp_Inclusion fp) as [incl|] eqn:Ei.
    + pose proof (ProveFalseNegative_spec (fp_Att fp) incl) as Hs.
      destruct (ProveFalseNegative (fp_Att fp) incl); [|eexists; split; [done|]..|done].
      * destruct Hs as (_ & [k Hk] & Hr). eexists. split; [done|]. exists k. split; [by destruct Hk|]. split; [done|]. eauto 10.
      * intros k (Hk & [(_ & i & Hi & Hr)|(E & _)]); [|rewrite Ek in E; discriminate]. rewrite Ei in Hi. injection Hi as <-.
        destruct Hs as [[_ Hn]|[_ Hn]]; eauto.
    + eexists. split; [done|]. intros k (_ & [(_ & i & Hi & _)|(E & _)]); [congruence|rewrite Ek in E; discriminate].
  - destruct (Z.eqb_spec (fp_Kind fp) FraudEquivocation) as [Eq|Eq].
    + destruct (fp_Att2 fp) as [b|] eqn:Eb.
      * pose proof (ProveEquivocation_spec (fp_Att fp) b) as Hs.
        destruct (ProveEquivocation (fp_Att fp) b); [|eexists; split; [done|]..|done].
        -- destruct Hs as (_ & k & k' & Hk & Hrest). eexists. split; [done|]. exists k. split; [by destruct Hk|].
           split; [done|]. right. split; [done|]. exists b. split; [done|]. by exists k, k'.
        -- intros k (_ & [(? & _)|(_ & b' & Hb & Hq)]); [done|]. rewrite Eb in Hb. injection Hb as <-. by destruct Hs.
      * eexists. split; [done|]. intros k (_ & [(? & _)|(_ & b' & Hb & _)]); [done|congruence].
    + eexists. split; [done|]. intros k (_ & [(? & _)|(? & _)]); done.
Qed.

Lemma en_Verify_true e : en_Verify e = Ok true ->
  exists k m sig h, en_Operator e = Some k /\ en_Miner e = Some m /\ en_Sig e = Some sig /\ IsLowS sig = true
    /\ endorseHash k = Ok h /\ Crypto.Verify m h sig = true.
Proof.
  unfold en_Verify. destruct (en_Operator e) as [k|], (en_Miner e) as [m|], (en_Sig e) as [sig|]; try done.
  destruct (IsLowS sig) eqn:El; cbn [negb]; [|done]. destruct (endorseHash k) as [h| |] eqn:Eh; cbn [rbind]; [|done..].
  intros [= Hv]. exists k, m, sig, h. done.
Qed.

Lemma Equal_true p q : Equal p q = Ok true ->
  exists k k', p = Some k /\ q = Some k' /\ SerializeCompressed k = SerializeCompressed k'.
Proof.
  unfold Equal. intros H. destruct p as [k|], q as [k'|]; try done. exists k, k'.
  destruct (SerializeCompressed k) as [a| |]; cbn [rbind] in *; [|done..].
  destruct (SerializeCompressed k') as [b| |]; cbn [rbind] in *; [|done..].
  injection H as H. apply bool_decide_eq_true in H as ->. done.
Qed.

(** * Theorems *)

(** a signature binds the whole statement: two well-typed statements with the
    same signing hash are equal, or their encodings are a SHA-256d collision. *)
Theorem statement_sighash_binds (s o : Statement) :
  st_ok s -> st_ok o -> st_sighash s = st_sighash o -> s = o \/ is_collision (encode s, encode o).
Proof.
  intros Hs Ho E. apply array_ext in E. destruct (decide (encode s = encode o)) as [Ee|Ee].
  - left. by apply encode_inj.
  - right. by split.
Qed.


(** an operator whose answers depend only on the query and the tip it states can
    never be accused of equivocation: [ProveEquivocation] returns an error on
    any two of its attestations. *)
Theorem consistent_operator_not_accused (answer : Z -> Hash -> Z -> Z -> bool * Z * Hash) (a b : Attestation) :
  (forall s, s ∈ [att_Statement a; att_Statement b] -> st_ok s /\
     (st_Flag s, st_Height s, st_BlockHash s) = answer (st_Kind s) (st_TxID s) (st_Vout s) (st_Tip s)) ->
  exists e, ProveEquivocation a b = Err e.
Proof.
  intros Hans. pose proof (ProveEquivocation_spec a b) as Hs.
  destruct (Hans (att_Statement a)) as [Ha Ea]; [by left|].
  destruct (Hans (att_Statement b)) as [Hb Eb]; [by right; left|].
  destruct (ProveEquivocation a b) as [fp|e|]; [|by eexists|done]. exfalso.
  destruct Hs as (_ & k & k' & _ & _ & _ & Hc). apply contradicts_iff in Hc as [(E1 & E2 & E3 & E4) Hd]; [|done..].
  apply Hd. rewrite E1, E2, E3, E4, <- Eb in Ea. by injection Ea.
Qed.

(** An inclusion proof anyone can write down: no siblings, the root is the leaf. *)
Definition bare_proof (txid : Hash) : ProofRec := mkProof txid [] txid [] txid zeroHash 0 (azero 80).

Lemma bare_proof_verifies txid : ProofPath.Verify (bare_proof txid) = true.
Proof. unfold ProofPath.Verify, VerifyToBlockRoot. simpl. by apply bool_decide_eq_true. Qed.

(** a false-negative proof needs no inclusion.  Every validly signed "not seen"
    or "not mined" answer, true or not, is refuted by the inclusion proof with
    no siblings whose root is the txid, and the resulting fraud proof verifies
    and names the operator. *)
Theorem negative_answer_always_accused (att : Attestation) :
  att_Verify att = true -> negative (att_Statement att) = true ->
  exists fp, ProveFalseNegative att (bare_proof (st_TxID (att_Statement att))) = Ok fp
    /\ fp_Verify fp = Ok (att_Operator att, None, true).
Proof.
  intros Hv Hn. set (incl := bare_proof _).
  assert (E : ProveFalseNegative att incl = Ok (mkFraudProof FraudFalseNegative att None (Some incl) None)).
  { unfold ProveFalseNegative. rewrite Hv, Hn. cbn [negb]. unfold incl. rewrite bare_proof_verifies.
    rewrite bool_decide_eq_true_2 by done. done. }
  eexists. split; [exact E|]. unfold fp_Verify, fp_operator. cbn [fp_Kind fp_Inclusion fp_Att fp_Endorsement].
  change (FraudFalseNegative =? FraudFalseNegative) with true. cbn iota. rewrite E. done.
Qed.

(** * Witnesses *)

(** A signed "not mined" whose signature is [(z, z)], with [z] the signing hash,
    under the key [R - G] for a curve point [R] with abscissa [z]. *)
Definition demo_statement : Statement := mkStatement StmtMined (demo_hash 7) 0 false 0 zeroHash 106.
Definition demo_att_z : Z := 0x172bb525825c6ae7061a4da6a416e0b80f3793b5e7252d374cdb0ff5b74e1a39.
Definition demo_operator : point :=
  Some (0xa2f8523b17edc015c9048d72adbc8cc98369cd83c6888ebde65fc7b324c2aa49,
        0x8037d881ad5b22008867837b91c077bfb90f24ef79ff731127a3b1562031b63e).
Definition demo_att : Attestation :=
  mkAttestation demo_statement (Some demo_operator) (Some (mkSig demo_att_z demo_att_z)).

Lemma demo_att_verifies : att_Verify demo_att = true.
Proof. by vm_compute. Qed.
Lemma demo_statement_ok : st_ok demo_statement.
Proof. unfold st_ok, is_u. simpl. unfold StmtMined. lia. Qed.

Lemma statement_sighash_binds_witness :
  demo_statement = demo_statement \/ is_collision (encode demo_statement, encode demo_statement).
Proof. apply (statement_sighash_binds demo_statement demo_statement demo_statement_ok demo_statement_ok eq_refl). Defined.

Definition demo_fraud : FraudProof :=
  mkFraudProof FraudFalseNegative demo_att None (Some (bare_proof (demo_hash 7))) None.
Lemma demo_fraud_verifies : fp_Verify demo_fraud = Ok (Some demo_operator, None, true).
Proof.
  unfold fp_Verify, fp_operator, demo_fraud. cbn [fp_Kind fp_Inclusion fp_Att fp_Endorsement].
  change (FraudFalseNegative =? FraudFalseNegative) with true. cbn iota.
  unfold ProveFalseNegative. rewrite demo_att_verifies, bare_proof_verifies. cbn [negb].
  rewrite bool_decide_eq_true_2 by done. done.
Qed.


Lemma consistent_operator_not_accused_witness : exists e, ProveEquivocation demo_att demo_att = Err e.
Proof.
  apply (consistent_operator_not_accused (fun _ _ _ _ => (false, 0, zeroHash)) demo_att demo_att).
  intros s Hs. assert (s = demo_statement) as ->.
  { apply elem_of_cons in Hs as [->|Hs]; [reflexivity|]. by apply list_elem_of_singleton in Hs as ->. }
  split; [exact demo_statement_ok|reflexivity].
Defined.

Lemma negative_answer_always_accused_witness :
  exists fp, ProveFalseNegative demo_att (bare_proof (demo_hash 7)) = Ok fp
    /\ fp_Verify fp = Ok (Some demo_operator, None, true).
Proof. apply (negative_answer_always_accused demo_att demo_att_verifies). reflexivity. Defined.
