(* ===== verification/Hex.v ===== *)
(** * encoding/hex, as the server and the block source use it

    A Go string is its bytes.  Encoding is lower case; decoding takes both
    cases and fails on a non-digit or an odd length. *)

From stdpp Require Import base list strings.
From Stdlib Require Import ZArith Lia ZifyNat.
From Stdlib Require Strings.Byte.
From S2P Require Import Prelude.
Open Scope go_scope.

(** A Go string. *)
Abbreviation gostring := (list byte).

Definition ErrHexByte : error := "encoding/hex: invalid byte"%string.
Definition ErrHexLength : error := "encoding/hex: odd length hex string"%string.

Definition hex_digit (n : Z) : byte := z2b (if n <? 10 then 0x30 + n else 0x57 + n).
Definition hex_value (c : byte) : option Z :=
  let v := b2z c in
  if (0x30 <=? v) && (v <=? 0x39) then Some (v - 0x30)
  else if (0x61 <=? v) && (v <=? 0x66) then Some (v - 0x57)
  else if (0x41 <=? v) && (v <=? 0x46) then Some (v - 0x37)
  else None.

Fixpoint hex_encode (b : list byte) : gostring :=
  match b with
  | [] => []
  | x :: r => hex_digit (Z.shiftr (b2z x) 4) :: hex_digit (Z.land (b2z x) 0x0f) :: hex_encode r
  end.

Fixpoint hex_decode (s : gostring) : result (list byte) :=
  match s with
  | [] => Ok []
  | [c] => match hex_value c with Some _ => Err ErrHexLength | None => Err ErrHexByte end
  | p :: q :: r =>
      match hex_value p, hex_value q with
      | Some a, Some b => let! rest := hex_decode r in Ok (z2b (Z.lor (Z.shiftl a 4) b) :: rest)
      | _, _ => Err ErrHexByte
      end
  end.

(** ** Lemmas *)

Lemma hex_value_digit n : 0 <= n < 16 -> hex_value (hex_digit n) = Some n.
Proof.
  intros Hn.
  assert (forallb (fun k => bool_decide (hex_value (hex_digit k) = Some k)) (seqZ 0 16) = true) as Ha
    by (by vm_compute).
  rewrite forallb_forall in Ha. apply (bool_decide_eq_true_1 _), Ha, list_elem_of_In, elem_of_seqZ. lia.
Qed.

Definition nibbles_ok (x : Z) : bool :=
  (0 <=? Z.shiftr x 4) && (Z.shiftr x 4 <? 16) && (0 <=? Z.land x 0x0f) && (Z.land x 0x0f <? 16)
  && (Z.lor (Z.shiftl (Z.shiftr x 4) 4) (Z.land x 0x0f) =? x).
Lemma nibbles x : 0 <= x < 256 ->
  0 <= Z.shiftr x 4 < 16 /\ 0 <= Z.land x 0x0f < 16 /\ Z.lor (Z.shiftl (Z.shiftr x 4) 4) (Z.land x 0x0f) = x.
Proof.
  intros Hx. assert (nibbles_ok x = true) as Hn.
  { assert (forallb nibbles_ok (seqZ 0 256) = true) as Ha by (by vm_compute).
    rewrite forallb_forall in Ha. apply Ha, list_elem_of_In, elem_of_seqZ. lia. }
  unfold nibbles_ok in Hn. rewrite !andb_true_iff in Hn. lia.
Qed.

Lemma hex_roundtrip b : hex_decode (hex_encode b) = Ok b.
Proof.
  induction b as [|x r IH]; [done|]. cbn [hex_encode hex_decode].
  destruct (nibbles (b2z x) (b2z_range x)) as (H1 & H2 & H3).
  rewrite !hex_value_digit, IH by done. cbn [rbind]. by rewrite H3, z2b_b2z.
Qed.

Lemma length_hex_encode b : length (hex_encode b) = (2 * length b)%nat.
Proof. induction b as [|x r IH]; [done|]. cbn [hex_encode length]. rewrite IH. lia. Qed.

(** Decoding is total. *)
Lemma hex_decode_total s : hex_decode s <> Panic.
Proof.
  induction s as [s IH] using (induction_ltof1 _ (@length byte)). unfold ltof in IH.
  destruct s as [|p [|q r]]; cbn [hex_decode]; [done|by destruct (hex_value p)|].
  destruct (hex_value p), (hex_value q); try done. specialize (IH r ltac:(simpl; lia)).
  by destruct (hex_decode r).
Qed.
