(* ===== verification/Wire.v ===== *)
(** * server/wire: the JSON forms ([src/server/wire.go])

    Hashes, proofs and attestations on the wire, as records of Go strings; the
    JSON text itself is the standard library's.  The theorems show that a proof
    survives the wire and that an attestation's wire form carries its statement,
    key and signature. *)

From stdpp Require Import base list strings.
From Stdlib Require Import ZArith Lia ZifyNat.
From S2P Require Import Prelude Sha256 Commitment StoreSpec ProofPath Crypto Attest Hex.
Open Scope go_scope.

Definition hexHash (h : Hash) : gostring := hex_encode (abytes h).
Definition parseHash (s : gostring) : option Hash :=
  match hex_decode s with
  | Ok b => if negb (length b =? 32)%nat then None else Some (arr 32 b)
  | _ => None
  end.

Record PathElemJSON : Type := mkPathElemJSON { pj_Sibling : gostring; pj_Right : bool }.
Record ProofJSON : Type := mkProofJSON
  { j_Leaf : gostring; j_L1 : list PathElemJSON; j_SubtreeRoot : gostring; j_L2 : list PathElemJSON;
    j_BlockRoot : gostring; j_BlockHash : gostring; j_Height : Z; j_Header : gostring }.

Definition enc_path (es : list PathElem) : list PathElemJSON :=
  (fun e => mkPathElemJSON (hexHash (Sibling e)) (Right e)) <$> es.
Definition EncodeProof (p : ProofRec) : ProofJSON :=
  mkProofJSON (hexHash (p_Leaf p)) (enc_path (p_L1 p)) (hexHash (p_SubtreeRoot p)) (enc_path (p_L2 p))
    (hexHash (p_BlockRoot p)) (hexHash (p_BlockHash p)) (p_Height p) (hex_encode (abytes (p_Header p))).

Fixpoint dec_path (es : list PathElemJSON) : option (list PathElem) :=
  match es with
  | [] => Some []
  | e :: r =>
      match parseHash (pj_Sibling e) with
      | None => None
      | Some sib => match dec_path r with
                    | None => None
                    | Some out => Some (mkPathElem sib (pj_Right e) :: out)
                    end
      end
  end.

(** [None] where the code returns [false]; the value beside it is unused. *)
Definition DecodeProof (j : ProofJSON) : option ProofRec :=
  match parseHash (j_Leaf j) with
  | None => None
  | Some leaf =>
  match dec_path (j_L1 j) with
  | None => None
  | Some l1 =>
  match parseHash (j_SubtreeRoot j) with
  | None => None
  | Some sub =>
  match dec_path (j_L2 j) with
  | None => None
  | Some l2 =>
  match parseHash (j_BlockRoot j) with
  | None => None
  | Some root =>
  match parseHash (j_BlockHash j) with
  | None => None
  | Some bh =>
  match hex_decode (j_Header j) with
  | Ok hb => if negb (length hb =? 80)%nat then None
             else Some (mkProof leaf l1 sub l2 root bh (j_Height j) (arr 80 hb))
  | _ => None
  end end end end end end end.

Record AttestationJSON : Type := mkAttestationJSON
  { aj_Kind : Z; aj_TxID : gostring; aj_Vout : Z; aj_Flag : bool; aj_Height : Z; aj_BlockHash : gostring;
    aj_Tip : Z; aj_Operator : gostring; aj_Sig : gostring }.

Definition EncodeAttestation (a : Attestation) : result AttestationJSON :=
  let s := att_Statement a in
  match att_Operator a, att_Sig a with
  | Some op, Some sig =>
      let! k := SerializeCompressed op in
      let! sb := sig_Serialize sig in
      Ok (mkAttestationJSON (st_Kind s) (hexHash (st_TxID s)) (st_Vout s) (st_Flag s) (st_Height s)
            (hexHash (st_BlockHash s)) (st_Tip s) (hex_encode k) (hex_encode sb))
  | _, _ => Panic
  end.

Record SeenResponse : Type := mkSeenResponse
  { rs_Seen : bool; rs_SeenTime : Z; rs_Tip : Z; rs_Attestation : option AttestationJSON }.
Record MinedResponse : Type := mkMinedResponse
  { rm_Mined : bool; rm_BlockHash : gostring; rm_Height : Z; rm_BlockTime : Z; rm_Tip : Z;
    rm_Attestation : option AttestationJSON }.
Record UTXOResponse : Type := mkUTXOResponse
  { ru_Status : gostring; ru_Value : Z; ru_SpentHeight : Z; ru_Tip : Z; ru_Attestation : option AttestationJSON }.
Record MerklePathResponse : Type := mkMerklePathResponse { rp_Proof : ProofJSON }.

(** ** Lemmas *)

Lemma parseHash_hexHash h : parseHash (hexHash h) = Some h.
Proof. unfold parseHash, hexHash. rewrite hex_roundtrip, abytes_length. cbn [Nat.eqb negb]. by rewrite arr_abytes. Qed.

(** [parseHash] accepts exactly the hex forms of 32 bytes. *)
Lemma parseHash_Some s h : parseHash s = Some h <-> hex_decode s = Ok (abytes h).
Proof.
  unfold parseHash. destruct (hex_decode s) as [b| |]; [|split; discriminate..].
  destruct (Nat.eqb_spec (length b) 32) as [Hl|Hl]; cbn [negb].
  - split; intros [= E]; [by rewrite <- E, abytes_arr|by rewrite E, arr_abytes].
  - split; [discriminate|]. intros [= ->]. by rewrite abytes_length in Hl.
Qed.

Lemma dec_enc_path es : dec_path (enc_path es) = Some es.
Proof.
  induction es as [|[sib r] es IH]; [done|]. unfold enc_path. rewrite fmap_cons. cbn [dec_path pj_Sibling pj_Right].
  cbn [Sibling Right]. rewrite parseHash_hexHash. fold (enc_path es). by rewrite IH.
Qed.

(** ** Theorems *)

(** a proof survives the wire: decoding the encoded form returns the same proof,
    so the client verifies exactly what the server built. *)
Theorem proof_wire_roundtrip (p : ProofRec) : DecodeProof (EncodeProof p) = Some p.
Proof.
  unfold DecodeProof, EncodeProof. cbn [j_Leaf j_L1 j_SubtreeRoot j_L2 j_BlockRoot j_BlockHash j_Height j_Header].
  rewrite !parseHash_hexHash, !dec_enc_path, hex_roundtrip, abytes_length. cbn [Nat.eqb negb].
  rewrite arr_abytes. by destruct p.
Qed.

(** the wire form of a verifying attestation exists and carries it whole: its
    hash fields parse to the statement's, the operator field is the compressed
    key, and the signature field decodes and parses to the signature. *)
Theorem attestation_wire_faithful (a : Attestation) :
  att_Verify a = true ->
  exists j k sig kb sb, EncodeAttestation a = Ok j /\ att_Operator a = Some k /\ att_Sig a = Some sig
    /\ mkStatement (aj_Kind j) (st_TxID (att_Statement a)) (aj_Vout j) (aj_Flag j) (aj_Height j)
         (st_BlockHash (att_Statement a)) (aj_Tip j) = att_Statement a
    /\ parseHash (aj_TxID j) = Some (st_TxID (att_Statement a))
    /\ parseHash (aj_BlockHash j) = Some (st_BlockHash (att_Statement a))
    /\ SerializeCompressed k = Ok kb /\ hex_decode (aj_Operator j) = Ok kb
    /\ hex_decode (aj_Sig j) = Ok sb /\ ParseSignature sb = Ok sig.
Proof.
  intros Hv. destruct (att_Verify_true a Hv) as (k & sig & Hk & Hs & Hl & Hver).
  destruct (on_curve_serializes k (Verify_on_curve _ _ _ Hver)) as [kb Hkb].
  destruct (Verify_range _ _ _ Hver) as [HR HS]. pose proof curve_order_small.
  assert (sig_fits sig) as Hf by (split; lia).
  unfold EncodeAttestation. rewrite Hk, Hs, Hkb, sig_Serialize_eq by done. cbn [rbind].
  eexists _, k, sig, kb, (sig_bytes sig). split; [done|].
  cbn [aj_Kind aj_TxID aj_Vout aj_Flag aj_Height aj_BlockHash aj_Tip aj_Operator aj_Sig].
  rewrite !parseHash_hexHash, !hex_roundtrip. split_and!; try done; [by destruct (att_Statement a)|].
  by apply ParseSignature_bytes.
Qed.

(** ** Witness *)

Lemma attestation_wire_faithful_witness :
  exists j k sig kb sb, EncodeAttestation demo_att = Ok j /\ Some demo_operator = Some k
    /\ Some (mkSig demo_att_z demo_att_z) = Some sig
    /\ mkStatement (aj_Kind j) (demo_hash 7) (aj_Vout j) (aj_Flag j) (aj_Height j) zeroHash (aj_Tip j) = demo_statement
    /\ parseHash (aj_TxID j) = Some (demo_hash 7) /\ parseHash (aj_BlockHash j) = Some zeroHash
    /\ SerializeCompressed k = Ok kb /\ hex_decode (aj_Operator j) = Ok kb
    /\ hex_decode (aj_Sig j) = Ok sb /\ ParseSignature sb = Ok sig.
Proof. apply (attestation_wire_faithful demo_att demo_att_verifies). Defined.
