(* ===== verification/HttpSource.v ===== *)
(** * teranode/httpsource: blocks over HTTP ([src/teranode/httpsource/httpsource.go])

    The adapter as a second instance of [Source].  The network is part of the
    state: it answers the [n]-th request and records the requests and sleeps
    made.  Decoding a JSON body is the standard library's reflection, and enters
    as the two functions of [Decoder].  The theorems give the retry loop's
    outcome against a one-line specification, show that conversion inverts the
    JSON contract and yields consistent blocks only, and that a chain served by
    an endpoint with bounded transient failures is streamed in full. *)

From stdpp Require Import base list strings pretty.
From Stdlib Require Import Ascii ZArith Lia ZifyNat.
From Stdlib Require Strings.Byte.
From S2P Require Import Prelude Sha256 Commitment Shard StoreSpec MemStore ProofPath Prune Teranode Ingest Reorg Pipeline Hex.
Open Scope go_scope.

(** ** Data *)

Record jsonInput : Type := mkjsonInput { ji_TxID : gostring; ji_Vout : Z }.
Record jsonOutput : Type := mkjsonOutput { jo_Value : Z; jo_ScriptHash : gostring }.
Record jsonTx : Type := mkjsonTx
  { jt_TxID : gostring; jt_Inputs : list jsonInput; jt_Outputs : list jsonOutput }.
Record jsonSubtree : Type := mkjsonSubtree { js_Root : gostring; js_Txs : list jsonTx }.
Record jsonBlock : Type := mkjsonBlock
  { jb_Hash : gostring; jb_Height : Z; jb_Time : Z; jb_Header : gostring; jb_Subtrees : list jsonSubtree }.
Record jsonTip : Type := mkjsonTip { jp_Height : Z }.

(** Durations are nanoseconds.  [PollEvery] is not read by the code; the HTTP
    client is the network below. *)
Record HConfig : Type := mkHConfig
  { h_BaseURL : string; h_StartHeight : Z; h_EndHeight : Z; h_BestHeightPath : string;
    h_BlockPathFmt : string; h_AuthBearer : string; h_MaxRetries : Z; h_RetryBackoff : Z;
    h_MaxBodyBytes : Z }.
Record HSource : Type := mkHSource { hs_cfg : HConfig; hs_height : Z; hs_tip : Z }.

Definition or_string (s d : string) : string := if decide (s = ""%string) then d else s.
Definition or_positive (n d : Z) : Z := if n <=? 0 then d else n.

Definition NewHttp (cfg : HConfig) : HSource :=
  mkHSource (mkHConfig (h_BaseURL cfg) (h_StartHeight cfg) (h_EndHeight cfg)
      (or_string (h_BestHeightPath cfg) "/api/v1/bestheight")
      (or_string (h_BlockPathFmt cfg) "/api/v1/block/%d") (h_AuthBearer cfg)
      (or_positive (h_MaxRetries cfg) 4) (or_positive (h_RetryBackoff cfg) 200000000)
      (or_positive (h_MaxBodyBytes cfg) (Z.shiftl 64 20)))
    (h_StartHeight cfg) 0.

(** ** The network *)

Record Request : Type := mkRequest { rq_URL : string; rq_Auth : option string }.
Inductive Reply : Type :=
| NetError (e : error)
| Response (status : Z) (body : list byte).

(** [w_net n r] answers request [r] when it is the [n]-th one made. *)
Record World : Type := mkWorld
  { w_net : nat -> Request -> Reply; w_reqs : list Request; w_sleeps : list Z }.

Record Decoder : Type := mkDecoder
  { dec_tip : list byte -> result jsonTip; dec_block : list byte -> result jsonBlock;
    (** [http.NewRequest]: the error of a URL that does not parse *)
    url_error : string -> option error }.

Definition net_sleep (d : Z) : M World unit :=
  fun w => (Ok tt, mkWorld (w_net w) (w_reqs w) (w_sleeps w ++ [d])).
Definition net_do (r : Request) : M World Reply :=
  fun w => (Ok (w_net w (length (w_reqs w)) r), mkWorld (w_net w) (w_reqs w ++ [r]) (w_sleeps w)).


Definition StatusOK : Z := 200.
Definition StatusTooManyRequests : Z := 429.

Definition bytes_text (b : list byte) : string := String.string_of_list_byte b.
Definition status_error (url : string) (status : Z) (body : list byte) : error :=
  ("httpsource: GET " +:+ url +:+ " -> " +:+ pretty (Z.to_N status) +:+ ": " +:+ bytes_text (take 512 body))%string.
Definition exhausted_error (n : Z) (last : error) : error :=
  ("httpsource: exhausted " +:+ pretty (Z.to_N n) +:+ " retries: " +:+ last)%string.

(** ** getJSON *)

Section get_json.
Context {A : Type} (cfg : HConfig) (url_err : string -> option error) (decode : list byte -> result A) (url : string).

Definition make_request : Request :=
  mkRequest url (if decide (h_AuthBearer cfg = ""%string) then None
                 else Some ("Bearer " +:+ h_AuthBearer cfg)%string).

(** [n] attempts are left, the next one has number [attempt]. *)
Fixpoint get_loop (n : nat) (attempt backoff : Z) (lastErr : error) : M World A :=
  match n with
  | O => merr (exhausted_error (h_MaxRetries cfg) lastErr)
  | S n' =>
      (if 0 <? attempt then net_sleep backoff else mret tt) ;;
      let backoff' := if 0 <? attempt then i64 (backoff * 2) else backoff in
      match url_err url with
      | Some e => merr e
      | None =>
          r <- net_do make_request ;;
          match r with
          | NetError e => get_loop n' (attempt + 1) backoff' e
          | Response status body =>
              if status =? StatusOK then mlift (decode (take (Z.to_nat (h_MaxBodyBytes cfg)) body))
              else
                let lastErr := status_error url status body in
                if (status =? StatusTooManyRequests) || (500 <=? status)
                then get_loop n' (attempt + 1) backoff' lastErr
                else merr lastErr
          end
      end
  end.

Definition getJSON : M World A := get_loop (Z.to_nat (h_MaxRetries cfg + 1)) 0 (h_RetryBackoff cfg) ""%string.
End get_json.

(** ** Conversion *)

Definition ErrHashLen (n : nat) : error :=
  ("httpsource: hash must be 32 bytes, got " +:+ pretty (N.of_nat n))%string.
Definition ErrHeaderHex : error := "httpsource: header must be 80 bytes hex"%string.

Definition source_hexHash (s : gostring) : result Hash :=
  let! b := hex_decode s in
  if negb (length b =? 32)%nat then Err (ErrHashLen (length b)) else Ok (arr 32 b).

Fixpoint conv_inputs (ins : list jsonInput) : result (list Outpoint) :=
  match ins with
  | [] => Ok []
  | i :: r => let! itx := source_hexHash (ji_TxID i) in
              let! rest := conv_inputs r in Ok (mkOutpoint itx (ji_Vout i) :: rest)
  end.
Fixpoint conv_outputs (outs : list jsonOutput) : result (list TxOut) :=
  match outs with
  | [] => Ok []
  | o :: r => let! sh := source_hexHash (jo_ScriptHash o) in
              let! rest := conv_outputs r in Ok (mkTxOut (jo_Value o) sh :: rest)
  end.
Definition conv_tx (jt : jsonTx) : result Tx :=
  let! txid := source_hexHash (jt_TxID jt) in
  let! ins := conv_inputs (jt_Inputs jt) in
  let! outs := conv_outputs (jt_Outputs jt) in
  Ok (mkTx txid ins outs).

(** The two slices the transaction loop appends to. *)
Fixpoint conv_txs (txs : list jsonTx) : result (list Hash * list Tx) :=
  match txs with
  | [] => Ok ([], [])
  | jt :: r => let! tx := conv_tx jt in
               let! (ids, rest) := conv_txs r in Ok (tx_TxID tx :: ids, tx :: rest)
  end.
Definition conv_subtree (js : jsonSubtree) : result Subtree :=
  let! root := source_hexHash (js_Root js) in
  let! (ids, txs) := conv_txs (js_Txs js) in
  Ok (mkSubtree root ids txs).
Fixpoint conv_subtrees (subs : list jsonSubtree) : result (list Subtree * list Hash) :=
  match subs with
  | [] => Ok ([], [])
  | js :: r => let! sub := conv_subtree js in
               let! (rest, roots) := conv_subtrees r in Ok (sub :: rest, sub_Root sub :: roots)
  end.

(** The partly filled block beside an error is dropped by the only caller. *)
Definition convert (jb : jsonBlock) : result Block :=
  match hex_decode (jb_Header jb) with
  | Ok hb =>
      if negb (length hb =? 80)%nat then Err ErrHeaderHex
      else
        let header : Header := arr 80 hb in
        let! hash := source_hexHash (jb_Hash jb) in
        let! (subs, roots) := conv_subtrees (jb_Subtrees jb) in
        Ok (mkBlock hash (jb_Height jb) (jb_Time jb) (arr 32 (take 32 (drop 36 (abytes header)))) roots header subs)
  | _ => Err ErrHeaderHex
  end.

(** ** The source *)

(** [fmt.Sprintf(f, h)] for a format with one [%d]. *)
Fixpoint sprintf_d (f : string) (h : Z) : string :=
  match f with
  | String c r =>
      if Ascii.eqb c "%"%char then
        match r with
        | String d r' => if Ascii.eqb d "d"%char then (pretty (Z.to_N h) +:+ r')%string else String c (sprintf_d r h)
        | EmptyString => f
        end
      else String c (sprintf_d r h)
  | EmptyString => EmptyString
  end.

Abbreviation HS := (HSource * World)%type.

Section source.
Context (D : Decoder).

Definition tip_url (cfg : HConfig) : string := (h_BaseURL cfg +:+ h_BestHeightPath cfg)%string.
Definition block_url (cfg : HConfig) (h : Z) : string := (h_BaseURL cfg +:+ sprintf_d (h_BlockPathFmt cfg) h)%string.

Definition set_tip (t : Z) : M HS unit := on1 (fun s => (Ok tt, mkHSource (hs_cfg s) (hs_height s) t)).
Definition set_height (h : Z) : M HS unit := on1 (fun s => (Ok tt, mkHSource (hs_cfg s) h (hs_tip s))).

Definition refreshTip : M HS unit :=
  s <- on1 mget ;;
  t <- on2 (getJSON (hs_cfg s) (url_error D) (dec_tip D) (tip_url (hs_cfg s))) ;;
  set_tip (jp_Height t).

Definition fetchBlock (h : Z) : M HS Block :=
  s <- on1 mget ;;
  jb <- on2 (getJSON (hs_cfg s) (url_error D) (dec_block D) (block_url (hs_cfg s) h)) ;;
  mlift (convert jb).

Definition fetch_next : M HS (option Block) :=
  s <- on1 mget ;;
  blk <- fetchBlock (hs_height s) ;;
  set_height (u32 (hs_height s + 1)) ;;
  mret (Some blk).

Definition http_Next : M HS (option Block) :=
  s <- on1 mget ;;
  if negb (h_EndHeight (hs_cfg s) =? 0) && (h_EndHeight (hs_cfg s) <? hs_height s) then mret None
  else if hs_tip s <? hs_height s then
    refreshTip ;;
    s' <- on1 mget ;;
    if hs_tip s' <? hs_height s' then mret None else fetch_next
  else fetch_next.

Definition http_TipHeight (st : HS) : Z := hs_tip st.1.

Definition http_source : Source HS := {| Next := http_Next; TipHeight := http_TipHeight |}.
End source.

(** ** The retry loop *)

Definition transient (r : Reply) : bool :=
  match r with
  | NetError _ => true
  | Response st _ => negb (st =? StatusOK) && ((st =? StatusTooManyRequests) || (500 <=? st))
  end.
Definition reply_error (url : string) (r : Reply) : error :=
  match r with NetError e => e | Response st body => status_error url st body end.

(** What a reply that is not retried means. *)
Definition settle {A} (cfg : HConfig) (decode : list byte -> result A) (url : string) (r : Reply) : result A :=
  match r with
  | Response st body =>
      if st =? StatusOK then decode (take (Z.to_nat (h_MaxBodyBytes cfg)) body)
      else Err (status_error url st body)
  | NetError e => Err e
  end.

(** The answers the next [n] copies of a request would get. *)
Definition replies (w : World) (r : Request) (n : nat) : list Reply :=
  (fun i => w_net w (length (w_reqs w) + i)%nat r) <$> seq 0 n.
Definition backoffs (b : Z) (n : nat) : list Z := (fun k => b * 2 ^ Z.of_nat k) <$> seq 0 n.
(** After [k + 1] attempts at the request. *)
Definition after_attempts (cfg : HConfig) (r : Request) (k : nat) (w : World) : World :=
  mkWorld (w_net w) (w_reqs w ++ replicate (k + 1) r) (w_sleeps w ++ backoffs (h_RetryBackoff cfg) k).

(** The outcome of [n] attempts on the answers [rs]: the first answer that is
    not retried decides; otherwise the last error is wrapped. *)
Definition outcome {A} (cfg : HConfig) (decode : list byte -> result A) (url : string) (rs : list Reply)
  : result A * nat :=
  match list_find (fun r => transient r = false) rs with
  | Some (i, r) => (settle cfg decode url r, i)
  | None => (Err (exhausted_error (h_MaxRetries cfg)
                    (match last rs with Some r => reply_error url r | None => ""%string end)),
             pred (length rs))
  end.

Definition backoff_ok (cfg : HConfig) : Prop :=
  0 <= h_MaxRetries cfg /\ 0 < h_RetryBackoff cfg /\ h_RetryBackoff cfg * 2 ^ h_MaxRetries cfg < 2 ^ 63.


Lemma replies_cons w r n :
  replies w r (S n) = w_net w (length (w_reqs w)) r
    :: ((fun i => w_net w (S (length (w_reqs w)) + i)%nat r) <$> seq 0 n).
Proof.
  unfold replies. cbn [seq fmap list_fmap]. rewrite Nat.add_0_r. f_equal.
  rewrite <- seq_shift, <- list_fmap_compose. apply list_fmap_ext. intros i x _. simpl. f_equal. lia.
Qed.

(** The sleeps of the attempts numbered [k] to [k + m - 1]. *)
Definition slept (b : Z) (k m : nat) : list Z :=
  (fun j => b * 2 ^ Z.of_nat j) <$> match k with O => seq 0 (pred m) | S k' => seq k' m end.

Lemma slept_backoffs b m : slept b 0 (S m) = backoffs b m.
Proof. done. Qed.

Lemma slept_S b k m :
  slept b k (S m) = (if 0 <? Z.of_nat k then [b * 2 ^ Z.of_nat (pred k)] else []) ++ slept b (S k) m.
Proof. by destruct k. Qed.

Section retry.
Context {A : Type} (cfg : HConfig) (url_err : string -> option error) (decode : list byte -> result A) (url : string).
Hypothesis Hurl : url_err url = None.
Hypothesis Hcfg : backoff_ok cfg.

Abbreviation req := (make_request cfg url).
Abbreviation b0 := (h_RetryBackoff cfg).

(** [m] attempts made from attempt [k] on. *)
Definition moved (k m : nat) (w : World) : World :=
  mkWorld (w_net w) (w_reqs w ++ replicate m req) (w_sleeps w ++ slept b0 k m).

Lemma double_backoff (k : nat) : Z.of_nat k <= h_MaxRetries cfg ->
  i64 (b0 * 2 ^ Z.of_nat (pred k) * (if 0 <? Z.of_nat k then 2 else 1)) = b0 * 2 ^ Z.of_nat k.
Proof.
  intros Hk. destruct Hcfg as (H0 & H1 & H2). destruct k as [|k]; cbn [pred].
  - change (0 <? Z.of_nat 0) with false. cbn iota. rewrite Z.mul_1_r. apply i64_small. change (2 ^ Z.of_nat 0) with 1.
    pose proof (Z.pow_pos_nonneg 2 (h_MaxRetries cfg)). nia.
  - rewrite (proj2 (Z.ltb_lt _ _)) by lia. rewrite Nat2Z.inj_succ, Z.pow_succ_r by lia.
    rewrite i64_small; [lia|]. rewrite <- Z.mul_assoc, (Z.mul_comm _ 2), <- Z.pow_succ_r by lia.
    assert (2 ^ Z.succ (Z.of_nat k) <= 2 ^ h_MaxRetries cfg) by (apply Z.pow_le_mono_r; lia).
    pose proof (Z.pow_pos_nonneg 2 (Z.succ (Z.of_nat k))). nia.
Qed.

Lemma moved_step (k m : nat) w :
  moved k (S m) w = moved (S k) m
    (mkWorld (w_net w) (w_reqs w ++ [req])
       (w_sleeps w ++ if 0 <? Z.of_nat k then [b0 * 2 ^ Z.of_nat (pred k)] else [])).
Proof. unfold moved. cbn [w_net w_reqs w_sleeps replicate]. rewrite slept_S, <- !app_assoc. done. Qed.

(** One attempt from attempt [k]. *)
Definition attempted (k : nat) (w : World) : World :=
  mkWorld (w_net w) (w_reqs w ++ [req])
    (w_sleeps w ++ if 0 <? Z.of_nat k then [b0 * 2 ^ Z.of_nat (pred k)] else []).

Lemma get_loop_step (n k : nat) lastErr w : Z.of_nat k <= h_MaxRetries cfg ->
  let r := w_net w (length (w_reqs w)) req in
  get_loop cfg url_err decode url (S n) (Z.of_nat k) (b0 * 2 ^ Z.of_nat (pred k)) lastErr w
  = if transient r
    then get_loop cfg url_err decode url n (Z.of_nat (S k)) (b0 * 2 ^ Z.of_nat k) (reply_error url r) (attempted k w)
    else (settle cfg decode url r, attempted k w).
Proof.
  intros Hk r. cbn [get_loop]. rewrite Hurl.
  replace (Z.of_nat (S k)) with (Z.of_nat k + 1) by lia.
  assert ((if 0 <? Z.of_nat k then net_sleep (b0 * 2 ^ Z.of_nat (pred k)) else mret tt) w
          = (Ok tt, mkWorld (w_net w) (w_reqs w) (w_sleeps (attempted k w)))) as Hs.
  { unfold attempted. cbn [w_sleeps]. destruct (0 <? Z.of_nat k); [done|].
    rewrite app_nil_r. by destruct w. }
  erewrite mbind_ok by exact Hs. erewrite mbind_ok by reflexivity. cbn [w_net w_reqs w_sleeps]. fold r.
  change (mkWorld (w_net w) (w_reqs w ++ [req]) (w_sleeps (attempted k w))) with (attempted k w).
  assert ((if 0 <? Z.of_nat k then i64 (b0 * 2 ^ Z.of_nat (pred k) * 2) else b0 * 2 ^ Z.of_nat (pred k))
          = b0 * 2 ^ Z.of_nat k) as ->.
  { destruct k as [|k]; [done|]. rewrite <- (double_backoff (S k) Hk). by rewrite (proj2 (Z.ltb_lt _ _)) by lia. }
  destruct r as [e|st body]; [done|]. unfold transient, settle, mlift, merr.
  destruct (st =? StatusOK); [done|]. by destruct (_ || _).
Qed.

Lemma find_step (r : Reply) rs :
  list_find (fun r => transient r = false) (r :: rs)
  = if transient r then prod_map S id <$> list_find (fun r => transient r = false) rs else Some (0%nat, r).
Proof.
  cbn [list_find]. destruct (transient r); [rewrite decide_False by done|rewrite decide_True by done]; done.
Qed.

Lemma get_loop_spec (n k : nat) lastErr w : Z.of_nat (k + n) = h_MaxRetries cfg + 1 ->
  get_loop cfg url_err decode url n (Z.of_nat k) (b0 * 2 ^ Z.of_nat (pred k)) lastErr w
  = match list_find (fun r => transient r = false) (replies w req n) with
    | Some (i, r) => (settle cfg decode url r, moved k (S i) w)
    | None => (Err (exhausted_error (h_MaxRetries cfg)
                 (match last (replies w req n) with Some r => reply_error url r | None => lastErr end)),
               moved k n w)
    end.
Proof.
  revert k lastErr w. induction n as [|n IH]; intros k lastErr w Hk.
  { cbn. unfold merr, moved, slept. cbn. destruct k; rewrite !app_nil_r; by destruct w. }
  rewrite get_loop_step by lia. rewrite replies_cons, find_step. destruct (transient _).
  - change (b0 * 2 ^ Z.of_nat k) with (b0 * 2 ^ Z.of_nat (pred (S k))). rewrite IH by lia.
    assert (replies (attempted k w) req n = (fun i => w_net w (S (length (w_reqs w)) + i)%nat req) <$> seq 0 n) as ->.
    { unfold replies, attempted. cbn [w_net w_reqs]. rewrite length_app. cbn [length].
      by rewrite Nat.add_1_r. }
    destruct (list_find _ _) as [[i r]|]; cbn [fmap option_fmap option_map prod_map fst snd id];
      rewrite (moved_step k); [done|]. f_equal. f_equal. f_equal.
    destruct ((fun i => _) <$> seq 0 n) as [|x l] eqn:El; [done|]. rewrite last_cons_cons.
    destruct (last (x :: l)) eqn:El'; [done|]. by apply last_None in El'.
  - rewrite moved_step. unfold moved. cbn [replicate slept]. by rewrite !app_nil_r.
Qed.
End retry.

(** the retry loop is bounded and exact.  [getJSON] issues the same request
    until one answer is not transient (a network error, 429 or 5xx), at most
    [MaxRetries + 1] times, sleeping [RetryBackoff], twice that, and so on in
    between; the deciding answer gives the result (the decoded body, capped at
    [MaxBodyBytes], for a 200; an error otherwise), and when every answer is
    transient the last error is returned. *)
Theorem get_json_exact {A} (cfg : HConfig) (url_err : string -> option error) (decode : list byte -> result A)
    (url : string) (w : World) :
  url_err url = None -> backoff_ok cfg ->
  let n := Z.to_nat (h_MaxRetries cfg + 1) in
  let rq := make_request cfg url in
  let '(res, k) := outcome cfg decode url (replies w rq n) in
  getJSON cfg url_err decode url w = (res, after_attempts cfg rq k w)
  /\ Z.of_nat k <= h_MaxRetries cfg.
Proof.
  intros Hu Hc n rq. pose proof Hc as (H0 & Hb & _).
  pose proof (get_loop_spec cfg url_err decode url Hu Hc n 0 "" w ltac:(unfold n; lia)) as E.
  change (2 ^ Z.of_nat (pred 0)) with 1 in E. rewrite Z.mul_1_r in E.
  unfold getJSON, outcome, after_attempts. fold n. change (Z.of_nat 0) with 0 in E. fold rq in E. rewrite E. clear E.
  assert (length (replies w rq n) = n) as Hl by (unfold replies; by rewrite length_fmap, length_seq).
  destruct (list_find _ _) as [[i r]|] eqn:Ef.
  - unfold moved. rewrite slept_backoffs, Nat.add_1_r. split; [done|].
    apply list_find_Some in Ef as (Hi & _). apply lookup_lt_Some in Hi. lia.
  - rewrite Hl. unfold moved. assert (n = S (pred n)) as Hn by lia. generalize dependent (pred n). intros p Hn.
    rewrite Hn, slept_backoffs, Nat.add_1_r. split; [done|lia].
Qed.

(** ** Conversion inverts the JSON contract *)

Definition input_json (o : Outpoint) : jsonInput := mkjsonInput (hex_encode (abytes (op_TxID o))) (op_Vout o).
Definition output_json (o : TxOut) : jsonOutput := mkjsonOutput (o_Value o) (hex_encode (abytes (o_ScriptHash o))).
Definition tx_json (t : Tx) : jsonTx :=
  mkjsonTx (hex_encode (abytes (tx_TxID t))) (input_json <$> tx_Inputs t) (output_json <$> tx_Outputs t).
Definition subtree_json (s : Subtree) : jsonSubtree :=
  mkjsonSubtree (hex_encode (abytes (sub_Root s))) (tx_json <$> sub_Txs s).
Definition block_json (b : Block) : jsonBlock :=
  mkjsonBlock (hex_encode (abytes (b_Hash b))) (b_Height b) (b_Time b) (hex_encode (abytes (b_Header b)))
    (subtree_json <$> b_Subtrees b).

(** The redundant fields of a block agree with the ones they repeat. *)
Definition shaped (b : Block) : Prop :=
  b_SubtreeRoots b = sub_Root <$> b_Subtrees b
  /\ Forall (fun s => sub_TxIDs s = tx_TxID <$> sub_Txs s) (b_Subtrees b)
  /\ b_MerkleRoot b = HeaderMerkleRoot (b_Header b).

Lemma source_hexHash_encode (h : Hash) : source_hexHash (hex_encode (abytes h)) = Ok h.
Proof.
  unfold source_hexHash. rewrite hex_roundtrip. cbn [rbind]. rewrite abytes_length. simpl. by rewrite arr_abytes.
Qed.

Lemma conv_tx_json t : conv_tx (tx_json t) = Ok t.
Proof.
  unfold conv_tx. cbn [tx_json jt_TxID jt_Inputs jt_Outputs]. rewrite source_hexHash_encode. cbn [rbind].
  assert (forall l, conv_inputs (input_json <$> l) = Ok l) as ->.
  { induction l as [|[t' v] r IH]; [done|]. rewrite fmap_cons. cbn [conv_inputs input_json ji_TxID ji_Vout].
    rewrite source_hexHash_encode. cbn [rbind]. by rewrite IH. }
  assert (forall l, conv_outputs (output_json <$> l) = Ok l) as ->.
  { induction l as [|[v h] r IH]; [done|]. rewrite fmap_cons. cbn [conv_outputs output_json jo_Value jo_ScriptHash].
    rewrite source_hexHash_encode. cbn [rbind]. by rewrite IH. }
  by destruct t.
Qed.

Lemma conv_txs_json l : conv_txs (tx_json <$> l) = Ok (tx_TxID <$> l, l).
Proof.
  induction l as [|t r IH]; [done|]. rewrite fmap_cons. cbn [conv_txs]. rewrite conv_tx_json. cbn [rbind].
  by rewrite IH.
Qed.

Lemma conv_subtrees_json l :
  Forall (fun s => sub_TxIDs s = tx_TxID <$> sub_Txs s) l ->
  conv_subtrees (subtree_json <$> l) = Ok (l, sub_Root <$> l).
Proof.
  induction 1 as [|[root ids txs] r Hs _ IH]; [done|]. rewrite fmap_cons. cbn [conv_subtrees].
  unfold conv_subtree. cbn [subtree_json js_Root js_Txs sub_Root sub_Txs]. rewrite source_hexHash_encode. cbn [rbind].
  rewrite conv_txs_json. cbn [rbind]. rewrite IH. simpl in Hs. by rewrite Hs.
Qed.

Lemma conv_txs_ids jts ids txs : conv_txs jts = Ok (ids, txs) -> ids = tx_TxID <$> txs.
Proof.
  revert ids txs. induction jts as [|j r IH]; intros ids txs E; cbn [conv_txs] in E; [by injection E as <- <-|].
  destruct (conv_tx j) as [t| |]; [|done..]. cbn [rbind] in E.
  destruct (conv_txs r) as [[i' t']| |]; [|done..]. cbn [rbind] in E. injection E as <- <-.
  by rewrite (IH i' t').
Qed.

Lemma conv_subtrees_shape jss subs roots :
  conv_subtrees jss = Ok (subs, roots) ->
  roots = sub_Root <$> subs /\ Forall (fun s => sub_TxIDs s = tx_TxID <$> sub_Txs s) subs.
Proof.
  revert subs roots. induction jss as [|j r IH]; intros subs roots E; cbn [conv_subtrees] in E;
    [by injection E as <- <-|].
  unfold conv_subtree in E. destruct (source_hexHash (js_Root j)) as [h| |]; [|done..]. cbn [rbind] in E.
  destruct (conv_txs (js_Txs j)) as [[ids txs]| |] eqn:Et; [|done..]. cbn [rbind] in E.
  destruct (conv_subtrees r) as [[s' r']| |]; [|done..]. cbn [rbind] in E. injection E as <- <-.
  destruct (IH s' r' eq_refl) as [-> Hf]. split; [done|]. constructor; [|done]. by apply conv_txs_ids in Et.
Qed.

(** Whatever the endpoint sends, a converted block has consistent roots and ids. *)
Lemma convert_shaped jb b : convert jb = Ok b -> shaped b.
Proof.
  unfold convert. destruct (hex_decode _) as [hb| |]; [|done..]. destruct (negb _); [done|].
  destruct (source_hexHash _) as [h| |]; [|done..]. cbn [rbind].
  destruct (conv_subtrees _) as [[subs roots]| |] eqn:E; [|done..]. cbn [rbind]. intros [= <-].
  apply conv_subtrees_shape in E as [-> Hf]. done.
Qed.

Lemma convert_json b : shaped b -> convert (block_json b) = Ok b.
Proof.
  intros (H1 & H2 & H3). unfold convert. cbn [block_json jb_Header jb_Hash jb_Height jb_Time jb_Subtrees].
  rewrite hex_roundtrip, abytes_length. cbn [Nat.eqb negb]. rewrite source_hexHash_encode. cbn [rbind].
  rewrite conv_subtrees_json by done. cbn [rbind]. rewrite !arr_abytes, <- H1.
  destruct b; cbn in *. by rewrite H3.
Qed.

(** C31: the JSON contract round trips.  Sending a block in the adapter's contract
    and converting it back gives the same block exactly when its repeated fields
    (subtree roots, txids, the header's Merkle root) agree. *)
Theorem convert_roundtrip (b : Block) : convert (block_json b) = Ok b <-> shaped b.
Proof. split; [apply convert_shaped|apply convert_json]. Qed.

(** ** Streaming a chain *)

(** A list of blocks as a source. *)
Definition list_source (tip : Z) : Source (list Block) :=
  {| Next := fun l => match l with [] => (Ok None, []) | b :: r => (Ok (Some b), r) end; TipHeight := fun _ => tip |}.

(** Every answer is transient or satisfies [P], and among [n] consecutive
    answers one is not transient. *)
Definition answers (w : World) (rq : Request) (n : nat) (P : Reply -> Prop) : Prop :=
  (forall k, transient (w_net w k rq) = false -> P (w_net w k rq))
  /\ (forall k, exists i, (i < n)%nat /\ transient (w_net w (k + i)%nat rq) = false).

Definition ok_body {A} (cfg : HConfig) (decode : list byte -> result A) (x : A) (r : Reply) : Prop :=
  exists body, r = Response StatusOK body /\ decode (take (Z.to_nat (h_MaxBodyBytes cfg)) body) = Ok x.

(** The endpoint serves [chain], its blocks at the heights from [start] on. *)
Record endpoint (D : Decoder) (cfg : HConfig) (start : Z) (chain : list Block) (w : World) : Prop := mkEndpoint
  { ep_urls : forall u, url_error D u = None;
    ep_tip : answers w (make_request cfg (tip_url cfg)) (Z.to_nat (h_MaxRetries cfg + 1))
               (ok_body cfg (dec_tip D) (mkjsonTip (start + Z.of_nat (length chain) - 1)));
    ep_blocks : forall k b, chain !! k = Some b ->
               answers w (make_request cfg (block_url cfg (start + Z.of_nat k))) (Z.to_nat (h_MaxRetries cfg + 1))
                 (ok_body cfg (dec_block D) (block_json b)) }.

Lemma getJSON_answers {A} (cfg : HConfig) ue (decode : list byte -> result A) url w x :
  ue url = None -> backoff_ok cfg ->
  answers w (make_request cfg url) (Z.to_nat (h_MaxRetries cfg + 1)) (ok_body cfg decode x) ->
  exists w', getJSON cfg ue decode url w = (Ok x, w') /\ w_net w' = w_net w.
Proof.
  intros Hu Hc [HP Hex]. pose proof Hc as (H0 & _).
  pose proof (get_loop_spec cfg ue decode url Hu Hc (Z.to_nat (h_MaxRetries cfg + 1)) 0 "" w ltac:(lia)) as E.
  change (2 ^ Z.of_nat (pred 0)) with 1 in E. rewrite Z.mul_1_r in E. change (Z.of_nat 0) with 0 in E.
  unfold getJSON. rewrite E. clear E. destruct (list_find _ _) as [[i r]|] eqn:Ef.
  - eexists. split; [apply (f_equal2 pair); [|reflexivity]|reflexivity]. apply list_find_Some in Ef as (Hi & Ht & _).
    unfold replies in Hi. apply list_lookup_fmap_Some in Hi as (j & -> & _).
    destruct (HP _ Ht) as (body & -> & Hd). done.
  - exfalso. apply list_find_None in Ef. rewrite Forall_forall in Ef.
    destruct (Hex (length (w_reqs w))) as (i & Hi & Ht). refine (Ef _ _ Ht).
    apply list_elem_of_fmap. exists i. split; [done|]. apply elem_of_seq. lia.
Qed.

Lemma fetchBlock_ok D s w h b :
  backoff_ok (hs_cfg s) -> url_error D (block_url (hs_cfg s) h) = None -> shaped b ->
  answers w (make_request (hs_cfg s) (block_url (hs_cfg s) h)) (Z.to_nat (h_MaxRetries (hs_cfg s) + 1))
    (ok_body (hs_cfg s) (dec_block D) (block_json b)) ->
  exists w', fetchBlock D h (s, w) = (Ok b, (s, w')) /\ w_net w' = w_net w.
Proof.
  intros Hc Hu Hb Ha. destruct (getJSON_answers _ _ _ _ _ _ Hu Hc Ha) as (w' & E & Hn). exists w'. split; [|done].
  unfold fetchBlock. erewrite mbind_ok by reflexivity. cbn [fst snd].
  erewrite mbind_ok by (unfold on2; cbn [fst snd]; rewrite E; reflexivity).
  unfold mlift. by rewrite convert_json.
Qed.

Section stream.
Context (D : Decoder) (cfg : HConfig) (start : Z) (chain : list Block).
Abbreviation tip := (start + Z.of_nat (length chain) - 1).
Hypothesis Hcfg : backoff_ok cfg.
Hypothesis Hend : h_EndHeight cfg = 0 \/ tip <= h_EndHeight cfg.
Hypothesis Hstart : 0 <= start.
Hypothesis Htip : 0 <= tip < 2 ^ 32 - 1.
Hypothesis Hshaped : Forall shaped chain.

(** The source has [rest] of the chain ahead of it. *)
Definition ahead (st : HS) (rest : list Block) : Prop :=
  exists k, rest = drop k chain /\ (k <= length chain)%nat
    /\ hs_cfg st.1 = cfg /\ hs_height st.1 = start + Z.of_nat k /\ hs_tip st.1 <= tip
    /\ endpoint D cfg start chain st.2.

Lemma endpoint_net w w' : w_net w' = w_net w -> endpoint D cfg start chain w -> endpoint D cfg start chain w'.
Proof.
  intros E [H1 H2 H3]. split; unfold answers in *; rewrite ?E; done.
Qed.

Lemma refreshTip_ok s w : hs_cfg s = cfg -> endpoint D cfg start chain w ->
  exists w', refreshTip D (s, w) = (Ok tt, (mkHSource cfg (hs_height s) tip, w'))
    /\ endpoint D cfg start chain w'.
Proof.
  intros Hs He. destruct (getJSON_answers cfg (url_error D) (dec_tip D) (tip_url cfg) w _
    (ep_urls _ _ _ _ _ He _) Hcfg (ep_tip _ _ _ _ _ He)) as (w' & E & Hn).
  exists w'. split; [|by apply (endpoint_net w)].
  unfold refreshTip. erewrite mbind_ok by reflexivity. cbn [fst snd]. rewrite Hs.
  erewrite mbind_ok by (unfold on2; cbn [fst snd]; rewrite E; reflexivity).
  unfold set_tip, on1. cbn. by rewrite Hs.
Qed.

Lemma fetch_next_ok s w (k : nat) b rest :
  hs_cfg s = cfg -> hs_height s = start + Z.of_nat k -> hs_tip s <= tip -> endpoint D cfg start chain w ->
  drop k chain = b :: rest ->
  exists st', fetch_next D (s, w) = (Ok (Some b), st') /\ ahead st' rest.
Proof.
  intros Hs Hh Ht He Hd. assert (chain !! k = Some b) as Hk by (by rewrite <- (Nat.add_0_r k), <- lookup_drop, Hd).
  pose proof (lookup_lt_Some _ _ _ Hk) as Hlt.
  assert (shaped b) as Hb by (rewrite Forall_forall in Hshaped; by apply Hshaped, list_elem_of_lookup_2 with k).
  destruct (fetchBlock_ok D s w (hs_height s) b) as (w' & Ef & Hn); rewrite ?Hs, ?Hh; try done.
  { apply He. }
  { by apply (ep_blocks _ _ _ _ _ He). }
  exists (mkHSource cfg (start + Z.of_nat (S k)) (hs_tip s), w'). split.
  - unfold fetch_next. erewrite mbind_ok by reflexivity. cbn [fst snd].
    erewrite mbind_ok by exact Ef. unfold set_height, mbind, on1, mret. cbn [fst snd].
    rewrite Hs, Hh, u32_small by lia. by replace (start + Z.of_nat k + 1) with (start + Z.of_nat (S k)) by lia.
  - exists (S k). cbn [fst snd hs_cfg hs_height hs_tip]. split_and!; [|lia|done|done|done|by apply (endpoint_net w)].
    replace (S k) with (k + 1)%nat by lia. by rewrite <- drop_drop, Hd.
Qed.

(** [Next] of the HTTP source simulates [Next] of the list. *)
Lemma sim_http_Next : sim ahead (http_Next D) (Next (Source := list_source tip)).
Proof.
  intros [s w] rest (k & -> & Hk & Hs & Hh & Ht & He). cbn [fst snd] in *. unfold http_Next.
  erewrite mbind_ok by reflexivity. cbn [fst snd].
  assert (forall s w, hs_cfg s = cfg -> hs_height s = start + Z.of_nat k -> hs_tip s <= tip ->
     endpoint D cfg start chain w -> (k < length chain)%nat ->
     exists r s' t', fetch_next D (s, w) = (r, s') /\ Next (Source := list_source tip) (drop k chain) = (r, t') /\ ahead s' t') as Hf.
  { intros s1 w1 H1 H2 H3 H4 Hlt. destruct (drop k chain) as [|b rest] eqn:Hd.
    - apply (f_equal length) in Hd. rewrite length_drop in Hd. simpl in Hd. lia.
    - destruct (fetch_next_ok s1 w1 k b rest) as (st' & E & Ha); [done..|]. exists (Ok (Some b)), st', rest. done. }
  assert (forall s w, hs_cfg s = cfg -> hs_height s = start + Z.of_nat k -> hs_tip s <= tip ->
     endpoint D cfg start chain w -> k = length chain ->
     exists r s' t', mret None (s, w) = (r, s') /\ Next (Source := list_source tip) (drop k chain) = (r, t') /\ ahead s' t') as Hn.
  { intros s1 w1 H1 H2 H3 H4 Heq. exists (Ok None), (s1, w1), []. rewrite drop_ge by lia. split_and!; [done..|].
    exists k. rewrite drop_ge by lia. done. }
  rewrite Hs. destruct (negb _ && _) eqn:Ee; zbool; [apply Hn; [done..|]; destruct Hend; lia|].
  destruct (hs_tip s <? hs_height s) eqn:Et; zbool; [|apply Hf; [done..|lia]].
  destruct (refreshTip_ok s w Hs He) as (w' & E & He'). erewrite mbind_ok by exact E.
  erewrite mbind_ok by reflexivity. cbn [fst snd hs_tip hs_height].
  destruct (tip <? hs_height s) eqn:Et'; zbool; [apply Hn; [done..|lia]|apply Hf; [done..|lia]].
Qed.
End stream.

(** [Run] over two sources in simulation gives the same result and store. *)
Lemma sim_run {S} `{Store S} {T1 T2} (S1 : Source T1) (S2 : Source T2) (R : T1 -> T2 -> Prop) fuel i total :
  sim R (Next (Source := S1)) (Next (Source := S2)) ->
  sim (fun x y : (S * Pruner) * _ => x.1 = y.1 /\ R x.2 y.2)
    (@run_loop S _ T1 S1 fuel i total) (@run_loop S _ T2 S2 fuel i total).
Proof.
  intros HN. revert total. induction fuel as [|fuel IH]; intros total [sp t] [sp' u] [Heq HR]; simpl in Heq, HR; subst sp'.
  - by eexists _, _, _.
  - cbn [run_loop]. unfold mbind at 1 3, mtry, on2. cbn [fst snd].
    destruct (HN t u HR) as (r & t' & u' & -> & -> & HR').
    destruct r as [[b|]|e|]; [|by eexists _, _, _..].
    unfold mbind, on1. cbn [fst snd]. destruct (IngestBlock i b sp) as [[[st [e|]]|e|] sp']; [by eexists _, _, _| |by eexists _, _, _..].
    by apply IH.
Qed.

(** C16: the HTTP ingest path delivers the chain.  If the endpoint serves a chain of
    consistent blocks from [StartHeight] on, in the adapter's contract, and of
    any [MaxRetries + 1] consecutive answers to a request one is not a network
    error, 429 or 5xx, then ingesting from the HTTP source ends with the same
    result, statistics and store as ingesting the list of blocks. *)
Theorem http_run_delivers {S} `{Store S} (D : Decoder) (cfg : HConfig) (chain : list Block) (fuel : nat)
    (i : Ingestor) (sp : S * Pruner) (w : World) :
  let src := NewHttp cfg in
  let tip := h_StartHeight cfg + Z.of_nat (length chain) - 1 in
  backoff_ok (hs_cfg src) -> (h_EndHeight cfg = 0 \/ tip <= h_EndHeight cfg) ->
  0 <= h_StartHeight cfg -> 0 <= tip < 2 ^ 32 - 1 -> Forall shaped chain ->
  endpoint D (hs_cfg src) (h_StartHeight cfg) chain w ->
  exists res sp' src' rest,
    @Run S _ HS (http_source D) fuel i (sp, (src, w)) = (res, (sp', src'))
    /\ @Run S _ (list Block) (list_source tip) fuel i (sp, chain) = (res, (sp', rest)).
Proof.
  intros src tip Hb He Hs Ht Hsh Hep.
  destruct (sim_run (http_source D) (list_source tip) (ahead D (hs_cfg src) (h_StartHeight cfg) chain) fuel i zeroStats
    (sim_http_Next D (hs_cfg src) (h_StartHeight cfg) chain Hb He Hs Ht Hsh) (sp, (src, w)) (sp, chain))
    as (r & [sp1 src'] & [sp2 rest] & E1 & E2 & [Heq _]).
  - split; [done|]. exists 0%nat. cbn. split_and!; [done|lia|done|lia|lia|done].
  - simpl in Heq. subst sp2. by exists r, sp1, src', rest.
Qed.

(** the height of a fetched block is the endpoint's word.  When the endpoint's
    deciding answer for the next height is any block at all in the contract,
    [Next] returns that block and advances by one; its own height and hash are
    not compared with the height asked for or with its header. *)
Theorem http_height_unchecked (D : Decoder) (s : HSource) (w : World) (b : Block) :
  backoff_ok (hs_cfg s) -> h_EndHeight (hs_cfg s) = 0 -> 0 <= hs_height s <= hs_tip s -> hs_height s < 2 ^ 32 - 1 ->
  url_error D (block_url (hs_cfg s) (hs_height s)) = None -> shaped b ->
  answers w (make_request (hs_cfg s) (block_url (hs_cfg s) (hs_height s))) (Z.to_nat (h_MaxRetries (hs_cfg s) + 1))
    (ok_body (hs_cfg s) (dec_block D) (block_json b)) ->
  exists w', http_Next D (s, w) = (Ok (Some b), (mkHSource (hs_cfg s) (hs_height s + 1) (hs_tip s), w')).
Proof.
  intros Hc He Hh Hm Hu Hb Ha. destruct (fetchBlock_ok D s w (hs_height s) b Hc Hu Hb Ha) as (w' & Ef & _).
  exists w'. unfold http_Next. erewrite mbind_ok by reflexivity. cbn [fst snd]. rewrite He. cbn [Z.eqb negb andb].
  rewrite (proj2 (Z.ltb_ge _ _)) by lia. unfold fetch_next. erewrite mbind_ok by reflexivity. cbn [fst snd].
  erewrite mbind_ok by exact Ef. unfold set_height, mbind, on1, mret. cbn [fst snd]. by rewrite u32_small by lia.
Qed.

(** ** Witnesses *)

(** An endpoint that fails every other request with a 503. *)
Definition demo_http : HConfig := mkHConfig "http://teranode:8090" 100 0 "" "" "" 0 0 4096.
Definition demo_decoder (blk : Block) : Decoder :=
  mkDecoder (fun b => Ok (mkjsonTip (be_Z b)))
    (fun b => match b with [Byte.x62] => Ok (block_json blk) | _ => Err "unexpected end of JSON input"%string end)
    (fun _ => None).
Definition demo_world : World :=
  mkWorld (fun n rq =>
      if decide (rq_URL rq = "http://teranode:8090/api/v1/bestheight"%string) then Response 200 (be_bytes 4 100)
      else if Nat.even n then Response 503 [] else Response 200 [Byte.x62]) [] [].

Lemma demo_block_shaped : shaped demo_block.
Proof. apply (bool_decide_unpack _). vm_compute. exact I. Qed.

Lemma demo_backoff : backoff_ok (hs_cfg (NewHttp demo_http)).
Proof. split_and!; by vm_compute. Qed.

Lemma demo_answers blk h : block_url (hs_cfg (NewHttp demo_http)) h <> "http://teranode:8090/api/v1/bestheight"%string ->
  answers demo_world (make_request (hs_cfg (NewHttp demo_http)) (block_url (hs_cfg (NewHttp demo_http)) h)) 5
    (ok_body (hs_cfg (NewHttp demo_http)) (dec_block (demo_decoder blk)) (block_json blk)).
Proof.
  intros Hu. unfold answers. cbn [demo_world w_net make_request rq_URL]. split.
  - intros k. rewrite decide_False by done. destruct (Nat.even k); [done|]. intros _. by exists [Byte.x62].
  - intros k. destruct (Nat.even k) eqn:E; [exists 1%nat|exists 0%nat]; (split; [lia|]);
      rewrite decide_False by done.
    + by rewrite Nat.add_1_r, Nat.even_succ, <- Nat.negb_even, E.
    + by rewrite Nat.add_0_r, E.
Qed.

Lemma demo_endpoint blk : endpoint (demo_decoder blk) (hs_cfg (NewHttp demo_http)) 100 [blk] demo_world.
Proof.
  split.
  - done.
  - split.
    + intros k _. exists (be_bytes 4 100). split; vm_compute; reflexivity.
    + intros k. exists 0%nat. split; [vm_compute; lia|vm_compute; reflexivity].
  - intros [|k] b Hb; [|done]. injection Hb as <-. apply demo_answers. by vm_compute.
Qed.

Lemma get_json_exact_witness :
  getJSON (hs_cfg (NewHttp demo_http)) (url_error (demo_decoder demo_block)) (dec_block (demo_decoder demo_block)) "http://teranode:8090/api/v1/block/7" demo_world
  = (Ok (block_json demo_block),
     after_attempts (hs_cfg (NewHttp demo_http))
       (make_request (hs_cfg (NewHttp demo_http)) "http://teranode:8090/api/v1/block/7") 1 demo_world)
  /\ Z.of_nat 1 <= 4.
Proof.
  exact (get_json_exact (hs_cfg (NewHttp demo_http)) (url_error (demo_decoder demo_block)) (dec_block (demo_decoder demo_block))
    "http://teranode:8090/api/v1/block/7" demo_world eq_refl demo_backoff).
Defined.

Lemma http_run_delivers_witness :
  exists res sp' src' rest,
    @Run MemStore _ HS (http_source (demo_decoder demo_block)) 3 demo_ingestor
      ((New, NewPruner RecommendedPolicy), (NewHttp demo_http, demo_world)) = (res, (sp', src'))
    /\ @Run MemStore _ (list Block) (list_source 100) 3 demo_ingestor
      ((New, NewPruner RecommendedPolicy), [demo_block]) = (res, (sp', rest)).
Proof.
  apply (http_run_delivers (demo_decoder demo_block) demo_http [demo_block] 3 demo_ingestor (New, NewPruner RecommendedPolicy) demo_world).
  - exact demo_backoff.
  - by left.
  - by vm_compute.
  - by vm_compute.
  - exact (proj2 (Forall_singleton _ _) demo_block_shaped).
  - exact (demo_endpoint demo_block).
Defined.

Lemma http_height_unchecked_witness :
  exists w', http_Next (demo_decoder demo_block) (mkHSource (hs_cfg (NewHttp demo_http)) 7 9, demo_world)
    = (Ok (Some demo_block), (mkHSource (hs_cfg (NewHttp demo_http)) 8 9, w')).
Proof.
  apply (http_height_unchecked (demo_decoder demo_block) (mkHSource (hs_cfg (NewHttp demo_http)) 7 9) demo_world demo_block).
  - exact demo_backoff.
  - done.
  - by vm_compute.
  - by vm_compute.
  - done.
  - exact demo_block_shaped.
  - apply demo_answers. by vm_compute.
Defined.
