(* ===== verification/Ripemd.v ===== *)
(** * RIPEMD-160 ([src/bsvtx/ripemd160.go])

    The two-line compression function with the code's flat tables.  The tables
    are shown to be the ones the published definition generates (a permutation
    iterated, the right line starting from [9i + 5], and the fractional roots as
    constants), and the block loop to read exactly the padded message. *)

From stdpp Require Import base list sets.
From Stdlib Require Import ZArith Lia ZifyNat.
From Stdlib Require Strings.Byte.
From S2P Require Import Prelude Sha256.

(** ** Tables *)

Definition rmd_kl : list Z := [0x00000000; 0x5A827999; 0x6ED9EBA1; 0x8F1BBCDC; 0xA953FD4E].
Definition rmd_kr : list Z := [0x50A28BE6; 0x5C4DD124; 0x6D703EF3; 0x7A6D76E9; 0x00000000].
Definition rmd_rl : list Z :=
  [0; 1; 2; 3; 4; 5; 6; 7; 8; 9; 10; 11; 12; 13; 14; 15;
   7; 4; 13; 1; 10; 6; 15; 3; 12; 0; 9; 5; 2; 14; 11; 8;
   3; 10; 14; 4; 9; 15; 8; 1; 2; 7; 0; 6; 13; 11; 5; 12;
   1; 9; 11; 10; 0; 8; 12; 4; 13; 3; 7; 15; 14; 5; 6; 2;
   4; 0; 5; 9; 7; 12; 2; 10; 14; 1; 3; 8; 11; 6; 15; 13].
Definition rmd_rr : list Z :=
  [5; 14; 7; 0; 9; 2; 11; 4; 13; 6; 15; 8; 1; 10; 3; 12;
   6; 11; 3; 7; 0; 13; 5; 10; 14; 15; 8; 12; 4; 9; 1; 2;
   15; 5; 1; 3; 7; 14; 6; 9; 11; 8; 12; 2; 10; 0; 4; 13;
   8; 6; 4; 1; 3; 11; 15; 0; 5; 12; 2; 13; 9; 7; 10; 14;
   12; 15; 10; 4; 1; 5; 8; 7; 6; 2; 13; 14; 0; 3; 9; 11].
Definition rmd_sl : list Z :=
  [11; 14; 15; 12; 5; 8; 7; 9; 11; 13; 14; 15; 6; 7; 9; 8;
   7; 6; 8; 13; 11; 9; 7; 15; 7; 12; 15; 9; 11; 7; 13; 12;
   11; 13; 6; 7; 14; 9; 13; 15; 14; 8; 13; 6; 5; 12; 7; 5;
   11; 12; 14; 15; 14; 15; 9; 8; 9; 14; 5; 6; 8; 6; 5; 12;
   9; 15; 5; 11; 6; 8; 13; 12; 5; 12; 13; 14; 11; 8; 5; 6].
Definition rmd_sr : list Z :=
  [8; 9; 9; 11; 13; 15; 15; 5; 7; 7; 8; 11; 14; 14; 12; 6;
   9; 13; 15; 7; 12; 8; 9; 11; 7; 7; 12; 7; 6; 15; 13; 11;
   9; 7; 15; 11; 8; 6; 6; 14; 12; 13; 5; 14; 13; 13; 7; 5;
   15; 5; 8; 11; 14; 14; 6; 14; 6; 9; 12; 9; 12; 5; 15; 8;
   8; 5; 12; 9; 12; 5; 14; 6; 8; 13; 6; 5; 15; 13; 11; 11].

(** ** The function *)

Definition rotl32 (x n : Z) : Z := Z.lor (u32 (Z.shiftl x n)) (Z.shiftr x (32 - n)).

Definition rmd_f (j x y z : Z) : Z :=
  if j <? 16 then Z.lxor (Z.lxor x y) z
  else if j <? 32 then Z.lor (Z.land x y) (Z.land (not32 x) z)
  else if j <? 48 then Z.lxor (Z.lor x (not32 y)) z
  else if j <? 64 then Z.lor (Z.land x z) (Z.land y (not32 z))
  else Z.lxor x (Z.lor y (not32 z)).

(** Five words: a line's [a b c d e], or the chaining value [h[0..4]]. *)
Record rmd_line : Type := mkLine { la : Z; lb : Z; lc : Z; ld : Z; le_ : Z }.
Definition rmd_h0 : rmd_line := mkLine 0x67452301 0xEFCDAB89 0x98BADCFE 0x10325476 0xC3D2E1F0.

Definition tab (t : list Z) (j : Z) : Z := nth (Z.to_nat j) t 0.

(** One step of a line: [fj] is the index given to [f]. *)
Definition rmd_step (fj : Z) (r s k : list Z) (x : list Z) (j : Z) (l : rmd_line) : rmd_line :=
  let t := u32 (rotl32 (u32 (la l + rmd_f fj (lb l) (lc l) (ld l) + tab x (tab r j) + tab k (j / 16))) (tab s j)
                + le_ l) in
  mkLine (le_ l) t (lb l) (rotl32 (lc l) 10) (ld l).

(** [for j := 0; j < 80; j++]. *)
Fixpoint rmd_rounds (n : nat) (j : Z) (x : list Z) (ll lr : rmd_line) : rmd_line * rmd_line :=
  match n with
  | O => (ll, lr)
  | S n' => rmd_rounds n' (j + 1) x (rmd_step j rmd_rl rmd_sl rmd_kl x j ll)
              (rmd_step (79 - j) rmd_rr rmd_sr rmd_kr x j lr)
  end.

Definition rmd_word (pad : list byte) (j : Z) : Z :=
  let at_ i := b2z (nth (Z.to_nat i) pad Byte.x00) in
  Z.lor (Z.lor (Z.lor (at_ j) (Z.shiftl (at_ (j + 1)) 8)) (Z.shiftl (at_ (j + 2)) 16)) (Z.shiftl (at_ (j + 3)) 24).

Definition rmd_block (pad : list byte) (off : Z) (h : rmd_line) : rmd_line :=
  let x := (fun i => rmd_word pad (off + i * 4)) <$> seqZ 0 16 in
  let '(l, r) := rmd_rounds 80 0 x h h in
  mkLine (u32 (lb h + lc l + ld r)) (u32 (lc h + ld l + le_ r)) (u32 (ld h + le_ l + la r))
         (u32 (le_ h + la l + lb r)) (u32 (la h + lb l + lc r)).

(** [for off := 0; off < len(pad); off += 64]. *)
Fixpoint rmd_loop (fuel : nat) (pad : list byte) (off : Z) (h : rmd_line) : rmd_line :=
  match fuel with
  | O => h
  | S fuel' => if off <? Z.of_nat (length pad) then rmd_loop fuel' pad (off + 64) (rmd_block pad off h) else h
  end.

(** [for len(pad)%64 != 56 { pad = append(pad, 0) }]. *)
Fixpoint rmd_fill (fuel : nat) (pad : list byte) : list byte :=
  match fuel with
  | O => pad
  | S fuel' => if Z.of_nat (length pad) mod 64 =? 56 then pad else rmd_fill fuel' (pad ++ [Byte.x00])
  end.
Definition rmd_pad (msg : list byte) : list byte :=
  let ml := u64 (u64 (Z.of_nat (length msg)) * 8) in
  rmd_fill 64 (msg ++ [Byte.x80]) ++ ((fun i => z2b (Z.shiftr ml (8 * i))) <$> seqZ 0 8).

Definition rmd_out (v : Z) : list byte := [z2b v; z2b (Z.shiftr v 8); z2b (Z.shiftr v 16); z2b (Z.shiftr v 24)].
Definition ripemd160 (msg : list byte) : array 20 :=
  let pad := rmd_pad msg in
  let h := rmd_loop (length pad) pad 0 rmd_h0 in
  arr 20 (rmd_out (la h) ++ rmd_out (lb h) ++ rmd_out (lc h) ++ rmd_out (ld h) ++ rmd_out (le_ h)).

(** ** The published definition of the tables *)

(** The message permutation, its iterates, and the start of the right line. *)
Definition rho : list Z := [7; 4; 13; 1; 10; 6; 15; 3; 12; 0; 9; 5; 2; 14; 11; 8].
Definition permute (p : list Z) : list Z := tab rho <$> p.
Fixpoint iterate (n : nat) (p : list Z) : list Z := match n with O => [] | S n' => p ++ iterate n' (permute p) end.
Definition right_start : list Z := (fun i => (9 * i + 5) mod 16) <$> seqZ 0 16.

(** Shift amounts are given per message word and round; step [j] uses the
    amount of the word it reads. *)
Definition word_shifts : list (list Z) :=
  [[11; 14; 15; 12; 5; 8; 7; 9; 11; 13; 14; 15; 6; 7; 9; 8];
   [12; 13; 11; 15; 6; 9; 9; 7; 12; 15; 11; 13; 7; 8; 7; 7];
   [13; 15; 14; 11; 7; 7; 6; 8; 13; 14; 13; 12; 5; 5; 6; 9];
   [14; 11; 12; 14; 8; 6; 5; 5; 15; 12; 15; 14; 9; 9; 8; 6];
   [15; 12; 13; 13; 9; 5; 8; 6; 14; 11; 12; 11; 8; 6; 5; 5]].
Definition shifts_for (r : list Z) : list Z :=
  (fun j => tab (nth (Z.to_nat (j / 16)) word_shifts []) (tab r j)) <$> seqZ 0 80.

(** ** Reference definition

    The message in chunks of 64 bytes, little-endian words, and each line as a
    list of steps: boolean function, word, rotation, constant. *)

Definition ref_f (i : Z) (x y z : Z) : Z :=
  nth (Z.to_nat i)
    [Z.lxor (Z.lxor x y) z; Z.lor (Z.land x y) (Z.land (not32 x) z); Z.lxor (Z.lor x (not32 y)) z;
     Z.lor (Z.land x z) (Z.land y (not32 z)); Z.lxor x (Z.lor y (not32 z))] 0.

Record plan_step : Type := mkStep { st_f : Z; st_word : Z; st_rot : Z; st_const : Z }.
Definition plan (fs ks : list Z) (words : list Z) : list plan_step :=
  (fun j => mkStep (tab fs (j / 16)) (tab words j) (tab (nth (Z.to_nat (j / 16)) word_shifts []) (tab words j))
              (tab ks (j / 16))) <$> seqZ 0 80.
Definition left_plan : list plan_step :=
  plan [0; 1; 2; 3; 4] (0 :: ((fun p => Z.sqrt (p * 2 ^ 60)) <$> [2; 3; 5; 7])) (iterate 5 (seqZ 0 16)).
Definition right_plan : list plan_step :=
  plan [4; 3; 2; 1; 0] (((fun p => cube_root 40 0 (p * 2 ^ 90)) <$> [2; 3; 5; 7]) ++ [0]) (iterate 5 right_start).

Definition ref_step (x : list Z) (l : rmd_line) (p : plan_step) : rmd_line :=
  mkLine (le_ l)
    (u32 (rotl32 (u32 (la l + ref_f (st_f p) (lb l) (lc l) (ld l) + tab x (st_word p) + st_const p)) (st_rot p) + le_ l))
    (lb l) (rotl32 (lc l) 10) (ld l).
Definition ref_words (chunk : list byte) : list Z :=
  (fun i => le_Z (take 4 (drop (4 * i) chunk))) <$> seq 0 16.
Definition ref_compress (h : rmd_line) (chunk : list byte) : rmd_line :=
  let l := foldl (ref_step (ref_words chunk)) h left_plan in
  let r := foldl (ref_step (ref_words chunk)) h right_plan in
  mkLine (u32 (lb h + lc l + ld r)) (u32 (lc h + ld l + le_ r)) (u32 (ld h + le_ l + la r))
         (u32 (le_ h + la l + lb r)) (u32 (la h + lb l + lc r)).
Definition ref_pad (msg : list byte) : list byte :=
  let n := Z.of_nat (length msg) in
  msg ++ [Byte.x80] ++ replicate (Z.to_nat ((55 - n) mod 64)) Byte.x00 ++ le_bytes 8 (8 * n).
Fixpoint chunks (n : nat) (l : list byte) : list (list byte) :=
  match n with O => [] | S n' => take 64 l :: chunks n' (drop 64 l) end.
Definition ref_ripemd160 (msg : list byte) : array 20 :=
  let p := ref_pad msg in
  let h := foldl ref_compress rmd_h0 (chunks (length p / 64) p) in
  arr 20 (concat (le_bytes 4 <$> [la h; lb h; lc h; ld h; le_ h])).

(** ** Lemmas *)

Lemma lor_shiftl_add x y n : 0 <= n -> 0 <= x < 2 ^ n -> Z.lor x (Z.shiftl y n) = x + y * 2 ^ n.
Proof.
  intros Hn Hx. rewrite Z.shiftl_mul_pow2 by done. symmetry. rewrite Z.add_nocarry_lxor, Z.lxor_lor; [done| |];
    apply Z.bits_inj'; intros k Hk; rewrite Z.land_spec, Z.bits_0;
    (destruct (Z.lt_ge_cases k n);
     [rewrite Z.mul_pow2_bits_low by done; apply andb_false_r
     |rewrite <- (Z.mod_small x (2 ^ n)), Z.mod_pow2_bits_high by lia; done]).
Qed.

Lemma rmd_word_le a b c d :
  Z.lor (Z.lor (Z.lor (b2z a) (Z.shiftl (b2z b) 8)) (Z.shiftl (b2z c) 16)) (Z.shiftl (b2z d) 24)
  = le_Z [a; b; c; d].
Proof.
  pose proof (b2z_range a). pose proof (b2z_range b). pose proof (b2z_range c). pose proof (b2z_range d).
  cbn [le_Z]. rewrite (lor_shiftl_add (b2z a)) by lia. rewrite (lor_shiftl_add _ _ 16) by lia.
  rewrite (lor_shiftl_add _ _ 24) by lia. lia.
Qed.

Lemma rmd_word_spec pad (j : nat) : (j + 4 <= length pad)%nat ->
  rmd_word pad (Z.of_nat j) = le_Z (take 4 (drop j pad)).
Proof.
  intros Hj. unfold rmd_word. rewrite rmd_word_le. f_equal.
  assert (exists a b c d r, drop j pad = a :: b :: c :: d :: r) as (a & b & c & d & r & Hd).
  { pose proof (length_drop pad j) as Hl. destruct (drop j pad) as [|a [|b [|c [|d r]]]]; simpl in Hl; try lia. by repeat eexists. }
  rewrite Hd. cbn [take].
  assert (forall k x, drop j pad !! k = Some x -> nth (Z.to_nat (Z.of_nat j + Z.of_nat k)) pad Byte.x00 = x) as Hn.
  { intros k x Hx. rewrite lookup_drop in Hx. apply nth_lookup_Some. replace (Z.to_nat _) with (j + k)%nat by lia. done. }
  rewrite Hd in Hn. pose proof (Hn 0%nat a eq_refl) as H0. rewrite Z.add_0_r in H0.
  pose proof (Hn 1%nat b eq_refl) as H1. pose proof (Hn 2%nat c eq_refl) as H2. pose proof (Hn 3%nat d eq_refl) as H3.
  change (Z.of_nat 1) with 1 in H1. change (Z.of_nat 2) with 2 in H2. change (Z.of_nat 3) with 3 in H3.
  by rewrite H0, H1, H2, H3.
Qed.

(** The two lines are independent. *)
Lemma rmd_rounds_folds n j x ll lr :
  rmd_rounds n j x ll lr
  = (foldl (fun l j => rmd_step j rmd_rl rmd_sl rmd_kl x j l) ll (seqZ j (Z.of_nat n)),
     foldl (fun l j => rmd_step (79 - j) rmd_rr rmd_sr rmd_kr x j l) lr (seqZ j (Z.of_nat n))).
Proof.
  revert j ll lr. induction n as [|n IH]; intros j ll lr; [done|].
  rewrite seqZ_cons by lia. cbn [rmd_rounds foldl]. rewrite IH.
  by replace (Z.pred (Z.of_nat (S n))) with (Z.of_nat n) by lia.
Qed.

Lemma foldl_ext_in {A B} (f g : A -> B -> A) l a :
  (forall a b, b ∈ l -> f a b = g a b) -> foldl f a l = foldl g a l.
Proof.
  revert a. induction l as [|b l IH]; intros a H; [done|]. cbn [foldl]. rewrite H by set_solver.
  apply IH. intros. apply H. set_solver.
Qed.

Lemma foldl_fmap_l {A B C} (f : A -> C -> A) (g : B -> C) l a :
  foldl f a (g <$> l) = foldl (fun a b => f a (g b)) a l.
Proof. revert a. induction l as [|b l IH]; intros a; [done|]. cbn [fmap list_fmap foldl]. apply IH. Qed.

Lemma rmd_f_ref j x y z : 0 <= j < 80 -> rmd_f j x y z = ref_f (j / 16) x y z.
Proof.
  intros Hj. unfold rmd_f, ref_f.
  destruct (j <? 16) eqn:E1; zbool; [by replace (j / 16) with 0 by (Z.div_mod_to_equations; lia)|].
  destruct (j <? 32) eqn:E2; zbool; [by replace (j / 16) with 1 by (Z.div_mod_to_equations; lia)|].
  destruct (j <? 48) eqn:E3; zbool; [by replace (j / 16) with 2 by (Z.div_mod_to_equations; lia)|].
  destruct (j <? 64) eqn:E4; zbool; [by replace (j / 16) with 3 by (Z.div_mod_to_equations; lia)|].
  by replace (j / 16) with 4 by (Z.div_mod_to_equations; lia).
Qed.

(** The code's tables are the generated ones. *)
Lemma left_plan_tables :
  left_plan = (fun j => mkStep (j / 16) (tab rmd_rl j) (tab rmd_sl j) (tab rmd_kl (j / 16))) <$> seqZ 0 80.
Proof. vm_compute. reflexivity. Qed.
Lemma right_plan_tables :
  right_plan = (fun j => mkStep ((79 - j) / 16) (tab rmd_rr j) (tab rmd_sr j) (tab rmd_kr (j / 16))) <$> seqZ 0 80.
Proof. vm_compute. reflexivity. Qed.

Lemma rmd_block_ref pad (off : nat) h : (off + 64 <= length pad)%nat ->
  rmd_block pad (Z.of_nat off) h = ref_compress h (take 64 (drop off pad)).
Proof.
  intros Hoff. unfold rmd_block, ref_compress.
  assert ((fun i => rmd_word pad (Z.of_nat off + i * 4)) <$> seqZ 0 16 = ref_words (take 64 (drop off pad))) as ->.
  { unfold ref_words. change (seqZ 0 16) with (Z.of_nat <$> seq 0 16). rewrite <- list_fmap_compose.
    apply list_fmap_ext. intros k i Hi. apply list_elem_of_lookup_2, elem_of_seq in Hi. unfold compose.
    replace (Z.of_nat off + Z.of_nat i * 4) with (Z.of_nat (off + 4 * i)) by lia.
    rewrite rmd_word_spec by lia. f_equal. rewrite <- drop_drop.
    rewrite skipn_firstn_comm, take_take. f_equal. lia. }
  rewrite rmd_rounds_folds, left_plan_tables, right_plan_tables, !foldl_fmap_l. change (Z.of_nat 80) with 80.
  rewrite (foldl_ext_in _ (fun l j => ref_step (ref_words (take 64 (drop off pad))) l
     (mkStep (j / 16) (tab rmd_rl j) (tab rmd_sl j) (tab rmd_kl (j / 16)))) _ h).
  2: { intros l j Hj. apply elem_of_seqZ in Hj. unfold rmd_step, ref_step. cbn [st_f st_word st_rot st_const].
       by rewrite rmd_f_ref by lia. }
  rewrite (foldl_ext_in (fun l j => rmd_step (79 - j) _ _ _ _ _ _)
    (fun l j => ref_step (ref_words (take 64 (drop off pad))) l
     (mkStep ((79 - j) / 16) (tab rmd_rr j) (tab rmd_sr j) (tab rmd_kr (j / 16)))) _ h).
  2: { intros l j Hj. apply elem_of_seqZ in Hj. unfold rmd_step, ref_step. cbn [st_f st_word st_rot st_const].
       by rewrite rmd_f_ref by lia. }
  done.
Qed.

Lemma rmd_loop_ref pad (n fuel off : nat) h :
  length pad = (off + 64 * n)%nat -> (n < fuel)%nat ->
  rmd_loop fuel pad (Z.of_nat off) h = foldl ref_compress h (chunks n (drop off pad)).
Proof.
  revert fuel off h. induction n as [|n IH]; intros fuel off h Hl Hf; (destruct fuel as [|fuel]; [lia|]); cbn [rmd_loop].
  - by rewrite (proj2 (Z.ltb_ge _ _)) by lia.
  - rewrite (proj2 (Z.ltb_lt _ _)) by lia. rewrite rmd_block_ref by lia.
    replace (Z.of_nat off + 64) with (Z.of_nat (off + 64)) by lia. rewrite IH by lia.
    cbn [chunks foldl]. by rewrite drop_drop.
Qed.

Lemma rmd_fill_spec (k fuel : nat) pad :
  (k < fuel)%nat -> Z.of_nat (length pad + k) mod 64 = 56 -> (k < 64)%nat ->
  rmd_fill fuel pad = pad ++ replicate k Byte.x00.
Proof.
  revert fuel pad. induction k as [|k IH]; intros fuel pad Hf Hm Hk; (destruct fuel as [|fuel]; [lia|]); cbn [rmd_fill].
  - rewrite Nat.add_0_r in Hm. rewrite Hm. simpl. by rewrite app_nil_r.
  - rewrite (proj2 (Z.eqb_neq _ _)).
    + rewrite IH; [by rewrite <- app_assoc|lia| |lia]. rewrite length_app. cbn [length]. rewrite <- Hm. f_equal. lia.
    + Z.div_mod_to_equations. lia.
Qed.

Lemma length_bytes_8 v : (fun i => z2b (Z.shiftr v (8 * i))) <$> seqZ 0 8 = le_bytes 8 v.
Proof.
  change (seqZ 0 8) with [0; 1; 2; 3; 4; 5; 6; 7]. cbn [fmap list_fmap le_bytes].
  rewrite !Z.shiftr_div_pow2 by lia. rewrite !Z.div_div by lia. rewrite Z.div_1_r. reflexivity.
Qed.

Lemma rmd_pad_ref msg : rmd_pad msg = ref_pad msg.
Proof.
  unfold rmd_pad, ref_pad. set (n := Z.of_nat (length msg)).
  rewrite (rmd_fill_spec (Z.to_nat ((55 - n) mod 64))).
  - rewrite length_bytes_8, <- !app_assoc. do 3 f_equal.
    apply le_Z_inj; [len|]. rewrite !le_Z_bytes. change (256 ^ Z.of_nat 8) with (2 ^ 64).
    unfold u64, wrap. rewrite Z.mul_mod_idemp_l, Z.mod_mod by lia. f_equal. lia.
  - pose proof (Z.mod_pos_bound (55 - n) 64). lia.
  - rewrite length_app. cbn [length]. pose proof (Z.mod_pos_bound (55 - n) 64 ltac:(lia)). subst n.
    Z.div_mod_to_equations. lia.
  - pose proof (Z.mod_pos_bound (55 - n) 64). lia.
Qed.

Lemma length_ref_pad msg : exists n, length (ref_pad msg) = (64 * n)%nat /\ (0 < n)%nat.
Proof.
  unfold ref_pad. set (n := Z.of_nat (length msg)).
  exists (Z.to_nat ((n + 9 + (55 - n) mod 64) / 64)). autorewrite with len. cbn [length].
  pose proof (Z.mod_pos_bound (55 - n) 64 ltac:(lia)). subst n. Z.div_mod_to_equations. lia.
Qed.

Lemma rmd_out_le v : rmd_out v = le_bytes 4 v.
Proof.
  unfold rmd_out. cbn [le_bytes]. rewrite !Z.shiftr_div_pow2 by lia. rewrite !Z.div_div by lia. reflexivity.
Qed.

(** C29: RIPEMD-160 is the published function.  The code's loop with its flat
    tables computes, for every message, the reference definition: chunks of the
    padded message, each line driven by the iterated message permutation, the
    per-word rotations and the root constants. *)
Theorem ripemd160_published (msg : list byte) : ripemd160 msg = ref_ripemd160 msg.
Proof.
  unfold ripemd160, ref_ripemd160. rewrite rmd_pad_ref. destruct (length_ref_pad msg) as (n & Hn & H0).
  rewrite (rmd_loop_ref (ref_pad msg) n _ 0 rmd_h0) by lia. rewrite Hn, drop_0.
  replace (64 * n / 64)%nat with n by (rewrite Nat.mul_comm, Nat.div_mul; lia).
  rewrite !rmd_out_le. cbn [fmap list_fmap concat]. by rewrite app_nil_r.
Qed.

(** Published test vectors: the empty message and "abc". *)
Example ripemd160_empty :
  be_Z (abytes (ripemd160 [])) = 0x9c1185a5c5e9fc54612808977ee8f548b2258d31.
Proof. vm_compute. reflexivity. Qed.
Example ripemd160_abc :
  be_Z (abytes (ripemd160 [Byte.x61; Byte.x62; Byte.x63])) = 0x8eb208f7e05d987a9b044a8e98c6b087f15a0bfc.
Proof. vm_compute. reflexivity. Qed.
