(* ===== verification/Address.v ===== *)
(** * bsvtx: addresses ([src/bsvtx/address.go])

    Base58, Base58Check and P2PKH.  A Go string is its bytes; [range] over it
    yields code points, so decoding goes through UTF-8 as the language defines
    it.  The theorems are the round trips in both directions, that an address
    determines the version and the key hash, and that decoding also takes
    strings no encoder produces. *)

From stdpp Require Import base list strings sets.
From Stdlib Require Import ZArith Lia ZifyNat.
From Stdlib Require Strings.Byte.
From S2P Require Import Prelude Sha256 Hex Bsvtx Ripemd.
Open Scope go_scope.

Definition AddrMainP2PKH : Z := 0x00.
Definition AddrTestP2PKH : Z := 0x6f.

Definition Hash160 (b : list byte) : array 20 := ripemd160 (sha256 b).

(** ** Ranging over a string *)

Definition in_range (lo hi : Z) (b : byte) : bool := (lo <=? b2z b) && (b2z b <=? hi).
Definition RuneError : Z := 0xfffd.
Definition low6 (b : byte) : Z := Z.land (b2z b) 0x3f.

(** The first code point of a string and the bytes after it; an invalid
    sequence yields [RuneError] for one byte. *)
Definition next_rune (b0 : byte) (r : gostring) : Z * gostring :=
  if b2z b0 <? 0x80 then (b2z b0, r)
  else if in_range 0xc2 0xdf b0 then
    match r with
    | b1 :: r' => if in_range 0x80 0xbf b1 then (Z.lor (Z.shiftl (Z.land (b2z b0) 0x1f) 6) (low6 b1), r') else (RuneError, r)
    | [] => (RuneError, r)
    end
  else if in_range 0xe0 0xef b0 then
    let lo := if b2z b0 =? 0xe0 then 0xa0 else 0x80 in
    let hi := if b2z b0 =? 0xed then 0x9f else 0xbf in
    match r with
    | b1 :: b2 :: r' =>
        if in_range lo hi b1 && in_range 0x80 0xbf b2
        then (Z.lor (Z.lor (Z.shiftl (Z.land (b2z b0) 0x0f) 12) (Z.shiftl (low6 b1) 6)) (low6 b2), r')
        else (RuneError, r)
    | _ => (RuneError, r)
    end
  else if in_range 0xf0 0xf4 b0 then
    let lo := if b2z b0 =? 0xf0 then 0x90 else 0x80 in
    let hi := if b2z b0 =? 0xf4 then 0x8f else 0xbf in
    match r with
    | b1 :: b2 :: b3 :: r' =>
        if in_range lo hi b1 && in_range 0x80 0xbf b2 && in_range 0x80 0xbf b3
        then (Z.lor (Z.lor (Z.lor (Z.shiftl (Z.land (b2z b0) 0x07) 18) (Z.shiftl (low6 b1) 12)) (Z.shiftl (low6 b2) 6))
                (low6 b3), r')
        else (RuneError, r)
    | _ => (RuneError, r)
    end
  else (RuneError, r).
Fixpoint runes_from (fuel : nat) (s : gostring) : list Z :=
  match fuel, s with
  | S fuel', b :: r => let '(c, r') := next_rune b r in c :: runes_from fuel' r'
  | _, _ => []
  end.
Definition runes (s : gostring) : list Z := runes_from (length s) s.

(** ** Base58 *)

Definition b58alphabet : list byte :=
  Eval vm_compute in
    String.list_byte_of_string "123456789ABCDEFGHJKLMNPQRSTUVWXYZabcdefghijkmnopqrstuvwxyz".

Definition b58_char (d : Z) : byte := nth (Z.to_nat d) b58alphabet Byte.x00.
Definition b58_zero : byte := b58_char 0.

(** [for n > 0 { n, mod = n/58, n%58; append }]. *)
Fixpoint b58_digits (fuel : nat) (n : Z) : list byte :=
  match fuel with
  | O => []
  | S fuel' => if 0 <? n then b58_char (n mod 58) :: b58_digits fuel' (n / 58) else []
  end.
Definition b58_fuel (n : Z) : nat := Z.to_nat (Z.log2 n + 1).

(** The number of leading elements that satisfy a test. *)
Fixpoint leading {A} (p : A -> bool) (l : list A) : nat :=
  match l with x :: r => if p x then S (leading p r) else O | [] => O end.

Definition Base58Encode (b : list byte) : gostring :=
  let n := be_Z b in
  let out := b58_digits (b58_fuel n) n in
  let out := out ++ replicate (leading (fun c => b2z c =? 0) b) b58_zero in
  rev out.

Definition ErrBase58Char : error := "bsvtx: invalid base58 character"%string.
Definition ErrCheckShort : error := "bsvtx: base58check too short"%string.
Definition ErrChecksum : error := "bsvtx: bad base58check checksum"%string.

Fixpoint index_in (l : list byte) (i : Z) (c : byte) : option Z :=
  match l with
  | [] => None
  | x :: r => if decide (x = c) then Some i else index_in r (i + 1) c
  end.
Fixpoint b58_value (rs : list Z) (n : Z) : result Z :=
  match rs with
  | [] => Ok n
  | r :: rest =>
      match index_in b58alphabet 0 (z2b r) with
      | None => Err ErrBase58Char
      | Some idx => b58_value rest (n * 58 + idx)
      end
  end.
Definition Base58Decode (s : gostring) : result (list byte) :=
  let! n := b58_value (runes s) 0 in
  Ok (replicate (leading (fun r => bool_decide (z2b r = b58_zero)) (runes s)) Byte.x00 ++ big_bytes n).

(** ** Base58Check *)

Definition checksum (payload : list byte) : list byte := take 4 (sha256 (sha256 payload)).
Definition Base58Check (payload : list byte) : gostring := Base58Encode (payload ++ checksum payload).

Definition Base58CheckDecode (s : gostring) : result (list byte) :=
  let! raw := Base58Decode s in
  if (length raw <? 5)%nat then Err ErrCheckShort
  else
    let payload := take (length raw - 4) raw in
    let sum := drop (length raw - 4) raw in
    if decide (checksum payload = sum) then Ok payload else Err ErrChecksum.

(** ** P2PKH *)

Definition AddressFromPubKey (compressedPub : list byte) (version : byte) : gostring :=
  Base58Check (version :: abytes (Hash160 compressedPub)).
Definition P2PKH (pubKeyHash : array 20) : list byte :=
  [z2b 0x76; z2b 0xa9; z2b 0x14] ++ abytes pubKeyHash ++ [z2b 0x88; z2b 0xac].
Definition P2PKHFromPub (compressedPub : list byte) : list byte := P2PKH (Hash160 compressedPub).
Definition ScriptSigP2PKH (sigWithType compressedPub : list byte) : list byte :=
  pushData sigWithType ++ pushData compressedPub.

(** ** Lemmas: digits *)

Fixpoint val58 (l : list Z) : Z := match l with [] => 0 | d :: r => d + 58 * val58 r end.
Definition digit58 (d : Z) : Prop := 0 <= d < 58.
Definition top_ok (l : list Z) : Prop := forall d, last l = Some d -> d <> 0.

Lemma val58_nonneg l : Forall digit58 l -> 0 <= val58 l.
Proof. unfold digit58. induction 1; simpl; lia. Qed.

Lemma val58_pos l : Forall digit58 l -> top_ok l -> l <> [] -> 0 < val58 l.
Proof.
  unfold digit58. intros Hf. induction Hf as [|d r Hd Hr IH]; intros Ht Hn; [done|].
  destruct r as [|e r]; cbn [val58] in *; [specialize (Ht d eq_refl); lia|].
  assert (0 < e + 58 * val58 r) by (apply IH; [|done]; intros x Hx; by apply Ht). lia.
Qed.

(** Every number has digits, and only one list of them without a zero on top. *)
Lemma b58_digits_unique l fuel :
  Forall digit58 l -> top_ok l -> val58 l < 58 ^ Z.of_nat fuel ->
  b58_digits fuel (val58 l) = b58_char <$> l.
Proof.
  intros Hf. revert fuel. induction Hf as [|d r Hd Hr IH]; intros fuel Ht Hv; [by destruct fuel|].
  pose proof (val58_pos (d :: r) ltac:(by constructor) Ht ltac:(done)) as Hp. unfold digit58 in Hd.
  destruct fuel as [|fuel]; [simpl in Hv, Hp; lia|]. cbn [b58_digits]. rewrite (proj2 (Z.ltb_lt _ _)) by done.
  cbn [val58] in *. rewrite Nat2Z.inj_succ, Z.pow_succ_r in Hv by lia.
  replace ((d + 58 * val58 r) mod 58) with d by (rewrite Z.mul_comm, Z_mod_plus_full, Z.mod_small; lia).
  replace ((d + 58 * val58 r) / 58) with (val58 r) by (Z.div_mod_to_equations; lia).
  rewrite fmap_cons. f_equal. apply IH; [|lia]. intros x Hx. apply Ht. destruct r; [done|exact Hx].
Qed.

Lemma digits_exist (fuel : nat) n : 0 <= n < 58 ^ Z.of_nat fuel -> exists l, val58 l = n /\ Forall digit58 l /\ top_ok l.
Proof.
  revert n. induction fuel as [|fuel IH]; intros n Hn.
  - exists []. split_and!; [simpl in *; lia|done|done].
  - rewrite Nat2Z.inj_succ, Z.pow_succ_r in Hn by lia. destruct (decide (n = 0)) as [->|Hz]; [by exists []|].
    destruct (IH (n / 58)) as (l & Hv & Hf & Ht); [Z.div_mod_to_equations; lia|].
    exists (n mod 58 :: l). cbn [val58]. rewrite Hv. split_and!.
    + rewrite Z.add_comm. symmetry. apply Z.div_mod. lia.
    + constructor; [apply Z.mod_pos_bound; lia|done].
    + intros d Hd. destruct l as [|e l]; [|by apply Ht]. injection Hd as <-. cbn in Hv.
      Z.div_mod_to_equations. lia.
Qed.

Lemma b58_fuel_enough n : 0 <= n -> n < 58 ^ Z.of_nat (b58_fuel n).
Proof.
  intros Hn. unfold b58_fuel. pose proof (Z.log2_nonneg n). rewrite Z2Nat.id by lia.
  destruct (decide (n = 0)) as [->|Hz]; [done|].
  destruct (Z.log2_spec n) as [_ Hl]; [lia|]. eapply Z.lt_le_trans; [exact Hl|].
  replace (Z.succ (Z.log2 n)) with (Z.log2 n + 1) by lia. apply Z.pow_le_mono_l. lia.
Qed.

(** ** Lemmas: bytes of a number *)

Definition lead_ok (l : list byte) : Prop := match l with [] => True | b :: _ => b2z b <> 0 end.

Lemma be_Z_cons b r : be_Z (b :: r) = b2z b * 256 ^ Z.of_nat (length r) + be_Z r.
Proof. unfold be_Z. cbn [rev]. rewrite le_Z_app, length_rev. cbn [le_Z]. lia. Qed.

Lemma be_Z_lower b r : b2z b <> 0 -> 256 ^ Z.of_nat (length r) <= be_Z (b :: r).
Proof.
  intros Hb. rewrite be_Z_cons. pose proof (b2z_range b). pose proof (be_Z_range r).
  pose proof (Z.pow_pos_nonneg 256 (Z.of_nat (length r))). nia.
Qed.

Lemma be_Z_length_le l1 l2 : lead_ok l1 -> be_Z l1 = be_Z l2 -> (length l1 <= length l2)%nat.
Proof.
  intros H1 E. destruct l1 as [|b r]; [simpl; lia|]. pose proof (be_Z_lower b r H1). pose proof (be_Z_range l2).
  assert (256 ^ Z.of_nat (length r) < 256 ^ Z.of_nat (length l2)) as Hp by lia.
  apply Z.pow_lt_mono_r_iff in Hp; simpl; lia.
Qed.

Lemma be_Z_lead_inj l1 l2 : lead_ok l1 -> lead_ok l2 -> be_Z l1 = be_Z l2 -> l1 = l2.
Proof.
  intros H1 H2 E. apply be_Z_inj; [|done].
  pose proof (be_Z_length_le l1 l2 H1 E). pose proof (be_Z_length_le l2 l1 H2 ltac:(done)). lia.
Qed.

Lemma big_bytes_lead v : 0 <= v -> lead_ok (big_bytes v).
Proof.
  intros Hv. pose proof (be_Z_big_bytes v Hv) as E. unfold big_bytes in *.
  destruct (v =? 0) eqn:Ev; zbool; [done|].
  pose proof (length_be_bytes (Z.to_nat (Z.log2 v / 8 + 1)) v) as Hl.
  destruct (be_bytes _ v) as [|b r]; [done|]. intros Hb. rewrite be_Z_cons, Hb in E.
  pose proof (be_Z_range r). pose proof (Z.log2_spec v ltac:(lia)). pose proof (Z.log2_nonneg v).
  assert (256 ^ Z.of_nat (length r) <= 2 ^ Z.log2 v); [|lia].
  change 256 with (2 ^ 8). rewrite <- Z.pow_mul_r by lia. apply Z.pow_le_mono_r; [lia|].
  simpl in Hl. assert (Z.of_nat (length r) = Z.log2 v / 8) as -> by (Z.div_mod_to_equations; lia).
  Z.div_mod_to_equations. lia.
Qed.

Lemma leading_spec {A} (p : A -> bool) z (l : list A) x :
  p x = true -> match l with [] => True | y :: _ => p y = false end -> leading p (replicate z x ++ l) = z.
Proof.
  intros Hx Hl. induction z as [|z IH]; [destruct l; simpl; [done|by rewrite Hl]|]. simpl. by rewrite Hx, IH.
Qed.

Lemma leading_split {A} (p : A -> bool) (l : list A) x :
  (forall y, p y = true -> y = x) ->
  exists r, l = replicate (leading p l) x ++ r /\ match r with [] => True | y :: _ => p y = false end.
Proof.
  intros Hp. induction l as [|y r IH]; [by exists []|]. simpl. destruct (p y) eqn:E; [|by exists (y :: r)].
  destruct IH as (r' & Hr & Hy). exists r'. rewrite (Hp y E). split; [|done]. simpl. by f_equal.
Qed.

Lemma is_zero_byte (c : byte) : (b2z c =? 0) = true -> c = Byte.x00.
Proof. intros Hc. zbool. by apply b2z_inj. Qed.

(** Every byte string is its leading zeros and the bytes of its value. *)
Lemma bytes_decompose b : exists z, b = replicate z Byte.x00 ++ big_bytes (be_Z b).
Proof.
  destruct (leading_split (fun c => b2z c =? 0) b Byte.x00 is_zero_byte) as (r & Hb & Hr).
  exists (leading (fun c => b2z c =? 0) b). rewrite Hb at 1. f_equal. apply be_Z_lead_inj.
  - destruct r; [done|]. simpl. by zbool.
  - apply big_bytes_lead, be_Z_range.
  - rewrite be_Z_big_bytes by apply be_Z_range. by rewrite Hb, be_Z_zeros_app.
Qed.

(** ** Lemmas: characters *)

Lemma b58_index_char d : digit58 d -> index_in b58alphabet 0 (b58_char d) = Some d.
Proof.
  intros Hd. assert (forallb (fun d => bool_decide (index_in b58alphabet 0 (b58_char d) = Some d)) (seqZ 0 58) = true) as Ha
    by (by vm_compute).
  rewrite forallb_forall in Ha. eapply bool_decide_eq_true_1, Ha, list_elem_of_In, elem_of_seqZ.
  unfold digit58 in Hd. lia.
Qed.

Lemma index_in_spec l i c d : index_in l i c = Some d -> i <= d < i + Z.of_nat (length l) /\ nth (Z.to_nat (d - i)) l Byte.x00 = c.
Proof.
  revert i. induction l as [|x r IH]; intros i; simpl; [done|]. destruct (decide (x = c)) as [->|].
  - intros [= ->]. replace (d - d) with 0 by lia. split; [lia|done].
  - intros E. apply IH in E as [H1 H2]. split; [lia|].
    replace (Z.to_nat (d - i)) with (S (Z.to_nat (d - (i + 1)))) by lia. done.
Qed.

Lemma b58_char_index c d : index_in b58alphabet 0 c = Some d -> digit58 d /\ b58_char d = c.
Proof.
  intros E. apply index_in_spec in E as [H1 H2]. rewrite Z.sub_0_r in H2. split; [|exact H2].
  unfold digit58. change (Z.of_nat (length b58alphabet)) with 58 in H1. lia.
Qed.

Lemma b58_char_inj d e : digit58 d -> digit58 e -> b58_char d = b58_char e -> d = e.
Proof. intros Hd He E. apply b58_index_char in Hd, He. congruence. Qed.

Lemma b58_char_ascii d : digit58 d -> b2z (b58_char d) < 0x80.
Proof.
  intros Hd. assert (forallb (fun d => b2z (b58_char d) <? 0x80) (seqZ 0 58) = true) as Ha by (by vm_compute).
  rewrite forallb_forall in Ha. apply Z.ltb_lt, Ha, list_elem_of_In, elem_of_seqZ. unfold digit58 in Hd. lia.
Qed.

(** Ranging over ASCII yields the bytes. *)
Lemma runes_ascii s : Forall (fun b => b2z b < 0x80) s -> runes s = b2z <$> s.
Proof.
  unfold runes. induction 1 as [|b r Hb _ IH]; [done|]. cbn [length runes_from]. unfold next_rune.
  rewrite (proj2 (Z.ltb_lt _ _)) by done. by rewrite fmap_cons, IH.
Qed.

Lemma val58_app l1 l2 : val58 (l1 ++ l2) = val58 l1 + 58 ^ Z.of_nat (length l1) * val58 l2.
Proof.
  induction l1 as [|d r IH]; [simpl; lia|]. cbn [app val58 length]. rewrite IH, Nat2Z.inj_succ, Z.pow_succ_r by lia. ring.
Qed.

Lemma b58_value_chars ds n : Forall digit58 ds ->
  b58_value (b2z <$> (b58_char <$> ds)) n = Ok (n * 58 ^ Z.of_nat (length ds) + val58 (rev ds)).
Proof.
  intros Hf. revert n. induction Hf as [|d r Hd _ IH]; intros n; [simpl; f_equal; lia|].
  rewrite !fmap_cons. cbn [b58_value]. rewrite z2b_b2z, b58_index_char by done. rewrite IH. f_equal.
  cbn [rev length]. rewrite val58_app, length_rev. cbn [val58]. rewrite Nat2Z.inj_succ, Z.pow_succ_r by lia. ring.
Qed.

(** ** Canonical strings

    [z] leading ones, then the digits [ds] (least significant first). *)
Definition canon (z : nat) (ds : list Z) : gostring := replicate z b58_zero ++ (b58_char <$> rev ds).

Lemma canon_as_digits z ds : canon z ds = b58_char <$> (replicate z 0 ++ rev ds).
Proof. unfold canon. rewrite fmap_app. f_equal. induction z as [|z IH]; [done|]. simpl. by rewrite IH. Qed.

Lemma digits_canon z ds : Forall digit58 ds -> Forall digit58 (replicate z 0 ++ rev ds).
Proof.
  intros Hd. apply Forall_app. split; [apply Forall_replicate; unfold digit58; lia|].
  rewrite rev_alt. by apply Forall_reverse.
Qed.

Lemma runes_canon z ds : Forall digit58 ds -> runes (canon z ds) = b2z <$> canon z ds.
Proof.
  intros Hd. apply runes_ascii. rewrite canon_as_digits. apply Forall_fmap.
  eapply Forall_impl; [by apply digits_canon|]. intros d. apply b58_char_ascii.
Qed.

Lemma last_rev_head {A} (l : list A) x r : rev l = x :: r -> last l = Some x.
Proof.
  intros E. apply (f_equal (@rev A)) in E. rewrite rev_involutive in E. cbn [rev] in E. rewrite E. apply last_snoc.
Qed.

Lemma decode_canon z ds : Forall digit58 ds -> top_ok ds ->
  Base58Decode (canon z ds) = Ok (replicate z Byte.x00 ++ big_bytes (val58 ds)).
Proof.
  intros Hd Ht. unfold Base58Decode. rewrite runes_canon by done. rewrite canon_as_digits at 1.
  rewrite b58_value_chars by (by apply digits_canon). cbn [rbind]. rewrite Z.mul_0_l, Z.add_0_l. do 2 f_equal.
  - f_equal. unfold canon. rewrite fmap_app, fmap_replicate. apply leading_spec; [by vm_compute|].
    destruct (rev ds) as [|d r] eqn:Er; [done|]. rewrite !fmap_cons, z2b_b2z. apply bool_decide_eq_false. intros E.
    assert (digit58 d) as Hdd.
    { rewrite Forall_forall in Hd. apply Hd. rewrite list_elem_of_In, in_rev, Er. by left. }
    apply b58_char_inj in E; [|done|unfold digit58; lia]. by apply (Ht d (last_rev_head ds d r Er)).
  - f_equal. rewrite rev_app_distr, rev_involutive, val58_app.
    assert (val58 (rev (replicate z 0)) = 0) as ->; [|lia].
    rewrite rev_alt. fold (reverse (replicate z 0)). rewrite reverse_replicate. clear. induction z; simpl; lia.
Qed.

Lemma encode_canon z ds : Forall digit58 ds -> top_ok ds ->
  Base58Encode (replicate z Byte.x00 ++ big_bytes (val58 ds)) = canon z ds.
Proof.
  intros Hd Ht. pose proof (val58_nonneg ds Hd) as Hn. unfold Base58Encode.
  rewrite be_Z_zeros_app, be_Z_big_bytes by done.
  rewrite b58_digits_unique by (try done; by apply b58_fuel_enough).
  rewrite leading_spec; [|done|].
  - rewrite rev_app_distr. unfold canon. f_equal.
    + rewrite rev_alt. fold (reverse (replicate z b58_zero)). apply reverse_replicate.
    + symmetry. apply (List.map_rev b58_char ds).
  - pose proof (big_bytes_lead (val58 ds) Hn) as Hl. destruct (big_bytes (val58 ds)); [done|]. by apply Z.eqb_neq.
Qed.

Lemma digits_of n : 0 <= n -> exists ds, val58 ds = n /\ Forall digit58 ds /\ top_ok ds.
Proof. intros Hn. apply (digits_exist (b58_fuel n)). split; [done|by apply b58_fuel_enough]. Qed.

Lemma base58_encode_decode b : Base58Decode (Base58Encode b) = Ok b.
Proof.
  destruct (bytes_decompose b) as (z & Hb). destruct (digits_of (be_Z b)) as (ds & Hv & Hd & Ht); [apply be_Z_range|].
  rewrite <- Hv in Hb. rewrite Hb, encode_canon by done. by apply decode_canon.
Qed.

Definition b58_string (s : gostring) : Prop := Forall (fun c => c ∈ b58alphabet) s.

Lemma index_in_elem l c i : c ∈ l -> is_Some (index_in l i c).
Proof.
  revert i. induction l as [|x r IH]; intros i Hc; [by apply not_elem_of_nil in Hc|]. simpl.
  destruct (decide (x = c)) as [->|]; [done|]. apply IH. set_solver.
Qed.

Lemma string_digits s : b58_string s -> exists l, s = b58_char <$> l /\ Forall digit58 l.
Proof.
  induction 1 as [|c r Hc _ (l & -> & Hl)]; [by exists []|].
  destruct (index_in_elem b58alphabet c 0 Hc) as [d Hd]. apply b58_char_index in Hd as [H1 <-].
  exists (d :: l). split; [done|by constructor].
Qed.

Lemma string_canon s : b58_string s -> exists z ds, s = canon z ds /\ Forall digit58 ds /\ top_ok ds.
Proof.
  intros Hs. destruct (string_digits s Hs) as (l & -> & Hl).
  destruct (leading_split (fun d => d =? 0) l 0) as (r & Hr & Hy); [intros y Hy; by zbool|].
  exists (leading (fun d => d =? 0) l), (rev r). rewrite canon_as_digits, rev_involutive, <- Hr. split; [done|].
  rewrite Hr in Hl. apply Forall_app in Hl as [_ Hl]. split; [rewrite rev_alt; by apply Forall_reverse|].
  intros d Hd. destruct r as [|y r']; [done|]. cbn [rev] in Hd. rewrite last_snoc in Hd. injection Hd as <-. by zbool.
Qed.

Lemma base58_decode_encode s b : b58_string s -> Base58Decode s = Ok b -> Base58Encode b = s.
Proof.
  intros Hs. destruct (string_canon s Hs) as (z & ds & -> & Hd & Ht). rewrite decode_canon by done.
  intros [= <-]. by apply encode_canon.
Qed.

(** Both directions, for the alphabet's strings. *)
Lemma base58_decode_iff s b : b58_string s -> Base58Decode s = Ok b <-> s = Base58Encode b.
Proof.
  intros Hs. split; [intros E; symmetry; by apply base58_decode_encode|intros ->; apply base58_encode_decode].
Qed.

Lemma length_checksum p : length (checksum p) = 4%nat.
Proof. unfold checksum. rewrite length_take, length_sha256. done. Qed.

Lemma checkdecode_raw s raw : Base58Decode s = Ok raw ->
  forall p, Base58CheckDecode s = Ok p <-> p <> [] /\ raw = p ++ checksum p.
Proof.
  intros E p. unfold Base58CheckDecode. rewrite E. cbn [rbind]. destruct (Nat.ltb_spec (length raw) 5).
  - split; [done|]. intros [Hp ->]. rewrite length_app, length_checksum in *. destruct p; simpl in *; [done|lia].
  - assert (raw = take (length raw - 4) raw ++ drop (length raw - 4) raw) as Hr by (symmetry; apply take_drop).
    destruct (decide _) as [Hc|Hc].
    + split; [intros [= <-]|].
      * split; [|by rewrite Hc]. intros Hn. apply (f_equal length) in Hn. rewrite length_take in Hn. simpl in Hn. lia.
      * intros [_ Hp]. f_equal. rewrite Hp, length_app, length_checksum, Nat.add_sub. by rewrite take_app_length.
    + split; [done|]. intros [_ Hp]. destruct Hc. rewrite Hp, length_app, length_checksum, Nat.add_sub.
      by rewrite take_app_length, drop_app_length.
Qed.

(** C30: addresses decode canonically.  A string over the Base58 alphabet decodes
    under [Base58CheckDecode] to exactly one payload, and only if it is that
    payload's encoding; every non-empty payload comes back from its encoding. *)
Theorem base58check_canonical (s : gostring) (p : list byte) :
  b58_string s -> Base58CheckDecode s = Ok p <-> p <> [] /\ s = Base58Check p.
Proof.
  intros Hs. destruct (string_canon s Hs) as (z & ds & Hz & Hd & Ht).
  assert (exists raw, Base58Decode s = Ok raw) as (raw & E) by (rewrite Hz, decode_canon by done; by eexists).
  rewrite (checkdecode_raw s raw E). rewrite (base58_decode_iff s raw Hs) in E. unfold Base58Check.
  split; intros [Hp H]; (split; [done|]).
  - by rewrite E, H.
  - pose proof (base58_encode_decode raw) as E1. rewrite <- E, H, base58_encode_decode in E1. congruence.
Qed.

Lemma base58_encode_inj a b : Base58Encode a = Base58Encode b -> a = b.
Proof. intros E. pose proof (base58_encode_decode a) as H. rewrite E, base58_encode_decode in H. congruence. Qed.

(** an address determines what it pays.  Two keys have the same address only
    under the same version byte and with the same key hash, and then the P2PKH
    scripts are the same; and the address decodes back to version and hash. *)
Theorem address_binds (pub1 pub2 : list byte) (v1 v2 : byte) :
  Base58CheckDecode (AddressFromPubKey pub1 v1) = Ok (v1 :: abytes (Hash160 pub1))
  /\ (AddressFromPubKey pub1 v1 = AddressFromPubKey pub2 v2 <-> v1 = v2 /\ P2PKHFromPub pub1 = P2PKHFromPub pub2).
Proof.
  split.
  - apply (checkdecode_raw _ _ (base58_encode_decode _)). done.
  - unfold AddressFromPubKey, Base58Check, P2PKHFromPub, P2PKH. generalize (Hash160 pub1), (Hash160 pub2). intros h1 h2.
    split.
    + intros E. apply base58_encode_inj in E. apply app_inj_len in E as [E _]; [|simpl; by rewrite !abytes_length].
      injection E as -> E. apply array_ext in E. by subst.
    + intros [-> E]. apply app_inv_head in E. apply app_inv_tail in E. by rewrite E.
Qed.

(** The two UTF-8 bytes of the code point 256 above an ASCII character. *)
Definition widen (c : byte) : gostring := [z2b (0xc4 + b2z c / 64); z2b (0x80 + b2z c mod 64)].

Lemma runes_from_widen fuel c r : b2z c < 0x80 -> runes_from (S fuel) (widen c ++ r) = 256 + b2z c :: runes_from fuel r.
Proof.
  intros Hc. pose proof (b2z_range c) as Hr. cbn [widen app runes_from]. unfold next_rune, in_range, low6.
  rewrite !b2z_z2b. rewrite !(Z.mod_small _ 256) by (Z.div_mod_to_equations; lia).
  assert (forallb (fun c => negb (0xc4 + c / 64 <? 0x80) && ((0xc2 <=? 0xc4 + c / 64) && (0xc4 + c / 64 <=? 0xdf))
    && ((0x80 <=? 0x80 + c mod 64) && (0x80 + c mod 64 <=? 0xbf))
    && (Z.lor (Z.shiftl (Z.land (0xc4 + c / 64) 0x1f) 6) (Z.land (0x80 + c mod 64) 0x3f) =? 256 + c)) (seqZ 0 128)
    = true) as Ha by (by vm_compute).
  rewrite forallb_forall in Ha. specialize (Ha (b2z c)). rewrite <- list_elem_of_In, elem_of_seqZ in Ha.
  specialize (Ha ltac:(lia)). rewrite !andb_true_iff, negb_true_iff in Ha.
  destruct Ha as [[[-> [-> ->]] [-> ->]] Hv]. cbn [andb]. apply Z.eqb_eq in Hv. by rewrite Hv.
Qed.

Lemma runes_from_more fuel s : (length s <= fuel)%nat -> runes_from fuel s = runes s.
Proof.
  unfold runes. remember (length s) as n eqn:Hn. assert (length s <= n)%nat as Hl by lia. clear Hn.
  revert fuel s Hl. induction n as [|n IH]; intros fuel s Hl Hf.
  - destruct s; [by destruct fuel|simpl in Hl; lia].
  - destruct s as [|b r]; [by destruct fuel|]. destruct fuel as [|fuel]; [lia|]. cbn [runes_from].
    assert (length (next_rune b r).2 <= length r)%nat as Hr.
    { unfold next_rune. repeat case_match; simpl; lia. }
    destruct (next_rune b r) as [c r']. simpl in Hr, Hl. f_equal. apply IH; lia.
Qed.

(** decoding takes strings that are not Base58.  [range] yields code points and
    the code keeps their low byte, so any character of an address can be
    replaced by the code point 256 above it: the string differs, is not ASCII,
    and decodes to the same payload with a valid checksum. *)
Theorem base58_rune_alias (s r : gostring) (c : byte) (p : list byte) :
  s = c :: r -> b58_string s -> Base58CheckDecode s = Ok p ->
  widen c ++ r <> s /\ Base58CheckDecode (widen c ++ r) = Ok p.
Proof.
  intros -> Hs Hp. assert (b2z c < 0x80) as Hc.
  { inversion Hs as [|? ? Hin _]; subst. destruct (index_in_elem b58alphabet c 0 Hin) as [d Hd].
    apply b58_char_index in Hd as [Hd <-]. by apply b58_char_ascii. }
  split; [intros E; apply (f_equal length) in E; simpl in E; lia|].
  rewrite <- Hp. unfold Base58CheckDecode, Base58Decode.
  assert (exists t, runes (c :: r) = b2z c :: t /\ runes (widen c ++ r) = 256 + b2z c :: t) as (t & -> & ->).
  { exists (runes r). split.
    - unfold runes at 1. cbn [length runes_from]. unfold next_rune. by rewrite (proj2 (Z.ltb_lt _ _)) by done.
    - change (length (widen c ++ r)) with (S (S (length r))). unfold runes at 1.
      change (length (widen c ++ r)) with (S (S (length r))). rewrite runes_from_widen by done.
      f_equal. apply runes_from_more. lia. }
  cbn [b58_value leading]. rewrite (z2b_mod (256 + b2z c) (b2z c)); [done|].
  replace (256 + b2z c) with (b2z c + 1 * 256) by lia. apply Z_mod_plus_full.
Qed.

(** ** Witnesses *)

(** The address of the all-zero key hash on the main network. *)
Definition zero_address : gostring := String.list_byte_of_string "1111111111111111111114oLvT2".
Definition zero_payload : list byte := replicate 21 Byte.x00.

Lemma zero_address_string : b58_string zero_address.
Proof. apply (bool_decide_unpack _). vm_compute. exact I. Qed.
Lemma zero_address_decodes : Base58CheckDecode zero_address = Ok zero_payload.
Proof. vm_compute. reflexivity. Qed.

Lemma base58check_canonical_witness :
  b58_string zero_address
  /\ (Base58CheckDecode zero_address = Ok zero_payload <-> zero_payload <> [] /\ zero_address = Base58Check zero_payload).
Proof. split; [exact zero_address_string|apply (base58check_canonical zero_address zero_payload zero_address_string)]. Defined.

Lemma base58_rune_alias_witness :
  widen Byte.x31 ++ tail zero_address <> zero_address
  /\ Base58CheckDecode (widen Byte.x31 ++ tail zero_address) = Ok zero_payload.
Proof.
  apply (base58_rune_alias zero_address (tail zero_address) Byte.x31 zero_payload);
    [reflexivity|exact zero_address_string|exact zero_address_decodes].
Defined.
