(* ===== verification/Accel.v ===== *)
(** * accel: batch signature verification ([src/accel])

    The batch interface with its three back ends and the batching gate.  The CPU
    back end's goroutines are lists of writes run in any interleaving; the GPU
    kernel is a function of the byte buffers.  [LawfulVerifier] is what a back end
    promises (each answer is the reference verifier's); the gate is a step
    relation over submissions, timer expiries, timer callbacks and flushes, and
    is proved against that promise. *)

From stdpp Require Import base list strings sets relations.
From Stdlib Require Import ZArith Lia ZifyNat Permutation.
From Stdlib Require Strings.Byte.
From S2P Require Import Prelude Sha256 Commitment Crypto.
Open Scope go_scope.

(** ** Requests and the reference verifier *)

(** A nil key and a key with nil coordinates are both [None]. *)
Record Request : Type := mkReq { rq_Pub : point; rq_Hash : list byte; rq_Sig : option Signature }.

Definition ErrMismatch : error := "accel: backend disagrees with reference verifier"%string.

Definition reference (r : Request) : bool :=
  match rq_Sig r with
  | None => false
  | Some sig => if negb (IsLowS sig) then false else Crypto.Verify (rq_Pub r) (rq_Hash r) sig
  end.

(** [VerifyBatch reqs out] relates a backend, the batch and the slice before to
    the slice after; a back end may have several schedules. *)
Class BatchVerifier (V : Type) : Type := VerifyBatch : V -> list Request -> list bool -> result (list bool) -> Prop.

(** [out[i] = b]. *)
Definition write (out : list bool) (i : nat) (b : bool) : list bool := <[i := b]> out.
(** Writes of the given indices, in order. *)
Definition write_all (reqs : list Request) (out : list bool) (idx : list nat) : list bool :=
  foldl (fun o i => match reqs !! i with Some r => write o i (reference r) | None => o end) out idx.

Inductive Reference : Type := mkReference.
Definition reference_batch (reqs : list Request) (out : list bool) : result (list bool) :=
  if (length out <? length reqs)%nat then Panic else Ok (write_all reqs out (seq 0 (length reqs))).
#[global] Instance reference_verifier : BatchVerifier Reference := fun _ reqs out res => res = reference_batch reqs out.

(** ** The CPU back end *)

Record CPU : Type := mkCPU { Workers : Z; NumCPU : Z }.

(** [for start := 0; start < n; start += chunk] with its goroutine's range. *)
Fixpoint cpu_ranges (fuel : nat) (n chunk start : Z) : list (Z * Z) :=
  match fuel with
  | O => []
  | S fuel' =>
      if start <? n then
        let end_ := start + chunk in
        let end_ := if n <? end_ then n else end_ in
        (start, end_) :: cpu_ranges fuel' n chunk (start + chunk)
      else []
  end.
Definition range_writes (p : Z * Z) : list nat := Z.to_nat <$> seqZ p.1 (p.2 - p.1).

(** The goroutines of a batch, each with the indices it writes in order. *)
Definition cpu_workers (c : CPU) (n : Z) : list (list nat) :=
  let w := if Workers c <=? 0 then NumCPU c else Workers c in
  let w := if n <? w then n else w in
  if w <=? 1 then [Z.to_nat <$> seqZ 0 n]
  else
    let chunk := (n + w - 1) / w in
    range_writes <$> cpu_ranges (Z.to_nat n) n chunk 0.

(** Any order of the writes that keeps each goroutine's own order. *)
Inductive interleave {A : Type} : list (list A) -> list A -> Prop :=
| inter_done ws : Forall (fun w => w = []) ws -> interleave ws []
| inter_step ws1 x w ws2 s : interleave (ws1 ++ w :: ws2) s -> interleave (ws1 ++ (x :: w) :: ws2) (x :: s).

#[global] Instance cpu_verifier : BatchVerifier CPU := fun c reqs out res =>
  if (length out <? length reqs)%nat then res = Panic
  else exists s, interleave (cpu_workers c (Z.of_nat (length reqs))) s /\ res = Ok (write_all reqs out s).

(** ** The GPU back end *)

(** The kernel on the packed keys, hashes and signatures; [None] is a non-zero
    return code. *)
Definition Kernel : Type := list byte -> list byte -> list byte -> Z -> option (list byte).
Record CUDA : Type := mkCUDA { cuda_kernel : Kernel }.

(** The three slots of one request, or none when host policy rejects it. *)
Definition cuda_pack (r : Request) : result (option (list byte * list byte * list byte)) :=
  match rq_Sig r, rq_Pub r with
  | Some sig, Some p =>
      if negb (IsLowS sig) || negb (length (rq_Hash r) =? 32)%nat then Ok None
      else
        let! k := SerializeCompressed (Some p) in
        let! s := sig_Serialize sig in
        Ok (Some (k, rq_Hash r, s))
  | _, _ => Ok None
  end.
Fixpoint cuda_slots (reqs : list Request) : result (list (option (list byte * list byte * list byte))) :=
  match reqs with
  | [] => Ok []
  | r :: rest => let! s := cuda_pack r in let! ss := cuda_slots rest in Ok (s :: ss)
  end.
Definition slot_pub (s : option (list byte * list byte * list byte)) : list byte :=
  match s with Some (k, _, _) => k | None => replicate 33 Byte.x00 end.
Definition slot_hash (s : option (list byte * list byte * list byte)) : list byte :=
  match s with Some (_, h, _) => h | None => replicate 32 Byte.x00 end.
Definition slot_sig (s : option (list byte * list byte * list byte)) : list byte :=
  match s with Some (_, _, g) => g | None => replicate 64 Byte.x00 end.

(** An unsent entry was set to false by the packing loop. *)
Definition cuda_answer (sent : bool) (res : option byte) : bool :=
  if sent then match res with Some b => b2z b =? 1 | None => false end else false.
Definition cuda_batch (c : CUDA) (reqs : list Request) (out : list bool) : result (list bool) :=
  let n := length reqs in
  if (n =? 0)%nat then Ok out
  else if (length out <? n)%nat then Panic
  else
    let! slots := cuda_slots reqs in
    match cuda_kernel c (concat (slot_pub <$> slots)) (concat (slot_hash <$> slots)) (concat (slot_sig <$> slots)) (Z.of_nat n) with
    | None => Ok (replicate n false ++ drop n out)
    | Some res => Ok (imap (fun i s => cuda_answer (bool_decide (is_Some s)) (res !! i)) slots ++ drop n out)
    end.
#[global] Instance cuda_verifier : BatchVerifier CUDA := fun c reqs out res => res = cuda_batch c reqs out.

(** ** Validate *)

Definition make_want (i : Z) (msg : list byte) (priv : Z) (sig : option Signature) : result (Request * bool) :=
  let k := i mod 4 in
  if k =? 0 then Ok (mkReq (Public priv) msg sig, true)
  else if k =? 1 then
    let other := NewPrivateKey (abytes (DoubleSHA256 [z2b i; z2b 0xff])) in
    Ok (mkReq (Public other) msg sig, false)
  else if k =? 2 then
    Ok (mkReq (Public priv) (abytes (DoubleSHA256 [z2b i; z2b 0x01])) sig, false)
  else
    let! ser := match sig with Some s => sig_Serialize s | None => Panic end in
    match Malleate ser with
    | Ok mall =>
        let! hs := ParseSignature mall in
        Ok (mkReq (Public priv) msg (Some hs), IsLowS hs && Crypto.Verify (Public priv) msg hs)
    | Err _ => Ok (mkReq (Public priv) msg sig, true)
    | Panic => Panic
    end.

(** Case [i]; [nf] is the signer's nonce fuel. *)
Definition testVector (nf : nat) (i : Z) : result (Request * bool) :=
  let seed := DoubleSHA256 [z2b i; z2b (Z.shiftr i 8); z2b (Z.shiftr i 16); z2b 0x5a] in
  let priv := NewPrivateKey (abytes seed) in
  let msg := abytes (DoubleSHA256 [z2b i; z2b 0xa5]) in
  match Sign nf priv msg with
  | Ok sig => make_want i msg priv (Some sig)
  | Err _ => make_want i msg priv None
  | Panic => Panic
  end.
Fixpoint testVectors_from (nf : nat) (n : nat) (i : Z) : result (list (Request * bool)) :=
  match n with
  | O => Ok []
  | S n' => let! v := testVector nf i in let! vs := testVectors_from nf n' (i + 1) in Ok (v :: vs)
  end.
Definition testVectors (nf : nat) (n : Z) : result (list (Request * bool)) := testVectors_from nf (Z.to_nat n) 0.

Fixpoint first_mismatch (got want : list bool) (i : Z) : option Z :=
  match got, want with
  | g :: gs, w :: ws => if Bool.eqb g w then first_mismatch gs ws (i + 1) else Some i
  | _, _ => None
  end.
(** The verdict on the answers [got] of a backend for the vectors [vs]. *)
Definition validate_answers (vs : list (Request * bool)) (got : list bool) : result unit :=
  match first_mismatch got (snd <$> vs) 0 with Some _ => Err ErrMismatch | None => Ok tt end.
Definition Validate {V} `{BatchVerifier V} (v : V) (nf : nat) (n : Z) (res : result unit) : Prop :=
  let n := if n <? 8 then 8 else n in
  match testVectors nf n with
  | Ok vs =>
      exists r, VerifyBatch v (fst <$> vs) (replicate (length vs) false) r
        /\ res = match r with Ok got => validate_answers vs got | Err e => Err e | Panic => Panic end
  | Err e => res = Err e
  | Panic => res = Panic
  end.

(** ** The gate *)

(** A result channel is identified by the number of the submission. *)
Record item : Type := mkItem { it_req : Request; it_res : nat }.

(** [g_timer] is the field; [g_armed] and [g_fired] are the runtime's side: timers
    that can still expire, and callbacks started but not yet holding the lock.
    [g_flushing] are batches taken and not yet answered, [g_sent] the results sent
    so far, [g_log] all submissions. *)
Record Gate : Type := mkGate
  { g_maxBatch : Z; g_pending : list item; g_timer : option nat; g_armed : list nat; g_fired : list nat;
    g_next : nat; g_flushing : list (list item); g_sent : list (nat * bool); g_log : list item }.

Definition NewGate (maxBatch : Z) : Gate :=
  mkGate (if maxBatch <? 1 then 1 else maxBatch) [] None [] [] 0 [] [] [].

Definition stop_timer (t : option nat) (armed : list nat) : list nat :=
  match t with Some t => filter (fun x => x <> t) armed | None => armed end.

(** [takeLocked]; the batch joins the ones being flushed. *)
Definition takeLocked (g : Gate) : list item * Gate :=
  (g_pending g,
   mkGate (g_maxBatch g) [] None (stop_timer (g_timer g) (g_armed g)) (g_fired g) (g_next g) (g_flushing g) (g_sent g) (g_log g)).
Definition start_flush (b : list item) (g : Gate) : Gate :=
  mkGate (g_maxBatch g) (g_pending g) (g_timer g) (g_armed g) (g_fired g) (g_next g) (g_flushing g ++ [b]) (g_sent g) (g_log g).

(** The critical section of [Submit] (the caller then flushes a full batch). *)
Definition Submit (req : Request) (g : Gate) : Gate :=
  let it := mkItem req (length (g_log g)) in
  let g := mkGate (g_maxBatch g) (g_pending g ++ [it]) (g_timer g) (g_armed g) (g_fired g) (g_next g) (g_flushing g)
             (g_sent g) (g_log g ++ [it]) in
  if g_maxBatch g <=? Z.of_nat (length (g_pending g)) then
    let '(batch, g) := takeLocked g in start_flush batch g
  else
    match g_timer g with
    | None => mkGate (g_maxBatch g) (g_pending g) (Some (g_next g)) (g_next g :: g_armed g) (g_fired g) (S (g_next g))
                (g_flushing g) (g_sent g) (g_log g)
    | Some _ => g
    end.

(** Timer [t] expires: its callback starts, the field keeps its value. *)
Definition fire (t : nat) (g : Gate) : Gate :=
  mkGate (g_maxBatch g) (g_pending g) (g_timer g) (filter (fun x => x <> t) (g_armed g)) (t :: g_fired g) (g_next g)
    (g_flushing g) (g_sent g) (g_log g).

(** The critical section of [onTimer], run by the callback at position [k]. *)
Definition onTimer (k : nat) (g : Gate) : Gate :=
  let '(batch, g) := takeLocked g in
  let g := mkGate (g_maxBatch g) (g_pending g) (g_timer g) (g_armed g) (delete k (g_fired g)) (g_next g) (g_flushing g)
             (g_sent g) (g_log g) in
  match batch with [] => g | _ => start_flush batch g end.

(** [flush]: the batch at position [k] is verified and answered. *)
Definition flush_sends (batch : list item) (out : list bool) : list (nat * bool) := zip (it_res <$> batch) out.
Definition end_flush (k : nat) (sends : list (nat * bool)) (g : Gate) : Gate :=
  mkGate (g_maxBatch g) (g_pending g) (g_timer g) (g_armed g) (g_fired g) (g_next g) (delete k (g_flushing g))
    (g_sent g ++ sends) (g_log g).

Section gate_steps.
Context {V : Type} `{BatchVerifier V} (v : V).

(** Steps that need no new submission. *)
Inductive gate_internal : Gate -> Gate -> Prop :=
| gi_fire g t : t ∈ g_armed g -> gate_internal g (fire t g)
| gi_timer g k t : g_fired g !! k = Some t -> gate_internal g (onTimer k g)
| gi_flush g k batch out :
    g_flushing g !! k = Some batch ->
    VerifyBatch v (it_req <$> batch) (replicate (length batch) false) (Ok out) ->
    gate_internal g (end_flush k (flush_sends batch out) g).

Inductive gate_step : Gate -> Gate -> Prop :=
| gs_submit g req : gate_step g (Submit req g)
| gs_internal g g' : gate_internal g g' -> gate_step g g'.
End gate_steps.

(** ** Back ends agree with the reference *)

(** The answers of a correct back end: the reference's for the batch, the rest of
    the slice untouched. *)
Definition batch_answers (reqs : list Request) (out : list bool) : list bool :=
  (reference <$> reqs) ++ drop (length reqs) out.

Class LawfulVerifier (V : Type) `{BatchVerifier V} : Prop := mkLawfulVerifier
  { lawful_total : forall v reqs out, (length reqs <= length out)%nat -> exists res, VerifyBatch v reqs out res;
    lawful_agrees : forall v reqs out res, (length reqs <= length out)%nat -> VerifyBatch v reqs out res ->
      res = Ok (batch_answers reqs out) }.

Lemma write_all_lookup reqs s out j :
  write_all reqs out s !! j
  = if decide (j ∈ s) then match reqs !! j with Some r => out !! j ≫= (fun _ => Some (reference r)) | None => out !! j end
    else out !! j.
Proof.
  revert out. induction s as [|i s IH]; intros out.
  { rewrite decide_False by (apply not_elem_of_nil). done. }
  unfold write_all in *. cbn [foldl]. rewrite IH. clear IH.
  assert ((match reqs !! i with Some r => write out i (reference r) | None => out end) !! j
    = if decide (i = j) then match reqs !! j with Some r => out !! j ≫= (fun _ => Some (reference r)) | None => out !! j end
      else out !! j) as E.
  { destruct (decide (i = j)) as [->|Hne].
    - destruct (reqs !! j); [|done]. unfold write. destruct (decide (j < length out)%nat) as [Hl|Hl].
      + rewrite list_lookup_insert_eq by done. by apply lookup_lt_is_Some in Hl as [b ->].
      + rewrite list_insert_ge by lia. by rewrite lookup_ge_None_2 by lia.
    - destruct (reqs !! i); [|done]. unfold write. by rewrite list_lookup_insert_ne. }
  rewrite !E. destruct (decide (i = j)) as [->|Hne].
  - rewrite (decide_True (P := j ∈ j :: s)) by set_solver. destruct (decide (j ∈ s)); [|done].
    destruct (reqs !! j); [|done]. by destruct (out !! j).
  - destruct (decide (j ∈ s)); [rewrite decide_True by set_solver|rewrite decide_False by set_solver]; done.
Qed.

(** The order of the writes does not matter. *)
Lemma write_all_answers reqs out s :
  (length reqs <= length out)%nat -> (forall j, j ∈ s <-> (j < length reqs)%nat) ->
  write_all reqs out s = batch_answers reqs out.
Proof.
  intros Hl Hs. apply list_eq. intros j. rewrite write_all_lookup. unfold batch_answers.
  destruct (decide (j ∈ s)) as [Hj|Hj]; rewrite Hs in Hj.
  - rewrite lookup_app_l by (by rewrite length_fmap). rewrite list_lookup_fmap.
    apply lookup_lt_is_Some in Hj as [r Hr]. rewrite Hr. apply lookup_lt_Some in Hr.
    destruct (lookup_lt_is_Some_2 out j) as [b ->]; [lia|done].
  - rewrite lookup_app_r by (rewrite length_fmap; lia). rewrite length_fmap, lookup_drop. f_equal. lia.
Qed.

#[global] Instance reference_lawful : LawfulVerifier Reference.
Proof.
  split.
  - intros v reqs out _. by eexists.
  - intros v reqs out res Hl ->. unfold reference_batch. destruct (Nat.ltb_spec (length out) (length reqs)); [lia|].
    f_equal. apply write_all_answers; [done|]. intros j. rewrite elem_of_seq. lia.
Qed.

Lemma interleave_elem {A} (ws : list (list A)) s : interleave ws s -> forall x, x ∈ s <-> x ∈ concat ws.
Proof.
  induction 1 as [ws Hf|ws1 x w ws2 s _ IH]; intros y.
  - assert (concat ws = []) as ->; [|done]. induction Hf as [|w ws -> _ IH]; [done|exact IH].
  - rewrite elem_of_cons, IH, !concat_app. cbn [concat]. set_solver.
Qed.

Lemma interleave_nil_cons {A} (ws : list (list A)) s : interleave ws s -> interleave ([] :: ws) s.
Proof.
  induction 1 as [ws Hf|ws1 x w ws2 s _ IH]; [by constructor; constructor|].
  exact (inter_step ([] :: ws1) x w ws2 s IH).
Qed.

(** The sequential schedule is one of them. *)
Lemma interleave_concat {A} (ws : list (list A)) : interleave ws (concat ws).
Proof.
  induction ws as [|w ws IH]; [by constructor|]. cbn [concat].
  induction w as [|x w IHw]; [by apply interleave_nil_cons|]. exact (inter_step [] x w ws _ IHw).
Qed.

(** The goroutines' ranges tile the batch. *)
Lemma cpu_ranges_tile fuel n chunk start :
  0 < chunk -> n - start <= Z.of_nat fuel ->
  concat (range_writes <$> cpu_ranges fuel n chunk start) = Z.to_nat <$> seqZ start (n - start).
Proof.
  intros Hc. revert start. induction fuel as [|fuel IH]; intros start Hf; cbn [cpu_ranges].
  - by rewrite seqZ_nil by lia.
  - destruct (start <? n) eqn:E; zbool; [|by rewrite seqZ_nil by lia].
    rewrite fmap_cons. cbn [concat]. rewrite IH by lia. unfold range_writes. cbn [fst snd].
    destruct (n <? start + chunk) eqn:E2; zbool.
    + rewrite (seqZ_nil (start + chunk)) by lia. by rewrite app_nil_r.
    + replace (n - start) with ((start + chunk - start) + (n - (start + chunk))) by lia.
      rewrite seqZ_app by lia. rewrite fmap_app. do 3 f_equal. lia.
Qed.

Lemma cpu_workers_tile c n : 0 <= n -> concat (cpu_workers c n) = Z.to_nat <$> seqZ 0 n.
Proof.
  intros Hn. unfold cpu_workers. set (w0 := if Workers c <=? 0 then NumCPU c else Workers c).
  destruct ((if n <? w0 then n else w0) <=? 1) eqn:E; [simpl; by rewrite app_nil_r|].
  rewrite cpu_ranges_tile; [by rewrite Z.sub_0_r| |lia]. zbool.
  destruct (n <? w0) eqn:E2; zbool; apply Z.div_str_pos; lia.
Qed.

#[global] Instance cpu_lawful : LawfulVerifier CPU.
Proof.
  split.
  - intros c reqs out Hl. unfold VerifyBatch, cpu_verifier. destruct (Nat.ltb_spec (length out) (length reqs)); [lia|].
    eexists _, _. split; [apply interleave_concat|reflexivity].
  - intros c reqs out res Hl. unfold VerifyBatch, cpu_verifier. destruct (Nat.ltb_spec (length out) (length reqs)); [lia|].
    intros (s & Hs & ->). f_equal. apply write_all_answers; [done|]. intros j.
    rewrite (interleave_elem _ _ Hs), cpu_workers_tile by lia. rewrite list_elem_of_fmap. setoid_rewrite elem_of_seqZ.
    split; [intros (z & -> & Hz); lia|]. intros Hj. exists (Z.of_nat j). lia.
Qed.

(** C21: the parallel back end is the serial one.  However many workers are
    configured and however their goroutines are scheduled, [CPU.VerifyBatch]
    leaves in the output slice exactly what the serial reference leaves, and a
    schedule always exists. *)
Theorem cpu_matches_reference (c : CPU) (reqs : list Request) (out : list bool) (res : result (list bool)) :
  (length reqs <= length out)%nat ->
  VerifyBatch c reqs out res <-> VerifyBatch mkReference reqs out res.
Proof.
  intros Hl. split; intros Hv.
  - apply lawful_agrees in Hv as ->; [|done]. destruct (lawful_total mkReference reqs out Hl) as (r & Hr).
    pose proof (lawful_agrees _ _ _ _ Hl Hr) as ->. exact Hr.
  - apply lawful_agrees in Hv as ->; [|done]. destruct (lawful_total c reqs out Hl) as (r & Hr).
    pose proof (lawful_agrees _ _ _ _ Hl Hr) as ->. exact Hr.
Qed.

(** ** The gate's invariant *)

Ltac gate_cbn :=
  cbn [takeLocked start_flush end_flush fire g_maxBatch g_pending g_timer g_armed g_fired g_next g_flushing g_sent
       g_log fst snd].

Definition answer_of (it : item) : nat * bool := (it_res it, reference (it_req it)).

(** [done] are the items answered so far. *)
Record gate_ok (g : Gate) : Prop := mkGateOk
  { go_batch : 1 <= g_maxBatch g;
    go_size : Z.of_nat (length (g_pending g)) < g_maxBatch g;
    go_ids : it_res <$> g_log g = seq 0 (length (g_log g));
    go_cover : exists answered, g_sent g = answer_of <$> answered
      /\ g_log g ≡ₚ g_pending g ++ concat (g_flushing g) ++ answered;
    go_waits : g_pending g <> [] -> is_Some (g_timer g);
    go_timer : forall t, g_timer g = Some t -> t ∈ g_armed g \/ t ∈ g_fired g }.

Lemma NewGate_ok n : gate_ok (NewGate n).
Proof.
  split; cbn.
  - destruct (n <? 1) eqn:E; zbool; lia.
  - destruct (n <? 1) eqn:E; zbool; lia.
  - done.
  - by exists [].
  - done.
  - done.
Qed.

Lemma Submit_ok req g : gate_ok g -> gate_ok (Submit req g).
Proof.
  intros [H1 H2 H3 (answered & H4 & H5) H6 H7]. unfold Submit. gate_cbn.
  set (it := mkItem req (length (g_log g))).
  assert (it_res <$> (g_log g ++ [it]) = seq 0 (length (g_log g ++ [it]))) as Hids.
  { rewrite fmap_app, length_app. cbn [length]. by rewrite Nat.add_1_r, seq_S, H3. }
  assert (g_log g ++ [it] ≡ₚ (g_pending g ++ [it]) ++ concat (g_flushing g) ++ answered) as Hcov.
  { rewrite H5. solve_Permutation. }
  destruct (g_maxBatch g <=? Z.of_nat (length (g_pending g ++ [it]))) eqn:E; zbool.
  - gate_cbn.
    split; gate_cbn; try done.
    + simpl. lia.
    + exists answered. split; [done|]. rewrite Hcov, concat_app. cbn [concat]. rewrite app_nil_r. solve_Permutation.
  - destruct (g_timer g) as [t|] eqn:Et; split; gate_cbn;
      try done; try (by exists answered).
    + intros t' [= <-]. left. set_solver.
Qed.

Lemma fire_ok t g : gate_ok g -> gate_ok (fire t g).
Proof.
  intros [H1 H2 H3 H4 H6 H7]. split; gate_cbn; try done.
  intros t' Ht'. destruct (H7 t' Ht') as [Ha|Hf]; [|set_solver].
  destruct (decide (t' = t)) as [->|Hne]; [set_solver|]. left. by apply list_elem_of_filter.
Qed.

Lemma onTimer_ok k g : gate_ok g -> gate_ok (onTimer k g).
Proof.
  intros [H1 H2 H3 (answered & H4 & H5) H6 H7]. unfold onTimer, takeLocked.
  destruct (g_pending g) as [|it r] eqn:Ep; split;
    gate_cbn; try done; try (simpl; lia).
  - by exists answered.
  - exists answered. split; [done|]. rewrite H5, concat_app. cbn [concat]. rewrite app_nil_r. solve_Permutation.
Qed.

Lemma flush_answers {V} `{LawfulVerifier V} (v : V) batch out :
  VerifyBatch v (it_req <$> batch) (replicate (length batch) false) (Ok out) ->
  flush_sends batch out = answer_of <$> batch.
Proof.
  intros Hv. apply lawful_agrees in Hv; [|by rewrite length_fmap, length_replicate].
  injection Hv as ->. unfold flush_sends, batch_answers. rewrite drop_ge, app_nil_r
    by (rewrite length_fmap, length_replicate; lia).
  induction batch as [|it r IH]; [done|]. rewrite !fmap_cons. cbn [zip]. by rewrite IH.
Qed.

Lemma end_flush_ok {V} `{LawfulVerifier V} (v : V) k batch out g :
  g_flushing g !! k = Some batch ->
  VerifyBatch v (it_req <$> batch) (replicate (length batch) false) (Ok out) ->
  gate_ok g -> gate_ok (end_flush k (flush_sends batch out) g).
Proof.
  intros Hk Hv [H1 H2 H3 (answered & H4 & H5) H6 H7]. rewrite (flush_answers v batch out Hv).
  split; gate_cbn; try done. exists (answered ++ batch). split; [by rewrite fmap_app, H4|].
  rewrite H5. apply delete_Permutation in Hk.
  assert (concat (g_flushing g) ≡ₚ batch ++ concat (delete k (g_flushing g))) as -> by (by rewrite Hk at 1).
  solve_Permutation.
Qed.

Section gate_theory.
Context {V : Type} `{LawfulVerifier V} (v : V).

Lemma internal_ok g g' : gate_internal v g g' -> gate_ok g -> gate_ok g'.
Proof.
  intros [? t Ht|? k t Hk|? k batch out Hk Hv] Hg; [by apply fire_ok|by apply onTimer_ok|by apply (end_flush_ok v)].
Qed.

Lemma step_ok g g' : gate_step v g g' -> gate_ok g -> gate_ok g'.
Proof. intros [? req|? ? Hi] Hg; [by apply Submit_ok|by eapply internal_ok]. Qed.

Lemma reachable_ok n g : rtc (gate_step v) (NewGate n) g -> gate_ok g.
Proof.
  intros Hr. assert (gate_ok (NewGate n)) as Hn by apply NewGate_ok. revert Hn.
  induction Hr as [|x y z Hs _ IH]; [done|]. intros Hx. by apply IH, (step_ok x).
Qed.

(** Steps left without a new submission. *)
Definition gate_measure (g : Gate) : nat := (3 * length (g_armed g) + 2 * length (g_fired g) + length (g_flushing g))%nat.

Lemma filter_ne_length (t : nat) l : (length (filter (fun x => x <> t) l) <= length l)%nat.
Proof. apply length_filter. Qed.

Lemma filter_ne_lt (t : nat) l : t ∈ l -> (length (filter (fun x => x <> t) l) < length l)%nat.
Proof.
  induction l as [|x r IH]; intros Ht; [by apply not_elem_of_nil in Ht|]. rewrite filter_cons.
  destruct (decide (x <> t)) as [Hne|He]; cbn [length].
  - apply elem_of_cons in Ht as [->|Ht]; [done|]. specialize (IH Ht). lia.
  - pose proof (filter_ne_length t r). lia.
Qed.

Lemma internal_decreases g g' : gate_internal v g g' -> (gate_measure g' < gate_measure g)%nat.
Proof.
  unfold gate_measure. intros [? t Ht|? k t Hk|? k batch out Hk Hv]; gate_cbn.
  - apply filter_ne_lt in Ht. simpl. lia.
  - unfold onTimer. gate_cbn. pose proof (lookup_lt_Some _ _ _ Hk) as Hlt.
    assert (length (stop_timer (g_timer g0) (g_armed g0)) <= length (g_armed g0))%nat.
    { unfold stop_timer. destruct (g_timer g0); [apply filter_ne_length|lia]. }
    assert (S (length (delete k (g_fired g0))) = length (g_fired g0)) by (rewrite length_delete by done; lia).
    destruct (g_pending g0); gate_cbn; rewrite ?length_app; simpl; lia.
  - rewrite length_delete by done. apply lookup_lt_Some in Hk. lia.
Qed.

Lemma internal_bounded n g g' : nsteps (gate_internal v) n g g' -> (n + gate_measure g' <= gate_measure g)%nat.
Proof. induction 1 as [|n x y z Hxy _ IH]; [lia|]. apply internal_decreases in Hxy. lia. Qed.

Lemma internal_log g g' : gate_internal v g g' -> g_log g' = g_log g.
Proof.
  intros [? t Ht|? k t Hk|? k batch out Hk Hv]; [done| |done]. unfold onTimer. gate_cbn. by destruct (g_pending g0).
Qed.

(** No internal step is possible. *)
Definition quiescent (g : Gate) : Prop := forall g', gate_internal v g g' -> False.

Lemma verify_runs batch : exists out,
  VerifyBatch v (it_req <$> batch) (replicate (length batch) false) (Ok out).
Proof.
  assert (length (it_req <$> batch) <= length (replicate (length batch) false))%nat as Hl
    by (by rewrite length_fmap, length_replicate).
  destruct (lawful_total v _ _ Hl) as (r & Hr). pose proof (lawful_agrees _ _ _ _ Hl Hr) as ->. by eexists.
Qed.

Lemma quiescent_idle g : quiescent g -> g_armed g = [] /\ g_fired g = [] /\ g_flushing g = [].
Proof.
  intros Hq. split_and!.
  - destruct (g_armed g) as [|t r] eqn:E; [done|]. destruct (Hq (fire t g)). constructor. rewrite E. set_solver.
  - destruct (g_fired g) as [|t r] eqn:E; [done|]. destruct (Hq (onTimer 0 g)). apply (gi_timer v g 0 t). by rewrite E.
  - destruct (g_flushing g) as [|b r] eqn:E; [done|]. destruct (verify_runs b) as (out & Ho).
    destruct (Hq _ (gi_flush v g 0 b out ltac:(by rewrite E) Ho)).
Qed.

Lemma quiescent_dec g : quiescent g \/ exists g', gate_internal v g g'.
Proof.
  destruct (g_armed g) as [|t r] eqn:E1; [|right; exists (fire t g); constructor; rewrite E1; set_solver].
  destruct (g_fired g) as [|t r] eqn:E2; [|right; exists (onTimer 0 g); apply (gi_timer v g 0 t); by rewrite E2].
  destruct (g_flushing g) as [|b r] eqn:E3.
  - left. intros g' Hs. destruct Hs as [? t Ht|? k t Hk|? k batch out Hk _].
    + rewrite E1 in Ht. by apply not_elem_of_nil in Ht.
    + by rewrite E2 in Hk.
    + by rewrite E3 in Hk.
  - right. destruct (verify_runs b) as (out & Ho). eexists. apply (gi_flush v g 0 b out); [by rewrite E3|exact Ho].
Qed.

Lemma quiesces g : exists g', rtc (gate_internal v) g g' /\ quiescent g'.
Proof.
  remember (gate_measure g) as n eqn:Hn. revert g Hn.
  induction n as [n IH] using lt_wf_ind. intros g ->. destruct (quiescent_dec g) as [Hq|(g1 & Hs)]; [by exists g|].
  destruct (IH _ (internal_decreases _ _ Hs) g1 eq_refl) as (g' & Hr & Hq). exists g'. split; [|done]. by eapply rtc_l.
Qed.

Lemma quiescent_answered g : gate_ok g -> quiescent g -> g_sent g ≡ₚ answer_of <$> g_log g.
Proof.
  intros [H1 H2 H3 (answered & H4 & H5) H6 H7] Hq. destruct (quiescent_idle g Hq) as (Ha & Hf & Hfl).
  assert (g_pending g = []) as Hp.
  { destruct (g_pending g) as [|it r] eqn:Ep; [done|]. destruct H6 as [t Ht]; [done|].
    destruct (H7 t Ht) as [Hx|Hx]; rewrite ?Ha, ?Hf in Hx; by apply not_elem_of_nil in Hx. }
  rewrite H4, H5, Hp, Hfl. done.
Qed.

(** C19: every submission to the gate is answered.  From any reachable state, with
    no new submission, timer expiries, callbacks and flushes can only go on for a
    bounded number of steps, in any order; a state where none is left exists,
    and in every such state each request submitted so far has received exactly
    one result, the reference verifier's for that request. *)
Theorem gate_delivers (maxBatch : Z) (g : Gate) :
  rtc (gate_step v) (NewGate maxBatch) g ->
  (forall n g', nsteps (gate_internal v) n g g' -> (n <= gate_measure g)%nat)
  /\ (exists g', rtc (gate_internal v) g g' /\ quiescent g')
  /\ (forall g', rtc (gate_internal v) g g' -> quiescent g' -> g_sent g' ≡ₚ answer_of <$> g_log g).
Proof.
  intros Hr. apply reachable_ok in Hr. split_and!.
  - intros n g' Hn. apply internal_bounded in Hn. lia.
  - apply quiesces.
  - intros g' Hg Hq. assert (gate_ok g' /\ g_log g' = g_log g) as [Hok <-]; [|by apply quiescent_answered].
    clear Hq. induction Hg as [|x y z Hs _ IH]; [done|]. destruct IH as [Hok Hl]; [by apply (internal_ok x)|].
    split; [done|]. by rewrite Hl, (internal_log x y).
Qed.

(** the gate never mixes answers up.  In every reachable state at most one
    result has been sent for a submission, it is the reference verifier's result
    for that submission's request, and fewer than [maxBatch] requests wait. *)
Theorem gate_answers_own (maxBatch : Z) (g : Gate) :
  rtc (gate_step v) (NewGate maxBatch) g ->
  NoDup (g_sent g).*1
  /\ (forall i b, (i, b) ∈ g_sent g -> exists it, g_log g !! i = Some it /\ b = reference (it_req it))
  /\ Z.of_nat (length (g_pending g)) < g_maxBatch g.
Proof.
  intros Hr. apply reachable_ok in Hr as [H1 H2 H3 (answered & H4 & H5) H6 H7].
  assert (NoDup (it_res <$> g_log g)) as Hnd by (rewrite H3; apply NoDup_seq). split_and!; [| |done].
  - rewrite H4, <- list_fmap_compose. change (fst ∘ answer_of) with it_res.
    rewrite H5, !fmap_app in Hnd. apply NoDup_app in Hnd as (_ & _ & Hnd). by apply NoDup_app in Hnd as (_ & _ & Hnd).
  - intros i b Hin. rewrite H4 in Hin. apply list_elem_of_fmap in Hin as (it & [= -> ->] & Hit).
    assert (it ∈ g_log g) as Hl by (rewrite H5; set_solver). apply list_elem_of_lookup in Hl as (j & Hj).
    exists it. split; [|done]. assert ((it_res <$> g_log g) !! j = Some (it_res it)) as Hs by (by rewrite list_lookup_fmap, Hj).
    rewrite H3 in Hs. apply lookup_seq in Hs as [-> _]. by rewrite Nat.add_0_l.
Qed.
End gate_theory.

(** ** The GPU back end packs the batch *)

Definition slice (w i : nat) (buf : list byte) : list byte := take w (drop (w * i) buf).

(** What the kernel promises for the buffers of a batch: for each slot that holds
    a key on the curve, a hash and a signature of the batch, byte 1 exactly when
    the signature verifies. *)
Definition kernel_verifies (res : list byte) (reqs : list Request) (pub hash sig : list byte) : Prop :=
  forall i r s, reqs !! i = Some r -> rq_Sig r = Some s -> onCurve (rq_Pub r) = true ->
    SerializeCompressed (rq_Pub r) = Ok (slice 33 i pub) -> slice 32 i hash = rq_Hash r ->
    sig_Serialize s = Ok (slice 64 i sig) ->
    (res !! i = Some Byte.x01 <-> Crypto.Verify (rq_Pub r) (rq_Hash r) s = true).

(** Keys on the curve, 32-byte hashes, signatures of two 256-bit integers. *)
Definition packable (r : Request) : Prop :=
  length (rq_Hash r) = 32%nat /\ (rq_Pub r = None \/ onCurve (rq_Pub r) = true)
  /\ (forall s, rq_Sig r = Some s -> sig_fits s).

Lemma slice_concat {A} (f : A -> list byte) w l i x :
  (forall y, y ∈ l -> length (f y) = w) -> l !! i = Some x -> slice w i (concat (f <$> l)) = f x.
Proof.
  unfold slice. revert i. induction l as [|y l IH]; intros i Hw Hi; [done|]. rewrite fmap_cons. cbn [concat].
  pose proof (Hw y ltac:(set_solver)) as Hy. destruct i as [|i].
  - injection Hi as ->. rewrite Nat.mul_0_r, drop_0. by rewrite take_app_length'.
  - replace (w * S i)%nat with (length (f y) + w * i)%nat by lia.
    rewrite <- drop_drop, drop_app_length. apply IH; [|done]. intros z Hz. apply Hw. set_solver.
Qed.

Definition slot_of (r : Request) : option (list byte * list byte * list byte) :=
  match cuda_pack r with Ok s => s | _ => None end.

Lemma on_curve_bytes p : onCurve p = true -> exists b, SerializeCompressed p = Ok b /\ length b = 33%nat.
Proof.
  destruct p as [[x y]|]; [|done]. unfold onCurve. destruct (_ || _) eqn:E; [done|]. intros _. zbool.
  rewrite SerializeCompressed_eq; [|unfold curveP in *; lia]. eexists. split; [reflexivity|].
  cbn [length]. by rewrite length_be_bytes.
Qed.

Lemma cuda_pack_cases r : packable r ->
  (cuda_pack r = Ok None /\ reference r = false)
  \/ exists k s sb, rq_Sig r = Some s /\ IsLowS s = true /\ onCurve (rq_Pub r) = true
       /\ SerializeCompressed (rq_Pub r) = Ok k /\ length k = 33%nat /\ sig_Serialize s = Ok sb /\ length sb = 64%nat
       /\ cuda_pack r = Ok (Some (k, rq_Hash r, sb)).
Proof.
  intros (Hh & Hp & Hs). unfold cuda_pack, reference. destruct (rq_Sig r) as [s|] eqn:Es; [|by left].
  destruct (rq_Pub r) as [p|] eqn:Ep; [|left; split; [done|by destruct (negb _)]].
  destruct Hp as [Hp|Hp]; [done|]. rewrite Hh. cbn [Nat.eqb negb]. rewrite orb_false_r.
  destruct (IsLowS s) eqn:El; cbn [negb]; [right|by left].
  destruct (on_curve_bytes _ Hp) as (k & Ek & Hk). pose proof (sig_Serialize_eq s (Hs s eq_refl)) as Eb.
  assert (length (sig_bytes s) = 64%nat) as Hb by (unfold sig_bytes; by rewrite length_app, !length_be_bytes).
  exists k, s, (sig_bytes s). rewrite Ek, Eb. done.
Qed.

Lemma cuda_slots_ok reqs : Forall packable reqs -> cuda_slots reqs = Ok (slot_of <$> reqs).
Proof.
  induction 1 as [|r l Hr _ IH]; [done|]. cbn [cuda_slots]. rewrite IH, fmap_cons. unfold slot_of at 2.
  by destruct (cuda_pack_cases r Hr) as [[-> _]|(k & s & sb & _ & _ & _ & _ & _ & _ & _ & ->)].
Qed.

Lemma slot_widths r : packable r ->
  length (slot_pub (slot_of r)) = 33%nat /\ length (slot_hash (slot_of r)) = 32%nat /\ length (slot_sig (slot_of r)) = 64%nat.
Proof.
  intros Hr. unfold slot_of.
  destruct (cuda_pack_cases r Hr) as [[-> _]|(k & s & sb & _ & _ & _ & _ & Hk & _ & Hsb & ->)]; [done|].
  cbn [slot_pub slot_hash slot_sig]. destruct Hr as (Hh & _). done.
Qed.

(** the GPU back end answers like the reference, or fails closed.  For a batch
    of packable requests, if the kernel returns an answer per slot and verifies
    what the slots hold, [CUDA.VerifyBatch] leaves the reference's answers; if the
    kernel reports an error, every answer of the batch is false. *)
Theorem cuda_agrees (c : CUDA) (reqs : list Request) (out : list bool) :
  Forall packable reqs -> (length reqs <= length out)%nat -> reqs <> [] ->
  let slots := slot_of <$> reqs in
  let pub := concat (slot_pub <$> slots) in
  let hash := concat (slot_hash <$> slots) in
  let sig := concat (slot_sig <$> slots) in
  match cuda_kernel c pub hash sig (Z.of_nat (length reqs)) with
  | Some res => kernel_verifies res reqs pub hash sig -> cuda_batch c reqs out = Ok (batch_answers reqs out)
  | None => cuda_batch c reqs out = Ok (replicate (length reqs) false ++ drop (length reqs) out)
  end.
Proof.
  intros Hp Hl Hne slots pub hash sig. unfold cuda_batch.
  destruct (Nat.eqb_spec (length reqs) 0) as [Hz|_]; [by destruct reqs|].
  destruct (Nat.ltb_spec (length out) (length reqs)); [lia|]. rewrite cuda_slots_ok by done. cbn [rbind].
  fold slots. fold pub. fold hash. fold sig. destruct (cuda_kernel c pub hash sig _) as [res|]; [|done].
  intros Hk. f_equal. unfold batch_answers. f_equal. apply list_eq. intros i.
  unfold slots at 1. rewrite list_lookup_imap, !list_lookup_fmap. destruct (reqs !! i) as [r|] eqn:Hi; [|done].
  cbn [fmap option_fmap option_map]. f_equal. rewrite Forall_forall in Hp.
  pose proof (Hp r (list_elem_of_lookup_2 _ _ _ Hi)) as Hr.
  assert (forall s, s ∈ slots -> length (slot_pub s) = 33%nat /\ length (slot_hash s) = 32%nat /\ length (slot_sig s) = 64%nat) as Hw.
  { intros s Hs. apply list_elem_of_fmap in Hs as (q & -> & Hq). by apply slot_widths, Hp. }
  assert (slots !! i = Some (slot_of r)) as Hsi by (unfold slots; by rewrite list_lookup_fmap, Hi).
  pose proof (slice_concat slot_pub 33 slots i _ (fun s Hs => proj1 (Hw s Hs)) Hsi) as S1.
  pose proof (slice_concat slot_hash 32 slots i _ (fun s Hs => proj1 (proj2 (Hw s Hs))) Hsi) as S2.
  pose proof (slice_concat slot_sig 64 slots i _ (fun s Hs => proj2 (proj2 (Hw s Hs))) Hsi) as S3.
  fold pub in S1. fold hash in S2. fold sig in S3. revert S1 S2 S3. unfold slot_of.
  destruct (cuda_pack_cases r Hr) as [[-> ->]|(k & s & sb & Es & El & Ec & Ek & _ & Eb & _ & ->)]; [done|].
  cbn [slot_pub slot_hash slot_sig]. intros S1 S2 S3. unfold reference. rewrite Es, El. cbn [negb].
  specialize (Hk i r s Hi Es Ec). rewrite S1, S3 in Hk. specialize (Hk Ek S2 Eb).
  unfold cuda_answer. rewrite bool_decide_true by (by eexists). apply eq_true_iff_eq. rewrite <- Hk. clear.
  destruct (res !! i) as [b|]; [|done]. rewrite Z.eqb_eq. split; [|by intros [= ->]].
  intros Hb. f_equal. by apply b2z_inj.
Qed.

(** ** Validate rejects disagreement *)

Lemma first_mismatch_None got want i : length got = length want ->
  first_mismatch got want i = None <-> got = want.
Proof.
  revert want i. induction got as [|g gs IH]; intros [|w ws] i Hl; try done. cbn [first_mismatch].
  destruct (Bool.eqb g w) eqn:E.
  - apply eqb_prop in E as ->. rewrite IH by (simpl in Hl; lia). split; [by intros ->|by intros [= ->]].
  - split; [done|]. intros [= -> _]. by rewrite eqb_reflx in E.
Qed.

(** what passing [Validate] means.  For a back end that keeps its promise,
    [Validate] succeeds exactly when the reference verifier gives the expected
    verdict on every test vector; a back end passes only if its answers are the
    expected ones, so one wrong answer is reported as [ErrMismatch]. *)
Theorem validate_exact {V} `{LawfulVerifier V} (v : V) (nf : nat) (n : Z) (res : result unit) :
  Validate v nf n res <->
  res = match testVectors nf (if n <? 8 then 8 else n) with
        | Ok vs => if decide (reference <$> vs.*1 = vs.*2) then Ok tt else Err ErrMismatch
        | Err e => Err e
        | Panic => Panic
        end.
Proof.
  unfold Validate. destruct (testVectors nf _) as [vs|e|]; [|done..].
  assert (length vs.*1 <= length (replicate (length vs) false))%nat as Hl by (by rewrite length_fmap, length_replicate).
  assert (batch_answers vs.*1 (replicate (length vs) false) = reference <$> vs.*1) as Hb.
  { unfold batch_answers. rewrite drop_ge, app_nil_r by (rewrite length_fmap, length_replicate; lia). done. }
  assert (validate_answers vs (reference <$> vs.*1)
    = if decide (reference <$> vs.*1 = vs.*2) then Ok tt else Err ErrMismatch) as Ha.
  { unfold validate_answers. pose proof (first_mismatch_None (reference <$> vs.*1) vs.*2 0) as Hm.
    rewrite !length_fmap in Hm. specialize (Hm eq_refl). destruct (first_mismatch _ _ _), (decide _); naive_solver. }
  rewrite <- Ha. split.
  - intros (r & Hr & ->). apply lawful_agrees in Hr as ->; [|done]. by rewrite Hb.
  - intros ->. destruct (lawful_total v _ _ Hl) as (r & Hr). exists r. split; [done|].
    apply lawful_agrees in Hr as ->; [|done]. by rewrite Hb.
Qed.

(** ** Witnesses *)

(** The key 4G and a signature on the abscissa of 5G. *)
Definition demo_key : point :=
  Some (0xe493dbf1c10d80f3581e4904930b1404cc6c13900ee0758474fa94abe8c4cd13,
        0x51ed993ea0d455b75642e2098ea51448d967ae33bfbdfe40cfe97bdc47739922).
Definition demo_x : Z := 0x2f8bde4d1a07209355b4a7250a5c5128e88b84bddc619ab7cba8d569b240efe4.
Definition good_req : Request := mkReq demo_key (be_bytes 32 demo_x) (Some (mkSig demo_x demo_x)).
Definition bad_req : Request := mkReq demo_key (be_bytes 32 demo_x) (Some (mkSig demo_x (curveN - demo_x))).

Lemma good_req_verifies : reference good_req = true /\ reference bad_req = false.
Proof. split; vm_compute; reflexivity. Qed.

Lemma cpu_matches_reference_witness :
  VerifyBatch (mkCPU 2 8) [good_req; bad_req; good_req] [false; false; false] (Ok [true; false; true])
  <-> VerifyBatch mkReference [good_req; bad_req; good_req] [false; false; false] (Ok [true; false; true]).
Proof. apply (cpu_matches_reference (mkCPU 2 8) [good_req; bad_req; good_req] [false; false; false]). simpl. lia. Defined.

(** Two submissions to a gate of batches of two, the first timer expired in between. *)
Definition demo_gate : Gate := Submit bad_req (fire 0 (Submit good_req (NewGate 2))).
Lemma demo_gate_reachable : rtc (gate_step mkReference) (NewGate 2) demo_gate.
Proof.
  eapply rtc_l; [apply (gs_submit _ _ good_req)|]. eapply rtc_l; [|eapply rtc_once, (gs_submit _ _ bad_req)].
  apply gs_internal, gi_fire. cbn. set_solver.
Qed.

Lemma gate_delivers_witness :
  (forall n g', nsteps (gate_internal mkReference) n demo_gate g' -> (n <= gate_measure demo_gate)%nat)
  /\ (exists g', rtc (gate_internal mkReference) demo_gate g' /\ quiescent mkReference g')
  /\ (forall g', rtc (gate_internal mkReference) demo_gate g' -> quiescent mkReference g' ->
        g_sent g' ≡ₚ answer_of <$> g_log demo_gate).
Proof. apply (gate_delivers mkReference 2 demo_gate). exact demo_gate_reachable. Defined.

Lemma gate_answers_own_witness :
  NoDup (g_sent demo_gate).*1
  /\ (forall i b, (i, b) ∈ g_sent demo_gate -> exists it, g_log demo_gate !! i = Some it /\ b = reference (it_req it))
  /\ Z.of_nat (length (g_pending demo_gate)) < g_maxBatch demo_gate.
Proof. apply (gate_answers_own mkReference 2 demo_gate). exact demo_gate_reachable. Defined.

(** A kernel that accepts the one slot of a batch. *)
Definition demo_kernel : CUDA := mkCUDA (fun _ _ _ _ => Some [Byte.x01]).
Lemma good_req_packable : packable good_req.
Proof.
  split_and!; [vm_compute; reflexivity|right; vm_compute; reflexivity|]. intros s [= <-]. split; vm_compute; split; done.
Qed.
Lemma cuda_agrees_witness : cuda_batch demo_kernel [good_req] [false] = Ok (batch_answers [good_req] [false]).
Proof.
  apply (cuda_agrees demo_kernel [good_req] [false]).
  - constructor; [exact good_req_packable|constructor].
  - simpl. lia.
  - discriminate.
  - intros [|i] r s Hr Hs _ _ _ _; [|done]. injection Hr as <-. injection Hs as <-.
    split; [intros _; vm_compute; reflexivity|done].
Defined.
