(* ===== verification/Limiter.v ===== *)
(** * server/limiter: the per-client rate limiter ([src/server/limiter.go])

    Times are nanoseconds of the monotonic clock and tokens are counted in
    billionths, in which the refill [elapsed * rate] is an integer; [float64]
    rounding is not modelled.  Ranging over the map to drop stale buckets does
    not depend on the order, so the clean-up is a filter of the map. *)

From stdpp Require Import base gmap list strings.
From Stdlib Require Import ZArith Lia ZifyNat.
From S2P Require Import Prelude.
Open Scope Z_scope.

(** One token, and one second. *)
Definition nano : Z := 1000000000.
Definition minute : Z := 60 * nano.

Record bucket : Type := mkBucket { tokens : Z; last_ : Z }.
Record limiter : Type := mkLimiter { rate : Z; buckets : gmap string bucket }.

Definition newLimiter (ratePerSec : Z) : limiter := mkLimiter ratePerSec ∅.

Definition max_buckets : nat := 100000.

(** [for k, v := range l.b { if now.Sub(v.last) > time.Minute { delete } }]. *)
Definition cleanup (now : Z) (b : gmap string bucket) : gmap string bucket :=
  filter (fun kv => now - last_ kv.2 <= minute) b.

(** The refill and the withdrawal of one token. *)
Definition take_token (r now : Z) (bk : bucket) : bool * bucket :=
  let elapsed := now - last_ bk in
  let t := tokens bk + elapsed * r in
  let t := if r * nano <? t then r * nano else t in
  if nano <=? t then (true, mkBucket (t - nano) now) else (false, mkBucket t now).

Definition allow (ip : string) (now : Z) (l : limiter) : bool * limiter :=
  let '(bk, b) :=
    match buckets l !! ip with
    | Some bk => (bk, buckets l)
    | None =>
        let bk := mkBucket (rate l * nano) now in
        let b := <[ip := bk]> (buckets l) in
        (bk, if (max_buckets <? size b)%nat then cleanup now b else b)
    end in
  let '(ok, bk') := take_token (rate l) now bk in
  (ok, mkLimiter (rate l) (<[ip := bk']> b)).

(** A run of requests, each a client and a time. *)
Fixpoint allow_all (reqs : list (string * Z)) (l : limiter) : list bool * limiter :=
  match reqs with
  | [] => ([], l)
  | (ip, now) :: rest =>
      let '(ok, l1) := allow ip now l in
      let '(oks, l2) := allow_all rest l1 in
      (ok :: oks, l2)
  end.

(** ** Specification: one bucket per client, full at first *)

Fixpoint bucket_run (r : Z) (bk : option bucket) (times : list Z) : list bool :=
  match times with
  | [] => []
  | now :: rest =>
      let '(ok, bk') := take_token r now (default (mkBucket (r * nano) now) bk) in
      ok :: bucket_run r (Some bk') rest
  end.

Definition times_of (ip : string) (reqs : list (string * Z)) : list Z :=
  snd <$> filter (fun q => q.1 = ip) reqs.
(** The answers a client got. *)
Definition answers_to (ip : string) (reqs : list (string * Z)) (oks : list bool) : list bool :=
  snd <$> filter (fun q : (string * Z) * bool => q.1.1 = ip) (zip reqs oks).

(** Times do not go back. *)
Fixpoint monotone (t : Z) (times : list Z) : Prop :=
  match times with [] => True | x :: r => t <= x /\ monotone x r end.

(** ** Lemmas *)

(** A bucket of the past, with at most a full load of tokens. *)
Definition bucket_ok (r t : Z) (bk : bucket) : Prop := 0 <= tokens bk <= r * nano /\ last_ bk <= t.

Lemma take_token_ok r now bk ok bk' : 0 < r -> bucket_ok r now bk -> take_token r now bk = (ok, bk') -> bucket_ok r now bk'.
Proof.
  unfold bucket_ok, take_token, nano. intros Hr [Ht Hl].
  destruct (r * 1000000000 <? tokens bk + (now - last_ bk) * r) eqn:E1, (1000000000 <=? _) eqn:E2; zbool;
    intros [= <- <-]; cbn [tokens last_]; nia.
Qed.

(** Two bucket states that answer alike from [t] on: the same, or one missing
    and the other full by then. *)
Definition alike (r t : Z) (a b : option bucket) : Prop :=
  a = b \/ (a = None /\ exists bk, b = Some bk /\ 0 <= tokens bk /\ r * nano <= tokens bk + (t - last_ bk) * r).

Lemma alike_take r t now a b : 0 < r -> t <= now -> alike r t a b ->
  take_token r now (default (mkBucket (r * nano) now) a) = take_token r now (default (mkBucket (r * nano) now) b).
Proof.
  intros Hr Ht [->|(-> & bk & -> & H0 & Hf)]; [done|]. cbn [default id from_option]. unfold take_token. cbn [tokens last_].
  replace (now - now) with 0 by lia. rewrite Z.mul_0_l, Z.add_0_r.
  assert ((if r * nano <? tokens bk + (now - last_ bk) * r then r * nano else tokens bk + (now - last_ bk) * r) = r * nano) as ->.
  { destruct (_ <? _) eqn:E; zbool; [done|]. nia. }
  by rewrite Z.ltb_irrefl.
Qed.

Lemma alike_later r t t' a b : 0 < r -> t <= t' -> alike r t a b -> alike r t' a b.
Proof. intros Hr Ht [->|(-> & bk & -> & H0 & Hf)]; [by left|]. right. split; [done|]. exists bk. split_and!; [done..|nia]. Qed.

(** The specification's view of every client: [m] agrees with the limiter. *)
Definition tracks (t : Z) (l : limiter) (m : string -> option bucket) : Prop :=
  0 < rate l /\ map_Forall (fun _ bk => bucket_ok (rate l) t bk) (buckets l)
  /\ forall ip, alike (rate l) t (buckets l !! ip) (m ip).

Lemma cleanup_alike r now b (m : string -> option bucket) ip :
  0 < r -> map_Forall (fun _ bk => bucket_ok r now bk) b -> alike r now (b !! ip) (m ip) -> alike r now (cleanup now b !! ip) (m ip).
Proof.
  intros Hr Hb Ha. unfold cleanup. rewrite map_lookup_filter. destruct (b !! ip) as [bk|] eqn:E; [|exact Ha].
  cbn [mbind option_bind]. destruct (Hb ip bk E) as [H1 H2].
  destruct Ha as [Heq|(Hn & _)]; [|done]. cbn. case_guard as Hg; [left; by rewrite <- Heq|].
  right. split; [done|]. exists bk. split_and!; [done|lia|]. cbn in Hg. unfold minute, nano in *. nia.
Qed.

Lemma allow_tracks ip t now l m : t <= now -> tracks t l m ->
  let '(ok, l') := allow ip now l in
  let '(ok', bk') := take_token (rate l) now (default (mkBucket (rate l * nano) now) (m ip)) in
  ok = ok' /\ rate l' = rate l /\ tracks now l' (fun x => if decide (x = ip) then Some bk' else m x).
Proof.
  intros Ht (Hr & Hb & Ha). unfold allow.
  assert (map_Forall (fun _ bk => bucket_ok (rate l) now bk) (buckets l)) as Hb'.
  { intros k bk Hk. destruct (Hb k bk Hk). split; [done|lia]. }
  assert (forall x, alike (rate l) now (buckets l !! x) (m x)) as Ha' by (intros x; by apply (alike_later _ t)).
  assert (exists bk b, match buckets l !! ip with
     | Some bk => (bk, buckets l)
     | None => (mkBucket (rate l * nano) now,
         if (max_buckets <? size (<[ip := mkBucket (rate l * nano) now]> (buckets l)))%nat
         then cleanup now (<[ip := mkBucket (rate l * nano) now]> (buckets l))
         else <[ip := mkBucket (rate l * nano) now]> (buckets l)) end = (bk, b)
     /\ bk = default (mkBucket (rate l * nano) now) (buckets l !! ip)
     /\ map_Forall (fun _ bk => bucket_ok (rate l) now bk) b
     /\ forall x, x <> ip -> alike (rate l) now (b !! x) (m x)) as (bk & b & -> & -> & Hb1 & Ha1).
  { destruct (buckets l !! ip) as [bk|] eqn:E; [by exists bk, (buckets l)|].
    set (bk := mkBucket (rate l * nano) now). set (b := <[ip := bk]> (buckets l)).
    assert (map_Forall (fun _ bk => bucket_ok (rate l) now bk) b) as Hbb.
    { apply map_Forall_insert_2; [|done]. unfold bucket_ok, bk, nano. cbn. lia. }
    assert (forall x, x <> ip -> alike (rate l) now (b !! x) (m x)) as Hab.
    { intros x Hx. unfold b. rewrite lookup_insert_ne by done. apply Ha'. }
    destruct (max_buckets <? size b)%nat; [|by exists bk, b].
    exists bk, (cleanup now b). split_and!; [done|done| |].
    - intros k v Hk. apply map_lookup_filter_Some in Hk as [Hk _]. by apply (Hbb k).
    - intros x Hx. apply cleanup_alike; [done|done|by apply Hab]. }
  rewrite (alike_take (rate l) now now _ (m ip)) by (try done; lia).
  destruct (take_token _ _ _) as [ok bk'] eqn:Et. split_and!; [done..|]. split_and!; cbn [rate buckets]; [done| |].
  - apply map_Forall_insert_2; [|done]. rewrite <- (alike_take (rate l) now now (buckets l !! ip)) in Et by (try done; lia).
    eapply take_token_ok; [done| |exact Et]. destruct (buckets l !! ip) as [bk|] eqn:E; cbn [default id from_option].
    + by apply (Hb' ip).
    + unfold bucket_ok, nano. cbn. lia.
  - intros x. destruct (decide (x = ip)) as [->|Hx]; [left; apply lookup_insert_eq|].
    rewrite lookup_insert_ne by done. by apply Ha1.
Qed.

Lemma allow_all_length reqs l : length (allow_all reqs l).1 = length reqs.
Proof.
  revert l. induction reqs as [|[ip now] r IH]; intros l; [done|]. cbn [allow_all].
  destruct (allow ip now l) as [ok l1]. specialize (IH l1). destruct (allow_all r l1) as [oks l2]. simpl in *. by rewrite IH.
Qed.

Lemma allow_all_tracks ip reqs t l m :
  tracks t l m -> monotone t (snd <$> reqs) ->
  answers_to ip reqs (allow_all reqs l).1 = bucket_run (rate l) (m ip) (times_of ip reqs).
Proof.
  revert t l m. induction reqs as [|[ip' now] rest IH]; intros t l m Htr Hm; [done|].
  rewrite fmap_cons in Hm. destruct Hm as [Ht Hm]. simpl in Ht, Hm. cbn [allow_all].
  pose proof (allow_tracks ip' t now l m Ht Htr) as Hal. destruct (allow ip' now l) as [ok l1].
  destruct (take_token _ _ _) as [ok' bk'] eqn:Et. destruct Hal as (-> & Hrate & Htr1).
  specialize (IH now l1 _ Htr1 Hm). destruct (allow_all rest l1) as [oks l2] eqn:Ea.
  cbn [fst] in *. unfold answers_to, times_of in *. cbn [zip]. rewrite !filter_cons. cbn [fst snd].
  rewrite Hrate in IH. destruct (decide (ip' = ip)) as [->|Hne].
  - rewrite !fmap_cons. cbn [snd bucket_run]. rewrite Et. rewrite decide_True in IH by done. by rewrite IH.
  - rewrite decide_False in IH by done. exact IH.
Qed.

Lemma new_tracks r t : 0 < r -> tracks t (newLimiter r) (fun _ => None).
Proof. intros Hr. split_and!; [done|apply map_Forall_empty|]. intros ip. left. apply lookup_empty. Qed.

(** clients are limited independently.  While the clock does not go back, the
    answers a client gets from the limiter are those of a token bucket of its
    own, full at its first request: other clients' requests, and the clean-up of
    stale buckets under an address spray, change nothing. *)
Theorem limiter_isolated (r t : Z) (reqs : list (string * Z)) (ip : string) :
  0 < r -> monotone t (snd <$> reqs) ->
  answers_to ip reqs (allow_all reqs (newLimiter r)).1 = bucket_run r None (times_of ip reqs).
Proof. intros Hr Hm. exact (allow_all_tracks ip reqs t (newLimiter r) (fun _ => None) (new_tracks r t Hr) Hm). Qed.

Definition granted (oks : list bool) : Z := Z.of_nat (length (filter (fun b => b = true) oks)).

Lemma granted_cons b oks : granted (b :: oks) = (if b then 1 else 0) + granted oks.
Proof. unfold granted. rewrite filter_cons. destruct b; [rewrite decide_True by done|rewrite decide_False by done]; simpl; lia. Qed.

Lemma bucket_run_bound r bk times t1 :
  0 < r -> bucket_ok r (last_ bk) bk -> monotone (last_ bk) times -> last_ bk <= t1 -> Forall (fun x => x <= t1) times ->
  nano * granted (bucket_run r (Some bk) times) <= tokens bk + (t1 - last_ bk) * r.
Proof.
  intros Hr. revert bk. induction times as [|now rest IH]; intros bk Hb Hm Hl Hf.
  - unfold granted, bucket_ok in *. simpl. nia.
  - destruct Hm as [Hn Hm]. inversion Hf as [|? ? Hn1 Hf']; subst. cbn [bucket_run default from_option id].
    destruct (take_token r now bk) as [ok bk'] eqn:Et. rewrite granted_cons.
    assert (bucket_ok r now bk) as Hb1 by (destruct Hb; split; [done|lia]).
    pose proof (take_token_ok r now bk ok bk' Hr Hb1 Et) as Hb2.
    assert (last_ bk' = now /\ tokens bk' + (if ok then nano else 0) <= tokens bk + (now - last_ bk) * r) as [Hl' Ht'].
    { unfold take_token in Et. destruct (r * nano <? _) eqn:E1, (nano <=? _) eqn:E2; zbool; injection Et as <- <-; cbn; lia. }
    rewrite <- Hl' in Hm, Hb2. specialize (IH bk' Hb2 Hm ltac:(lia) Hf'). unfold nano in *. destruct ok; nia.
Qed.

Lemma monotone_filter (ip : string) t reqs : monotone t (snd <$> reqs) -> monotone t (times_of ip reqs).
Proof.
  unfold times_of. revert t. induction reqs as [|[k now] r IH]; intros t Hm; [done|]. rewrite fmap_cons in Hm.
  destruct Hm as [Ht Hm]. simpl in Ht, Hm. rewrite filter_cons. cbn [fst]. destruct (decide (k = ip)).
  - rewrite fmap_cons. split; [done|by apply IH].
  - apply IH. clear IH. destruct r as [|[k2 n2] r]; [done|]. rewrite fmap_cons in *. simpl in *. split; [lia|tauto].
Qed.

Lemma allow_all_state reqs t l : tracks t l (fun x => buckets l !! x) -> monotone t (snd <$> reqs) ->
  exists t', tracks t' (allow_all reqs l).2 (fun x => buckets (allow_all reqs l).2 !! x) /\ rate (allow_all reqs l).2 = rate l
    /\ forall x, monotone t (snd <$> reqs ++ x) -> monotone t' (snd <$> x).
Proof.
  revert t l. induction reqs as [|[ip now] rest IH]; intros t l Htr Hm; [by exists t|].
  rewrite fmap_cons in Hm. destruct Hm as [Ht Hm]. simpl in Ht, Hm. cbn [allow_all].
  pose proof (allow_tracks ip t now l _ Ht Htr) as Hal. destruct (allow ip now l) as [ok l1].
  destruct (take_token _ _ _) as [ok' bk']. destruct Hal as (_ & Hrate & Htr1).
  assert (tracks now l1 (fun x => buckets l1 !! x)) as Htr2 by (destruct Htr1 as (? & ? & ?); split_and!; [done..|]; intros x; by left).
  destruct (IH now l1 Htr2 Hm) as (t' & H1 & H2 & H3). destruct (allow_all rest l1) as [oks l2]. cbn [snd] in *.
  exists t'. split_and!; [done|congruence|]. intros x Hx. rewrite <- app_comm_cons, fmap_cons in Hx. destruct Hx as [_ Hx]. by apply H3.
Qed.


(** ** Witnesses *)

Definition demo_reqs : list (string * Z) :=
  [("a", 5); ("b", 6); ("a", 7); ("a", 8); ("a", 600000000); ("b", 700000000)]%string.

Lemma limiter_isolated_witness :
  answers_to "a" demo_reqs (allow_all demo_reqs (newLimiter 2)).1 = [true; true; false; true].
Proof.
  rewrite (limiter_isolated 2 0 demo_reqs "a"); [vm_compute; reflexivity|lia|cbn; lia].
Defined.

