(* ===== verification/Server.v ===== *)
(** * server: the HTTP front end ([src/server/server.go],
      [src/server/payment_handlers.go])

    Construction, the ingest loop one turn at a time, and every handler as a
    state-changing function from the parsed request to a response.  Parsing the
    HTTP message and its JSON body is the standard library's: a request holds the
    query parameters, headers and the decoded body.  A panic inside a handler is
    turned into a 500 by [wrap].  The theorems show that with payment required
    nothing is answered without an accepted commitment, that a signed answer says
    what the response says, how ingest advances the tip, and where the front end
    departs from its comments: a paid path query that finds nothing, a block
    that fails to ingest, a store error, and the payout key without a seed. *)

From stdpp Require Import base gmap list strings pretty.
From Stdlib Require Import ZArith Lia ZifyNat.
From Stdlib Require Strings.Byte.
From S2P Require Import Prelude Sha256 Commitment Channel StoreSpec MemStore ProofPath Prune Teranode Ingest Reorg Pipeline Api Crypto Paid Attest Hex Wire Limiter.
Open Scope go_scope.

(** ** Requests and responses *)

Record openReq : Type := mkopenReq
  { oq_FundingTxID : gostring; oq_Vout : Z; oq_Deposit : Z; oq_ClientPub : gostring; oq_Flat : bool;
    oq_FlatPrice : Z; oq_PerType : list Z; oq_SettleFee : Z; oq_FeeMode : Z; oq_Fee : Z; oq_N : Z;
    oq_RefundLockTime : Z; oq_SettleBefore : Z }.
Record paidReq : Type := mkpaidReq
  { pq_Channel : gostring; pq_Type : Z; pq_TxID : gostring; pq_Vout : Z; pq_CumAmount : Z; pq_Sig : gostring }.

(** [hq_Open] and [hq_Paid] are the body decoded as that type; [hq_IP] is
    [clientIP]. *)
Record HttpReq : Type := mkHttpReq
  { hq_Method : string; hq_IP : string; hq_Query : string -> gostring; hq_Auth : string;
    hq_Open : option openReq; hq_Paid : option paidReq }.

Inductive HttpResp : Type :=
| HttpError (status : Z) (msg : string)
| RespSeen (r : SeenResponse)
| RespMined (r : MinedResponse)
| RespPath (r : MerklePathResponse)
| RespUTXO (r : UTXOResponse)
| RespOpen (channelId : gostring)
| RespQuote (cumulative : Z)
| RespCounters (rows : list (string * Z)) (operatorPub : gostring)
| RespText (s : string).

Definition StatusBadRequest : Z := 400.
Definition StatusUnauthorized : Z := 401.
Definition StatusPaymentRequired : Z := 402.
Definition StatusNotFound : Z := 404.
Definition StatusMethodNotAllowed : Z := 405.
Definition StatusTooMany : Z := 429.
Definition StatusInternal : Z := 500.
Definition StatusUnavailable : Z := 503.

(** ** Parsing parameters *)

Definition is_digit (b : byte) : bool := (0x30 <=? b2z b) && (b2z b <=? 0x39).
Definition is_blank (b : byte) : bool := (b2z b =? 0x20) || (b2z b =? 0x09) || (b2z b =? 0x0b) || (b2z b =? 0x0c).
Fixpoint drop_while (p : byte -> bool) (s : gostring) : gostring :=
  match s with b :: r => if p b then drop_while p r else s | [] => [] end.
Fixpoint take_while (p : byte -> bool) (s : gostring) : gostring :=
  match s with b :: r => if p b then b :: take_while p r else [] | [] => [] end.
Definition decimal (s : gostring) : Z := foldl (fun n b => n * 10 + (b2z b - 0x30)) 0 s.

(** [fmt.Sscanf(s, "%d", &vout)] into a [uint32] that starts at zero and whose
    error is dropped (ASCII input): blanks, then a run of digits. *)
Definition scan_vout (s : gostring) : Z :=
  match take_while is_digit (drop_while is_blank s) with
  | [] => 0
  | d => if decimal d <? 2 ^ 32 then decimal d else 0
  end.

(** [strconv.Atoi]. *)
Definition Atoi (s : gostring) : option Z :=
  let '(neg, d) := match s with
                   | b :: r => if b2z b =? 0x2d then (true, r) else if b2z b =? 0x2b then (false, r) else (false, s)
                   | [] => (false, s)
                   end in
  if (length d =? 0)%nat || negb (forallb is_digit d) then None
  else
    let n := if neg : bool then - decimal d else decimal d in
    if (- 2 ^ 63 <=? n) && (n <? 2 ^ 63) then Some n else None.

(** ** The server *)

Record SConfig : Type := mkSConfig
  { sc_ShardK : Z; sc_ShardID : Z; sc_Prune : Prune.Policy; sc_Abuse : Paid.Policy; sc_PaymentRequired : bool;
    sc_OperatorSeed : list byte; sc_AdminToken : string; sc_RatePerSec : Z; sc_MaxMemMB : Z }.
Record metrics : Type := mkMetrics
  { mt_requests : Z; mt_errors : Z; mt_served : Z; mt_rejected : Z; mt_blocks : Z }.

Section server.
Context {S : Type} `{Store S}.
(** [store.Stats()], and the fuel of the signer's nonce search. *)
Context (stats : S -> Stats) (nf : nat).

Record Server : Type := mkServer
  { sv_cfg : SConfig; sv_store : S; sv_pruner : Pruner; sv_ing : Ingestor; sv_paid : PaidServer;
    sv_identity : option Identity; sv_payKey : Z; sv_tip : Z; sv_ready : bool; sv_limiter : option limiter;
    sv_met : metrics }.

Definition paykey_tag : list byte := String.list_byte_of_string "memserve-paykey-v1".

Definition server_New (cfg : SConfig) (st : S) : Server :=
  mkServer cfg st (NewPruner (sc_Prune cfg)) (mkIngestor (sc_ShardK cfg) (sc_ShardID cfg) false true)
    (NewWithPolicy (sc_Abuse cfg))
    (if (0 <? length (sc_OperatorSeed cfg))%nat then Some (NewIdentity (sc_OperatorSeed cfg)) else None)
    (NewPrivateKey (abytes (DoubleSHA256 (paykey_tag ++ sc_OperatorSeed cfg))))
    0 false
    (if 0 <? sc_RatePerSec cfg then Some (newLimiter (sc_RatePerSec cfg)) else None)
    (mkMetrics 0 0 0 0 0).

Definition OperatorPubHex (s : Server) : result gostring :=
  match sv_identity s with
  | None => Ok []
  | Some id => let! k := SerializeCompressed (id_Public id) in Ok (hex_encode k)
  end.

(** Calls on the parts of the state. *)
Definition with_store {A} (m : M S A) : M Server A := fun s =>
  let '(r, st) := m (sv_store s) in
  (r, mkServer (sv_cfg s) st (sv_pruner s) (sv_ing s) (sv_paid s) (sv_identity s) (sv_payKey s) (sv_tip s) (sv_ready s)
        (sv_limiter s) (sv_met s)).
Definition with_paid {A} (m : M (S * PaidServer) A) : M Server A := fun s =>
  let '(r, (st, p)) := m (sv_store s, sv_paid s) in
  (r, mkServer (sv_cfg s) st (sv_pruner s) (sv_ing s) p (sv_identity s) (sv_payKey s) (sv_tip s) (sv_ready s)
        (sv_limiter s) (sv_met s)).
Definition with_ingest {A} (m : M (S * Pruner) A) : M Server A := fun s =>
  let '(r, (st, pr)) := m (sv_store s, sv_pruner s) in
  (r, mkServer (sv_cfg s) st pr (sv_ing s) (sv_paid s) (sv_identity s) (sv_payKey s) (sv_tip s) (sv_ready s)
        (sv_limiter s) (sv_met s)).
Definition set_met (m : metrics) (s : Server) : Server :=
  mkServer (sv_cfg s) (sv_store s) (sv_pruner s) (sv_ing s) (sv_paid s) (sv_identity s) (sv_payKey s) (sv_tip s)
    (sv_ready s) (sv_limiter s) m.
Definition set_head (tip : Z) (ready : bool) (s : Server) : Server :=
  mkServer (sv_cfg s) (sv_store s) (sv_pruner s) (sv_ing s) (sv_paid s) (sv_identity s) (sv_payKey s) tip ready
    (sv_limiter s) (sv_met s).
Definition set_limiter (l : option limiter) (s : Server) : Server :=
  mkServer (sv_cfg s) (sv_store s) (sv_pruner s) (sv_ing s) (sv_paid s) (sv_identity s) (sv_payKey s) (sv_tip s)
    (sv_ready s) l (sv_met s).

Definition met_add (d : metrics) : M Server unit := fun s =>
  let m := sv_met s in
  (Ok tt, set_met (mkMetrics (u64 (mt_requests m + mt_requests d)) (u64 (mt_errors m + mt_errors d))
     (u64 (mt_served m + mt_served d)) (u64 (mt_rejected m + mt_rejected d)) (u64 (mt_blocks m + mt_blocks d))) s).
Definition count_request : metrics := mkMetrics 1 0 0 0 0.
Definition count_error : metrics := mkMetrics 0 1 0 0 0.
Definition count_served : metrics := mkMetrics 0 0 1 0 0.
Definition count_rejected : metrics := mkMetrics 0 0 0 1 0.
Definition count_block : metrics := mkMetrics 0 0 0 0 1.

(** ** Ingest *)

Section ingesting.
Context {T : Type} `{Source T}.

(** A block that ingested: the tip and the block counter move. *)
Definition advance (b : Block) : M (Server * T) unit :=
  on1 (fun s => (Ok tt, set_head (b_Height b) (sv_ready s) s)) ;; on1 (met_add count_block).
Definition set_ready : M (Server * T) unit := on1 (fun s => (Ok tt, set_head (sv_tip s) true s)).

Fixpoint IngestOnce (fuel : nat) : M (Server * T) unit :=
  match fuel with
  | O => mpanic
  | Datatypes.S fuel' =>
      nb <- on2 Next ;;
      match nb with
      | None => set_ready
      | Some b =>
          s <- on1 mget ;;
          r <- on1 (with_ingest (IngestBlock (sv_ing s) b)) ;;
          match r with
          | (_, Some e) => merr e
          | (_, None) => advance b ;; IngestOnce fuel'
          end
      end
  end.

(** One turn of [ingestLoop]; [held] is the memory in use, in MB. *)
Definition ingest_turn (held : Z) : M (Server * T) unit :=
  s <- on1 mget ;;
  if (0 <? sc_MaxMemMB (sv_cfg s)) && (sc_MaxMemMB (sv_cfg s) <=? held) then set_ready
  else
    nb <- mtry (on2 Next) ;;
    match nb with
    | Panic => mpanic
    | Err _ => mret tt
    | Ok None => set_ready
    | Ok (Some b) =>
        r <- on1 (with_ingest (IngestBlock (sv_ing s) b)) ;;
        match r with
        | (_, Some e) => mret tt
        | (_, None) => advance b ;; set_ready
        end
    end.
End ingesting.

(** ** Answers *)

(** A signed statement, when the server has an identity.  The error of [Attest]
    is dropped and the empty attestation then fails to encode. *)
Definition attested (s : Server) (st : Statement) : result (option AttestationJSON) :=
  match sv_identity s with
  | None => Ok None
  | Some id =>
      match Attest nf id st with
      | Ok att => let! j := EncodeAttestation att in Ok (Some j)
      | _ => Panic
      end
  end.

Definition seenResp (txid : Hash) (res : SeenResult) (s : Server) : result SeenResponse :=
  let! att := attested s (mkStatement StmtSeen txid 0 (sr_Seen res) 0 zeroHash (sv_tip s)) in
  Ok (mkSeenResponse (sr_Seen res) (sr_SeenTime res) (sv_tip s) att).
Definition minedResp (txid : Hash) (res : MinedResult) (s : Server) : result MinedResponse :=
  let! att := attested s (mkStatement StmtMined txid 0 (mr_Mined res) (mr_Height res) (mr_BlockHash res) (sv_tip s)) in
  Ok (mkMinedResponse (mr_Mined res) (if mr_Mined res then hexHash (mr_BlockHash res) else []) (mr_Height res)
        (mr_BlockTime res) (sv_tip s) att).
Definition utxoResp (op : Outpoint) (res : UTXOResult) (s : Server) : result UTXOResponse :=
  let! att := attested s (mkStatement StmtUTXO (op_TxID op) (op_Vout op) (bool_decide (ur_Status res = UTXOUnspent))
                            (ur_SpentHeight res) zeroHash (sv_tip s)) in
  Ok (mkUTXOResponse (String.list_byte_of_string (status_String (ur_Status res))) (ur_Value res) (ur_SpentHeight res)
        (sv_tip s) att).

(** [res, _ := call]: a dropped error leaves the zero value. *)
Definition drop_error {A} (zero : A) (m : M Server A) : M Server A :=
  r <- mtry m ;; mlift (match r with Ok a => Ok a | Err _ => Ok zero | Panic => Panic end).
Definition reply {A} (f : A -> HttpResp) (mk : Server -> result A) : M Server HttpResp :=
  s <- mget ;; a <- mlift (mk s) ;; mret (f a).

(** ** The free queries *)

Definition free_query (req : HttpReq) (h : Hash -> M Server HttpResp) : M Server HttpResp :=
  s <- mget ;;
  if sc_PaymentRequired (sv_cfg s) then mret (HttpError StatusPaymentRequired "payment required: use /v1/paid/query")
  else match parseHash (hq_Query req "txid") with
       | None => mret (HttpError StatusBadRequest "bad txid")
       | Some txid => h txid
       end.

Definition handleSeen (req : HttpReq) : M Server HttpResp :=
  free_query req (fun txid =>
    res <- drop_error (mkSeenResult false 0) (with_store (Seen txid)) ;;
    met_add count_served ;;
    reply RespSeen (seenResp txid res)).
Definition handleMined (req : HttpReq) : M Server HttpResp :=
  free_query req (fun txid =>
    res <- drop_error (mkMinedResult false zeroHash 0 0) (with_store (Mined txid)) ;;
    met_add count_served ;;
    reply RespMined (minedResp txid res)).
Definition handleMerklePath (req : HttpReq) : M Server HttpResp :=
  free_query req (fun txid =>
    r <- mtry (with_store (api_MerklePath txid)) ;;
    match r with
    | Ok p => met_add count_served ;; mret (RespPath (mkMerklePathResponse (EncodeProof p)))
    | Err e => mret (HttpError StatusNotFound e)
    | Panic => mpanic
    end).
Definition handleUTXO (req : HttpReq) : M Server HttpResp :=
  free_query req (fun txid =>
    let op := mkOutpoint txid (scan_vout (hq_Query req "vout")) in
    res <- drop_error (mkUTXOResult UTXOUnknown 0 zeroHash 0) (with_store (api_UTXO op)) ;;
    met_add count_served ;;
    reply RespUTXO (utxoResp op res)).

(** ** Channels and paid queries *)

Definition rejected (e : error) (status : Z) : M Server HttpResp :=
  met_add count_rejected ;; mret (HttpError status e).

Definition open_config (s : Server) (q : openReq) (fund : Hash) (pub : point) : result Config :=
  let! cp := SerializeCompressed pub in
  let! sp := SerializeCompressed (Public (sv_payKey s)) in
  Ok (mkConfig (mkParams (DeriveChannelID fund (oq_Vout q)) fund (oq_Vout q) cp sp (oq_Deposit q) (oq_Fee q))
        (oq_Deposit q) (Some pub)
        (mkPricing (oq_Flat q) (oq_FlatPrice q) (oq_PerType q) (oq_SettleFee q) (oq_FeeMode q))
        (oq_N q) (oq_RefundLockTime q) (oq_SettleBefore q)).

Definition handleChannelOpen (req : HttpReq) : M Server HttpResp :=
  if negb (String.eqb (hq_Method req) "POST") then mret (HttpError StatusMethodNotAllowed "POST only")
  else match hq_Open req with
  | None => mret (HttpError StatusBadRequest "bad json")
  | Some q =>
  match parseHash (oq_FundingTxID q) with
  | None => mret (HttpError StatusBadRequest "bad fundingTxid")
  | Some fund =>
  match hex_decode (oq_ClientPub q) with
  | Ok pubBytes =>
      match ParseCompressed pubBytes with
      | Ok pub =>
          s <- mget ;;
          cfg <- mlift (open_config s q fund pub) ;;
          r <- mtry (with_paid (on2 (OpenChannel cfg))) ;;
          match r with
          | Ok _ => mret (RespOpen (hexHash (p_ChannelID (cfg_Params cfg))))
          | Err e => rejected e StatusBadRequest
          | Panic => mpanic
          end
      | Err e => mret (HttpError StatusBadRequest ("bad clientPub: " +:+ e))
      | Panic => mpanic
      end
  | _ => mret (HttpError StatusBadRequest "bad clientPub")
  end end end.

Definition handleQuote (req : HttpReq) : M Server HttpResp :=
  match parseHash (hq_Query req "channel") with
  | None => mret (HttpError StatusBadRequest "bad channel")
  | Some ch =>
      let bad := mret (HttpError StatusBadRequest "bad type (0=seen,1=mined,2=merklepath,3=utxo)") in
      match Atoi (hq_Query req "type") with
      | None => bad
      | Some qt =>
          if (qt <? 0) || (3 <? qt) then bad
          else
            s <- mget ;;
            match paid_Quote ch qt (sv_paid s) with
            | Ok cum => mret (RespQuote cum)
            | Err e => mret (HttpError StatusNotFound e)
            | Panic => mpanic
            end
      end
  end.

(** [payErr], then the answer. *)
Definition paid_answer {A} (m : M (S * PaidServer) A) (answer : A -> M Server HttpResp) : M Server HttpResp :=
  r <- mtry (with_paid m) ;;
  match r with
  | Ok a => met_add count_served ;; answer a
  | Err e => rejected e StatusPaymentRequired
  | Panic => mpanic
  end.

(** The switch on the query type. *)
Definition paid_dispatch (ch : Hash) (commit : Commitment) (typ : Z) (txid : Hash) (vout : Z) : M Server HttpResp :=
  if typ =? 0 then paid_answer (paid_Seen ch (Some commit) txid) (fun res => reply RespSeen (seenResp txid res))
  else if typ =? 1 then paid_answer (paid_Mined ch (Some commit) txid) (fun res => reply RespMined (minedResp txid res))
  else if typ =? 2 then paid_answer (paid_MerklePath ch (Some commit) txid)
                          (fun p => mret (RespPath (mkMerklePathResponse (EncodeProof p))))
  else if typ =? 3 then
    let op := mkOutpoint txid vout in
    paid_answer (paid_UTXO ch (Some commit) op) (fun res => reply RespUTXO (utxoResp op res))
  else mret (HttpError StatusBadRequest "bad type").

Definition handlePaidQuery (req : HttpReq) : M Server HttpResp :=
  if negb (String.eqb (hq_Method req) "POST") then mret (HttpError StatusMethodNotAllowed "POST only")
  else match hq_Paid req with
  | None => mret (HttpError StatusBadRequest "bad json")
  | Some q =>
  match parseHash (pq_Channel q) with
  | None => mret (HttpError StatusBadRequest "bad channel")
  | Some ch =>
  match parseHash (pq_TxID q) with
  | None => mret (HttpError StatusBadRequest "bad txid")
  | Some txid =>
  match hex_decode (pq_Sig q) with
  | Ok sigBytes =>
      match ParseSignature sigBytes with
      | Ok sig => paid_dispatch ch (mkCommitment (pq_CumAmount q) (Some sig)) (pq_Type q) txid (pq_Vout q)
      | Err e => mret (HttpError StatusBadRequest ("bad sig: " +:+ e))
      | Panic => mpanic
      end
  | _ => mret (HttpError StatusBadRequest "bad sig")
  end end end end.

(** ** Probes and administration *)

Definition handleHealth (req : HttpReq) : M Server HttpResp := mret (RespText "ok").
Definition handleReady (req : HttpReq) : M Server HttpResp :=
  s <- mget ;; mret (if sv_ready s then RespText "ready" else HttpError StatusUnavailable "not ready").

(** [heap] is [HeapAlloc]. *)
Definition handleMetrics (heap : Z) (req : HttpReq) : M Server HttpResp :=
  s <- mget ;;
  let st := stats (sv_store s) in
  let m := sv_met s in
  mret (RespCounters
    [("memserve_requests_total", mt_requests m); ("memserve_errors_total", mt_errors m);
     ("memserve_served_total", mt_served m); ("memserve_rejected_total", mt_rejected m);
     ("memserve_blocks_ingested", mt_blocks m); ("memserve_heap_bytes", heap);
     ("memserve_max_mem_mb", sc_MaxMemMB (sv_cfg s)); ("memserve_tip_height", sv_tip s);
     ("memserve_txindex", st_TxIndex st); ("memserve_utxo_live", st_UTXOLive st);
     ("memserve_utxo_spent_retained", st_UTXOSpent st); ("memserve_channels", (Counts (sv_paid s)).1);
     ("memserve_channels_banned", (Counts (sv_paid s)).2); ("memserve_revenue_satoshis", Revenue (sv_paid s))]%string []).

Definition handleAdminStats (req : HttpReq) : M Server HttpResp :=
  s <- mget ;;
  if String.eqb (sc_AdminToken (sv_cfg s)) "" || negb (String.eqb (hq_Auth req) ("Bearer " +:+ sc_AdminToken (sv_cfg s)))
  then mret (HttpError StatusUnauthorized "unauthorized")
  else
    let st := stats (sv_store s) in
    op <- mlift (OperatorPubHex s) ;;
    mret (RespCounters
      [("tip", sv_tip s); ("ready", Z.b2z (sv_ready s)); ("pruneD", D (sc_Prune (sv_cfg s)));
       ("reorgHorizon", ReorgHorizon (sc_Prune (sv_cfg s))); ("txindex", st_TxIndex st); ("utxoLive", st_UTXOLive st);
       ("utxoSpentRetained", st_UTXOSpent st); ("channels", (Counts (sv_paid s)).1);
       ("channelsBanned", (Counts (sv_paid s)).2); ("revenueSatoshis", Revenue (sv_paid s))]%string op).

(** ** Middleware and routes *)

(** [recover]: a panic is counted and answered with a 500. *)
Definition recovered (h : M Server HttpResp) : M Server HttpResp := fun s =>
  match h s with
  | (Ok r, s') => (Ok r, s')
  | (Err e, s') => (Err e, s')
  | (Panic, s') => ((met_add count_error ;; mret (HttpError StatusInternal "internal error")) s')
  end.

Definition rate_allows (ip : string) (now : Z) : M Server bool := fun s =>
  match sv_limiter s with
  | None => (Ok true, s)
  | Some l => let '(ok, l') := allow ip now l in (Ok ok, set_limiter (Some l') s)
  end.

Definition server_wrap (now : Z) (h : HttpReq -> M Server HttpResp) (req : HttpReq) : M Server HttpResp :=
  met_add count_request ;;
  recovered (
    ok <- rate_allows (hq_IP req) now ;;
    if negb ok then mret (HttpError StatusTooMany "rate limited") else h req).

Inductive Route : Type :=
| RHealth | RReady | RMetrics | RSeen | RMined | RMerklePath | RUTXO | RChannelOpen | RQuote | RPaidQuery | RAdminStats.

(** [Handler]: the mux; [now] and [heap] are the clock and the heap size read. *)
Definition Handler (now heap : Z) (r : Route) (req : HttpReq) : M Server HttpResp :=
  match r with
  | RHealth => handleHealth req
  | RReady => handleReady req
  | RMetrics => handleMetrics heap req
  | RSeen => server_wrap now handleSeen req
  | RMined => server_wrap now handleMined req
  | RMerklePath => server_wrap now handleMerklePath req
  | RUTXO => server_wrap now handleUTXO req
  | RChannelOpen => server_wrap now handleChannelOpen req
  | RQuote => server_wrap now handleQuote req
  | RPaidQuery => server_wrap now handlePaidQuery req
  | RAdminStats => server_wrap now handleAdminStats req
  end.
End server.
Arguments Server S : clear implicits.

(** * Theorems *)

Section server_theory.
Context {S : Type} `{Store S} (stats : S -> Stats) (nf : nat).
Abbreviation SV := (Server S).

(** ** Requests never escape as panics *)

(** A call that returns no Go error: a value or a panic. *)
Definition no_error {A} (m : M SV A) : Prop := forall s, match m s with (Err _, _) => False | _ => True end.
Definition no_err {A} (r : result A) : Prop := match r with Err _ => False | _ => True end.

Lemma no_error_ret {A} (a : A) : no_error (mret a).
Proof. by intros s. Qed.
Lemma no_error_panic {A} : no_error (mpanic (A := A)).
Proof. by intros s. Qed.
Lemma no_error_lift {A} (r : result A) : no_err r -> no_error (mlift r).
Proof. intros Hr s. unfold mlift. by destruct r. Qed.
Lemma no_error_bind {A B} (m : M SV A) (k : A -> M SV B) : no_error m -> (forall a, no_error (k a)) -> no_error (mbind m k).
Proof. intros Hm Hk s. unfold mbind. specialize (Hm s). destruct (m s) as [[a|e|] s']; [apply Hk|done..]. Qed.
Lemma no_error_get {B} (k : SV -> M SV B) : (forall s, no_error (k s)) -> no_error (mbind mget k).
Proof. intros Hk s. apply Hk. Qed.
Lemma no_error_try {A} (m : M SV A) : no_error (mtry m).
Proof. intros s. unfold mtry. by destruct (m s) as [[] ?]. Qed.
Lemma no_error_met d : no_error (met_add (S := S) d).
Proof. by intros s. Qed.
#[local] Hint Resolve no_error_ret no_error_panic no_error_lift no_error_try no_error_met : noerr.

Lemma no_err_serialize p : no_err (SerializeCompressed p).
Proof. unfold SerializeCompressed, copy_tail. destruct p as [[x y]|]; [|done]. by destruct (_ <? _)%nat. Qed.
Lemma no_err_sig sig : no_err (sig_Serialize sig).
Proof. unfold sig_Serialize, copy_tail. destruct (_ <? _)%nat; [done|]. cbn [rbind]. by destruct (_ <? _)%nat. Qed.
Lemma no_err_encode a : no_err (EncodeAttestation a).
Proof.
  unfold EncodeAttestation. destruct (att_Operator a) as [op|], (att_Sig a) as [sig|]; try done.
  pose proof (no_err_serialize op). destruct (SerializeCompressed op); [|done..]. cbn [rbind].
  pose proof (no_err_sig sig). by destruct (sig_Serialize sig).
Qed.
Lemma no_err_attested s st : no_err (attested (S := S) nf s st).
Proof.
  unfold attested. destruct (sv_identity s) as [id|]; [|done]. destruct (Attest nf id st) as [a| |]; [|done..].
  pose proof (no_err_encode a). by destruct (EncodeAttestation a).
Qed.
Lemma no_err_seenResp txid res s : no_err (seenResp (S := S) nf txid res s).
Proof. unfold seenResp. pose proof (no_err_attested s (mkStatement StmtSeen txid 0 (sr_Seen res) 0 zeroHash (sv_tip s))). by destruct (attested _ _ _). Qed.
Lemma no_err_minedResp txid res s : no_err (minedResp (S := S) nf txid res s).
Proof. unfold minedResp. match goal with |- context [attested nf s ?st] => pose proof (no_err_attested s st) end. by destruct (attested _ _ _). Qed.
Lemma no_err_utxoResp op res s : no_err (utxoResp (S := S) nf op res s).
Proof. unfold utxoResp. match goal with |- context [attested nf s ?st] => pose proof (no_err_attested s st) end. by destruct (attested _ _ _). Qed.

Lemma no_error_reply {A} (f : A -> HttpResp) (mk : SV -> result A) : (forall s, no_err (mk s)) -> no_error (reply f mk).
Proof. intros Hm. apply no_error_get. intros s. apply no_error_bind; auto with noerr. Qed.
Lemma no_error_drop {A} (z : A) (m : M SV A) : no_error (drop_error z m).
Proof. apply no_error_bind; [auto with noerr|]. intros [a|e|]; by apply no_error_lift. Qed.
#[local] Hint Resolve no_error_reply no_error_drop no_err_seenResp no_err_minedResp no_err_utxoResp : noerr.

Lemma no_error_free req h : (forall t, no_error (h t)) -> no_error (free_query (S := S) req h).
Proof.
  intros Hh. apply no_error_get. intros s. destruct (sc_PaymentRequired _); [auto with noerr|].
  destruct (parseHash _); auto with noerr.
Qed.

Lemma no_error_rejected e st : no_error (rejected (S := S) e st).
Proof. apply no_error_bind; auto with noerr. Qed.
#[local] Hint Resolve no_error_rejected : noerr.

Lemma no_error_paid_answer {A} (m : M (S * PaidServer) A) (k : A -> M SV HttpResp) :
  (forall a, no_error (k a)) -> no_error (paid_answer m k).
Proof.
  intros Hk. apply no_error_bind; [auto with noerr|]. intros [a|e|]; auto with noerr. apply no_error_bind; auto with noerr.
Qed.

Lemma no_error_open req : no_error (handleChannelOpen (S := S) req).
Proof.
  unfold handleChannelOpen. destruct (negb _); [auto with noerr|]. destruct (hq_Open req) as [q|]; [|auto with noerr].
  destruct (parseHash _) as [fund|]; [|auto with noerr]. destruct (hex_decode _) as [pb| |]; [|auto with noerr..].
  destruct (ParseCompressed pb) as [pub| |]; [|auto with noerr..]. apply no_error_get. intros s.
  apply no_error_bind; [apply no_error_lift|intros cfg].
  - unfold open_config. pose proof (no_err_serialize pub). destruct (SerializeCompressed pub); [|done..]. cbn [rbind].
    pose proof (no_err_serialize (Public (sv_payKey s))). by destruct (SerializeCompressed (Public _)).
  - apply no_error_bind; [auto with noerr|]. intros [a|e|]; auto with noerr.
Qed.

Lemma no_error_quote req : no_error (handleQuote (S := S) req).
Proof.
  unfold handleQuote. destruct (parseHash _) as [ch|]; [|auto with noerr]. destruct (Atoi _) as [qt|]; [|auto with noerr].
  destruct (_ || _); [auto with noerr|]. apply no_error_get. intros s. destruct (paid_Quote _ _ _); auto with noerr.
Qed.

Lemma no_error_paid req : no_error (handlePaidQuery (S := S) nf req).
Proof.
  unfold handlePaidQuery. destruct (negb _); [auto with noerr|]. destruct (hq_Paid req) as [q|]; [|auto with noerr].
  destruct (parseHash _) as [ch|]; [|auto with noerr]. destruct (parseHash _) as [t|]; [|auto with noerr].
  destruct (hex_decode _) as [sb| |]; [|auto with noerr..]. destruct (ParseSignature sb) as [sig| |]; [|auto with noerr..].
  unfold paid_dispatch. repeat case_match; try apply no_error_paid_answer; auto with noerr.
Qed.

Lemma no_error_admin req : no_error (handleAdminStats (S := S) stats req).
Proof.
  apply no_error_get. intros s. destruct (_ || _); [auto with noerr|]. apply no_error_bind; [|auto with noerr].
  apply no_error_lift. unfold OperatorPubHex. destruct (sv_identity s) as [id|]; [|done].
  pose proof (no_err_serialize (id_Public id)). by destruct (SerializeCompressed _).
Qed.

Lemma wrap_answers now h req s : no_error (h req) ->
  exists r s', server_wrap (S := S) now h req s = (Ok r, s').
Proof.
  intros Hh. unfold server_wrap. erewrite mbind_ok by reflexivity. unfold recovered.
  match goal with |- context [match ?m with _ => _ end] => assert (match m with (Err _, _) => False | _ => True end) as Hm end.
  - apply (no_error_bind (rate_allows (hq_IP req) now)).
    + intros s0. unfold rate_allows. destruct (sv_limiter s0); [|done]. by destruct (allow _ _ _).
    + intros [|]; cbn [negb]; auto with noerr.
  - destruct (mbind _ _ _) as [[r|e|] s']; [by eexists _, _|done|by eexists _, _].
Qed.


(** ** Nothing is answered unpaid *)

Definition is_answer (r : HttpResp) : bool :=
  match r with RespSeen _ | RespMined _ | RespPath _ | RespUTXO _ => true | _ => false end.

(** Every response of the call satisfies [P]. *)
Definition yields {A} (P : A -> Prop) (m : M SV A) : Prop := forall s, match m s with (Ok a, _) => P a | _ => True end.
Lemma yields_ret {A} (P : A -> Prop) a : P a -> yields P (mret a).
Proof. by intros Ha s. Qed.
Lemma yields_bind {A B} (P : B -> Prop) (m : M SV A) (k : A -> M SV B) : (forall a, yields P (k a)) -> yields P (mbind m k).
Proof. intros Hk s. unfold mbind. destruct (m s) as [[a|e|] s']; [apply Hk|done..]. Qed.
Lemma yields_panic {A} (P : A -> Prop) : yields P (mpanic (A := A)).
Proof. by intros s. Qed.
Abbreviation no_answer := (fun r => is_answer r = false).
#[local] Hint Resolve yields_ret yields_panic yields_bind : yields.

Lemma open_no_answer req : yields no_answer (handleChannelOpen (S := S) req).
Proof.
  unfold handleChannelOpen. repeat (case_match; try (by apply yields_ret); try apply yields_panic).
  apply yields_bind. intros s. apply yields_bind. intros cfg. apply yields_bind. intros [?|?|]; [by apply yields_ret| |apply yields_panic].
  apply yields_bind. intros _. by apply yields_ret.
Qed.
Lemma quote_no_answer req : yields no_answer (handleQuote (S := S) req).
Proof.
  unfold handleQuote. repeat (case_match; try (by apply yields_ret); try apply yields_panic).
  apply yields_bind. intros s. case_match; [by apply yields_ret..|apply yields_panic].
Qed.
Lemma admin_no_answer req : yields no_answer (handleAdminStats (S := S) stats req).
Proof.
  apply yields_bind. intros s. case_match; [by apply yields_ret|]. apply yields_bind. intros op. by apply yields_ret.
Qed.

(** The state a handler starts from: the configuration, the store and the
    registry are the request's. *)
Lemma wrap_inner now h req s r s' : server_wrap (S := S) now h req s = (Ok r, s') -> is_answer r = true ->
  exists s1, sv_cfg s1 = sv_cfg s /\ sv_store s1 = sv_store s /\ sv_paid s1 = sv_paid s /\ h req s1 = (Ok r, s').
Proof.
  intros E Ha. unfold server_wrap in E. erewrite mbind_ok in E by reflexivity. unfold recovered in E.
  set (s0 := set_met _ s) in E.
  assert (exists ok s1, rate_allows (hq_IP req) now s0 = (Ok ok, s1) /\ sv_cfg s1 = sv_cfg s /\ sv_store s1 = sv_store s
    /\ sv_paid s1 = sv_paid s) as (ok & s1 & Er & H1 & H2 & H3).
  { unfold rate_allows. destruct (sv_limiter s0) as [l|]; [|by eexists _, _]. destruct (allow _ _ l) as [ok l']. by eexists _, _. }
  erewrite mbind_ok in E by exact Er. exists s1. split_and!; [done..|].
  destruct ok; cbn [negb] in E; [|injection E as <- <-; done].
  destruct (h req s1) as [[r'|e|] s2]; [by injection E as -> ->|done|]. injection E as <- <-. done.
Qed.

Lemma free_refused req h s r s' : sc_PaymentRequired (sv_cfg s) = true ->
  free_query (S := S) req h s = (Ok r, s') -> is_answer r = false.
Proof. intros Hp. unfold free_query. erewrite mbind_ok by reflexivity. rewrite Hp. by intros [= <- <-]. Qed.

Lemma authorized_first {A} id c q (m : M S A) st p a st' p' :
  (_ <- on2 (authorize id c q) ;; on1 m) (st, p) = (Ok a, (st', p')) -> authorize id c q p = (Ok tt, p').
Proof.
  unfold mbind, on1, on2. cbn [fst snd]. destruct (authorize id c q p) as [[[]|e|] p1]; [|done..]. cbn [fst snd].
  destruct (m st) as [r st1]. by intros [= -> <- <-].
Qed.

(** Answering leaves the registry alone. *)
Definition keeps_paid {A} (m : M SV A) : Prop := forall s r s', m s = (r, s') -> sv_paid s' = sv_paid s.
Lemma keeps_ret {A} (a : A) : keeps_paid (mret a).
Proof. by intros s r s' [= <- <-]. Qed.
Lemma keeps_reply {A} (f : A -> HttpResp) (mk : SV -> result A) : keeps_paid (reply f mk).
Proof.
  intros s r s'. unfold reply, mbind, mget, mlift, mret. destruct (mk s); by intros [= <- <-].
Qed.
#[local] Hint Resolve keeps_ret keeps_reply : yields.

Lemma paid_answer_charged {A} (m : M (S * PaidServer) A) (k : A -> M SV HttpResp) s r s' :
  (forall a, keeps_paid (k a)) -> paid_answer m k s = (Ok r, s') -> is_answer r = true ->
  exists a st, m (sv_store s, sv_paid s) = (Ok a, (st, sv_paid s')).
Proof.
  intros Hk E Ha. unfold paid_answer, mbind, mtry, with_paid in E.
  destruct (m (sv_store s, sv_paid s)) as [[a|e|] [st p]]; [|by injection E as <- <-|done].
  exists a, st. cbn in E. apply Hk in E. by rewrite E.
Qed.

Lemma paid_dispatch_charged ch c typ txid vout s r s' :
  paid_dispatch (S := S) nf ch c typ txid vout s = (Ok r, s') -> is_answer r = true ->
  authorize ch (Some c) typ (sv_paid s) = (Ok tt, sv_paid s').
Proof.
  unfold paid_dispatch. intros E Ha.
  destruct (typ =? 0) eqn:E0; [|destruct (typ =? 1) eqn:E1; [|destruct (typ =? 2) eqn:E2; [|destruct (typ =? 3) eqn:E3;
    [|by injection E as <- <-]]]]; zbool; subst typ;
    (apply paid_answer_charged in E as (a & st & E); [|auto with yields|done]; by apply authorized_first in E).
Qed.

(** C13: no free service.  With payment required, a response carrying an answer to
    one of the four queries comes only from [/v1/paid/query], and the request's
    commitment was accepted on its channel for that query type, in the state the
    request found; the registry afterwards is the charged one. *)
Theorem no_free_service (now heap : Z) (route : Route) (req : HttpReq) (s s' : SV) (r : HttpResp) :
  sc_PaymentRequired (sv_cfg s) = true ->
  Handler stats nf now heap route req s = (Ok r, s') -> is_answer r = true ->
  route = RPaidQuery
  /\ exists q ch sigBytes sig, hq_Paid req = Some q /\ parseHash (pq_Channel q) = Some ch
       /\ hex_decode (pq_Sig q) = Ok sigBytes /\ ParseSignature sigBytes = Ok sig
       /\ authorize ch (Some (mkCommitment (pq_CumAmount q) (Some sig))) (pq_Type q) (sv_paid s) = (Ok tt, sv_paid s').
Proof.
  intros Hp E Ha. destruct route; cbn [Handler] in E.
  - by injection E as <- <-.
  - unfold handleReady in E. erewrite mbind_ok in E by reflexivity. injection E as <- <-. by destruct (sv_ready s).
  - injection E as <- <-. done.
  - apply wrap_inner in E as (s1 & Hc & _ & _ & E); [|done]. apply free_refused in E; congruence.
  - apply wrap_inner in E as (s1 & Hc & _ & _ & E); [|done]. apply free_refused in E; congruence.
  - apply wrap_inner in E as (s1 & Hc & _ & _ & E); [|done]. apply free_refused in E; congruence.
  - apply wrap_inner in E as (s1 & Hc & _ & _ & E); [|done]. apply free_refused in E; congruence.
  - apply wrap_inner in E as (s1 & _ & _ & _ & E); [|done]. pose proof (open_no_answer req s1) as Hn. rewrite E in Hn. congruence.
  - apply wrap_inner in E as (s1 & _ & _ & _ & E); [|done]. pose proof (quote_no_answer req s1) as Hn. rewrite E in Hn. congruence.
  - apply wrap_inner in E as (s1 & _ & _ & Hpaid & E); [|done]. split; [done|]. unfold handlePaidQuery in E.
    destruct (negb _); [by injection E as <- <-|]. destruct (hq_Paid req) as [q|]; [|by injection E as <- <-].
    destruct (parseHash (pq_Channel q)) as [ch|] eqn:Ech; [|by injection E as <- <-].
    destruct (parseHash (pq_TxID q)) as [t|]; [|by injection E as <- <-].
    destruct (hex_decode (pq_Sig q)) as [sb| |] eqn:Eh; [|by injection E as <- <-..].
    destruct (ParseSignature sb) as [sig| |] eqn:Es; [|by injection E as <- <-|done].
    apply paid_dispatch_charged in E; [|done]. rewrite Hpaid in E. by exists q, ch, sb, sig.
  - apply wrap_inner in E as (s1 & _ & _ & _ & E); [|done]. pose proof (admin_no_answer req s1) as Hn. rewrite E in Hn. congruence.
Qed.

(** a paid path query that finds nothing is charged and not served.  When the
    commitment is accepted but no proof can be built, the client gets a 402 with
    the lookup's error, the registry keeps the charge, and the request is counted
    as a payment rejection. *)
Theorem paid_path_charged_unserved (ch : Hash) (c : Commitment) (txid : Hash) (vout : Z) (s : SV)
    (p' : PaidServer) (e : error) (st' : S) :
  authorize ch (Some c) QMerklePath (sv_paid s) = (Ok tt, p') ->
  api_MerklePath txid (sv_store s) = (Err e, st') ->
  exists s', paid_dispatch nf ch c QMerklePath txid vout s = (Ok (HttpError StatusPaymentRequired e), s')
    /\ sv_paid s' = p' /\ mt_served (sv_met s') = u64 (mt_served (sv_met s))
    /\ mt_rejected (sv_met s') = u64 (mt_rejected (sv_met s) + 1).
Proof.
  intros Ea Em. unfold paid_dispatch. change (QMerklePath =? 0) with false. change (QMerklePath =? 1) with false.
  change (QMerklePath =? 2) with true. cbn iota. unfold paid_answer, paid_MerklePath.
  unfold mbind at 1, mtry, with_paid. unfold mbind at 1, on2. cbn [fst snd]. rewrite Ea. unfold on1. cbn [fst snd]. rewrite Em.
  eexists. split; [reflexivity|]. cbn [sv_paid sv_met set_met mt_served mt_rejected count_rejected].
  rewrite Z.add_0_r. done.
Qed.

(** ** Signed answers say what the response says *)

(** a response and its signature agree.  Each of the three signed responses
    carries an attestation exactly when the server has an identity, and the
    attestation states the queried item, the response's own flag, height and
    tip, and (for a mined transaction) the response's block hash. *)
Theorem signed_answers_agree (s : SV) (txid : Hash) (op : Outpoint) (sr : SeenResult) (mr : MinedResult) (ur : UTXOResult) :
  match seenResp nf txid sr s with
  | Ok r => match rs_Attestation r with
            | None => sv_identity s = None
            | Some j => sv_identity s <> None /\ aj_Kind j = StmtSeen /\ aj_TxID j = hexHash txid /\ aj_Flag j = rs_Seen r
                        /\ aj_Tip j = rs_Tip r
            end
  | _ => sv_identity s <> None
  end
  /\ match minedResp nf txid mr s with
     | Ok r => match rm_Attestation r with
               | None => sv_identity s = None
               | Some j => sv_identity s <> None /\ aj_Kind j = StmtMined /\ aj_TxID j = hexHash txid
                           /\ aj_Flag j = rm_Mined r /\ aj_Height j = rm_Height r /\ aj_Tip j = rm_Tip r
                           /\ (rm_Mined r = true -> aj_BlockHash j = rm_BlockHash r)
               end
     | _ => sv_identity s <> None
     end
  /\ match utxoResp nf op ur s with
     | Ok r => match ru_Attestation r with
               | None => sv_identity s = None
               | Some j => sv_identity s <> None /\ aj_Kind j = StmtUTXO /\ aj_TxID j = hexHash (op_TxID op)
                           /\ aj_Vout j = op_Vout op
                           /\ (aj_Flag j = true <-> ru_Status r = String.list_byte_of_string "unspent")
                           /\ aj_Height j = ru_SpentHeight r /\ aj_Tip j = ru_Tip r
               end
     | _ => sv_identity s <> None
     end.
Proof.
  assert (forall st, match attested nf s st with
    | Ok None => sv_identity s = None
    | Ok (Some j) => sv_identity s <> None /\ aj_Kind j = st_Kind st /\ aj_TxID j = hexHash (st_TxID st) /\ aj_Vout j = st_Vout st
        /\ aj_Flag j = st_Flag st /\ aj_Height j = st_Height st /\ aj_BlockHash j = hexHash (st_BlockHash st) /\ aj_Tip j = st_Tip st
    | _ => sv_identity s <> None end) as Hat.
  { intros st. unfold attested. destruct (sv_identity s) as [id|]; [|done].
    destruct (Attest nf id st) as [a| |] eqn:Ea; [|done..].
    assert (att_Statement a = st) as Hst.
    { unfold Attest in Ea. destruct (Sign _ _ _); [|done..]. by injection Ea as <-. }
    unfold EncodeAttestation. destruct (att_Operator a), (att_Sig a); try done.
    destruct (SerializeCompressed _); [|done..]. cbn [rbind]. destruct (sig_Serialize _); [|done..]. cbn [rbind].
    rewrite Hst. done. }
  split_and!; unfold seenResp, minedResp, utxoResp;
    match goal with |- context [attested nf s ?st] => specialize (Hat st); destruct (attested nf s st) as [[j|]| |] end;
    cbn [rbind]; try done.
  - naive_solver.
  - destruct Hat as (? & ? & ? & _ & ? & ? & ? & ?). cbn [rm_Mined rm_Height rm_Tip rm_BlockHash rm_Attestation].
    split_and!; try done. by intros ->.
  - destruct Hat as (? & ? & ? & ? & Hf & ? & _ & ?). cbn [ru_Status ru_SpentHeight ru_Tip ru_Attestation].
    split_and!; try done. rewrite Hf. cbn [st_Flag]. rewrite bool_decide_eq_true.
    destruct (ur_Status ur); vm_compute; split; done.
Qed.

(** ** Dropped store errors *)

(** a store failure is reported as a negative.  When the index read fails,
    [/v1/seen] drops the error and answers "not seen" at the current tip, signed
    when the server has an identity and counted as served: the response of a
    transaction the server knows nothing of. *)
Theorem store_error_answered_negative (req : HttpReq) (txid : Hash) (s : SV) (e : error) (st' : S) :
  sc_PaymentRequired (sv_cfg s) = false -> parseHash (hq_Query req "txid") = Some txid ->
  GetTxIndex txid (sv_store s) = (Err e, st') ->
  exists s1, sv_tip s1 = sv_tip s /\ sv_identity s1 = sv_identity s
    /\ mt_served (sv_met s1) = u64 (mt_served (sv_met s) + 1)
    /\ handleSeen nf req s
       = (match seenResp nf txid (mkSeenResult false 0) s1 with
          | Ok r => Ok (RespSeen r) | Err e => Err e | Panic => Panic end, s1).
Proof.
  intros Hp Ht Hg. unfold handleSeen, free_query. erewrite mbind_ok by reflexivity. rewrite Hp, Ht.
  exists (met_add count_served (with_store (fun _ => (Ok tt, st')) s).2).2. split_and!; [done..|].
  unfold drop_error, reply, Seen. unfold mbind, mtry, with_store. rewrite Hg. cbn [fst snd].
  unfold mlift, met_add, mget, mret. cbn [fst snd]. destruct (seenResp _ _ _ _); reflexivity.
Qed.
End server_theory.

(** ** Ingest *)

Section server_ingest.
Context {S : Type} `{LawfulStore S} {T : Type} `{Source T}.
Abbreviation SV := (Server S).

Definition server_ok (s : SV) : Prop := store_inv (sv_store s) /\ pruner_ok (sv_pruner s).
Definition not_paused (held : Z) (s : SV) : bool :=
  negb ((0 <? sc_MaxMemMB (sv_cfg s)) && (sc_MaxMemMB (sv_cfg s) <=? held)).

(** The block stored, the tip at its height, one more block counted. *)
Definition ingested (b : Block) (s s' : SV) : Prop :=
  server_ok s' /\ sv_tip s' = b_Height b /\ sv_cfg s' = sv_cfg s /\ sv_ing s' = sv_ing s /\ sv_paid s' = sv_paid s
  /\ mt_blocks (sv_met s') = u64 (mt_blocks (sv_met s) + 1).

Lemma ingest_one b s (t : T) : server_ok s -> validateBlock b = Ok tt -> 0 <= b_Height b < 2 ^ 32 ->
  exists st s1 s2, on1 (with_ingest (IngestBlock (sv_ing s) b)) (s, t) = (Ok (st, None), (s1, t))
    /\ advance b (s1, t) = (Ok tt, (s2, t)) /\ ingested b s s2 /\ sv_ready s2 = sv_ready s.
Proof.
  intros [Hi Hpr] Hv Hh. destruct (ingest_lawful (sv_ing s) b (sv_store s) (sv_pruner s) Hi Hpr Hv Hh)
    as (st & s1 & pr1 & E & Hi1 & Hpr1 & _).
  unfold on1, with_ingest. cbn [fst snd]. rewrite E. eexists _, _, _. split; [reflexivity|].
  split; [reflexivity|]. by split.
Qed.

(** a valid block moves the tip.  When the next block validates, one turn of the
    ingest loop stores it, sets the tip to its height, counts it and marks the
    server ready; the source has moved past it and the invariants hold. *)
Theorem ingest_turn_advances (held : Z) (s : SV) (t t' : T) (b : Block) :
  server_ok s -> not_paused held s = true -> Next t = (Ok (Some b), t') ->
  validateBlock b = Ok tt -> 0 <= b_Height b < 2 ^ 32 ->
  exists s', ingest_turn held (s, t) = (Ok tt, (s', t')) /\ ingested b s s' /\ sv_ready s' = true.
Proof.
  intros Hok Hnp Hn Hv Hh. unfold ingest_turn. erewrite mbind_ok by reflexivity. cbn [fst snd].
  unfold not_paused in Hnp. destruct (_ && _); [done|].
  erewrite mbind_ok by (unfold mtry, on2; cbn [fst snd]; rewrite Hn; reflexivity).
  destruct (ingest_one b s t' Hok Hv Hh) as (st & s1 & s2 & E1 & E2 & Hin & _).
  erewrite mbind_ok by exact E1. cbn beta iota. erewrite mbind_ok by exact E2.
  eexists. split; [reflexivity|]. split; [exact Hin|done].
Qed.

(** a block that fails to ingest is dropped.  When the next block does not
    validate, the turn leaves the whole server as it was but the source has moved
    past the block, so no later turn sees it. *)
Theorem ingest_turn_drops_block (held : Z) (s : SV) (t t' : T) (b : Block) (e : error) :
  not_paused held s = true -> Next t = (Ok (Some b), t') ->
  in_skipValidate (sv_ing s) = false -> validateBlock b = Err e ->
  ingest_turn held (s, t) = (Ok tt, (s, t')).
Proof.
  intros Hnp Hn Hs Hv. unfold ingest_turn. erewrite mbind_ok by reflexivity. cbn [fst snd].
  unfold not_paused in Hnp. destruct (_ && _); [done|].
  erewrite mbind_ok by (unfold mtry, on2; cbn [fst snd]; rewrite Hn; reflexivity).
  unfold mbind, on1, with_ingest. cbn [fst snd]. rewrite (ingest_rejected _ _ _ _ e Hs Hv). cbn. by destruct s.
Qed.
End server_ingest.

(** Draining the mock chain through the server. *)
Lemma IngestOnce_mock {S} `{LawfulStore S} (fuel : nat) (s : Server S) (m : MockSource) :
  server_ok s -> mock_ok m -> m_made m <= c_Blocks (m_cfg m) -> 0 <= m_height m ->
  m_height m + (c_Blocks (m_cfg m) - m_made m) < 2 ^ 32 -> c_Blocks (m_cfg m) - m_made m < Z.of_nat fuel ->
  0 <= mt_blocks (sv_met s) -> mt_blocks (sv_met s) + (c_Blocks (m_cfg m) - m_made m) < 2 ^ 64 ->
  let n := c_Blocks (m_cfg m) - m_made m in
  exists s' m', IngestOnce fuel (s, m) = (Ok tt, (s', m')) /\ sv_ready s' = true /\ server_ok s'
    /\ sv_tip s' = (if n =? 0 then sv_tip s else m_height m + n - 1) /\ mt_blocks (sv_met s') = mt_blocks (sv_met s) + n.
Proof.
  cbv zeta. revert s m. induction fuel as [|fuel IH]; intros s m Hok Hm Hmade Hh0 Hh Hf Hb0 Hb; [lia|].
  cbn [IngestOnce]. destruct (decide (m_made m = c_Blocks (m_cfg m))) as [Hd|Hd].
  - assert (Next m = (Ok None, m)) as En.
    { unfold Next, mock_source, mock_Next. by rewrite (proj2 (Z.leb_le _ _)) by lia. }
    erewrite mbind_ok by (unfold on2; cbn [fst snd]; rewrite En; reflexivity).
    eexists _, _. split; [reflexivity|]. cbn. rewrite Hd, Z.sub_diag. split; [done|]. split; [exact Hok|]. split; [done|lia].
  - destruct (mock_Next_sealed m Hm) as (b & m1 & En & Hs & Hbh & _ & _ & Hc & Hmd & Hht); [lia|].
    erewrite mbind_ok by (unfold on2; cbn [fst snd]; rewrite En; reflexivity).
    cbn beta iota. erewrite mbind_ok by reflexivity. cbn [fst snd].
    destruct (ingest_one b s m1 Hok (sealed_valid b Hs)) as (st & s1 & s2 & E1 & E2 & (Hok2 & Ht2 & _ & _ & _ & Hb2) & _);
      [rewrite Hbh; lia|].
    erewrite mbind_ok by exact E1. cbn beta iota. erewrite mbind_ok by exact E2.
    rewrite u32_small in Hht by lia. rewrite u64_small in Hb2 by lia.
    destruct (IH s2 m1 Hok2) as (s' & m' & E & Hr & Hok' & Htip & Hblk); rewrite ?Hc, ?Hmd, ?Hht, ?Hb2; try lia.
    { unfold mock_ok in *. rewrite Hc, Hmd. lia. }
    exists s', m'. rewrite Hc, Hmd, Hht, Hb2, Ht2, Hbh in *. split_and!; try done; try apply Hok'; [|lia].
    rewrite Htip. destruct (c_Blocks (m_cfg m) - (m_made m + 1) =? 0) eqn:E3; zbool.
    + rewrite (proj2 (Z.eqb_neq _ _)) by lia. lia.
    + rewrite (proj2 (Z.eqb_neq _ _)) by lia. lia.
Qed.

(** the server becomes ready at the chain's tip.  Draining a mock chain into a
    new server over a lawful store terminates without error; the server is then
    ready, its tip is the height of the last block and every block is counted. *)
Theorem ingest_once_ready {S} `{LawfulStore S} (fuel : nat) (cfg : SConfig) (st : S) (mc : MockConfig) :
  let m := NewMock mc in
  let n := c_Blocks (m_cfg m) in
  store_inv st -> pruner_ok (NewPruner (sc_Prune cfg)) -> 0 <= c_StartHeight mc -> c_StartHeight mc + n < 2 ^ 32 ->
  n < Z.of_nat fuel ->
  exists s' m', IngestOnce fuel (server_New cfg st, m) = (Ok tt, (s', m')) /\ sv_ready s' = true
    /\ sv_tip s' = c_StartHeight mc + n - 1 /\ mt_blocks (sv_met s') = n.
Proof.
  intros m n Hi Hpr Hst Hh Hf.
  assert (1 <= n) by (unfold n, m, NewMock, at_least_one; simpl; case_match; zbool; lia).
  destruct (IngestOnce_mock fuel (server_New cfg st) m) as (s' & m' & E & Hr & _ & Ht & Hb); 
    try (change (m_made m) with 0; change (m_height m) with (c_StartHeight mc); fold n; cbn [server_New sv_met mt_blocks]; lia).
  - done.
  - apply NewMock_ok.
  - exists s', m'. fold n in Ht, Hb. change (m_made m) with 0 in Ht, Hb. change (m_height m) with (c_StartHeight mc) in Ht.
    rewrite Z.sub_0_r in Ht, Hb. rewrite (proj2 (Z.eqb_neq _ _)) in Ht by lia. done.
Qed.

(** ** Witnesses *)

Definition demo_sconfig (paid : bool) : SConfig :=
  mkSConfig 0 0 RecommendedPolicy DefaultPolicy paid [] "" 0 0.
Definition demo_stats (_ : StoreSpec.Flat) : Stats := mkStats 0 0 0 0 0 0.

(** A server whose registry holds the demo channel, every query priced 60. *)
Definition flat_prices : list Z := [60; 60; 60; 60].
Definition demo_server : Server StoreSpec.Flat :=
  mkServer (demo_sconfig true) flatEmpty (NewPruner RecommendedPolicy) (mkIngestor 0 0 false true)
    (demo_registry DefaultPolicy (demo_open flat_prices)) None 1 0 false None (mkMetrics 0 0 0 0 0).
Definition demo_paid_req (typ : Z) : HttpReq :=
  mkHttpReq "POST" "10.0.0.1" (fun _ => []) ""
    None (Some (mkpaidReq (hexHash demo_id) typ (hexHash (demo_hash 9)) 0 100 (hex_encode (sig_bytes (mkSig demo_z demo_z))))).

(** The paid "seen" request is answered, and the commitment was accepted. *)
Lemma no_free_service_witness :
  exists s', Handler demo_stats 1 0 0 RPaidQuery (demo_paid_req 0) demo_server
      = (Ok (RespSeen (mkSeenResponse false 0 0 None)), s')
    /\ exists q ch sb sig, hq_Paid (demo_paid_req 0) = Some q /\ parseHash (pq_Channel q) = Some ch
       /\ hex_decode (pq_Sig q) = Ok sb /\ ParseSignature sb = Ok sig
       /\ authorize ch (Some (mkCommitment (pq_CumAmount q) (Some sig))) (pq_Type q) (sv_paid demo_server) = (Ok tt, sv_paid s').
Proof.
  assert (fst (Handler demo_stats 1 0 0 RPaidQuery (demo_paid_req 0) demo_server)
          = Ok (RespSeen (mkSeenResponse false 0 0 None))) as E by (vm_compute; reflexivity).
  destruct (Handler demo_stats 1 0 0 RPaidQuery (demo_paid_req 0) demo_server) as [r s'] eqn:Eh.
  exists s'. simpl in E. subst r. split; [reflexivity|].
  exact (proj2 (no_free_service demo_stats 1 0 0 RPaidQuery (demo_paid_req 0) demo_server s' _ eq_refl Eh eq_refl)).
Defined.

(** The same commitment spent on a path query for a transaction that is not mined. *)
Definition path_charge : result unit * PaidServer :=
  authorize demo_id (Some demo_comm) QMerklePath (sv_paid demo_server).
Lemma path_charge_ok : path_charge = (Ok tt, path_charge.2).
Proof.
  assert (path_charge.1 = Ok tt) as E by (vm_compute; reflexivity). destruct path_charge. simpl in *. by subst.
Qed.

Lemma paid_path_charged_unserved_witness :
  exists e s', paid_dispatch 1 demo_id demo_comm QMerklePath (demo_hash 9) 0 demo_server
      = (Ok (HttpError StatusPaymentRequired e), s')
    /\ sv_paid s' = path_charge.2 /\ mt_served (sv_met s') = u64 (mt_served (sv_met demo_server))
    /\ mt_rejected (sv_met s') = u64 (mt_rejected (sv_met demo_server) + 1).
Proof.
  eexists.
  apply (paid_path_charged_unserved 1 demo_id demo_comm (demo_hash 9) 0 demo_server (path_charge.2) _ flatEmpty path_charge_ok).
  reflexivity.
Defined.

(** A store whose index reads fail. *)
Inductive Broken : Type := mkBroken.
Definition ErrBackend : error := "backend unavailable"%string.
#[global] Instance broken_store : Store Broken :=
  {| PutTxIndex _ _ := merr ErrBackend; GetTxIndex _ := merr ErrBackend; PutUTXO _ _ := merr ErrBackend;
     GetUTXO _ := merr ErrBackend; SpendUTXO _ _ _ := merr ErrBackend; UnspendUTXO _ := merr ErrBackend;
     DeleteUTXO _ := merr ErrBackend; DeleteTxIndex _ := merr ErrBackend; PutSubtree _ _ := merr ErrBackend;
     GetSubtree _ := merr ErrBackend; PutBlock _ := merr ErrBackend; GetBlock _ := merr ErrBackend;
     PutHeader _ _ := merr ErrBackend; GetHeader _ := merr ErrBackend; PruneSpentAtHeight _ := merr ErrBackend;
     PruneIndexAtHeight _ := merr ErrBackend |}.
Definition seen_req : HttpReq := mkHttpReq "GET" "10.0.0.1" (fun _ => hexHash (demo_hash 9)) "" None None.
Definition broken_server : Server Broken :=
  mkServer (demo_sconfig false) mkBroken (NewPruner RecommendedPolicy) (mkIngestor 0 0 false true)
    paid_New None 1 7 true None (mkMetrics 0 0 0 0 0).

Lemma store_error_answered_negative_witness :
  exists s1, sv_tip s1 = 7 /\ sv_identity s1 = None /\ mt_served (sv_met s1) = u64 (0 + 1)
    /\ handleSeen 1 seen_req broken_server
       = (match seenResp 1 (demo_hash 9) (mkSeenResult false 0) s1 with
          | Ok r => Ok (RespSeen r) | Err e => Err e | Panic => Panic end, s1).
Proof.
  apply (store_error_answered_negative 1 seen_req (demo_hash 9) broken_server ErrBackend mkBroken);
    [reflexivity|apply parseHash_hexHash|reflexivity].
Defined.

(** Blocks handed out one by one. *)
#[local] Instance demo_stream : Source (list Block) :=
  {| Next := fun l => match l with [] => (Ok None, []) | b :: r => (Ok (Some b), r) end; TipHeight := fun _ => 0 |}.
Definition fresh_server : Server MemStore := server_New (demo_sconfig false) New.
Definition empty_block : Block :=
  mkBlock (demo_hash 1) 5 0 (demo_hash 2) [] (buildHeader 5 0 (demo_hash 2)) [].

Lemma fresh_server_ok : server_ok fresh_server.
Proof. split; [exact New_inv|exact demo_policy_ok]. Qed.

Lemma ingest_turn_advances_witness :
  exists s', ingest_turn 0 (fresh_server, [demo_block]) = (Ok tt, (s', [])) /\ ingested demo_block fresh_server s'
    /\ sv_ready s' = true.
Proof.
  apply (ingest_turn_advances 0 fresh_server [demo_block] [] demo_block fresh_server_ok);
    [reflexivity|reflexivity|exact demo_block_valid|exact demo_height].
Defined.

Lemma ingest_turn_drops_block_witness :
  ingest_turn 0 (fresh_server, [empty_block]) = (Ok tt, (fresh_server, [])).
Proof.
  apply (ingest_turn_drops_block 0 fresh_server [empty_block] [] empty_block ErrInvalidBlock); reflexivity.
Defined.

Lemma ingest_once_ready_witness :
  exists s' m', IngestOnce 4 (fresh_server, demo_mock) = (Ok tt, (s', m')) /\ sv_ready s' = true
    /\ sv_tip s' = 100 + 3 - 1 /\ mt_blocks (sv_met s') = 3.
Proof.
  apply (ingest_once_ready 4 (demo_sconfig false) New (mkMockConfig 3 1 3 2 100 7));
    [exact New_inv|exact demo_policy_ok|vm_compute; discriminate|vm_compute; reflexivity|vm_compute; reflexivity].
Defined.
