(* ===== verification/Aerospike.v ===== *)
(** * store/aerospike: the database back end ([src/store/aerospike/aerospike.go])

    The [Store] interface over an Aerospike namespace: each record is a row of
    named bins under a (set, key) pair, and two more sets hold, per height, the
    spent outpoints and the block, subtrees and transactions of that height.
    The client library is not part of the repository: it is the class
    [AeroClient], and [LawfulClient] states the documented behaviour the code
    relies on (a write merges its bins into the row, a list operation appends or
    removes one value, a read of an absent row gives nil).  [aero_rel] relates
    the rows to the reference store of [StoreSpec].  The theorems show that
    every operation of the interface, under the guard that makes its secondary
    index exact, succeeds and agrees with the reference store, and what happens
    outside of the guard: an output spent twice is deleted by the sweep of its
    first spend height. *)

From stdpp Require Import base gmap list strings.
From Stdlib Require Import ZArith Lia ZifyNat.
From Stdlib Require Strings.Byte.
From S2P Require Import Prelude Commitment StoreSpec.
Open Scope go_scope.

(** ** The client library *)

(** A bin holds an [int], a [[]byte] or a list. *)
Inductive Value : Type :=
| VInt (z : Z)
| VBytes (b : list byte)
| VList (l : list Value).

#[global] Instance Value_eq_dec : EqDecision Value.
Proof.
  unshelve refine (fix go (v w : Value) : Decision (v = w) :=
    let golist := fix golist (l m : list Value) : Decision (l = m) :=
      match l, m with
      | [], [] => left eq_refl
      | a :: l', b :: m' =>
          match go a b, golist l' m' with
          | left E1, left E2 => left (f_equal2 cons E1 E2)
          | right N, _ => right _
          | _, right N => right _
          end
      | _, _ => right _
      end in
    match v, w with
    | VInt a, VInt b => cast_if (decide (a = b))
    | VBytes a, VBytes b => cast_if (decide (a = b))
    | VList l, VList m => cast_if (golist l m)
    | _, _ => right _
    end); try clear golist; try clear go; congruence.
Defined.

Abbreviation BinMap := (gmap string Value).

(** [K] is [*aero.Key]; a failing [Delete] reports that nothing was deleted. *)
Class AeroClient (D K : Type) : Type := mkClient
  { cl_NewKey : string -> string -> list byte -> result K;
    cl_Put : K -> BinMap -> M D unit;
    cl_Get : K -> M D (option BinMap);
    cl_Delete : K -> M D bool;
    cl_ListAppend : K -> string -> Value -> M D unit;
    cl_ListRemoveByValue : K -> string -> Value -> M D unit }.

(** ** Encodings *)

Definition setTxIndex : string := "txindex".
Definition setUTXO : string := "utxo".
Definition setSubtree : string := "subtree".
Definition setBlock : string := "block".
Definition setHeader : string := "header".
Definition setSpentIdx : string := "spentidx".
Definition setHeightIdx : string := "heightidx".

Definition outpointKey (op : Outpoint) : list byte := abytes (op_TxID op) ++ be_bytes 4 (op_Vout op).
Definition u32_key (v : Z) : list byte := be_bytes 4 v.

(** The hashes one after the other: the [i]-th is copied at [32 * i]. *)
Definition packHashes (hs : list Hash) : list byte := concat (abytes <$> hs).
Definition unpackHashes (b : list byte) : list Hash :=
  (fun i => arr 32 (drop (i * 32) b)) <$> seq 0 (length b / 32).

(** The argument is an [interface{}]: [None] is nil. *)
Definition toInt (v : option Value) : Z := match v with Some (VInt z) => z | _ => 0 end.
Definition toInt64 (v : option Value) : Z := match v with Some (VInt z) => z | _ => 0 end.
Definition toBytes (v : option Value) : list byte := match v with Some (VBytes b) => b | _ => [] end.
(** [list, _ := v.([]interface{})]. *)
Definition toList (v : option Value) : list Value := match v with Some (VList l) => l | _ => [] end.

Definition int_of_bool (b : bool) : Z := if b then 1 else 0.

Definition txindex_bins (ix : TxIndex) : BinMap :=
  list_to_map
    [("mined", VInt (int_of_bool (ix_Mined ix))); ("bh", VBytes (abytes (ix_BlockHash ix)));
     ("ht", VInt (i64 (ix_Height ix))); ("bt", VInt (i64 (ix_BlockTime ix)));
     ("si", VInt (i64 (ix_SubtreeIndex ix))); ("li", VInt (i64 (ix_LeafIndex ix)));
     ("sn", VInt (ix_SeenTime ix))].
Definition txindex_of (b : BinMap) : TxIndex :=
  mkTxIndex (toInt (b !! "mined") =? 1) (arr 32 (toBytes (b !! "bh"))) (u32 (toInt (b !! "ht")))
    (u32 (toInt (b !! "bt"))) (u32 (toInt (b !! "si"))) (u32 (toInt (b !! "li")))
    (toInt64 (b !! "sn")).

Definition utxo_bins (u : UTXO) : BinMap :=
  list_to_map
    [("val", VInt (i64 (u_Value u))); ("sh", VBytes (abytes (u_ScriptHash u)));
     ("sp", VInt (int_of_bool (u_Spent u))); ("spby", VBytes (abytes (u_SpentBy u)));
     ("spht", VInt (i64 (u_SpentHeight u)))].
Definition utxo_of (b : BinMap) : UTXO :=
  mkUTXO (u64 (toInt (b !! "val"))) (arr 32 (toBytes (b !! "sh"))) (toInt (b !! "sp") =? 1)
    (arr 32 (toBytes (b !! "spby"))) (u32 (toInt (b !! "spht"))).

Definition block_bins (b : BlockRec) : BinMap :=
  list_to_map
    [("ht", VInt (i64 (br_Height b))); ("bt", VInt (i64 (br_Time b)));
     ("mr", VBytes (abytes (br_MerkleRoot b))); ("sr", VBytes (packHashes (br_SubtreeRoots b)));
     ("hdr", VBytes (abytes (br_Header b)))].
Definition block_of (hash : Hash) (b : BinMap) : BlockRec :=
  mkBlockRec hash (u32 (toInt (b !! "ht"))) (u32 (toInt (b !! "bt"))) (arr 32 (toBytes (b !! "mr")))
    (unpackHashes (toBytes (b !! "sr"))) (arr 80 (toBytes (b !! "hdr"))).

Definition height_bins (b : BlockRec) : BinMap :=
  list_to_map [("blk", VBytes (abytes (br_Hash b))); ("subs", VBytes (packHashes (br_SubtreeRoots b)))].

(** ** The store *)

Section store.
Context {D K : Type} `{AeroClient D K} (ns : string).

Definition key (set : string) (k : list byte) : M D K := mlift (cl_NewKey ns set k).

(** [err] of a call that the caller drops: [_ = m] and [ok, _ := m]. *)
Definition ignore (m : M D unit) : M D unit := mtry m ;; mret tt.
Definition ok_or_false (m : M D bool) : M D bool :=
  r <- mtry m ;; mret (match r with Ok b => b | _ => false end).

(** The row of a key, as every [Get] method reads it. *)
Definition get_row {A} (set : string) (k : list byte) (of_ : BinMap -> A) : M D (option A) :=
  k <- key set k ;; rec <- cl_Get k ;; mret (of_ <$> rec).

(** *** TxIndex *)

Definition indexHeightTx (height : Z) (txid : Hash) : M D unit :=
  k <- key setHeightIdx (u32_key height) ;; cl_ListAppend k "txids" (VBytes (abytes txid)).

Definition aero_PutTxIndex (txid : Hash) (ix : TxIndex) : M D unit :=
  k <- key setTxIndex (abytes txid) ;;
  cl_Put k (txindex_bins ix) ;;
  if ix_Mined ix then indexHeightTx (ix_Height ix) txid else mret tt.

Definition aero_GetTxIndex (txid : Hash) : M D (option TxIndex) :=
  get_row setTxIndex (abytes txid) txindex_of.

Definition aero_DeleteTxIndex (txid : Hash) : M D bool :=
  k <- key setTxIndex (abytes txid) ;; cl_Delete k.

(** *** UTXO *)

Definition aero_indexSpent (op : Outpoint) (h : Z) : M D unit :=
  k <- key setSpentIdx (u32_key h) ;; cl_ListAppend k "ops" (VBytes (outpointKey op)).
Definition aero_deindexSpent (op : Outpoint) (h : Z) : M D unit :=
  k <- key setSpentIdx (u32_key h) ;; cl_ListRemoveByValue k "ops" (VBytes (outpointKey op)).

Definition aero_PutUTXO (op : Outpoint) (u : UTXO) : M D unit :=
  k <- key setUTXO (outpointKey op) ;;
  cl_Put k (utxo_bins u) ;;
  if u_Spent u then aero_indexSpent op (u_SpentHeight u) else mret tt.

Definition aero_GetUTXO (op : Outpoint) : M D (option UTXO) := get_row setUTXO (outpointKey op) utxo_of.

Definition aero_SpendUTXO (op : Outpoint) (spentBy : Hash) (spentHeight : Z) : M D bool :=
  r <- aero_GetUTXO op ;;
  match r with
  | None => mret false
  | Some u => aero_PutUTXO op (mark_spent u spentBy spentHeight) ;; mret true
  end.

Definition aero_UnspendUTXO (op : Outpoint) : M D bool :=
  r <- aero_GetUTXO op ;;
  match r with
  | None => mret false
  | Some u =>
      (if u_Spent u then ignore (aero_deindexSpent op (u_SpentHeight u)) else mret tt) ;;
      aero_PutUTXO op (mark_unspent u) ;; mret true
  end.

Definition aero_DeleteUTXO (op : Outpoint) : M D bool :=
  r <- aero_GetUTXO op ;;
  (match r with
   | Some u => if u_Spent u then ignore (aero_deindexSpent op (u_SpentHeight u)) else mret tt
   | None => mret tt
   end) ;;
  k <- key setUTXO (outpointKey op) ;; cl_Delete k.

(** Deletes one row, adding to the count if it was there; a key that cannot be
    built is skipped. *)
Definition del (set : string) (keyBytes : list byte) (n : Z) : M D Z :=
  r <- mtry (key set keyBytes) ;;
  match r with
  | Ok dk => ok <- ok_or_false (cl_Delete dk) ;; mret (if ok then n + 1 else n)
  | _ => mret n
  end.
Fixpoint del_all (set : string) (ks : list (list byte)) (n : Z) : M D Z :=
  match ks with
  | [] => mret n
  | k :: r => n' <- del set k n ;; del_all set r n'
  end.

Definition aero_PruneSpentAtHeight (h : Z) : M D Z :=
  k <- key setSpentIdx (u32_key h) ;;
  rec <- cl_Get k ;;
  match rec with
  | None => mret 0
  | Some bins =>
      n <- del_all setUTXO ((fun v => toBytes (Some v)) <$> toList (bins !! "ops")) 0 ;;
      ok_or_false (cl_Delete k) ;; mret n
  end.

(** *** Subtree, block, header *)

Definition aero_PutSubtree (root : Hash) (leaves : list Hash) : M D unit :=
  k <- key setSubtree (abytes root) ;; cl_Put k (list_to_map [("leaves", VBytes (packHashes leaves))]).
Definition aero_GetSubtree (root : Hash) : M D (option (list Hash)) :=
  get_row setSubtree (abytes root) (fun b => unpackHashes (toBytes (b !! "leaves"))).

Definition indexHeightBlock (b : BlockRec) : M D unit :=
  k <- key setHeightIdx (u32_key (br_Height b)) ;; cl_Put k (height_bins b).
Definition aero_PutBlock (b : BlockRec) : M D unit :=
  k <- key setBlock (abytes (br_Hash b)) ;; cl_Put k (block_bins b) ;; indexHeightBlock b.
Definition aero_GetBlock (hash : Hash) : M D (option BlockRec) :=
  get_row setBlock (abytes hash) (block_of hash).

Definition aero_PutHeader (height : Z) (hdr : Header) : M D unit :=
  k <- key setHeader (u32_key height) ;; cl_Put k (list_to_map [("hdr", VBytes (abytes hdr))]).
Definition aero_GetHeader (height : Z) : M D (option Header) :=
  get_row setHeader (u32_key height) (fun b => arr 80 (toBytes (b !! "hdr"))).

(** The keys of the rows a height entry lists. *)
Definition entry_blocks (bins : BinMap) : list (list byte) :=
  let blk := toBytes (bins !! "blk") in if (length blk =? 32)%nat then [blk] else [].
Definition entry_subs (bins : BinMap) : list (list byte) :=
  abytes <$> unpackHashes (toBytes (bins !! "subs")).
Definition entry_txids (bins : BinMap) : list (list byte) :=
  filter (fun tb => length tb = 32%nat) ((fun v => toBytes (Some v)) <$> toList (bins !! "txids")).

(** The rows an index entry lists; there may be no entry. *)
Definition drop_entry (rec : option BinMap) : M D Z :=
  match rec with
  | None => mret 0
  | Some bins =>
      n <- del_all setBlock (entry_blocks bins) 0 ;;
      n <- del_all setSubtree (entry_subs bins) n ;;
      del_all setTxIndex (entry_txids bins) n
  end.

Definition aero_PruneIndexAtHeight (h : Z) : M D Z :=
  k <- key setHeightIdx (u32_key h) ;;
  rec <- cl_Get k ;;
  n <- drop_entry rec ;;
  n <- del setHeader (u32_key h) n ;;
  match rec with
  | None => mret n
  | Some _ => ok_or_false (cl_Delete k) ;; mret n
  end.

Definition aero_Stats : Stats := mkStats 0 0 0 0 0 0.

Definition aero_store : Store D :=
  {| PutTxIndex := aero_PutTxIndex; GetTxIndex := aero_GetTxIndex;
     PutUTXO := aero_PutUTXO; GetUTXO := aero_GetUTXO; SpendUTXO := aero_SpendUTXO;
     UnspendUTXO := aero_UnspendUTXO; DeleteUTXO := aero_DeleteUTXO; DeleteTxIndex := aero_DeleteTxIndex;
     PutSubtree := aero_PutSubtree; GetSubtree := aero_GetSubtree;
     PutBlock := aero_PutBlock; GetBlock := aero_GetBlock;
     PutHeader := aero_PutHeader; GetHeader := aero_GetHeader;
     PruneSpentAtHeight := aero_PruneSpentAtHeight; PruneIndexAtHeight := aero_PruneIndexAtHeight |}.
End store.

(** ** What the code relies on *)

(** The rows of a namespace: bins by set and key. *)
Abbreviation Rows := (gmap (string * list byte) BinMap).

(** The list in a bin: a row or bin that is absent is an empty list, a bin of
    another kind is none. *)
Definition bin_list (b : BinMap) (bin : string) : option (list Value) :=
  match b !! bin with
  | None => Some []
  | Some (VList l) => Some l
  | Some _ => None
  end.
Definition row (rows : Rows) (k : string * list byte) : BinMap := default ∅ (rows !! k).

(** Calls succeed, keys of different rows differ, [Put] merges bins into the
    row, the list operations act on one bin, and [Get] of an absent row is nil.
    Removing from a list that is not there is left open: its error is dropped. *)
Class LawfulClient (D K : Type) `{AeroClient D K} (ns : string) : Type := mkLawfulClient
  { rows_of : D -> Rows;
    key_of : K -> string * list byte;
    law_key : forall set kb, exists k, cl_NewKey ns set kb = Ok k /\ key_of k = (set, kb);
    law_put : forall k b d, exists d', cl_Put k b d = (Ok tt, d')
      /\ rows_of d' = <[key_of k := b ∪ row (rows_of d) (key_of k)]> (rows_of d);
    law_get : forall k d, exists d', cl_Get k d = (Ok (rows_of d !! key_of k), d') /\ rows_of d' = rows_of d;
    law_delete : forall k d, exists d',
      cl_Delete k d = (Ok (bool_decide (is_Some (rows_of d !! key_of k))), d')
      /\ rows_of d' = delete (key_of k) (rows_of d);
    law_append : forall k bin v d l, bin_list (row (rows_of d) (key_of k)) bin = Some l ->
      exists d', cl_ListAppend k bin v d = (Ok tt, d')
      /\ rows_of d' = <[key_of k := <[bin := VList (l ++ [v])]> (row (rows_of d) (key_of k))]> (rows_of d);
    law_remove : forall k bin v d b l, rows_of d !! key_of k = Some b -> b !! bin = Some (VList l) ->
      exists d', cl_ListRemoveByValue k bin v d = (Ok tt, d')
      /\ rows_of d' = <[key_of k := <[bin := VList (filter (fun w => w <> v) l)]> b]> (rows_of d) }.

(** ** The rows a call leaves *)

Implicit Types (r : Rows) (set bin : string) (kb : list byte).

Section rows.
Context {D K : Type} `{LawfulClient D K ns}.

(** From any state with these rows the call succeeds, and its result and the
    rows it leaves satisfy [Q]. *)
Definition wp {A} (m : M D A) r (Q : A -> Rows -> Prop) : Prop :=
  forall d, rows_of d = r -> exists a d', m d = (Ok a, d') /\ Q a (rows_of d').

Lemma wp_mono {A} (m : M D A) r (Q Q' : A -> Rows -> Prop) :
  wp m r Q -> (forall a r', Q a r' -> Q' a r') -> wp m r Q'.
Proof. intros Hm HQ d Hd. destruct (Hm d Hd) as (a & d' & E & Ha). eauto. Qed.

Lemma wp_ret {A} (a : A) r (Q : A -> Rows -> Prop) : Q a r -> wp (mret a) r Q.
Proof. intros HQ d <-. by exists a, d. Qed.

Lemma wp_bind {A B} (m : M D A) (k : A -> M D B) r (Q : B -> Rows -> Prop) :
  wp m r (fun a r' => wp (k a) r' Q) -> wp (mbind m k) r Q.
Proof.
  intros Hm d Hd. destruct (Hm d Hd) as (a & d' & E & Hk).
  destruct (Hk d' eq_refl) as (b & d'' & E' & HQ). exists b, d''.
  by rewrite (mbind_ok _ _ _ _ _ E).
Qed.

Lemma wp_try {A} (m : M D A) r (Q : result A -> Rows -> Prop) :
  wp m r (fun a => Q (Ok a)) -> wp (mtry m) r Q.
Proof.
  intros Hm d Hd. destruct (Hm d Hd) as (a & d' & E & HQ). exists (Ok a), d'.
  unfold mtry. by rewrite E.
Qed.

Lemma wp_key set kb r (Q : K -> Rows -> Prop) :
  (forall k, key_of k = (set, kb) -> Q k r) -> wp (key ns set kb) r Q.
Proof.
  intros HQ d <-. destruct (law_key set kb) as (k & E & Hk). exists k, d.
  unfold key, mlift. rewrite E. split; [done|by apply HQ].
Qed.

Lemma wp_put (k : K) (b : BinMap) r Q : Q tt (<[key_of k := b ∪ row r (key_of k)]> r) -> wp (cl_Put k b) r Q.
Proof. intros HQ d <-. destruct (law_put k b d) as (d' & E & Hr). exists tt, d'. by rewrite Hr. Qed.

Lemma wp_get (k : K) r (Q : option BinMap -> Rows -> Prop) : Q (r !! key_of k) r -> wp (cl_Get k) r Q.
Proof. intros HQ d <-. destruct (law_get k d) as (d' & E & Hr). eexists _, d'. by rewrite Hr. Qed.

Lemma wp_delete (k : K) r (Q : bool -> Rows -> Prop) :
  Q (bool_decide (is_Some (r !! key_of k))) (delete (key_of k) r) -> wp (cl_Delete k) r Q.
Proof. intros HQ d <-. destruct (law_delete k d) as (d' & E & Hr). eexists _, d'. by rewrite Hr. Qed.

Lemma wp_append (k : K) bin (v : Value) r (l : list Value) Q :
  bin_list (row r (key_of k)) bin = Some l ->
  Q tt (<[key_of k := <[bin := VList (l ++ [v])]> (row r (key_of k))]> r) ->
  wp (cl_ListAppend k bin v) r Q.
Proof.
  intros Hl HQ d <-. destruct (law_append k bin v d l Hl) as (d' & E & Hr). exists tt, d'. by rewrite Hr.
Qed.

Lemma wp_remove (k : K) bin (v : Value) r (b : BinMap) (l : list Value) Q :
  r !! key_of k = Some b -> b !! bin = Some (VList l) ->
  Q tt (<[key_of k := <[bin := VList (filter (fun w => w <> v) l)]> b]> r) ->
  wp (cl_ListRemoveByValue k bin v) r Q.
Proof.
  intros Hb Hl HQ d <-. destruct (law_remove k bin v d b l Hb Hl) as (d' & E & Hr). exists tt, d'. by rewrite Hr.
Qed.

Lemma wp_get_row {A} set kb (of_ : BinMap -> A) r (Q : option A -> Rows -> Prop) :
  Q (of_ <$> r !! (set, kb)) r -> wp (get_row ns set kb of_) r Q.
Proof.
  intros HQ. apply wp_bind, wp_key. intros k Hk. apply wp_bind, wp_get, wp_ret. by rewrite Hk.
Qed.

Lemma wp_ok_or_false (m : M D bool) r (Q : bool -> Rows -> Prop) : wp m r Q -> wp (ok_or_false m) r Q.
Proof.
  intros Hm. apply wp_bind, wp_try. eapply wp_mono; [exact Hm|]. intros a r' Ha. by apply wp_ret.
Qed.

Lemma wp_del set kb (n : Z) r (Q : Z -> Rows -> Prop) :
  Q (n + int_of_bool (bool_decide (is_Some (r !! (set, kb))))) (delete (set, kb) r) ->
  wp (del ns set kb n) r Q.
Proof.
  intros HQ. apply wp_bind, wp_try, wp_key. intros k Hk. apply wp_bind, wp_ok_or_false, wp_delete, wp_ret.
  rewrite Hk. case_bool_decide; simpl in HQ; by rewrite ?Z.add_0_r in HQ.
Qed.
End rows.

(** ** The rows of a table *)

(** [m] is the content of the rows of [set]: every key of the table's type
    ([P]) has a row iff it is in [m], and the row represents its value. *)
Definition tab_rel {A V} `{Countable A} (set : string) (enc : A -> list byte) (P : A -> Prop)
    (R : A -> V -> BinMap -> Prop) (r : Rows) (m : gmap A V) : Prop :=
  (forall a, is_Some (m !! a) -> P a)
  /\ (forall a, P a -> option_Forall2 (R a) (m !! a) (r !! (set, enc a))).

Section tables.
Context {A V : Type} `{Countable A} (set : string) (enc : A -> list byte) (P : A -> Prop).
Context (R : A -> V -> BinMap -> Prop) (enc_inj : forall a b, P a -> P b -> enc a = enc b -> a = b).

Abbreviation tab := (tab_rel set enc P R).

Lemma tab_lookup r (m : gmap A V) (a : A) : tab r m -> P a -> option_Forall2 (R a) (m !! a) (r !! (set, enc a)).
Proof. intros [_ Ht]. apply Ht. Qed.

Lemma tab_present r (m : gmap A V) (a : A) : tab r m -> P a -> is_Some (r !! (set, enc a)) <-> is_Some (m !! a).
Proof. intros Ht Ha. destruct (tab_lookup r m a Ht Ha); split; intros []; eauto; done. Qed.

Lemma tab_insert r (m : gmap A V) (a : A) (v : V) (b : BinMap) : tab r m -> P a -> R a v b -> tab (<[(set, enc a) := b]> r) (<[a := v]> m).
Proof using enc_inj.
  intros [Hd Ht] Ha HR. split.
  - intros a' Ha'. destruct (decide (a = a')) as [<-|Hne]; [done|].
    rewrite lookup_insert_ne in Ha' by done. eauto.
  - intros a' Ha'. destruct (decide (a = a')) as [<-|Hne].
    + rewrite !lookup_insert_eq. by constructor.
    + rewrite !lookup_insert_ne; [by apply Ht|intros [=]; eauto|done].
Qed.

Lemma tab_delete r (m : gmap A V) (a : A) : tab r m -> P a -> tab (delete (set, enc a) r) (delete a m).
Proof using enc_inj.
  intros [Hd Ht] Ha. split.
  - intros a' [v Hv]. apply lookup_delete_Some in Hv as [_ Hv]. eauto.
  - intros a' Ha'. destruct (decide (a = a')) as [<-|Hne].
    + rewrite !lookup_delete_eq. constructor.
    + rewrite !lookup_delete_ne; [by apply Ht|intros [=]; eauto|done].
Qed.

(** Rows of other sets do not matter. *)
Lemma tab_agree r r' (m : gmap A V) : tab r m -> (forall kb, r' !! (set, kb) = r !! (set, kb)) -> tab r' m.
Proof. intros [Hd Ht] Hr. split; [done|]. intros a Ha. rewrite Hr. by apply Ht. Qed.
End tables.

Lemma rows_insert_other r set set' kb kb' (b : BinMap) : set <> set' -> <[(set, kb) := b]> r !! (set', kb') = r !! (set', kb').
Proof. intros Hs. apply lookup_insert_ne. by intros [=]. Qed.
Lemma rows_delete_other r set set' kb kb' : set <> set' -> delete (set, kb) r !! (set', kb') = r !! (set', kb').
Proof. intros Hs. apply lookup_delete_ne. by intros [=]. Qed.

(** ** Round trips of the encodings *)

Definition vout_ok (op : Outpoint) : Prop := is_u 32 (op_Vout op).
Definition txindex_ok (ix : TxIndex) : Prop :=
  is_u 32 (ix_Height ix) /\ is_u 32 (ix_BlockTime ix) /\ is_u 32 (ix_SubtreeIndex ix) /\ is_u 32 (ix_LeafIndex ix).
Definition utxo_ok (u : UTXO) : Prop := is_u 64 (u_Value u) /\ is_u 32 (u_SpentHeight u).
Definition block_ok (b : BlockRec) : Prop := is_u 32 (br_Height b) /\ is_u 32 (br_Time b).

Lemma u32_key_inj x y : is_u 32 x -> is_u 32 y -> u32_key x = u32_key y -> x = y.
Proof. exact (be_bytes_inj 4 x y). Qed.

Lemma abytes_inj' {n} (a b : array n) : True -> True -> abytes a = abytes b -> a = b.
Proof. intros _ _. apply array_ext. Qed.

Lemma outpointKey_inj a b : vout_ok a -> vout_ok b -> outpointKey a = outpointKey b -> a = b.
Proof.
  destruct a as [ta va], b as [tb vb]. unfold vout_ok, outpointKey. simpl. intros Ha Hb E.
  apply app_inj_len in E as [Et Ev]; [|by rewrite !abytes_length].
  apply array_ext in Et. apply (u32_key_inj va vb Ha Hb) in Ev. by subst.
Qed.

Lemma length_packHashes hs : length (packHashes hs) = (32 * length hs)%nat.
Proof.
  unfold packHashes. induction hs as [|h r IH]; [done|]. cbn [fmap list_fmap concat].
  rewrite length_app, abytes_length, IH. simpl. lia.
Qed.

Lemma unpackHashes_app h b : unpackHashes (abytes h ++ b) = h :: unpackHashes b.
Proof.
  unfold unpackHashes. rewrite length_app, abytes_length.
  replace ((32 + length b) / 32)%nat with (S (length b / 32)) by (symmetry; apply (Nat.div_add_l 1 32 (length b)); lia).
  cbn [seq fmap list_fmap]. f_equal.
  - rewrite drop_0. apply array_ext. unfold arr, abytes at 1. simpl proj1_sig. unfold fit.
    rewrite take_app_le by (rewrite abytes_length; lia). rewrite <- (abytes_length h) at 1.
    rewrite firstn_all. rewrite length_app, abytes_length.
    replace (32 - (32 + length b))%nat with 0%nat by lia. apply app_nil_r.
  - rewrite <- seq_shift. rewrite <- list_fmap_compose. apply list_fmap_ext. intros _ i _. unfold compose.
    replace (S i * 32)%nat with (length (abytes h) + i * 32)%nat by (rewrite abytes_length; lia).
    by rewrite drop_app_add.
Qed.

Lemma unpack_pack hs : unpackHashes (packHashes hs) = hs.
Proof.
  unfold packHashes. induction hs as [|h r IH]; [done|]. cbn [fmap list_fmap concat].
  by rewrite unpackHashes_app, IH.
Qed.

Lemma u32_i64 z : is_u 32 z -> u32 (i64 z) = z.
Proof.
  intros Hz. unfold is_u in Hz. rewrite i64_small by lia. by apply u32_small.
Qed.
Lemma int_of_bool_1 b : (int_of_bool b =? 1) = b.
Proof. by destruct b. Qed.

(** Reading a bin of a row that was just written. *)
Lemma lookup_bins (m b : BinMap) bin v : m !! bin = Some v -> (m ∪ b) !! bin = Some v.
Proof. intros E. by apply lookup_union_Some_l. Qed.
Ltac read_bins := repeat (erewrite lookup_bins by reflexivity); cbn [snd toInt toInt64 toBytes toList].

Lemma txindex_roundtrip ix b : txindex_ok ix -> txindex_of (txindex_bins ix ∪ b) = ix.
Proof.
  intros (H1 & H2 & H3 & H4). unfold txindex_of, txindex_bins. read_bins.
  rewrite !u32_i64, int_of_bool_1, arr_abytes by done. by destruct ix.
Qed.

Lemma utxo_roundtrip u b : utxo_ok u -> utxo_of (utxo_bins u ∪ b) = u.
Proof.
  intros [H1 H2]. unfold utxo_of, utxo_bins. read_bins.
  rewrite u64_i64, u32_i64, int_of_bool_1, !arr_abytes by done. by destruct u.
Qed.

Lemma block_roundtrip x b : block_ok x -> block_of (br_Hash x) (block_bins x ∪ b) = x.
Proof.
  intros [H1 H2]. unfold block_of, block_bins. read_bins.
  rewrite !u32_i64, !arr_abytes, unpack_pack by done. by destruct x.
Qed.

(** What a row decodes to is always in range. *)
Lemma utxo_of_ok b : utxo_ok (utxo_of b).
Proof. split; [apply u64_range|apply u32_range]. Qed.

(** ** The rows against the reference store *)

Definition height_row (h : Z) (e : heightEntry) (b : BinMap) : Prop :=
  entry_blocks b = (if he_hasBlock e then [abytes (he_block e)] else [])
  /\ entry_subs b = abytes <$> he_subtrees e
  /\ bin_list b "txids" = Some ((fun t => VBytes (abytes t)) <$> he_txids e).

(** The index row of a height lists exactly the outputs spent at it. *)
Definition spent_rel (r : Rows) (m : gmap Outpoint UTXO) : Prop :=
  forall h, is_u 32 h ->
  exists l, bin_list (row r (setSpentIdx, u32_key h)) "ops" = Some l
  /\ forall v, v ∈ l <-> exists op u, v = VBytes (outpointKey op) /\ m !! op = Some u /\ spent_at h u = true.

Abbreviation any := (fun _ => True).

Record aero_rel (r : Rows) (f : Flat) : Prop := mkAeroRel
  { ar_tx : tab_rel setTxIndex abytes any (fun _ ix b => txindex_of b = ix) r (f_txindex f);
    ar_utxo : tab_rel setUTXO outpointKey vout_ok (fun _ u b => utxo_of b = u) r (f_utxo f);
    ar_sub : tab_rel setSubtree abytes any (fun _ l b => unpackHashes (toBytes (b !! "leaves")) = l) r (f_subtree f);
    ar_blk : tab_rel setBlock abytes any (fun h x b => block_of h b = x) r (f_blocks f);
    ar_hdr : tab_rel setHeader u32_key (is_u 32) (fun _ x b => arr 80 (toBytes (b !! "hdr")) = x) r (f_hdr f);
    ar_hidx : tab_rel setHeightIdx u32_key (is_u 32) height_row r (f_hidx f);
    ar_spent : spent_rel r (f_utxo f) }.

Lemma aero_rel_empty : aero_rel ∅ flatEmpty.
Proof.
  split; try (split; [by intros a [? ?]|intros; rewrite !lookup_empty; constructor]).
  intros h _. exists []. split; [done|]. intros v. split; [by intros ?%elem_of_nil|].
  intros (op & u & _ & E & _). cbn [f_utxo flatEmpty] in E. by rewrite lookup_empty in E.
Qed.

(** A table whose rows are decoded by [of_] reads back its content. *)
Lemma tab_read {A V} `{Countable A} set (enc : A -> list byte) (P : A -> Prop) (of_ : A -> BinMap -> V) r m a :
  tab_rel set enc P (fun a v b => of_ a b = v) r m -> P a -> of_ a <$> r !! (set, enc a) = m !! a.
Proof. intros Ht Ha. destruct (tab_lookup _ _ _ _ _ _ a Ht Ha); simpl; by subst. Qed.

(** The rows outside of one set did not change. *)
Definition same_but (set : string) (r r' : Rows) : Prop :=
  forall set' kb, set' <> set -> r' !! (set', kb) = r !! (set', kb).

Lemma same_but_insert set kb b r : same_but set r (<[(set, kb) := b]> r).
Proof. intros set' kb' Hs. by apply rows_insert_other. Qed.
Lemma same_but_delete set kb r : same_but set r (delete (set, kb) r).
Proof. intros set' kb' Hs. by apply rows_delete_other. Qed.
Lemma same_but_trans set r1 r2 r3 : same_but set r1 r2 -> same_but set r2 r3 -> same_but set r1 r3.
Proof. intros H1 H2 set' kb Hs. by rewrite H2, H1. Qed.
#[local] Hint Resolve same_but_insert same_but_delete : same.

Lemma tab_same {A V} `{Countable A} set set' (enc : A -> list byte) P (R : A -> V -> BinMap -> Prop) r r' m :
  same_but set' r r' -> set <> set' -> tab_rel set enc P R r m -> tab_rel set enc P R r' m.
Proof. intros Hs Hne Ht. eapply tab_agree; [exact Ht|]. intros kb. by apply Hs. Qed.
Lemma spent_same set' r r' m : same_but set' r r' -> setSpentIdx <> set' -> spent_rel r m -> spent_rel r' m.
Proof. intros Hs Hne Ht h Hh. unfold row. rewrite Hs by done. by apply Ht. Qed.

(** Carries every unchanged table over a change of one set. *)
Ltac carry :=
  first [ eassumption
        | eapply tab_same; [solve [eauto with same]|discriminate|carry]
        | eapply spent_same; [solve [eauto with same]|discriminate|carry] ].

(** *** The height index *)

Lemma height_row_empty h : height_row h emptyEntry ∅.
Proof. done. Qed.

Lemma hidx_row r m h :
  tab_rel setHeightIdx u32_key (is_u 32) height_row r m -> is_u 32 h ->
  height_row h (entry_at m h) (row r (setHeightIdx, u32_key h)).
Proof.
  intros Ht Hh. unfold entry_at, row. destruct (tab_lookup _ _ _ _ _ _ h Ht Hh); simpl; [done|apply height_row_empty].
Qed.

Lemma height_row_txid h e b t :
  height_row h e b ->
  height_row h (add_txid t e)
    (<["txids" := VList (((fun t => VBytes (abytes t)) <$> he_txids e) ++ [VBytes (abytes t)])]> b).
Proof.
  intros (H1 & H2 & H3). split; [|split]; simpl.
  - unfold entry_blocks in *. rewrite lookup_insert_ne by done. done.
  - unfold entry_subs in *. rewrite lookup_insert_ne by done. done.
  - unfold bin_list. rewrite lookup_insert_eq. by rewrite fmap_app.
Qed.

Lemma height_row_block h e b x : height_row h e b -> height_row h (set_entry_block x e) (height_bins x ∪ b).
Proof.
  intros (H1 & H2 & H3). unfold height_row, entry_blocks, entry_subs, height_bins. simpl. read_bins.
  rewrite abytes_length, unpack_pack. split; [done|split; [done|]].
  unfold bin_list in *. by rewrite lookup_union_r.
Qed.

Lemma height_row_txids h e b : height_row h e b -> entry_txids b = abytes <$> he_txids e.
Proof.
  intros (_ & _ & H3). unfold bin_list in H3. unfold entry_txids.
  assert (toList (b !! "txids") = (fun t => VBytes (abytes t)) <$> he_txids e) as ->.
  { destruct (b !! "txids") as [[]|]; cbn [toList]; congruence. }
  clear H3. induction (he_txids e) as [|t l IH]; [done|]. cbn [fmap list_fmap toBytes].
  rewrite filter_cons, abytes_length, decide_True by done. by f_equal.
Qed.

(** *** The spent index *)

Lemma spent_at_iff h u : spent_at h u = true <-> u_Spent u = true /\ u_SpentHeight u = h.
Proof. unfold spent_at. rewrite andb_true_iff, Z.eqb_eq. done. Qed.

(** Two tables in which the same outputs are spent at every height. *)
Lemma spent_rel_ext r m m' :
  (forall h op, (exists u, m !! op = Some u /\ spent_at h u = true)
     <-> (exists u, m' !! op = Some u /\ spent_at h u = true)) ->
  spent_rel r m -> spent_rel r m'.
Proof.
  intros Hm Hs h Hh. destruct (Hs h Hh) as (l & E & Hl). exists l. split; [done|]. intros v.
  rewrite Hl. split; intros (op & u & -> & Hu);
    [destruct (proj1 (Hm h op)) as (u' & ?)|destruct (proj2 (Hm h op)) as (u' & ?)]; eauto.
Qed.

Lemma spent_rel_put_live r m op u :
  u_Spent u = false -> spent_rel r (delete op m) -> spent_rel r (<[op := u]> m).
Proof.
  intros Hu. apply spent_rel_ext. intros h op'. destruct (decide (op = op')) as [<-|Hne].
  - rewrite lookup_delete_eq, lookup_insert_eq. split; [by intros (? & ? & _)|].
    intros (? & [= <-] & [Hs _]%spent_at_iff). congruence.
  - by rewrite lookup_delete_ne, lookup_insert_ne by done.
Qed.

Lemma spent_rel_delete_live r m op :
  (forall u, m !! op = Some u -> u_Spent u = false) -> spent_rel r m -> spent_rel r (delete op m).
Proof.
  intros Hu. apply spent_rel_ext. intros h op'. destruct (decide (op = op')) as [<-|Hne].
  - rewrite lookup_delete_eq. split; [|by intros (? & ? & _)].
    intros (u & E & [Hs _]%spent_at_iff). rewrite (Hu u E) in Hs. done.
  - by rewrite lookup_delete_ne by done.
Qed.

(** Indexing an output that is not indexed at another height. *)
Lemma spent_rel_index r m op u l :
  let k := (setSpentIdx, u32_key (u_SpentHeight u)) in
  u_Spent u = true -> is_u 32 (u_SpentHeight u) ->
  (forall u0, m !! op = Some u0 -> u_Spent u0 = true -> u_SpentHeight u0 = u_SpentHeight u) ->
  spent_rel r m -> bin_list (row r k) "ops" = Some l ->
  spent_rel (<[k := <["ops" := VList (l ++ [VBytes (outpointKey op)])]> (row r k)]> r) (<[op := u]> m).
Proof.
  intros k Hu Hh0 Hg Hs Hl h Hh. destruct (Hs h Hh) as (l' & E & Hl').
  destruct (decide (h = u_SpentHeight u)) as [->|Hne].
  - fold k in E. rewrite Hl in E. injection E as <-. exists (l ++ [VBytes (outpointKey op)]).
    fold k. unfold row at 1, bin_list. rewrite lookup_insert_eq. cbn [from_option id]. rewrite lookup_insert_eq.
    split; [done|]. intros v. rewrite elem_of_app, list_elem_of_singleton, Hl'. split.
    + intros [(op' & u' & -> & E' & Hs')| ->].
      * destruct (decide (op = op')) as [<-|Hno]; [|by exists op', u'; rewrite lookup_insert_ne].
        exists op, u. rewrite lookup_insert_eq. split; [done|split; [done|by apply spent_at_iff]].
      * exists op, u. rewrite lookup_insert_eq. split; [done|split; [done|by apply spent_at_iff]].
    + intros (op' & u' & -> & E' & Hs'). destruct (decide (op = op')) as [<-|Hno]; [by right|left].
      rewrite lookup_insert_ne in E' by done. eauto.
  - exists l'. split.
    + unfold row at 1. rewrite lookup_insert_ne; [done|]. intros Hk%(f_equal snd).
      by apply Hne, eq_sym, u32_key_inj.
    + intros v. rewrite Hl'. split; intros (op' & u' & -> & E' & Hs'); apply spent_at_iff in Hs' as [Hsp Hsh].
      * destruct (decide (op = op')) as [<-|Hno]; [by rewrite (Hg u' E' Hsp) in Hsh|].
        exists op', u'. rewrite lookup_insert_ne by done. split; [done|split; [done|by apply spent_at_iff]].
      * rewrite lookup_insert in E'. case_decide as Hop; [simplify_eq; congruence|].
        exists op', u'. split; [done|split; [done|by apply spent_at_iff]].
Qed.

(** Removing an output from the list of its spend height. *)
Lemma spent_rel_deindex r m op u b l :
  let k := (setSpentIdx, u32_key (u_SpentHeight u)) in
  (forall op u, m !! op = Some u -> vout_ok op) ->
  m !! op = Some u -> is_u 32 (u_SpentHeight u) -> spent_rel r m ->
  r !! k = Some b -> b !! "ops" = Some (VList l) ->
  spent_rel (<[k := <["ops" := VList (filter (fun w => w <> VBytes (outpointKey op)) l)]> b]> r) (delete op m).
Proof.
  intros k Hd Hop Hh0 Hs Hb Hl h Hh. destruct (Hs h Hh) as (l' & E & Hl').
  destruct (decide (h = u_SpentHeight u)) as [->|Hne].
  - fold k in E. unfold row, bin_list in E. rewrite Hb in E. cbn [from_option id] in E. rewrite Hl in E. injection E as <-.
    exists (filter (fun w => w <> VBytes (outpointKey op)) l). fold k. unfold row, bin_list.
    rewrite lookup_insert_eq. cbn [from_option id]. rewrite lookup_insert_eq. split; [done|]. intros v.
    rewrite list_elem_of_filter, Hl'. split.
    + intros [Hv (op' & u' & -> & E' & Hs')]. exists op', u'. rewrite lookup_delete_ne by congruence. done.
    + intros (op' & u' & -> & [Hno E']%lookup_delete_Some & Hs'). split; [|by eauto].
      intros [=Hk]. by apply Hno, eq_sym, outpointKey_inj; eauto.
  - exists l'. split.
    + unfold row. rewrite lookup_insert_ne; [done|]. intros Hk%(f_equal snd). by apply Hne, eq_sym, u32_key_inj.
    + intros v. rewrite Hl'. split; intros (op' & u' & -> & E' & Hs').
      * exists op', u'. rewrite lookup_delete_ne; [done|]. intros <-. simplify_eq.
        apply spent_at_iff in Hs' as [_ Hs']. congruence.
      * apply lookup_delete_Some in E' as [_ E']. eauto.
Qed.

(** *** Deleting the rows of a list of keys *)

Lemma delete_count_size {A V} `{Countable A} (ks : list A) (m : gmap A V) :
  (delete_count ks m).2 = Z.of_nat (size m) - Z.of_nat (size (delete_count ks m).1).
Proof.
  revert m. induction ks as [|k ks IH]; intros m; [simpl; lia|]. cbn [delete_count].
  specialize (IH (delete k m)). destruct (delete_count ks (delete k m)) as [m' n]. simpl in *. subst n.
  case_bool_decide as Hk.
  - destruct Hk as [v Hk]. rewrite (map_size_delete_Some k m) by eauto.
    pose proof (map_size_ne_0_lookup_2 m k (ex_intro _ v Hk)). lia.
  - rewrite delete_id by (by apply eq_None_not_Some). lia.
Qed.

(** Deleting exactly the spent outputs of a height, each listed at least once. *)
Lemma delete_count_spent (m : gmap Outpoint UTXO) ops h :
  (forall op, op ∈ ops <-> exists u, m !! op = Some u /\ spent_at h u = true) ->
  delete_count ops m
  = (filter (fun p => spent_at h p.2 = false) m, Z.of_nat (size (filter (fun p => spent_at h p.2 = true) m))).
Proof.
  intros Hops. assert ((delete_count ops m).1 = filter (fun p => spent_at h p.2 = false) m) as E1.
  { apply map_eq. intros op. rewrite delete_count_lookup, map_lookup_filter.
    case_bool_decide as Hin.
    - apply Hops in Hin as (u & -> & Hu). simpl. by rewrite option_guard_False by (simpl; congruence).
    - destruct (m !! op) as [u|] eqn:E; [|done]. simpl.
      rewrite option_guard_True; [done|]. simpl. destruct (spent_at h u) eqn:Eu; [|done].
      destruct Hin. apply Hops. eauto. }
  pose proof (delete_count_size ops m) as E2. rewrite E1 in E2.
  rewrite (surjective_pairing (delete_count ops m)), E1, E2. f_equal.
  rewrite <- (map_filter_union_complement (fun p => spent_at h p.2 = true) m) at 1.
  rewrite map_size_disj_union by apply map_disjoint_filter_complement.
  assert (filter (fun p => ~ spent_at h p.2 = true) m = filter (fun p => spent_at h p.2 = false) m) as ->.
  { apply map_filter_ext. intros i x _. simpl. destruct (spent_at h x); split; congruence. }
  lia.
Qed.

Section ops.
Context {D K : Type} `{LawfulClient D K ns}.

Lemma wp_del_all {A V} `{Countable A} set (enc : A -> list byte) (P : A -> Prop)
    (R : A -> V -> BinMap -> Prop) (m : gmap A V) (ks : list A) (n : Z) r (Q : Z -> Rows -> Prop) :
  (forall a b, P a -> P b -> enc a = enc b -> a = b) -> Forall P ks -> tab_rel set enc P R r m ->
  (forall r', tab_rel set enc P R r' (delete_count ks m).1 -> same_but set r r' ->
     Q (n + (delete_count ks m).2) r') ->
  wp (del_all ns set (enc <$> ks) n) r Q.
Proof.
  intros Hinj HP. revert m n r Q. induction HP as [|k ks Hk HP IH]; intros m n r Q Ht HQ.
  { apply wp_ret. specialize (HQ r). simpl in HQ. rewrite Z.add_0_r in HQ. by apply HQ. }
  cbn [fmap list_fmap del_all]. apply wp_bind, wp_del.
  apply (IH (delete k m)); [by apply tab_delete|]. intros r' Ht' Hs.
  specialize (HQ r'). cbn [delete_count] in HQ. destruct (delete_count ks (delete k m)) as [m' n'].
  cbn [fst snd] in *. rewrite Z.add_assoc in HQ.
  assert (bool_decide (is_Some (r !! (set, enc k))) = bool_decide (is_Some (m !! k))) as ->.
  { apply bool_decide_ext, (tab_present _ _ _ _ _ _ _ Ht Hk). }
  apply HQ; [done|]. eapply same_but_trans; [apply same_but_delete|exact Hs].
Qed.

(** *** Every operation against the reference store *)

(** Arguments within their Go types, and the uses for which the secondary
    indexes stay exact: a mined transaction is stored once, and an output
    indexed as spent at a height is not stored again as live or as spent at
    another height. *)
Definition respend_ok (m : gmap Outpoint UTXO) (op : Outpoint) (spent : bool) (h : Z) : Prop :=
  forall u0, m !! op = Some u0 -> u_Spent u0 = true -> spent = true /\ u_SpentHeight u0 = h.
Definition op_guard {A} (o : store_op A) (f : Flat) : Prop :=
  match o with
  | OPutTxIndex t ix => txindex_ok ix /\ (ix_Mined ix = true -> f_txindex f !! t = None)
  | OPutUTXO op u => vout_ok op /\ utxo_ok u /\ respend_ok (f_utxo f) op (u_Spent u) (u_SpentHeight u)
  | OSpendUTXO op _ h => vout_ok op /\ is_u 32 h /\ respend_ok (f_utxo f) op true h
  | OGetUTXO op | OUnspendUTXO op | ODeleteUTXO op => vout_ok op
  | OPutBlock b => block_ok b
  | OPutHeader h _ | OGetHeader h | OPruneSpent h | OPruneIndex h => is_u 32 h
  | _ => True
  end.

(** The call on rows that represent [f] answers like the reference store and
    leaves rows that represent its next state. *)
Definition agrees {A} (o : store_op A) (r : Rows) (f : Flat) : Prop :=
  wp (@run D (aero_store ns) A o) r (fun a r' => exists f', run o f = (Ok a, f') /\ aero_rel r' f').

Lemma agrees_read {A} (o : store_op (option A)) set kb (of_ : BinMap -> A) r f x :
  aero_rel r f -> @run D (aero_store ns) _ o = get_row ns set kb of_ -> run o f = (Ok x, f) ->
  of_ <$> r !! (set, kb) = x -> agrees o r f.
Proof. intros Hr E Ef Ex. unfold agrees. rewrite E. apply wp_get_row. rewrite Ex. eauto. Qed.

Lemma agrees_GetTxIndex t r f : aero_rel r f -> agrees (OGetTxIndex t) r f.
Proof.
  intros Hr. eapply agrees_read; [done..|]. by apply (tab_read _ _ _ (fun _ => txindex_of) _ _ _ (ar_tx _ _ Hr)).
Qed.
Lemma utxo_read op r f : aero_rel r f -> vout_ok op -> utxo_of <$> r !! (setUTXO, outpointKey op) = f_utxo f !! op.
Proof. intros Hr Ho. by apply (tab_read _ _ _ (fun _ => utxo_of) _ _ _ (ar_utxo _ _ Hr)). Qed.
Lemma agrees_GetUTXO op r f : aero_rel r f -> vout_ok op -> agrees (OGetUTXO op) r f.
Proof. intros Hr Ho. eapply agrees_read; [done..|]. by apply utxo_read. Qed.
Lemma agrees_GetSubtree h r f : aero_rel r f -> agrees (OGetSubtree h) r f.
Proof.
  intros Hr. eapply agrees_read; [done..|].
  by apply (tab_read _ _ _ (fun _ b => unpackHashes (toBytes (b !! "leaves"))) _ _ _ (ar_sub _ _ Hr)).
Qed.
Lemma agrees_GetBlock h r f : aero_rel r f -> agrees (OGetBlock h) r f.
Proof. intros Hr. eapply agrees_read; [done..|]. by apply (tab_read _ _ _ block_of _ _ _ (ar_blk _ _ Hr)). Qed.
Lemma agrees_GetHeader h r f : aero_rel r f -> is_u 32 h -> agrees (OGetHeader h) r f.
Proof.
  intros Hr Hh. eapply agrees_read; [done..|].
  by apply (tab_read _ _ _ (fun _ b => arr 80 (toBytes (b !! "hdr"))) _ _ _ (ar_hdr _ _ Hr)).
Qed.

Lemma agrees_PutSubtree h l r f : aero_rel r f -> agrees (OPutSubtree h l) r f.
Proof.
  intros []. apply wp_bind, wp_key. intros k Hk. apply wp_put. rewrite Hk. eexists; split; [done|].
  split; simpl; try carry. apply (tab_insert _ _ _ _ abytes_inj'); [done..|]. read_bins. apply unpack_pack.
Qed.

Lemma agrees_PutHeader h x r f : aero_rel r f -> is_u 32 h -> agrees (OPutHeader h x) r f.
Proof.
  intros [] Hh. apply wp_bind, wp_key. intros k Hk. apply wp_put. rewrite Hk. eexists; split; [done|].
  split; simpl; try carry. apply (tab_insert _ _ _ _ u32_key_inj); [done..|]. read_bins. apply arr_abytes.
Qed.

Lemma agrees_PutBlock b r f : aero_rel r f -> block_ok b -> agrees (OPutBlock b) r f.
Proof.
  intros [] Hb. apply wp_bind, wp_key. intros k Hk. apply wp_bind, wp_put. rewrite Hk.
  apply wp_bind, wp_key. intros k' Hk'. apply wp_put. rewrite Hk'. eexists; split; [done|].
  split; simpl; try carry.
  - eapply tab_same; [apply same_but_insert|discriminate|].
    apply (tab_insert _ _ _ _ abytes_inj'); [done..|]. by apply block_roundtrip.
  - eapply (tab_insert _ _ _ _ u32_key_inj); [carry|apply Hb|]. apply height_row_block, hidx_row; [carry|apply Hb].
Qed.

Lemma agrees_PutTxIndex t ix r f :
  aero_rel r f -> txindex_ok ix -> (ix_Mined ix = true -> f_txindex f !! t = None) ->
  agrees (OPutTxIndex t ix) r f.
Proof.
  intros [] Hx Hm. apply wp_bind, wp_key. intros k Hk. apply wp_bind, wp_put. rewrite Hk.
  set (r1 := <[_ := _]> r).
  assert (tab_rel setTxIndex abytes any (fun _ ix b => txindex_of b = ix) r1 (<[t := ix]> (f_txindex f))) as Ht.
  { apply (tab_insert _ _ _ _ abytes_inj'); [done..|]. by apply txindex_roundtrip. }
  assert (same_but setTxIndex r r1) as Hs by apply same_but_insert.
  destruct (ix_Mined ix) eqn:Em.
  - assert (height_row (ix_Height ix) (entry_at (f_hidx f) (ix_Height ix)) (row r1 (setHeightIdx, u32_key (ix_Height ix)))) as Hh.
    { apply hidx_row; [carry|apply Hx]. }
    apply wp_bind, wp_key. intros k' Hk'. eapply wp_append; rewrite Hk'; [apply Hh|].
    eexists; split; [done|]. unfold flat_put_txindex. rewrite Em, (Hm eq_refl).
    rewrite bool_decide_eq_false_2 by (by intros []). split; simpl; try carry.
    eapply (tab_insert _ _ _ _ u32_key_inj); [carry|apply Hx|]. by apply height_row_txid.
  - apply wp_ret. eexists; split; [done|]. unfold flat_put_txindex. rewrite Em. split; simpl; try carry.
Qed.

Lemma agrees_DeleteTxIndex t r f : aero_rel r f -> agrees (ODeleteTxIndex t) r f.
Proof.
  intros []. apply wp_bind, wp_key. intros k Hk. apply wp_delete. rewrite Hk.
  rewrite (bool_decide_ext _ _ (tab_present _ _ _ _ _ _ t ar_tx0 I)).
  assert (tab_rel setTxIndex abytes any (fun _ ix b => txindex_of b = ix) (delete (setTxIndex, abytes t) r)
    (delete t (f_txindex f))) as Ht by (by apply (tab_delete _ _ _ _ abytes_inj')).
  assert (same_but setTxIndex r (delete (setTxIndex, abytes t) r)) as Hs by apply same_but_delete.
  simpl. destruct (f_txindex f !! t) as [ix|] eqn:E.
  - rewrite bool_decide_eq_true_2 by eauto. eexists; split; [done|]. split; simpl; try carry.
  - rewrite bool_decide_eq_false_2 by (by intros []). eexists; split; [done|].
    replace (delete t (f_txindex f)) with (f_txindex f) in Ht by (by rewrite delete_id).
    split; simpl; try carry.
Qed.

Implicit Types (f : Flat) (m : gmap Outpoint UTXO) (op : Outpoint) (u : UTXO).

(** The outputs' table and the rows of all other sets. *)
Abbreviation utxo_tab := (tab_rel setUTXO outpointKey vout_ok (fun _ u b => utxo_of b = u)).
Definition same_but_utxo (r r' : Rows) : Prop :=
  forall set kb, set <> setUTXO -> set <> setSpentIdx -> r' !! (set, kb) = r !! (set, kb).

Lemma same_but_utxo_trans r1 r2 r3 : same_but_utxo r1 r2 -> same_but_utxo r2 r3 -> same_but_utxo r1 r3.
Proof. intros H1 H2 set kb Hu Hs. by rewrite H2, H1. Qed.
Lemma same_but_utxo_1 set r r' : same_but set r r' -> set = setUTXO \/ set = setSpentIdx -> same_but_utxo r r'.
Proof. intros Hs Hset set' kb Hu Hi. apply Hs. destruct Hset; congruence. Qed.

Lemma aero_rel_utxo r r' f m :
  aero_rel r f -> same_but_utxo r r' -> utxo_tab r' m -> spent_rel r' m -> aero_rel r' (set_utxo m f).
Proof.
  intros [] Hs Hu Hp. split; simpl; try done; (eapply tab_agree; [eassumption|]; intros kb; by apply Hs).
Qed.

Lemma wp_PutUTXO op u r m Q :
  vout_ok op -> utxo_ok u -> utxo_tab r m ->
  (u_Spent u = false -> spent_rel r (delete op m)) ->
  (u_Spent u = true -> spent_rel r m /\ respend_ok m op true (u_SpentHeight u)) ->
  (forall r', utxo_tab r' (<[op := u]> m) -> spent_rel r' (<[op := u]> m) -> same_but_utxo r r' -> Q tt r') ->
  wp (aero_PutUTXO ns op u) r Q.
Proof.
  intros Ho Hok Ht Hlive Hspent HQ. apply wp_bind, wp_key. intros k Hk. apply wp_bind, wp_put. rewrite Hk.
  set (r1 := <[_ := _]> r). assert (same_but setUTXO r r1) as Hs by apply same_but_insert.
  assert (utxo_tab r1 (<[op := u]> m)) as Ht1.
  { apply (tab_insert _ _ _ _ outpointKey_inj); [done..|]. by apply utxo_roundtrip. }
  destruct (u_Spent u) eqn:Es.
  - destruct (Hspent eq_refl) as [Hp Hre]. assert (spent_rel r1 m) as Hp1 by carry.
    destruct (Hp1 _ (proj2 Hok)) as (l & El & _).
    apply wp_bind, wp_key. intros k' Hk'. eapply wp_append; rewrite Hk'; [exact El|]. apply HQ.
    + carry.
    + apply spent_rel_index; [done|apply Hok| |done..]. intros u0 E0 Hu0. by apply (Hre u0).
    + eapply same_but_utxo_trans; [apply (same_but_utxo_1 _ _ _ Hs); by left|].
      eapply same_but_utxo_1; [apply same_but_insert|by right].
  - apply wp_ret, HQ; [done| |apply (same_but_utxo_1 _ _ _ Hs); by left].
    apply spent_rel_put_live; [done|]. specialize (Hlive eq_refl). carry.
Qed.

(** A row that lists something exists. *)
Lemma listed_row r k bin l (v : Value) :
  bin_list (row r k) bin = Some l -> v ∈ l -> exists b, r !! k = Some b /\ b !! bin = Some (VList l).
Proof.
  intros El Hin. unfold row in El. destruct (r !! k) as [b|]; cbn [from_option id] in El.
  - exists b. split; [done|]. unfold bin_list in El. destruct (b !! bin) as [[]|]; simplify_eq; [done|].
    by apply elem_of_nil in Hin.
  - change (Some [] = Some l) in El. injection El as <-. by apply elem_of_nil in Hin.
Qed.

(** Taking a stored output out of the spent index, if it is in it. *)
Lemma wp_deindex op u r m (Q : unit -> Rows -> Prop) :
  utxo_tab r m -> spent_rel r m -> m !! op = Some u -> utxo_ok u ->
  (forall r', utxo_tab r' m -> spent_rel r' (delete op m) -> same_but_utxo r r' -> Q tt r') ->
  wp (if u_Spent u then ignore (aero_deindexSpent ns op (u_SpentHeight u)) else mret tt) r Q.
Proof.
  intros Ht Hp Hop [_ Hh] HQ. destruct (u_Spent u) eqn:Es.
  - destruct (Hp _ Hh) as (l & El & Hl).
    assert (VBytes (outpointKey op) ∈ l) as Hin.
    { apply Hl. exists op, u. split; [done|split; [done|by apply spent_at_iff]]. }
    destruct (listed_row _ _ _ _ _ El Hin) as (b & Eb & Eo).
    apply wp_bind, wp_try, wp_bind, wp_key. intros k Hk. eapply wp_remove; [by rewrite Hk|done|rewrite Hk].
    apply wp_ret, HQ.
    + carry.
    + eapply spent_rel_deindex; try done. intros op' u' E'. apply Ht. eauto.
    + eapply same_but_utxo_1; [apply same_but_insert|by right].
  - apply wp_ret, HQ; [done| |done]. apply spent_rel_delete_live; [|done]. intros u' E'. by simplify_eq.
Qed.

Lemma stored_ok r m op u : utxo_tab r m -> m !! op = Some u -> vout_ok op /\ utxo_ok u.
Proof.
  intros Ht E. assert (vout_ok op) as Ho by (apply Ht; eauto). split; [done|].
  destruct (tab_lookup _ _ _ _ _ _ op Ht Ho) as [u' b <-|]; simplify_eq. apply utxo_of_ok.
Qed.

Lemma agrees_PutUTXO op u r f :
  aero_rel r f -> vout_ok op -> utxo_ok u -> respend_ok (f_utxo f) op (u_Spent u) (u_SpentHeight u) ->
  agrees (OPutUTXO op u) r f.
Proof.
  intros Hr Ho Hu Hre. eapply wp_PutUTXO; [done..|apply Hr| | |].
  - intros Es. apply spent_rel_delete_live; [|apply Hr]. intros u0 E0.
    destruct (u_Spent u0) eqn:Es0; [|done]. by destruct (Hre u0 E0 Es0) as [? _]; congruence.
  - intros Es. split; [apply Hr|]. by rewrite Es in Hre.
  - intros r' Ht Hp Hs. eexists; split; [done|]. by eapply aero_rel_utxo.
Qed.

Lemma agrees_SpendUTXO op by_ h r f :
  aero_rel r f -> vout_ok op -> is_u 32 h -> respend_ok (f_utxo f) op true h ->
  agrees (OSpendUTXO op by_ h) r f.
Proof.
  intros Hr Ho Hh Hre. apply wp_bind, wp_get_row. rewrite (utxo_read op r f Hr Ho).
  destruct (f_utxo f !! op) as [u|] eqn:E; cbn [from_option].
  - destruct (stored_ok _ _ _ _ (ar_utxo _ _ Hr) E) as [_ Hu].
    apply wp_bind. eapply wp_PutUTXO; [done|split; [apply Hu|done]|apply Hr|done| |].
    + intros _. split; [apply Hr|done].
    + intros r' Ht Hp Hs. apply wp_ret. simpl. rewrite E. eexists; split; [done|]. by eapply aero_rel_utxo.
  - apply wp_ret. simpl. rewrite E. eauto.
Qed.

Lemma agrees_UnspendUTXO op r f : aero_rel r f -> vout_ok op -> agrees (OUnspendUTXO op) r f.
Proof.
  intros Hr Ho. apply wp_bind, wp_get_row. rewrite (utxo_read op r f Hr Ho).
  destruct (f_utxo f !! op) as [u|] eqn:E.
  - destruct (stored_ok _ _ _ _ (ar_utxo _ _ Hr) E) as [_ Hu].
    apply wp_bind. eapply wp_deindex; [apply Hr|apply Hr|done..|]. intros r1 Ht1 Hp1 Hs1.
    apply wp_bind. eapply wp_PutUTXO; [done|split; [apply Hu|done]|done|done|done|].
    intros r' Ht Hp Hs. apply wp_ret. simpl. rewrite E. eexists; split; [done|].
    eapply aero_rel_utxo; [done| |done..]. by eapply same_but_utxo_trans.
  - apply wp_ret. simpl. rewrite E. eauto.
Qed.

Lemma agrees_DeleteUTXO op r f : aero_rel r f -> vout_ok op -> agrees (ODeleteUTXO op) r f.
Proof.
  intros Hr Ho. apply wp_bind, wp_get_row. rewrite (utxo_read op r f Hr Ho).
  assert (forall r1, utxo_tab r1 (f_utxo f) -> spent_rel r1 (delete op (f_utxo f)) -> same_but_utxo r r1 ->
    wp (k <- key ns setUTXO (outpointKey op) ;; cl_Delete k) r1
      (fun a r' => a = bool_decide (is_Some (f_utxo f !! op)) /\ aero_rel r' (set_utxo (delete op (f_utxo f)) f))) as Hdel.
  { intros r1 Ht Hp Hs. apply wp_bind, wp_key. intros k Hk. apply wp_delete. rewrite Hk.
    split; [apply bool_decide_ext; by apply (tab_present _ _ _ _ _ _ op Ht)|].
    eapply aero_rel_utxo; [done| |by apply (tab_delete _ _ _ _ outpointKey_inj)|carry].
    eapply same_but_utxo_trans; [done|]. eapply same_but_utxo_1; [apply same_but_delete|by left]. }
  destruct (f_utxo f !! op) as [u|] eqn:E.
  - destruct (stored_ok _ _ _ _ (ar_utxo _ _ Hr) E) as [_ Hu].
    apply wp_bind. eapply wp_deindex; [apply Hr|apply Hr|done..|]. intros r1 Ht1 Hp1 Hs1.
    eapply wp_mono; [by apply Hdel|]. intros a r' [-> Hr']. rewrite bool_decide_eq_true_2 by eauto. simpl. rewrite E. eauto.
  - apply wp_bind, wp_ret. eapply wp_mono; [apply Hdel; [apply Hr| |done]|].
    + apply spent_rel_delete_live; [by rewrite E|apply Hr].
    + intros a r' [-> Hr']. rewrite bool_decide_eq_false_2 by (by intros []). simpl. rewrite E.
      rewrite delete_id in Hr' by done. eexists; split; [done|]. by destruct f.
Qed.

(** The outpoints an index row lists. *)
Lemma spent_ops r m h l :
  utxo_tab r m ->
  (forall v, v ∈ l <-> exists op u, v = VBytes (outpointKey op) /\ m !! op = Some u /\ spent_at h u = true) ->
  exists ops, (fun v => toBytes (Some v)) <$> l = outpointKey <$> ops /\ Forall vout_ok ops
    /\ forall op, op ∈ ops <-> exists u, m !! op = Some u /\ spent_at h u = true.
Proof.
  intros Ht Hl.
  assert (Forall (fun v => exists op, v = VBytes (outpointKey op) /\ vout_ok op) l) as HF.
  { apply Forall_forall. intros v Hv%Hl. destruct Hv as (op & u & -> & E & _). exists op.
    split; [done|]. by apply (stored_ok _ _ _ _ Ht E). }
  assert (exists ops, l = (fun op => VBytes (outpointKey op)) <$> ops /\ Forall vout_ok ops) as (ops & -> & Hops).
  { clear Hl. induction HF as [|v l (op & -> & Hop) _ (ops & -> & Hops)]; [by exists []|]. exists (op :: ops).
    split; [done|by constructor]. }
  exists ops. split; [by rewrite <- list_fmap_compose|]. split; [done|]. intros op. split.
  - intros Hin. destruct (proj1 (Hl (VBytes (outpointKey op)))) as (op' & u & [=Ek] & E & Hs).
    { by apply (list_elem_of_fmap_2 (fun op => VBytes (outpointKey op))). }
    apply outpointKey_inj in Ek; [subst op'; eauto| |by apply (stored_ok _ _ _ _ Ht E)].
    by eapply Forall_forall.
  - intros (u & E & Hs). destruct (list_elem_of_fmap_1 (fun op => VBytes (outpointKey op)) ops (VBytes (outpointKey op))) as (op' & [=Ek] & Hin).
    { apply Hl. eauto. }
    apply outpointKey_inj in Ek; [by subst op'|by apply (stored_ok _ _ _ _ Ht E)|by eapply Forall_forall].
Qed.

(** After the sweep of a height its row is gone, and so are its outputs. *)
Lemma spent_rel_sweep r r' m h :
  is_u 32 h -> spent_rel r m ->
  (forall kb, r' !! (setSpentIdx, kb) = delete (setSpentIdx, u32_key h) r !! (setSpentIdx, kb)) ->
  spent_rel r' (filter (fun p => spent_at h p.2 = false) m).
Proof.
  intros Hh Hs Hr h' Hh'. unfold row. rewrite Hr. destruct (decide (h = h')) as [<-|Hne].
  - exists []. rewrite lookup_delete_eq. split; [done|]. intros v. split; [by intros ?%elem_of_nil|].
    intros (op & u & _ & E & Hu). apply map_lookup_filter_Some in E as [_ E]. simpl in E. congruence.
  - destruct (Hs h' Hh') as (l & El & Hl). exists l. rewrite lookup_delete_ne.
    2:{ intros Hk%(f_equal snd). by apply Hne, u32_key_inj. }
    split; [done|]. intros v. rewrite Hl. split; intros (op & u & -> & E & Hu).
    + exists op, u. split; [done|]. split; [|done]. apply map_lookup_filter_Some. split; [done|]. simpl.
      destruct (spent_at h u) eqn:Eu; [|done]. apply spent_at_iff in Hu, Eu. destruct Hu, Eu. congruence.
    + apply map_lookup_filter_Some in E as [E _]. eauto.
Qed.

Lemma agrees_PruneSpent h r f : aero_rel r f -> is_u 32 h -> agrees (OPruneSpent h) r f.
Proof.
  intros Hr Hh. pose proof (ar_utxo _ _ Hr) as Ht. pose proof (ar_spent _ _ Hr) as Hp.
  destruct (Hp h Hh) as (l & El & Hl). destruct (spent_ops _ _ _ _ Ht Hl) as (ops & Eops & Hv & Hops).
  pose proof (delete_count_spent _ _ _ Hops) as Ec.
  apply wp_bind, wp_key. intros k Hk. apply wp_bind, wp_get. rewrite Hk. unfold row in El.
  destruct (r !! (setSpentIdx, u32_key h)) as [b|] eqn:Eb.
  - assert (toList (b !! "ops") = l) as ->.
    { cbn [from_option id] in El. unfold bin_list in El. destruct (b !! "ops") as [[]|]; simplify_eq; done. }
    rewrite Eops. apply wp_bind. eapply wp_del_all; [apply outpointKey_inj|done|done|]. rewrite Ec. cbn [fst snd].
    intros r1 Ht1 Hs1. apply wp_bind, wp_ok_or_false, wp_delete, wp_ret. rewrite Hk.
    eexists; split; [done|]. eapply aero_rel_utxo; [done| |carry|].
    + eapply same_but_utxo_trans; eapply same_but_utxo_1; [done|by left|apply same_but_delete|by right].
    + eapply (spent_rel_sweep r); [done..|]. intros kb. rewrite !lookup_delete, (Hs1 setSpentIdx) by done. done.
  - apply wp_ret. change (Some [] = Some l) in El. injection El as <-. destruct ops; [|done].
    injection Ec as Em Ez. eexists. split; [|exact Hr]. simpl. rewrite <- Ez, <- Em. by destruct f.
Qed.

(** Index retention of the reference store, with its count. *)
Lemma flat_prune_index_run h f :
  let e := entry_at (f_hidx f) h in
  let b := delete_count (if he_hasBlock e then [he_block e] else []) (f_blocks f) in
  let s := delete_count (he_subtrees e) (f_subtree f) in
  let t := delete_count (he_txids e) (f_txindex f) in
  let x := delete_count [h] (f_hdr f) in
  flat_prune_index h f = (b.2 + s.2 + t.2 + x.2, mkFlat t.1 (f_utxo f) s.1 b.1 x.1 (delete h (f_hidx f))).
Proof.
  unfold flat_prune_index. cbv zeta. set (e := entry_at (f_hidx f) h).
  by destruct (delete_count (if he_hasBlock e then [he_block e] else []) (f_blocks f)),
    (delete_count (he_subtrees e) (f_subtree f)), (delete_count (he_txids e) (f_txindex f)),
    (delete_count [h] (f_hdr f)).
Qed.

Lemma wp_drop_entry (rec : option BinMap) (h : Z) (e : heightEntry) r f (Q : Z -> Rows -> Prop) :
  height_row h e (default ∅ rec) -> aero_rel r f ->
  let b := delete_count (if he_hasBlock e then [he_block e] else []) (f_blocks f) in
  let s := delete_count (he_subtrees e) (f_subtree f) in
  let t := delete_count (he_txids e) (f_txindex f) in
  (forall r', aero_rel r' (mkFlat t.1 (f_utxo f) s.1 b.1 (f_hdr f) (f_hidx f)) ->
     r' !! (setHeightIdx, u32_key h) = r !! (setHeightIdx, u32_key h) -> Q (b.2 + s.2 + t.2) r') ->
  wp (drop_entry ns rec) r Q.
Proof.
  intros Hrow Hr b s t HQ. pose proof (height_row_txids _ _ _ Hrow) as Et. destruct Hrow as (Eb & Es & _).
  assert (drop_entry ns rec = drop_entry ns (Some (default ∅ rec))) as -> by (by destruct rec).
  cbn [drop_entry]. rewrite Eb, Es, Et. destruct Hr. apply wp_bind.
  replace (if he_hasBlock e then [abytes (he_block e)] else []) with (abytes <$> (if he_hasBlock e then [he_block e] else []))
    by (by destruct (he_hasBlock e)).
  eapply wp_del_all; [apply abytes_inj'|by apply Forall_true|done|]. intros r1 T1 S1.
  apply wp_bind. eapply wp_del_all; [apply abytes_inj'|by apply Forall_true|carry|]. intros r2 T2 S2.
  eapply wp_del_all; [apply abytes_inj'|by apply Forall_true|carry|]. intros r3 T3 S3.
  apply HQ; [split; simpl; try carry|]. by rewrite S3, S2, S1.
Qed.

Lemma agrees_PruneIndex h r f : aero_rel r f -> is_u 32 h -> agrees (OPruneIndex h) r f.
Proof.
  intros Hr Hh. pose proof (hidx_row _ _ _ (ar_hidx _ _ Hr) Hh) as Hrow.
  apply wp_bind, wp_key. intros k Hk. apply wp_bind, wp_get. rewrite Hk. apply wp_bind.
  eapply wp_drop_entry; [exact Hrow|exact Hr|]. intros r1 [] Hrec.
  apply wp_bind, wp_del. rewrite (bool_decide_ext _ _ (tab_present _ _ _ _ _ _ h ar_hdr0 Hh)). cbn [f_hdr].
  assert (tab_rel setHeader u32_key (is_u 32) (fun _ x b => arr 80 (toBytes (b !! "hdr")) = x)
    (delete (setHeader, u32_key h) r1) (delete h (f_hdr f))) as Hhdr by (by apply (tab_delete _ _ _ _ u32_key_inj)).
  assert (same_but setHeader r1 (delete (setHeader, u32_key h) r1)) as Hs by apply same_but_delete.
  set (r2 := delete (setHeader, u32_key h) r1) in *.
  assert (tab_rel setHeightIdx u32_key (is_u 32) height_row (delete (setHeightIdx, u32_key h) r2) (delete h (f_hidx f))) as Hhidx.
  { apply (tab_delete _ _ _ _ u32_key_inj); [carry|done]. }
  unfold agrees. cbn [run PruneIndexAtHeight flat_store]. rewrite flat_prune_index_run. cbn [delete_count fst snd].
  rewrite Z.add_0_r. fold (int_of_bool (bool_decide (is_Some (f_hdr f !! h)))).
  destruct (r !! (setHeightIdx, u32_key h)) as [b|] eqn:Eb.
  - apply wp_bind, wp_ok_or_false, wp_delete, wp_ret. rewrite Hk. eexists; split; [done|]. split; simpl; try carry.
  - apply wp_ret. eexists; split; [done|].
    assert (r2 !! (setHeightIdx, u32_key h) = None) as En by (rewrite Hs by done; by rewrite Hrec).
    rewrite (delete_id r2) in Hhidx by done. split; simpl; try carry.
Qed.

Lemma agrees_all {A} (o : store_op A) r f : aero_rel r f -> op_guard o f -> agrees o r f.
Proof.
  intros Hr Hg. destruct o; simpl in Hg;
    eauto using agrees_GetTxIndex, agrees_GetUTXO, agrees_GetSubtree, agrees_GetBlock, agrees_GetHeader,
      agrees_PutSubtree, agrees_PutHeader, agrees_PutBlock, agrees_DeleteTxIndex, agrees_UnspendUTXO,
      agrees_DeleteUTXO, agrees_PruneSpent, agrees_PruneIndex.
  - apply agrees_PutTxIndex; naive_solver.
  - apply agrees_PutUTXO; naive_solver.
  - apply agrees_SpendUTXO; naive_solver.
Qed.


(** *** Outside of the guard *)

(** What the deletion loop leaves, whatever the rows. *)
Lemma wp_del_all_keys set (ks : list (list byte)) (n : Z) r (Q : Z -> Rows -> Prop) :
  (forall n' r', (forall kb, kb ∈ ks -> r' !! (set, kb) = None) ->
     (forall x, r !! x = None -> r' !! x = None) -> Q n' r') ->
  wp (del_all ns set ks n) r Q.
Proof.
  revert n r Q. induction ks as [|k ks IH]; intros n r Q HQ.
  { apply wp_ret, HQ; [|done]. by intros kb ?%elem_of_nil. }
  cbn [del_all]. apply wp_bind, wp_del, IH. intros n' r' Hin Hno. apply HQ.
  - intros kb [->|Hkb]%elem_of_cons; [|by apply Hin]. apply Hno, lookup_delete_eq.
  - intros x Hx. apply Hno. rewrite lookup_delete. by case_decide.
Qed.

(** The sweep of a height deletes the row of every outpoint its index row
    lists, without looking at the output. *)
Lemma wp_sweep_listed op h r b l :
  r !! (setSpentIdx, u32_key h) = Some b -> b !! "ops" = Some (VList l) -> VBytes (outpointKey op) ∈ l ->
  wp (aero_PruneSpentAtHeight ns h) r (fun _ r' => r' !! (setUTXO, outpointKey op) = None).
Proof.
  intros Eb El Hin. apply wp_bind, wp_key. intros k Hk. apply wp_bind, wp_get. rewrite Hk, Eb, El. cbn [toList].
  apply wp_bind, wp_del_all_keys. intros n' r' Hno _. apply wp_bind, wp_ok_or_false, wp_delete, wp_ret.
  rewrite lookup_delete. case_decide; [done|]. apply Hno.
  exact (list_elem_of_fmap_2 (fun v => toBytes (Some v)) l _ Hin).
Qed.

(** Storing an output leaves the index rows of the other heights alone. *)
Lemma wp_PutUTXO_index op u r h b :
  (exists m, spent_rel r m) -> is_u 32 h -> utxo_ok u -> spent_at h u = false -> r !! (setSpentIdx, u32_key h) = Some b ->
  wp (aero_PutUTXO ns op u) r (fun _ r' => r' !! (setSpentIdx, u32_key h) = Some b).
Proof.
  intros [m Hp] Hh Hu Hs Hb.
  apply wp_bind, wp_key. intros k Hk. apply wp_bind, wp_put. rewrite Hk.
  set (r1 := <[_ := _]> r). assert (same_but setUTXO r r1) as Hs1 by apply same_but_insert.
  assert (r1 !! (setSpentIdx, u32_key h) = Some b) as Hb1 by (by rewrite Hs1).
  destruct (u_Spent u) eqn:Es; [|by apply wp_ret].
  assert (spent_rel r1 m) as Hp1 by carry. destruct (Hp1 _ (proj2 Hu)) as (l & El & _).
  apply wp_bind, wp_key. intros k' Hk'. eapply wp_append; rewrite Hk'; [exact El|].
  rewrite lookup_insert_ne; [done|]. intros Hx%(f_equal snd). apply u32_key_inj in Hx; [|apply Hu|done].
  unfold spent_at in Hs. rewrite Es, Hx, Z.eqb_refl in Hs. done.
Qed.

(** An output spent at a height and then stored again (live, or as spent at
    another height) is still listed under the first height: the sweep of that
    height deletes it, while the reference store keeps it. *)
Theorem aero_sweep_deletes_restored (d : D) f op u u' h :
  aero_rel (rows_of d) f -> f_utxo f !! op = Some u -> spent_at h u = true ->
  utxo_ok u' -> spent_at h u' = false ->
  (exists d', (aero_PutUTXO ns op u' ;; aero_PruneSpentAtHeight ns h ;; aero_GetUTXO ns op) d = (Ok None, d'))
  /\ exists f', (PutUTXO op u' ;; PruneSpentAtHeight h ;; GetUTXO op) f = (Ok (Some u'), f').
Proof.
  intros Hr Hop Hs Hu' Hs'. pose proof (proj1 (spent_at_iff h u) Hs) as [Hsp Hsh].
  destruct (stored_ok _ _ _ _ (ar_utxo _ _ Hr) Hop) as [Ho [_ Hh]]. rewrite Hsh in Hh. split.
  - pose proof (ar_spent _ _ Hr) as Hp. destruct (Hp h Hh) as (l & El & Hl).
    assert (VBytes (outpointKey op) ∈ l) as Hin by (apply Hl; eauto).
    destruct (listed_row _ _ _ _ _ El Hin) as (b & Eb & Eo).
    assert (wp (aero_PutUTXO ns op u' ;; aero_PruneSpentAtHeight ns h ;; aero_GetUTXO ns op) (rows_of d)
      (fun a _ => a = None)) as Hwp.
    { apply wp_bind. eapply wp_mono; [apply (wp_PutUTXO_index op u' _ h b); eauto|]. intros x1 r1 Hb1. cbv beta in Hb1.
      apply wp_bind. eapply wp_mono; [by eapply wp_sweep_listed|]. intros x2 r2 Hn. cbv beta in Hn. apply wp_get_row. by rewrite Hn. }
    destruct (Hwp d eq_refl) as (a & d' & E & ->). eauto.
  - eexists. unfold mbind. simpl. rewrite map_lookup_filter, lookup_insert_eq. simpl.
    by rewrite option_guard_True.
Qed.
End ops.

(** ** Read errors *)

(** Whatever the client: an error of [Get] ends the call with that error and no
    write.  A client that answers an absent row with an error instead of nil
    therefore turns every question about an unknown output into an error. *)
Lemma aero_read_error {D K : Type} `{AeroClient D K} ns op b h k e d d' :
  cl_NewKey ns setUTXO (outpointKey op) = Ok k -> cl_Get k d = (Err e, d') ->
  aero_GetUTXO ns op d = (Err e, d') /\ aero_SpendUTXO ns op b h d = (Err e, d')
  /\ aero_UnspendUTXO ns op d = (Err e, d') /\ aero_DeleteUTXO ns op d = (Err e, d').
Proof.
  intros Ek Eg. assert (aero_GetUTXO ns op d = (Err e, d')) as E.
  { unfold aero_GetUTXO, get_row, key, mlift, mbind. by rewrite Ek, Eg. }
  split; [done|]. by repeat split; apply mbind_err.
Qed.

(** ** A client in memory *)

Definition rows_append (k : string * list byte) (bin : string) (v : Value) : M Rows unit := fun r =>
  match bin_list (row r k) bin with
  | Some l => (Ok tt, <[k := <[bin := VList (l ++ [v])]> (row r k)]> r)
  | None => (Err "bin type error", r)
  end.
Definition rows_remove (k : string * list byte) (bin : string) (v : Value) : M Rows unit := fun r =>
  match r !! k with
  | Some b =>
      match b !! bin with
      | Some (VList l) => (Ok tt, <[k := <[bin := VList (filter (fun w => w <> v) l)]> b]> r)
      | _ => (Err "bin not found", r)
      end
  | None => (Err "key not found", r)
  end.

#[global] Instance rows_client : AeroClient Rows (string * list byte) :=
  {| cl_NewKey := fun _ set kb => Ok (set, kb);
     cl_Put := fun k b r => (Ok tt, <[k := b ∪ row r k]> r);
     cl_Get := fun k r => (Ok (r !! k), r);
     cl_Delete := fun k r => (Ok (bool_decide (is_Some (r !! k))), delete k r);
     cl_ListAppend := rows_append;
     cl_ListRemoveByValue := rows_remove |}.

#[global] Program Instance rows_lawful ns : LawfulClient Rows (string * list byte) ns :=
  {| rows_of := fun r => r; key_of := fun k => k |}.
Next Obligation. simpl. eauto. Qed.
Next Obligation. simpl. eauto. Qed.
Next Obligation. simpl. eauto. Qed.
Next Obligation. simpl. eauto. Qed.
Next Obligation. simpl. intros ns k bin v d l El. unfold rows_append. rewrite El. eauto. Qed.
Next Obligation. simpl. intros ns k bin v d b l Eb El. unfold rows_remove. rewrite Eb, El. eauto. Qed.

Definition demo_outpoint : Outpoint := mkOutpoint zeroHash 1.
Definition demo_spent (h : Z) : UTXO := mkUTXO 5000 zeroHash true zeroHash h.
Definition demo_flat : Flat := set_utxo {[demo_outpoint := demo_spent 7]} flatEmpty.
Definition demo_rows : Rows := (aero_PutUTXO "ns" demo_outpoint (demo_spent 7) ∅).2.

Lemma demo_related : aero_rel demo_rows demo_flat.
Proof.
  destruct (agrees_all (D := Rows) (ns := "ns") (OPutUTXO demo_outpoint (demo_spent 7)) ∅ flatEmpty) with (d := (∅ : Rows))
    as (a & r' & E & f' & Ef & Hr); [apply aero_rel_empty| |done|].
  { split; [by vm_compute|]. split; [by vm_compute|]. intros u0 E0. cbn [f_utxo flatEmpty] in E0. by rewrite lookup_empty in E0. }
  cbn [rows_of rows_lawful] in Hr. unfold demo_rows. cbn [run PutUTXO aero_store] in E. rewrite E. injection Ef as <- <-. exact Hr.
Qed.


Lemma aero_sweep_deletes_restored_witness :
  exists r', (aero_PutUTXO "ns" demo_outpoint (mark_unspent (demo_spent 7)) ;;
    aero_PruneSpentAtHeight "ns" 7 ;; aero_GetUTXO "ns" demo_outpoint) demo_rows = (Ok None, r').
Proof.
  refine (proj1 (aero_sweep_deletes_restored (H0 := rows_lawful "ns") demo_rows demo_flat demo_outpoint (demo_spent 7)
    (mark_unspent (demo_spent 7)) 7 demo_related _ _ _ _)); [reflexivity|reflexivity|by vm_compute|reflexivity].
Defined.
