(* ===== verification/Conformance.v ===== *)
(** * store/storetest: the conformance suite ([src/store/storetest/storetest.go])

    The suite every back end has to pass, step by step: each step is one
    operation of the interface, what a dropped error counts as, and the
    condition under which the test goes on.  The theorems show that a fresh
    lawful store passes all six tests (the in-memory store is one), and that a
    fresh database store over a lawful client passes them too, each of its
    operations being used within its guard. *)

From stdpp Require Import base gmap list strings.
From Stdlib Require Import ZArith Lia ZifyNat.
From Stdlib Require Strings.Byte.
From S2P Require Import Prelude Sha256 Commitment StoreSpec MemStore Aerospike.
Open Scope go_scope.

(** ** Steps *)

(** [st_zero] is the value a dropped error leaves ([None]: an error is fatal). *)
Inductive step : Type :=
| Step (A : Type) (o : store_op A) (st_zero : option A) (check : A -> bool) (msg : error).

(** [if cond { t.Fatal(msg) }] after the call. *)
Definition fatal_unless (ok : bool) (msg : error) {S} (k : M S unit) : M S unit := if ok then k else merr msg.

Fixpoint exec {S} `{Store S} (t : list step) : M S unit :=
  match t with
  | [] => mret tt
  | Step A o zero check msg :: r =>
      x <- mtry (run o) ;;
      match x, zero with
      | Ok a, _ => fatal_unless (check a) msg (exec r)
      | Err e, None => merr e
      | Err e, Some a => fatal_unless (check a) msg (exec r)
      | Panic, _ => mpanic
      end
  end.

(** [s.Put(...)] with its error dropped, and with it checked. *)
Definition do_ (o : store_op unit) : step := Step unit o (Some tt) (fun _ => true) ""%string.
Definition must (o : store_op unit) : step := Step unit o None (fun _ => true) ""%string.
(** [_, ok, _ := s.Get(...)]. *)
Definition absent {A} (o : store_op (option A)) (msg : error) : step :=
  Step (option A) o (Some None) (fun r => match r with None => true | Some _ => false end) msg.
Definition found {A} (o : store_op (option A)) (p : A -> bool) (msg : error) : step :=
  Step (option A) o (Some None) (fun r => match r with None => false | Some a => p a end) msg.
Definition any_value {A} (a : A) : bool := true.
(** [u, _, _ := s.GetUTXO(op)]: the zero value when the output is absent. *)
Definition zeroUTXO : UTXO := mkUTXO 0 zeroHash false zeroHash 0.
Definition utxo_is (op : Outpoint) (p : UTXO -> bool) (msg : error) : step :=
  Step (option UTXO) (OGetUTXO op) (Some None) (fun r => p (default zeroUTXO r)) msg.
Definition yes (o : store_op bool) (msg : error) : step := Step bool o (Some false) (fun b => b) msg.
Definition no (o : store_op bool) (msg : error) : step := Step bool o (Some false) negb msg.
Definition any_bool (o : store_op bool) : step := Step bool o (Some false) (fun _ => true) ""%string.
Definition counts (o : store_op Z) (zero : option Z) (n : Z) (msg : error) : step :=
  Step Z o zero (fun k => k =? n) msg.

(** ** The six tests *)

Section suite.
Context (h : Z -> Hash).

Definition utxo_of_value (v : Z) (script : Hash) : UTXO := mkUTXO v script false zeroHash 0.
Definition mined_at (height : Z) (bh : Hash) : TxIndex := mkTxIndex true bh height 0 0 0 0.
Definition hash_eqb (a b : Hash) : bool := bool_decide (a = b).
Definition header_with (i : nat) (v : Z) : Header := arr 80 (replicate i Byte.x00 ++ [z2b v]).
Definition byte_at (hdr : Header) (i : nat) (v : Z) : bool :=
  match abytes hdr !! i with Some b => b2z b =? v | None => false end.

Definition testPruneIndex : list step :=
  [do_ (OPutSubtree (h 70) [h 71; h 72]);
   do_ (OPutBlock (mkBlockRec (h 73) 7 0 (h 74) [h 70] (azero 80)));
   do_ (OPutHeader 7 (azero 80));
   do_ (OPutTxIndex (h 71) (mined_at 7 (h 73)));
   do_ (OPutTxIndex (h 72) (mined_at 7 (h 73)));
   do_ (OPutBlock (mkBlockRec (h 80) 8 0 zeroHash [] (azero 80)));
   do_ (OPutTxIndex (h 81) (mined_at 8 (h 80)));
   counts (OPruneIndex 7) None 5 "PruneIndexAtHeight freed %d records, want 5"%string;
   absent (OGetBlock (h 73)) "block survived index prune"%string;
   absent (OGetSubtree (h 70)) "subtree survived index prune"%string;
   absent (OGetTxIndex (h 71)) "txindex survived index prune"%string;
   absent (OGetHeader 7) "header survived index prune"%string;
   found (OGetTxIndex (h 81)) any_value "unrelated height pruned"%string].

Definition testTxIndex : list step :=
  [absent (OGetTxIndex (h 1)) "empty store returned a tx"%string;
   must (OPutTxIndex (h 1) (mkTxIndex true (h 9) 42 0 1 7 0));
   found (OGetTxIndex (h 1))
     (fun g => (ix_Height g =? 42) && (ix_SubtreeIndex g =? 1) && (ix_LeafIndex g =? 7) && hash_eqb (ix_BlockHash g) (h 9))
     "txindex round trip"%string].

Definition testUTXO : list step :=
  let op := mkOutpoint (h 2) 3 in
  [must (OPutUTXO op (utxo_of_value 500 (h 8)));
   found (OGetUTXO op) (fun u => (u_Value u =? 500) && negb (u_Spent u)) "put utxo"%string;
   yes (OSpendUTXO op (h 3) 100) "spend failed"%string;
   utxo_is op (fun u => u_Spent u && (u_SpentHeight u =? 100) && hash_eqb (u_SpentBy u) (h 3)) "spend not recorded"%string;
   yes (OUnspendUTXO op) "unspend failed"%string;
   utxo_is op (fun u => negb (u_Spent u)) "still spent after unspend"%string;
   no (OSpendUTXO (mkOutpoint (h 99) 0) (h 3) 1) "spend of missing outpoint reported ok"%string].

Definition testPrune : list step :=
  let a := mkOutpoint (h 10) 0 in
  let b := mkOutpoint (h 11) 0 in
  let c := mkOutpoint (h 12) 0 in
  [do_ (OPutUTXO a (utxo_of_value 1 zeroHash));
   do_ (OPutUTXO b (utxo_of_value 1 zeroHash));
   any_bool (OSpendUTXO a (h 20) 100);
   any_bool (OSpendUTXO b (h 21) 101);
   counts (OPruneSpent 99) (Some 0) 0 "pruned wrong height"%string;
   counts (OPruneSpent 100) (Some 0) 1 "prune at 100, want 1"%string;
   absent (OGetUTXO a) "a survived prune"%string;
   found (OGetUTXO b) any_value "b (different height) wrongly pruned"%string;
   do_ (OPutUTXO c (utxo_of_value 1 zeroHash));
   counts (OPruneSpent 101) (Some 0) 1 "prune at 101, want 1"%string;
   found (OGetUTXO c) any_value "unspent c was pruned"%string].

Definition testDeletes : list step :=
  let op := mkOutpoint (h 30) 1 in
  let op2 := mkOutpoint (h 31) 0 in
  [do_ (OPutUTXO op (utxo_of_value 9 zeroHash));
   do_ (OPutTxIndex (h 30) (mined_at 5 zeroHash));
   yes (ODeleteUTXO op) "delete utxo failed"%string;
   absent (OGetUTXO op) "utxo present after delete"%string;
   yes (ODeleteTxIndex (h 30)) "delete txindex failed"%string;
   absent (OGetTxIndex (h 30)) "txindex present after delete"%string;
   do_ (OPutUTXO op2 (utxo_of_value 1 zeroHash));
   any_bool (OSpendUTXO op2 (h 40) 200);
   any_bool (ODeleteUTXO op2);
   counts (OPruneSpent 200) (Some 0) 0 "phantom prune of deleted spent utxo"%string].

Definition testSubtreeBlockHeader : list step :=
  [must (OPutSubtree (h 50) [h 51; h 52; h 53]);
   found (OGetSubtree (h 50))
     (fun l => (length l =? 3)%nat && match l !! 1%nat with Some x => hash_eqb x (h 52) | None => false end)
     "subtree round trip"%string;
   must (OPutBlock (mkBlockRec (h 60) 7 123 (h 61) [h 50] (header_with 0 0xab)));
   found (OGetBlock (h 60))
     (fun b => (br_Height b =? 7) && hash_eqb (br_MerkleRoot b) (h 61) && (length (br_SubtreeRoots b) =? 1)%nat
               && byte_at (br_Header b) 0 0xab)
     "block round trip"%string;
   must (OPutHeader 7 (header_with 5 0xcd));
   found (OGetHeader 7) (fun g => byte_at g 5 0xcd) "header round trip"%string].

(** Each test runs on a fresh store. *)
Definition suite_tests : list (list step) :=
  [testTxIndex; testUTXO; testPrune; testDeletes; testSubtreeBlockHeader; testPruneIndex].
End suite.

(** [h(b) = commitment.DoubleSHA256([]byte{b})]. *)
Definition suite_h (b : Z) : Hash := DoubleSHA256 [z2b b].

Definition RunSuite {S} `{Store S} (newStore : S) : Prop :=
  Forall (fun t => exists s', exec t newStore = (Ok tt, s')) (suite_tests suite_h).

(** ** The hashes of the suite *)

Definition suite_table : list (Z * Z) :=
  [(1, 0x9c12cfdc04c74584d787ac3d23772132c18524bc7ab28dec4219b8fc5b425f70);
   (2, 0x1cc3adea40ebfd94433ac004777d68150cce9db4c771bc7de1b297a7b795bbba);
   (3, 0xc942a06c127c2c18022677e888020afb174208d299354f3ecfedb124a1f3fa45);
   (8, 0x42bbafcdee807bf0e14577e5fa6ed1bc0cd19be4f7377d31d90cd7008cb74d73);
   (9, 0x2ad16b189b68e7672a886c82a0550bc531782a3a4cfb2f08324e316bb0f3174d);
   (10, 0x9c827201b94019b42f85706bc49c59ff84b5604d11caafb90ab94856c4e1dd7a);
   (11, 0x92a9cee8d181100da0604847187508328ef3a768612ec0d0dcd4ca2314b45d2d);
   (12, 0x0eac589aa6ef7f5232a21b36ddac0b586b707acebdeac6082e10a9a9f80860da);
   (20, 0xd703d3da6a87bd8e0b453f3b6c41edcc9bf331b2b88ef26eb39dc7abee4e00a3);
   (21, 0x017e6d288c2ab4ed2f5e4a0b41e147f71b4a23a85b3592e2539b8044cb4c8acc);
   (30, 0x2651c51550722c13909ec43f50a1da637f907f7a307e8f60695ae23d3380abad);
   (31, 0x084aa2e4bc2defcd2c409c1916023acd6972624cf88112280b6dacde48367b0c);
   (40, 0xd8909983be3179a28734edac2ad9e1d0364c8e15e6e8cdc1363d9969d23c7d95);
   (50, 0x0c08173828583fc6ecd6ecdbcca7b6939c49c242ad5107e39deb7b0a5996b903);
   (51, 0x80903da4e6bbdf96e8ff6fc3966b0cfd355c7e860bdd1caa8e4722d9230e40ac);
   (52, 0x5a9eab9148389395eff050ddf00220d722123ca8736c862bf200316389b3f611);
   (53, 0xb2928391f8a477a27749a556b7386f4da4391e98df1c76459ba7f4ac2ee1a8f7);
   (60, 0xb8be3a12c93bf76e884b1838290688445b935b5921791c3be17ba52b80e3854f);
   (61, 0xabaceef51b8947652f9416e0c0e1992fecca78855a9072935dc840da26d52202);
   (70, 0x421f5ab576c253e02edf9aa85e8f2719624cb2f81ac2c23386dd81d7d1324a1c);
   (71, 0xfa41bc0eac0939fc711541822b137bdceb99e9867afabdab36671c6f5d3f4edc);
   (72, 0x8e3871a594f9af7a1f357a0793124aaf3358b0f020983678bcd411ee6af387a5);
   (73, 0x319cbb4a3513951e38f3338a9e8d315f0eb5c646d90f5deedab8d421f95808dc);
   (74, 0x8938fd13801978991ebc1e6c1a731e34d67e3cbec2f171679d6dbc9b1c1d53d6);
   (80, 0xe2a6aae5db4329c9b78b937e86d427bce671bbda7a202d31fab821d501dbe113);
   (81, 0x953ccfa596a6c6d39e5980194539124fdcff116a571455a212baed811f585ee0);
   (99, 0x6632753d6ca30fea890f37fc150eaed8d068acf596acb2251b8fafd72db977d3)].
Definition table_h (b : Z) : Hash :=
  arr 32 (be_bytes 32 (foldr (fun p acc => if p.1 =? b then p.2 else acc) 0 suite_table)).

Transparent DoubleSHA256 sha256.
Lemma suite_hashes : forallb (fun p => be_Z (abytes (suite_h p.1)) =? p.2) suite_table = true.
Proof. vm_compute. reflexivity. Qed.
#[global] Opaque DoubleSHA256 sha256.

Lemma table_entry (l : list (Z * Z)) b :
  existsb (fun p => p.1 =? b) l = true -> (b, foldr (fun p acc => if p.1 =? b then p.2 else acc) 0 l) ∈ l.
Proof.
  induction l as [|[a v] l IH]; [done|]. cbn [existsb foldr fst snd]. destruct (a =? b) eqn:E; cbn [orb].
  - zbool. subst a. intros _. set_solver.
  - intros Hl. specialize (IH Hl). set_solver.
Qed.

Lemma suite_h_table b : existsb (fun p => p.1 =? b) suite_table = true -> suite_h b = table_h b.
Proof.
  intros Hb%table_entry. pose proof suite_hashes as Ha. rewrite forallb_forall in Ha.
  apply list_elem_of_In, Ha in Hb. zbool. cbn [fst snd] in Hb. unfold table_h. rewrite <- Hb.
  rewrite be_bytes_Z by apply abytes_length. by rewrite arr_abytes.
Qed.

Lemma suite_concrete : suite_tests suite_h = suite_tests table_h.
Proof.
  unfold suite_tests, testTxIndex, testUTXO, testPrune, testDeletes, testSubtreeBlockHeader, testPruneIndex.
  repeat match goal with |- context [suite_h ?b] => rewrite (suite_h_table b) by reflexivity end. reflexivity.
Qed.

(** ** From the reference store to a back end *)

Lemma exec_step {S} `{Store S} A (o : store_op A) zero check msg t (s s1 : S) a :
  run o s = (Ok a, s1) -> exec (Step A o zero check msg :: t) s = fatal_unless (check a) msg (exec t) s1.
Proof. intros E. cbn [exec]. unfold mbind, mtry. by rewrite E. Qed.

(** A test that passes on a lawful store's abstraction passes on the store. *)
Lemma exec_lawful {S} `{LawfulStore S} t (s : S) f' :
  store_inv s -> exec t (store_view s) = (Ok tt, f') -> exists s', exec t s = (Ok tt, s').
Proof.
  revert s. induction t as [|[A o zero check msg] t IH]; intros s Hi E; [by eexists|].
  destruct (store_law A o s Hi) as (a & s1 & E1 & Hi1 & E2).
  rewrite (exec_step _ _ _ _ _ _ _ _ _ E2) in E. rewrite (exec_step _ _ _ _ _ _ _ _ _ E1).
  unfold fatal_unless in *. destruct (check a); [|done]. by apply IH.
Qed.

(** The guards of the database store hold along the test. *)
Fixpoint guarded (t : list step) (f : Flat) : Prop :=
  match t with
  | [] => True
  | Step A o _ _ _ :: r => op_guard o f /\ guarded r (run o f).2
  end.

Lemma exec_aero {D K} `{LawfulClient D K ns} t (d : D) f f' :
  aero_rel (rows_of d) f -> guarded t f -> exec t f = (Ok tt, f') -> exists d', exec (H := aero_store ns) t d = (Ok tt, d').
Proof.
  revert d f. induction t as [|[A o zero check msg] t IH]; intros d f Hr Hg E; [by eexists|].
  destruct Hg as [Ho Hg]. destruct (agrees_all o _ _ Hr Ho d eq_refl) as (a & d1 & E1 & f1 & E2 & Hr1).
  rewrite (exec_step _ _ _ _ _ _ _ _ _ E2) in E. rewrite (exec_step (S := D) _ _ _ _ _ _ _ _ _ E1).
  rewrite E2 in Hg. unfold fatal_unless in *. destruct (check a); [|done]. by eapply IH.
Qed.

Definition flat_passes (t : list step) : bool := is_ok (exec t flatEmpty).1.
Lemma flat_passes_run t : flat_passes t = true -> exists f', exec t flatEmpty = (Ok tt, f').
Proof. unfold flat_passes. destruct (exec t flatEmpty) as [[[]| |] f']; [eauto|done..]. Qed.

Lemma suite_flat : forallb flat_passes (suite_tests table_h) = true.
Proof. vm_compute. reflexivity. Qed.

Lemma suite_flat_run t : t ∈ suite_tests table_h -> exists f', exec t flatEmpty = (Ok tt, f').
Proof.
  intros Ht. apply flat_passes_run. pose proof suite_flat as Ha. rewrite forallb_forall in Ha.
  by apply Ha, list_elem_of_In.
Qed.

(** Every lawful store passes the conformance suite when it starts empty. *)
Theorem lawful_store_conforms {S} `{LawfulStore S} (newStore : S) :
  store_inv newStore -> store_view newStore = flatEmpty -> RunSuite newStore.
Proof.
  intros Hi Hv. unfold RunSuite. rewrite suite_concrete. apply Forall_forall. intros t Ht.
  destruct (suite_flat_run t Ht) as [f' E]. eapply exec_lawful; [done|]. by rewrite Hv.
Qed.

(** ** The guards along the suite *)

Definition is_ub (w z : Z) : bool := (0 <=? z) && (z <? 2 ^ w).
Definition respend_okb (m : gmap Outpoint UTXO) (op : Outpoint) (spent : bool) (h : Z) : bool :=
  match m !! op with
  | Some u => negb (u_Spent u) || (spent && (u_SpentHeight u =? h))
  | None => true
  end.
Definition op_guardb {A} (o : store_op A) (f : Flat) : bool :=
  match o with
  | OPutTxIndex t ix =>
      is_ub 32 (ix_Height ix) && is_ub 32 (ix_BlockTime ix) && is_ub 32 (ix_SubtreeIndex ix) && is_ub 32 (ix_LeafIndex ix)
      && (negb (ix_Mined ix) || bool_decide (f_txindex f !! t = None))
  | OPutUTXO op u =>
      is_ub 32 (op_Vout op) && is_ub 64 (u_Value u) && is_ub 32 (u_SpentHeight u)
      && respend_okb (f_utxo f) op (u_Spent u) (u_SpentHeight u)
  | OSpendUTXO op _ h => is_ub 32 (op_Vout op) && is_ub 32 h && respend_okb (f_utxo f) op true h
  | OGetUTXO op | OUnspendUTXO op | ODeleteUTXO op => is_ub 32 (op_Vout op)
  | OPutBlock b => is_ub 32 (br_Height b) && is_ub 32 (br_Time b)
  | OPutHeader h _ | OGetHeader h | OPruneSpent h | OPruneIndex h => is_ub 32 h
  | _ => true
  end.

Lemma is_ub_ok w z : is_ub w z = true -> is_u w z.
Proof. unfold is_ub, is_u. lia. Qed.
Lemma respend_okb_ok m op spent h : respend_okb m op spent h = true -> respend_ok m op spent h.
Proof.
  unfold respend_okb, respend_ok. intros Hb u E Hu. rewrite E, Hu in Hb. cbn [negb orb] in Hb. zbool. done.
Qed.

Lemma op_guardb_ok {A} (o : store_op A) f : op_guardb o f = true -> op_guard o f.
Proof.
  destruct o; simpl; intros Hb; rewrite ?andb_true_iff in Hb;
    destruct_and?; unfold txindex_ok, utxo_ok, block_ok, vout_ok; split_and?; auto using is_ub_ok, respend_okb_ok.
  intros Hm. match goal with Hx : (_ || _)%bool = true |- _ => rewrite Hm in Hx; cbn [negb orb] in Hx end. by zbool.
Qed.

Fixpoint guardedb (t : list step) (f : Flat) : bool :=
  match t with
  | [] => true
  | Step A o _ _ _ :: r => op_guardb o f && guardedb r (run o f).2
  end.
Lemma guardedb_ok t f : guardedb t f = true -> guarded t f.
Proof.
  revert f. induction t as [|[A o zero check msg] t IH]; intros f; [done|]. cbn [guardedb guarded].
  rewrite andb_true_iff. intros [H1 H2]. split; [by apply op_guardb_ok|by apply IH].
Qed.

Lemma suite_guarded : forallb (fun t => guardedb t flatEmpty) (suite_tests table_h) = true.
Proof. vm_compute. reflexivity. Qed.

(** A database store over a lawful client passes the conformance suite when the
    namespace starts empty. *)
Theorem aero_store_conforms {D K} `{LawfulClient D K ns} (newStore : D) :
  rows_of newStore = ∅ -> @RunSuite D (aero_store ns) newStore.
Proof.
  intros Hd. unfold RunSuite. rewrite suite_concrete. apply Forall_forall. intros t Ht.
  destruct (suite_flat_run t Ht) as [f' E]. eapply exec_aero; [|  |exact E].
  - rewrite Hd. apply aero_rel_empty.
  - apply guardedb_ok. pose proof suite_guarded as Ha. rewrite forallb_forall in Ha.
    by apply Ha, list_elem_of_In.
Qed.

(** ** The two back ends of the repository *)

Lemma lawful_store_conforms_witness : RunSuite MemStore.New.
Proof. apply (lawful_store_conforms MemStore.New); [exact New_inv|exact New_view]. Defined.

Lemma aero_store_conforms_witness : @RunSuite Rows (aero_store "ns") ∅.
Proof. apply (aero_store_conforms (H0 := rows_lawful "ns") ∅). reflexivity. Defined.
