(* ===== verification/Backends.v ===== *)
(** * One node, two back ends: ingest over the database store
      ([src/ingest/ingest.go], [src/prune/prune.go], [src/store/aerospike/aerospike.go])

    The database store agrees with the reference store only within the guard
    of each operation (a mined transaction is stored once, a spent output is
    not stored again or spent at another height).  Here the guards are shown to
    hold along the node's own programs: a block that applies to the state can
    be ingested over the database with the results, the statistics and the
    rows of the reference store; sweeps, rollbacks and queries need nothing
    but well-typed outpoints.  A whole chain without double spends therefore
    gives the same node over the database as over the in-memory store. *)

From stdpp Require Import base gmap list strings sets.
From Stdlib Require Import ZArith Lia ZifyNat.
From S2P Require Import Prelude Sha256 Commitment Shard StoreSpec MemStore ProofPath Prune Teranode Ingest Reorg Pipeline Api Chain Aerospike.
Open Scope go_scope.

(** ** Blocks in the ranges of their Go types *)

Definition tx_typed (tx : Tx) : Prop :=
  Forall vout_ok (tx_Inputs tx) /\ Forall (fun o => is_u 64 (o_Value o)) (tx_Outputs tx)
  /\ Z.of_nat (length (tx_Outputs tx)) <= 2 ^ 32.
Definition block_typed (b : Block) : Prop :=
  is_u 32 (b_Height b) /\ is_u 32 (b_Time b) /\ Forall tx_typed (block_txs b).

(** A block the database store can take in state [f]. *)
Definition admissible (i : Ingestor) (b : Block) (f : Flat) : Prop :=
  block_typed b /\ NoDup (es_txids (owned_entries i b)) /\ block_applies i b f.

Lemma owned_typed i b : block_typed b -> Forall (fun e => tx_typed (entry_tx e)) (owned_entries i b).
Proof.
  intros (_ & _ & Ht). rewrite Forall_forall in Ht. apply Forall_forall.
  intros e [_ He]%owned_entries_elem. by apply Ht, entries_txs.
Qed.

(** ** The outputs of distinct transactions are distinct *)

Lemma out_keys_txid tx k : k ∈ out_keys tx -> op_TxID k = tx_TxID tx.
Proof. intros (p & -> & _)%list_elem_of_fmap. done. Qed.

Lemma out_keys_NoDup tx : Z.of_nat (length (tx_Outputs tx)) <= 2 ^ 32 -> NoDup (out_keys tx).
Proof.
  intros Hl. unfold out_keys. apply NoDup_alt. intros j k x Hj Hk.
  rewrite list_lookup_fmap in Hj, Hk.
  destruct (numbered 0 (tx_Outputs tx) !! j) as [p|] eqn:Ej; [|done].
  destruct (numbered 0 (tx_Outputs tx) !! k) as [q|] eqn:Ek; [|done].
  apply numbered_lookup in Ej as (o & Ho%lookup_lt_Some & ->), Ek as (o' & Ho'%lookup_lt_Some & ->).
  cbn [fmap option_fmap option_map fst] in Hj, Hk.
  assert (u32 (0 + Z.of_nat j) = u32 (0 + Z.of_nat k)) as E.
  { rewrite <- Hj in Hk. apply (f_equal (from_option op_Vout 0)) in Hk. simpl in Hk. done. }
  rewrite !u32_small in E by lia. lia.
Qed.

Lemma es_outputs_elem es k : k ∈ es_outputs es <-> exists e, e ∈ es /\ k ∈ out_keys (entry_tx e).
Proof. apply concat_elem. Qed.
Lemma es_inputs_elem es k : k ∈ es_inputs es <-> exists e, e ∈ es /\ k ∈ tx_Inputs (entry_tx e).
Proof. apply concat_elem. Qed.
Lemma es_outputs_txid es k : k ∈ es_outputs es -> op_TxID k ∈ es_txids es.
Proof.
  intros (e & He & Hk)%es_outputs_elem. rewrite (out_keys_txid _ _ Hk).
  unfold es_txids. apply list_elem_of_fmap. by exists e.
Qed.

(** ** Lives the database can follow *)

Definition event_ok (i : Ingestor) (ev : event) (f : Flat) : Prop :=
  match ev with Arrive b => admissible i b f | Undo b => block_typed b end.

(** Every event is one the database can take in the state it finds. *)
Fixpoint life_ok (i : Ingestor) (evs : list event) (p : Flat * Pruner) : Prop :=
  match evs with
  | [] => True
  | ev :: rest => event_ok i ev p.1 /\ life_ok i rest (handle i ev p).2
  end.

Lemma handle_flat i ev (f : Flat) pr :
  pruner_ok pr -> event_ok i ev f -> exists r f' pr', handle i ev (f, pr) = (Ok r, (f', pr')) /\ pruner_ok pr'.
Proof.
  intros Hpr Hev. destruct ev as [b|b]; simpl in *.
  - destruct Hev as ((Hh & _) & _).
    destruct (IngestBlock_cases i b f pr Hpr Hh) as [(st & f1 & pr1 & E)|(e & E)]; rewrite E; eexists _, _, _.
    + split; [done|]. by apply (ingest_policy i b f pr st f1 pr1).
    + by split.
  - unfold mbind, on1. cbn [fst snd]. rewrite RollbackBlock_flat. by eexists _, _, _.
Qed.

(** Programs equal on every state simulate alike. *)
Lemma sim_at_meq {S1 S2 A} (R : S1 -> S2 -> Prop) (m1 m1' : M S1 A) (m2 m2' : M S2 A) s2 :
  meq m1 m1' -> meq m2 m2' -> sim_at R m1' m2' s2 -> sim_at R m1 m2 s2.
Proof. intros H1 H2 Hs s1 HR. rewrite H1, H2. by apply Hs. Qed.

(** ** Ingest, operation by operation *)

Section database.
Context {D K : Type} `{LawfulClient D K ns}.
#[local] Instance db_store : Store D := aero_store ns.

(** The rows of the database represent the reference store. *)
Definition db_rel (d : D) (f : Flat) : Prop := aero_rel (rows_of d) f.

(** The operations whose guard does not depend on the state. *)
Definition stateless (A : Type) (o : store_op A) : Prop :=
  match o with
  | OGetTxIndex _ | OGetSubtree _ | OGetBlock _ | OPutSubtree _ _ | ODeleteTxIndex _ => True
  | OGetUTXO op | OUnspendUTXO op | ODeleteUTXO op => vout_ok op
  | OPutBlock b => block_ok b
  | OPutHeader h _ | OGetHeader h | OPruneSpent h | OPruneIndex h => is_u 32 h
  | OPutTxIndex _ _ | OPutUTXO _ _ | OSpendUTXO _ _ _ => False
  end.

Lemma db_op {A} (o : store_op A) f : op_guard o f -> sim_at db_rel (run o) (run o) f.
Proof.
  intros Hg d Hr. destruct (agrees_all o _ _ Hr Hg d eq_refl) as (a & d' & E & f' & Ef & Hr').
  by exists (Ok a), d', f'.
Qed.

#[local] Instance db_sim : SimStore db_rel stateless.
Proof. intros A o Ho d f Hr. apply db_op; [|done]. by destruct o. Qed.

Abbreviation R3 := (rel1 (rel1 db_rel Pruner) IStats).

Lemma db_st_op {A} (m1 : M D A) (m2 : M Flat A) f pr st :
  sim_at db_rel m1 m2 f -> sim_at R3 (st_op m1) (st_op m2) ((f, pr), st).
Proof. intros Hm. by apply sim_at_on1, sim_at_on1. Qed.
Lemma db_bump d s : sim_at R3 (bump d) (bump d) s.
Proof. apply sim_at_sim, sim_on2. Qed.

(** Whatever is spent among [ks] is spent at height [h]. *)
Definition spent_only (h : Z) (ks : list Outpoint) (f : Flat) : Prop :=
  forall k u, k ∈ ks -> f_utxo f !! k = Some u -> u_Spent u = true -> u_SpentHeight u = h.

Lemma spent_only_spend h ks by_ op f : spent_only h ks f -> spent_only h ks (flat_spend by_ h f op).
Proof.
  intros Hs k u Hk. rewrite flat_spend_lookup. case_decide; [|by apply Hs].
  destruct (f_utxo f !! k); [|done]. by intros [= <-].
Qed.

Lemma db_spend_inputs b tx ops f pr st :
  Forall vout_ok ops -> is_u 32 (b_Height b) -> spent_only (b_Height b) ops f ->
  sim_at R3 (for_each (spend_input (S := D) b tx) ops) (for_each (spend_input (S := Flat) b tx) ops) ((f, pr), st).
Proof.
  intros Hv Hh Hs.
  apply (sim_at_for_each _ (fun rest s => Forall vout_ok rest /\ spent_only (b_Height b) rest s.1.1)); [|done].
  clear f pr st ops Hv Hs. intros op rest [[f pr] st] [Hv Hs]. cbn [fst] in Hs.
  inversion Hv as [|?? Hop Hrest]; subst. split.
  - unfold spend_input. apply sim_at_bind.
    + apply db_st_op, (db_op (OSpendUTXO op (tx_TxID tx) (b_Height b))). split; [done|]. split; [done|].
      intros u Hu Hsp. split; [done|]. apply (Hs op); [set_solver|done..].
    + intros [] s _; [apply db_bump|apply sim_at_sim, sim_ret].
  - intros s' E. destruct (spend_inputs_flat b tx [op] f pr st) as (st' & E' & _).
    cbn [for_each foldl] in E'. unfold mbind at 1 in E'. rewrite E in E'. cbn [mret] in E'. injection E' as ->.
    cbn [fst]. split; [done|]. intros k u Hk. apply (spent_only_spend _ (op :: rest)); [done|set_solver].
Qed.

Lemma db_make_outputs tx outs f pr st :
  Forall (fun p => is_u 64 (o_Value p.2)) outs -> NoDup ((fun p => out_point tx p.1) <$> outs) ->
  Forall (fun k => f_utxo f !! k = None) ((fun p => out_point tx p.1) <$> outs) ->
  sim_at R3 (for_each (fun p => make_output (S := D) tx p.1 p.2) outs)
    (for_each (fun p => make_output (S := Flat) tx p.1 p.2) outs) ((f, pr), st).
Proof.
  intros Ho Hn Hf.
  apply (sim_at_for_each _ (fun rest s => Forall (fun p => is_u 64 (o_Value p.2)) rest
    /\ NoDup ((fun p => out_point tx p.1) <$> rest)
    /\ Forall (fun k => f_utxo s.1.1 !! k = None) ((fun p => out_point tx p.1) <$> rest))); [|done].
  clear. intros [v o] rest [[f pr] st]. cbn [fst snd fmap list_fmap].
  intros (Ho & [Hx Hn]%NoDup_cons & [Hf Hr]%Forall_cons). inversion Ho as [|?? Hval Hrest]; subst. split.
  - unfold make_output. apply sim_at_bind; [|intros; apply db_bump].
    apply db_st_op, (db_op (OPutUTXO _ _)). split; [apply u32_range|]. split; [split; [exact Hval|by vm_compute]|].
    intros u Hu. by rewrite Hf in Hu.
  - intros s' E. injection E as <-. cbn [fst]. split_and!; [done..|].
    rewrite Forall_forall in Hr |- *. intros k Hk. cbn [f_utxo set_utxo].
    rewrite lookup_insert_ne; [by apply Hr|]. by intros <-.
Qed.

(** What the transactions still to be indexed need of the state. *)
Record fits (h : Z) (es : list entry) (f : Flat) : Prop := mkFits
  { fit_typed : Forall (fun e => tx_typed (entry_tx e)) es;
    fit_nodup : NoDup (es_txids es);
    fit_txids : Forall (fun t => f_txindex f !! t = None) (es_txids es);
    fit_outs : Forall (fun k => f_utxo f !! k = None) (es_outputs es);
    fit_ins : spent_only h (es_inputs es) f }.

Lemma fits_step b e es f : fits (b_Height b) (e :: es) f -> fits (b_Height b) es (apply_tx b f e).
Proof.
  intros [Ht Hn Hx Ho Hi]. apply Forall_cons in Ht as [_ Ht]. apply NoDup_cons in Hn as [Hne Hn].
  apply Forall_cons in Hx as [_ Hx]. apply Forall_app in Ho as [_ Ho]. rewrite Forall_forall in Hx. rewrite Forall_forall in Ho.
  split; [done|done|..].
  - apply Forall_forall. intros t Hin. destruct (apply_tx_index b f e) as (-> & _). rewrite put_tx_tx.
    rewrite lookup_insert_ne; [by apply Hx|]. by intros <-.
  - apply Forall_forall. intros k Hk. rewrite (proj1 (apply_tx_utxo b f e k)).
    + rewrite (Ho k Hk). by case_bool_decide.
    + intros Hke%out_keys_txid. apply Hne. rewrite <- Hke. by apply es_outputs_txid.
  - intros k u Hk. destruct (apply_tx_utxo b f e k) as [T1 T2].
    destruct (decide (k ∈ out_keys (entry_tx e))) as [Hko|Hko].
    + destruct (T2 Hko) as [o ->]. by intros [= <-].
    + rewrite T1 by done. case_bool_decide as Hki.
      * destruct (f_utxo f !! k); [|done]. by intros [= <-].
      * apply Hi. apply elem_of_app. by right.
Qed.

Lemma db_index_tx i b e es f pr st :
  block_typed b -> owns i (tx_TxID (entry_tx e)) = true -> fits (b_Height b) (e :: es) f ->
  sim_at R3 (index_tx (S := D) i b e.1 e.2.1 e.2.2) (index_tx (S := Flat) i b e.1 e.2.1 e.2.2) ((f, pr), st).
Proof.
  destruct e as (si & li & tx). intros (Hh & Htm & _) Hown [Ht _ Hx Ho Hi]. unfold entry_tx in *. simpl in *.
  apply Forall_cons in Ht as [(Hv & Hval & Hlen) _]. apply Forall_cons in Hx as [Hx _].
  apply Forall_app in Ho as [Ho _]. unfold index_tx. rewrite Hown. cbn [negb].
  apply sim_at_bind; [|intros [] s1 E1; injection E1 as <-].
  { apply db_st_op, (db_op (OPutTxIndex _ _)). split; [|done]. split_and!; [done|done|apply u32_range..]. }
  apply sim_at_bind; [apply db_bump|]. intros [] s2 E2. injection E2 as <-. cbn [fst snd].
  set (f1 := flat_put_txindex _ _ f). assert (f_utxo f1 = f_utxo f) as Ef by apply flat_put_txindex_utxo.
  apply sim_at_bind.
  - apply db_spend_inputs; [done|done|]. intros k u Hk. rewrite Ef. apply Hi, elem_of_app. by left.
  - intros [] s3 E3. set (st1 := add_stats _ _) in E3.
    destruct (spend_inputs_flat b tx (tx_Inputs tx) f1 pr st1) as (st' & E' & _). rewrite E' in E3. injection E3 as <-.
    eapply sim_at_meq; [apply for_each_from_numbered..|]. apply db_make_outputs.
    + apply Forall_forall. intros p [j Hj]%list_elem_of_lookup. apply numbered_lookup in Hj as (o & Hj & ->).
      rewrite Forall_forall in Hval. by eapply Hval, list_elem_of_lookup_2.
    + by apply out_keys_NoDup.
    + eapply Forall_impl; [exact Ho|]. intros k Hk. cbv beta in Hk.
      rewrite (proj2 (spends_lookup _ _ _ _ k)), Ef, Hk. by case_bool_decide.
Qed.

Lemma db_index_phase i b f pr st :
  block_typed b -> fits (b_Height b) (owned_entries i b) f ->
  sim_at R3 (for_eachi (index_subtree (S := D) i b) (b_Subtrees b))
    (for_eachi (index_subtree (S := Flat) i b) (b_Subtrees b)) ((f, pr), st).
Proof.
  intros Hb Hf. eapply sim_at_meq; [apply index_phase_entries..|].
  assert (Forall (fun e => owns i (tx_TxID (entry_tx e)) = true) (owned_entries i b)) as Ho.
  { apply Forall_forall. by intros e [? _]%owned_entries_elem. }
  apply (sim_at_for_each _ (fun es s => fits (b_Height b) es s.1.1
    /\ Forall (fun e => owns i (tx_TxID (entry_tx e)) = true) es)); [|done].
  clear f pr st Hf Ho. intros e es [[f pr] st] [Hf [He Ho]%Forall_cons]. split; [by eapply db_index_tx|].
  intros s' E. destruct (index_tx_flat b e f pr st i He) as (st' & E' & _). rewrite E in E'. injection E' as ->.
  split; [by apply fits_step|done].
Qed.

Lemma admissible_fits i b f : admissible i b f -> fits (b_Height b) (owned_entries i b) (put_head i b f).
Proof.
  intros (Ht & Hn & Hx & Ho & Hi). destruct (put_head_tables i b f) as [Eu Et].
  split; rewrite ?Eu, ?Et; [by apply owned_typed|done|done|done|].
  intros k u Hk. rewrite Eu. intros Hu Hs. rewrite Forall_forall in Hi. by rewrite <- (Hi k Hk u Hu) in Hs.
Qed.

Lemma db_ingest_body i b f pr st :
  admissible i b f -> sim_at R3 (ingest_body (S := D) i b) (ingest_body (S := Flat) i b) ((f, pr), st).
Proof.
  intros Ha. pose proof Ha as ((Hh & Htm & Htx) & _). unfold ingest_body.
  apply sim_at_bind; [destruct (in_skipValidate i); apply sim_at_sim; eauto with sim|].
  intros [] s0 E0. assert (s0 = ((f, pr), st)) as ->.
  { destruct (in_skipValidate i); [by injection E0|]. unfold mlift in E0. by injection E0. }
  apply sim_at_bind.
  { apply sim_at_sim, sim_for_each. intros sub. unfold put_subtree. destruct (own_any i sub); [|apply sim_ret].
    apply sim_on1, sim_on1. by apply (sim_ok _ (OPutSubtree _ _)). }
  intros [] s1 E1. rewrite put_subtrees_flat in E1. injection E1 as <-.
  apply sim_at_bind; [by apply db_st_op, (db_op (OPutBlock _))|]. intros [] s2 E2. injection E2 as <-.
  apply sim_at_bind; [by apply db_st_op, (db_op (OPutHeader _ _))|]. intros [] s3 E3. injection E3 as <-.
  apply sim_at_bind; [by apply db_index_phase, admissible_fits|]. intros [] s4 _.
  apply sim_at_bind; [apply db_bump|]. intros [] s5 _. apply sim_at_sim. destruct (in_pruner i); [|apply sim_ret].
  apply sim_bind; [by apply sim_on1, sim_OnNewBlock_on|]. intros [n [e|]]; [apply sim_err|apply sim_on2].
Qed.

Lemma db_IngestBlock i b f pr :
  admissible i b f ->
  sim_at (rel1 db_rel Pruner) (IngestBlock (S := D) i b) (IngestBlock (S := Flat) i b) (f, pr).
Proof.
  intros Ha s1 HR. destruct (db_ingest_body i b f pr zeroStats Ha (s1, zeroStats))
    as (r & [s1' st] & [s2' st2] & E1 & E2 & [HR' Hst]); [done|].
  simpl in Hst, HR'. subst st2. unfold IngestBlock. rewrite E1, E2. destruct r; by eexists _, _, _.
Qed.

Lemma db_RollbackBlock i b :
  block_typed b -> sim db_rel (RollbackBlock (S := D) i b) (RollbackBlock (S := Flat) i b).
Proof.
  intros (_ & _ & Ht). apply sim_RollbackBlock_on; [done|intros; apply u32_range|].
  eapply Forall_impl; [exact Ht|]. by intros tx (Hv & _).
Qed.

Lemma db_handle i ev f pr :
  event_ok i ev f -> sim_at (rel1 db_rel Pruner) (handle (S := D) i ev) (handle (S := Flat) i ev) (f, pr).
Proof.
  intros Hev. destruct ev as [b|b]; simpl in *; [by apply db_IngestBlock|].
  apply sim_at_sim, sim_bind; [by apply sim_on1, db_RollbackBlock|intros; apply sim_ret].
Qed.

Lemma db_life i evs (d : D) f pr :
  db_rel d f -> pruner_ok pr -> life_ok i evs (f, pr) ->
  exists rs d' f' pr', life i evs (d, pr) = (Ok rs, (d', pr')) /\ life i evs (f, pr) = (Ok rs, (f', pr'))
    /\ db_rel d' f'.
Proof.
  revert d f pr. induction evs as [|ev evs IH]; intros d f pr Hr Hpr Hok; [by eexists _, _, _, _|].
  destruct Hok as [Hev Hok]. cbn [fst] in Hev. destruct (handle_flat i ev f pr Hpr Hev) as (r & f1 & pr1 & E & Hpr1).
  destruct (db_handle i ev f pr Hev (d, pr)) as (r' & [d1 pr2] & q & E1 & E2 & [Hr1 Hp]); [done|].
  rewrite E in E2, Hok. injection E2 as <- <-. simpl in Hp, Hr1. subst pr2.
  destruct (IH d1 f1 pr1 Hr1 Hpr1 Hok) as (rs & d' & f' & pr' & L1 & L2 & Hr').
  exists (r :: rs), d', f', pr'. cbn [life]. split_and!; [| |done].
  - erewrite mbind_ok by exact E1. by erewrite mbind_ok by exact L1.
  - erewrite mbind_ok by exact E. by erewrite mbind_ok by exact L2.
Qed.
End database.


(** ** Whole chains *)

Definition chain_txids (i : Ingestor) (bs : list Block) : list Hash :=
  concat ((fun b => es_txids (owned_entries i b)) <$> bs).
Definition chain_inputs (i : Ingestor) (bs : list Block) : list Outpoint :=
  concat ((fun b => es_inputs (owned_entries i b)) <$> bs).

(** A chain as consensus leaves it: no transaction twice, and no output of the
    chain spent twice (an input that names nothing in the chain, a coinbase
    input for instance, may repeat). *)
Definition chain_ok (i : Ingestor) (bs : list Block) : Prop :=
  Forall block_typed bs /\ NoDup (chain_txids i bs)
  /\ NoDup (filter (fun k => op_TxID k ∈ chain_txids i bs) (chain_inputs i bs)).

#[global] Instance chain_ok_dec i bs : Decision (chain_ok i bs).
Proof. unfold chain_ok, block_typed, tx_typed, vout_ok, is_u. apply _. Defined.

(** The records of a store that has seen exactly the blocks [bs]. *)
Record behind (i : Ingestor) (bs : list Block) (f : Flat) : Prop := mkBehind
  { beh_tx : forall t, is_Some (f_txindex f !! t) -> t ∈ chain_txids i bs;
    beh_out : forall k, is_Some (f_utxo f !! k) -> op_TxID k ∈ chain_txids i bs;
    beh_spent : forall k u, f_utxo f !! k = Some u -> mark_unspent u = u \/ k ∈ chain_inputs i bs }.

Lemma chain_txids_app i bs bs' : chain_txids i (bs ++ bs') = chain_txids i bs ++ chain_txids i bs'.
Proof. unfold chain_txids. by rewrite fmap_app, concat_app. Qed.
Lemma chain_inputs_app i bs bs' : chain_inputs i (bs ++ bs') = chain_inputs i bs ++ chain_inputs i bs'.
Proof. unfold chain_inputs. by rewrite fmap_app, concat_app. Qed.

Lemma behind_empty i : behind i [] flatEmpty.
Proof.
  split; cbn [f_txindex f_utxo flatEmpty]; intros; rewrite lookup_empty in *; [by destruct H..|done].
Qed.

Lemma behind_admissible i bs b rest f :
  chain_ok i (bs ++ b :: rest) -> behind i bs f -> admissible i b f.
Proof.
  intros (Ht & Hn & Hs) [B1 B2 B3]. apply Forall_app in Ht as [_ [Ht _]%Forall_cons].
  rewrite chain_txids_app in Hn, Hs. rewrite chain_inputs_app, filter_app in Hs.
  assert (NoDup (es_txids (owned_entries i b)) /\ forall t, t ∈ es_txids (owned_entries i b) -> t ∉ chain_txids i bs)
    as [Hn1 Hdis].
  { apply NoDup_app in Hn as (_ & Hd & Hn). change (chain_txids i (b :: rest))
      with (es_txids (owned_entries i b) ++ chain_txids i rest) in Hd, Hn. apply NoDup_app in Hn as (Hn & _ & _).
    split; [done|]. intros t Hb Hin. apply (Hd t Hin). apply elem_of_app. by left. }
  split; [done|]. split; [done|]. split; [|split]; apply Forall_forall.
  - intros t Hin. apply eq_None_not_Some. intros Hx. by apply (Hdis t), B1.
  - intros k Hin%es_outputs_txid. apply eq_None_not_Some. intros Hx. by apply (Hdis (op_TxID k)), B2.
  - intros k Hin u Hu. destruct (B3 k u Hu) as [|Hk]; [done|]. exfalso.
    assert (op_TxID k ∈ chain_txids i bs ++ chain_txids i (b :: rest)) as Hc.
    { apply elem_of_app. left. by apply B2; eauto. }
    apply NoDup_app in Hs as (_ & Hd & _). apply (Hd k); apply list_elem_of_filter; split; try done.
    change (chain_inputs i (b :: rest)) with (es_inputs (owned_entries i b) ++ chain_inputs i rest).
    apply elem_of_app. by left.
Qed.

(** The pruner only removes records. *)
Lemma finish_only_removes i pr b f n f' pr' :
  pruner_ok pr -> 0 <= b_Height b < 2 ^ 32 -> finish i pr b f = (Ok (n, None), (f', pr')) ->
  f_utxo f' ⊆ f_utxo f /\ f_txindex f' ⊆ f_txindex f.
Proof.
  intros Hpr Hh E. unfold finish in E. destruct (in_pruner i); [|by injection E as <- <- <-].
  destruct (OnNewBlock_flat pr (b_Height b) f Hpr Hh) as (m & g & Eo & Hu & _ & Hx).
  rewrite Eo in E. injection E as <- <- <-. split; [rewrite Hu; apply map_filter_subseteq|].
  destruct (0 <? IndexRetention (pr_policy pr)); [|by destruct Hx as [-> _]].
  apply map_subseteq_spec. intros t ix Ht. destruct (sw_tx _ _ _ _ Hx t) as [E'|(k & Hk & Hin)].
  - by rewrite E' in Ht.
  - by rewrite (sw_tx_gone _ _ _ _ Hx t k Hk Hin) in Ht.
Qed.

Lemma behind_weaken i bs b f : behind i bs f -> behind i (bs ++ [b]) f.
Proof.
  intros [B1 B2 B3]. split; rewrite ?chain_txids_app, ?chain_inputs_app; intros.
  - apply elem_of_app. left. by apply B1.
  - apply elem_of_app. left. by apply B2.
  - destruct (B3 k u) as [|Hk]; [done|by left|right]. apply elem_of_app. by left.
Qed.

(** An output of the block that the block does not spend is unspent. *)
Lemma fresh_output b es f k u :
  k ∈ es_outputs es -> k ∉ es_inputs es -> f_utxo (foldl (apply_tx b) f es) !! k = Some u -> mark_unspent u = u.
Proof.
  revert f. induction es as [|e es IH]; intros f Ho Hi; [by apply elem_of_nil in Ho|].
  cbn [foldl]. unfold es_outputs, es_inputs in *. cbn [fmap list_fmap concat] in *.
  rewrite elem_of_app in Ho, Hi. destruct (decide (k ∈ es_outputs es)) as [Hk|Hk].
  - intros Hu. eapply IH; [exact Hk| |exact Hu]. tauto.
  - destruct (block_utxo b es (apply_tx b f e) k) as (H1 & _). rewrite H1; [|done|tauto].
    destruct Ho as [Ho|Ho]; [|done]. destruct (proj2 (apply_tx_utxo b f e k) Ho) as [o ->]. by intros [= <-].
Qed.

Lemma behind_stored i bs b f : behind i bs f -> behind i (bs ++ [b]) (stored i b f).
Proof.
  intros [B1 B2 B3]. unfold stored. set (es := owned_entries i b).
  assert (chain_txids i [b] = es_txids es) as Et by apply app_nil_r.
  assert (chain_inputs i [b] = es_inputs es) as Ei by apply app_nil_r.
  destruct (put_head_tables i b f) as [Eu Ex].
  split; rewrite ?chain_txids_app, ?chain_inputs_app, ?Et, ?Ei.
  - intros t Ht. apply elem_of_app. destruct (decide (t ∈ es_txids es)) as [|Hn]; [by right|left].
    destruct (block_index b es (put_head i b f)) as (_ & _ & _ & _ & H5 & _). rewrite (H5 t Hn), Ex in Ht. by apply B1.
  - intros k Hk. apply elem_of_app. destruct (block_utxo b es (put_head i b f) k) as (H1 & H2 & _). rewrite Eu in *.
    destruct (decide (k ∈ es_outputs es)) as [Ho|Ho]; [right; by apply es_outputs_txid|left]. apply B2.
    destruct (decide (k ∈ es_inputs es)) as [Hi|Hi]; [|by rewrite (H1 Ho Hi) in Hk].
    destruct (H2 Ho Hi) as [by_ E]. rewrite E in Hk. by apply fmap_is_Some in Hk.
  - intros k u Hu. destruct (decide (k ∈ es_inputs es)) as [Hi|Hi]; [right; apply elem_of_app; by right|].
    destruct (block_utxo b es (put_head i b f) k) as (H1 & _ & _). rewrite Eu in *.
    destruct (decide (k ∈ es_outputs es)) as [Ho|Ho]; [left; by eapply fresh_output|].
    rewrite (H1 Ho Hi) in Hu. destruct (B3 k u Hu); [by left|right]. apply elem_of_app. by left.
Qed.

Lemma behind_removed i bs f f' :
  f_utxo f' ⊆ f_utxo f -> f_txindex f' ⊆ f_txindex f -> behind i bs f -> behind i bs f'.
Proof.
  intros Hu Ht [B1 B2 B3]. rewrite map_subseteq_spec in Hu. rewrite map_subseteq_spec in Ht. split.
  - intros t [x Hx]. apply B1. eauto.
  - intros k [x Hx]. apply B2. eauto.
  - intros k u Hx. by apply B3, Hu.
Qed.

Lemma behind_ingest i bs b (f : Flat) pr :
  pruner_ok pr -> is_u 32 (b_Height b) -> behind i bs f ->
  behind i (bs ++ [b]) (IngestBlock i b (f, pr)).2.1.
Proof.
  intros Hpr Hh Hb. destruct (IngestBlock_cases i b f pr Hpr Hh) as [(st & f1 & pr1 & E)|(e & E)].
  - destruct (IngestBlock_inv i b f pr st f1 pr1 Hpr Hh E) as (n & Ef & _). rewrite E. cbn [fst snd].
    destruct (finish_only_removes i pr b _ n f1 pr1 Hpr Hh Ef) as [Hu Ht].
    by eapply behind_removed, behind_stored.
  - rewrite E. by apply behind_weaken.
Qed.

(** Along a consensus-valid chain every block is admissible when it arrives. *)
Lemma chain_life i pre bs (f : Flat) pr :
  chain_ok i (pre ++ bs) -> behind i pre f -> pruner_ok pr -> life_ok i (Arrive <$> bs) (f, pr).
Proof.
  revert pre f pr. induction bs as [|b bs IH]; intros pre f pr Hc Hb Hpr; [done|]. cbn [fmap list_fmap life_ok].
  pose proof (behind_admissible i pre b bs f Hc Hb) as Ha. split; [exact Ha|].
  pose proof Ha as ((Hh & _) & _). destruct (handle_flat i (Arrive b) f pr Hpr Ha) as (r & f' & pr' & E & Hpr').
  rewrite E. apply (IH (pre ++ [b])); [by rewrite <- app_assoc| |done].
  pose proof (behind_ingest i pre b f pr Hpr Hh Hb) as Hb'. cbn [handle] in E. by rewrite E in Hb'.
Qed.

(** ** The two back ends *)

Definition question_ok (q : question) : Prop :=
  match q with AskUTXO op => vout_ok op | _ => True end.

Lemma sim_ask_on {S1 S2} `{SimStore S1 S2 R ok} q :
  (forall t, ok _ (OGetTxIndex t)) -> (forall h, ok _ (OGetBlock h)) -> (forall h, ok _ (OGetSubtree h)) ->
  (forall op, vout_ok op -> ok _ (OGetUTXO op)) -> question_ok q -> sim R (ask (S := S1) q) (ask (S := S2) q).
Proof.
  intros Ht Hb Hs Hu Hq. destruct q; (apply sim_bind; [|intros; apply sim_ret]).
  - by apply sim_Seen_on.
  - by apply sim_Mined_on.
  - by apply sim_Build_on.
  - by apply sim_UTXO_on, Hu.
Qed.

Section over_the_database.
Context {D K : Type} `{LawfulClient D K ns}.
#[local] Instance the_store : Store D := aero_store ns.


End over_the_database.

(** ** Witnesses *)

Lemma demo_chain_ok : chain_ok demo_ingestor demo_chain.
Proof. apply (bool_decide_unpack _). vm_compute. exact I. Qed.

(** The first block arrives and is undone. *)
Definition demo_events : list event :=
  match demo_chain with b :: _ => [Arrive b; Undo b] | [] => [] end.

Lemma demo_life_ok : life_ok demo_ingestor demo_events (flatEmpty, NewPruner RecommendedPolicy).
Proof.
  pose proof (behind_admissible demo_ingestor [] _ _ flatEmpty demo_chain_ok (behind_empty _)) as Ha.
  split; [exact Ha|]. split; [exact (proj1 Ha)|done].
Qed.


