(* ===== verification/Bench.v ===== *)
(** * bench: population of a store and the load generator ([src/bench/bench.go])

    [Build] drains a mock chain into a fresh in-memory store and keeps a sample
    of keys; the workers of the two throughput measurements then ask for those
    keys.  The clock is a list of readings, one per check of the deadline, and
    a rate is the pair of its integer count and its window (the final division
    is floating point).  The theorems show that every sampled key is answered
    by the populated store, what the workers count, and that a paid answer is
    counted only when its commitment was accepted. *)

From stdpp Require Import base gmap list strings sets.
From Stdlib Require Import ZArith Lia ZifyNat.
From Stdlib Require Strings.Byte.
From S2P Require Import Prelude Sha256 Commitment Bsvtx Channel Crypto Paid Shard StoreSpec MemStore ProofPath Prune Teranode Ingest Reorg Pipeline Api Chain Footprint.
Open Scope go_scope.

(** ** Populating a store *)

(** [Server] is the store with the advertised depth. *)
Record Populated : Type := mkPopulated
  { po_Store : MemStore; po_AdvertisedD : Z; po_TxIDs : list Hash; po_Outpts : list Outpoint;
    po_Stats : IStats; po_Tip : Z }.

(** The local variables of the loop. *)
Record Progress : Type := mkProgress
  { g_txids : list Hash; g_outpts : list Outpoint; g_tip : Z; g_totals : IStats }.

Definition sample_subtree (acc : list Hash * list Outpoint) (sub : Subtree) : list Hash * list Outpoint :=
  (acc.1 ++ sub_TxIDs sub, acc.2 ++ ((fun tx => mkOutpoint (tx_TxID tx) 0) <$> sub_Txs sub)).

(** The sample is capped at the start of a block. *)
Definition sample_block (b : Block) (acc : list Hash * list Outpoint) : list Hash * list Outpoint :=
  if Z.of_nat (length acc.1) <? 2 ^ 20 then foldl sample_subtree acc (b_Subtrees b) else acc.

Definition advance (g : Progress) (b : Block) (s : IStats) : Progress :=
  let '(txids, outpts) := sample_block b (g_txids g, g_outpts g) in
  mkProgress txids outpts (b_Height b) (add_stats (g_totals g) s).

Section build.
Context {S T : Type} `{Store S} `{Source T}.

Fixpoint build_loop (fuel : nat) (i : Ingestor) (g : Progress) : M ((S * Pruner) * T) Progress :=
  match fuel with
  | O => mpanic
  | Datatypes.S fuel' =>
      nb <- on2 Next ;;
      match nb with
      | None => mret g
      | Some b =>
          r <- on1 (IngestBlock i b) ;;
          match r with
          | (_, Some e) => merr e
          | (s, None) => build_loop fuel' i (advance g b s)
          end
      end
  end.
End build.

Definition bench_policy (reorgHorizon recencyWindow : Z) : Prune.Policy :=
  Prune.mkPolicy reorgHorizon recencyWindow 0.
Definition bench_ingestor : Ingestor := mkIngestor 0 0 false true.

Definition bench_Build (fuel : nat) (cfg : MockConfig) (reorgHorizon recencyWindow : Z) : result Populated :=
  let pol := bench_policy reorgHorizon recencyWindow in
  match build_loop fuel bench_ingestor (mkProgress [] [] 0 zeroStats) ((New, NewPruner pol), NewMock cfg) with
  | (Ok g, ((st, _), _)) => Ok (mkPopulated st (D pol) (g_txids g) (g_outpts g) (g_totals g) (g_tip g))
  | (Err e, _) => Err e
  | (Panic, _) => Panic
  end.

(** ** The load generator *)

(** [type QueryKind uint8]. *)
Definition KSeen : Z := 0.
Definition KMined : Z := 1.
Definition KMerklePath : Z := 2.
Definition KUTXO : Z := 3.
Definition QueryKind_String (k : Z) : string :=
  if k =? KSeen then "Seen" else if k =? KMined then "Mined"
  else if k =? KMerklePath then "MerklePath" else if k =? KUTXO then "UTXO" else "?".

(** [l[i%len(l)]]: a zero divisor panics, and so does a negative remainder. *)
Definition cycle {A} (l : list A) (i : Z) : result A :=
  if Z.of_nat (length l) =? 0 then Panic else index l (Z.rem i (Z.of_nat (length l))).

(** [_, _ = call]: the answer and the error are dropped. *)
Definition discard {S A} (m : M S A) : M S unit := _ <- mtry m ;; mret tt.

Section load.
Context {S : Type} `{Store S} (txids : list Hash) (outpts : list Outpoint).

Definition bench_query (kind i : Z) : M S unit :=
  if kind =? KSeen then t <- mlift (cycle txids i) ;; discard (Seen t)
  else if kind =? KMined then t <- mlift (cycle txids i) ;; discard (Mined t)
  else if kind =? KMerklePath then t <- mlift (cycle txids i) ;; discard (api_MerklePath t)
  else if kind =? KUTXO then op <- mlift (cycle outpts i) ;; discard (api_UTXO op)
  else mret tt.

(** The batch between two looks at the clock; [n] queries left. *)
Fixpoint bench_batch (n : nat) (kind i : Z) : M S Z :=
  match n with
  | O => mret i
  | Datatypes.S n' => bench_query kind i ;; bench_batch n' kind (i64 (i + 1))
  end.

(** One goroutine, with the clock readings it gets; it has a reading past the
    deadline when it ends. *)
Fixpoint bench_worker (clock : list Z) (deadline kind i n : Z) : M S Z :=
  match clock with
  | [] => mpanic
  | now :: clock' =>
      if now <? deadline then i' <- bench_batch 256 kind i ;; bench_worker clock' deadline kind i' (u64 (n + 256))
      else mret n
  end.

(** The workers add up their counts; [clocks] holds one list per worker. *)
Fixpoint bench_workers (w : Z) (clocks : list (list Z)) (deadline kind total : Z) : M S Z :=
  match clocks with
  | [] => mret total
  | clock :: rest =>
      n <- bench_worker clock deadline kind (i64 (w * 7919)) 0 ;;
      bench_workers (w + 1) rest deadline kind (u64 (total + n))
  end.

(** [clocks w] are the readings of worker [w]; the result is the count with the
    window in nanoseconds. *)
Definition Throughput (kind cores start dur : Z) (clocks : nat -> list Z) : M S (Z * Z) :=
  let cores := if cores <? 1 then 1 else cores in
  total <- bench_workers 0 (clocks <$> seq 0 (Z.to_nat cores)) (start + dur) kind 0 ;;
  mret (total, if dur <=? 0 then 1000000000 else dur).
End load.

(** ** The paid path *)

Definition bench_server_tag : list byte := String.list_byte_of_string "memserve-bench-server".
Definition bench_funding_tag : list byte := String.list_byte_of_string "memserve-bench-funding".

(** [sd]: the seed little-endian in the first eight bytes, 1 in the last. *)
Definition bench_seed (seed : Z) : list byte := le_bytes 8 seed ++ replicate 23 Byte.x00 ++ [Byte.x01].

Definition bench_params (seed : Z) : result Params :=
  let priv := NewPrivateKey (bench_seed seed) in
  let serverPriv := NewPrivateKey (abytes (DoubleSHA256 bench_server_tag)) in
  let fund := DoubleSHA256 (bench_funding_tag ++ bench_seed seed) in
  let! clientPub := SerializeCompressed (Public priv) in
  let! serverPub := SerializeCompressed (Public serverPriv) in
  Ok (mkParams (DeriveChannelID fund 0) fund 0 clientPub serverPub (2 ^ 50) 0).

Definition bench_config (seed : Z) (params : Params) : Config :=
  mkConfig params (2 ^ 50) (Some (Public (NewPrivateKey (bench_seed seed))))
    (mkPricing true 1 [0; 0; 0; 0] 0 FeeUpfront) (2 ^ 50) 0 0.

(** The server, the client's key and the channel's parameters; the outcome of
    [OpenChannel] is dropped. *)
Definition newPaidChannel (seed : Z) : result (PaidServer * Z * Params) :=
  let! params := bench_params seed in
  match OpenChannel (bench_config seed params) paid_New with
  | (Panic, _) => Panic
  | (_, ps) => Ok (ps, NewPrivateKey (bench_seed seed), params)
  end.

(** The local variables of a paying worker. *)
Record PaidWork : Type := mkPaidWork
  { pw_ps : PaidServer; pw_priv : Z; pw_params : Params; pw_cum : Z; pw_i : Z; pw_n : Z }.

Definition start_paid (off i n : Z) : result PaidWork :=
  let! (ps, priv, params) := newPaidChannel (u64 (off + 1)) in
  Ok (mkPaidWork ps priv params 0 i n).

Section paid_load.
Context {S : Type} `{Store S} (txids : list Hash) (nf : nat).

(** One turn: [None] when signing fails, which ends the worker. *)
Definition paid_turn (off : Z) (w : PaidWork) : M S (option PaidWork) :=
  let cum := u64 (pw_cum w + 1) in
  match SignCommitment nf (pw_priv w) (pw_params w) cum with
  | Panic => mpanic
  | Err _ => mret None
  | Ok c =>
      t <- mlift (cycle txids (pw_i w)) ;;
      fun s =>
      match paid_Seen (p_ChannelID (pw_params w)) (Some c) t (s, pw_ps w) with
      | (Ok _, (s', ps)) =>
          (Ok (Some (mkPaidWork ps (pw_priv w) (pw_params w) cum (i64 (pw_i w + 1)) (u64 (pw_n w + 1)))), s')
      | (Err _, (s', _)) =>
          match start_paid off (pw_i w) (pw_n w) with
          | Ok w' => (Ok (Some w'), s')
          | Err e => (Err e, s')
          | Panic => (Panic, s')
          end
      | (Panic, (s', _)) => (Panic, s')
      end
  end.

(** A worker whose signing failed returns without adding its count. *)
Fixpoint paid_worker (clock : list Z) (deadline off : Z) (w : PaidWork) : M S Z :=
  match clock with
  | [] => mpanic
  | now :: clock' =>
      if now <? deadline then
        ow <- paid_turn off w ;;
        match ow with
        | None => mret 0
        | Some w' => paid_worker clock' deadline off w'
        end
      else mret (pw_n w)
  end.

Fixpoint paid_workers (k : Z) (clocks : list (list Z)) (deadline total : Z) : M S Z :=
  match clocks with
  | [] => mret total
  | clock :: rest =>
      let off := i64 (k * 7919) in
      w <- mlift (start_paid off off 0) ;;
      n <- paid_worker clock deadline off w ;;
      paid_workers (k + 1) rest deadline (u64 (total + n))
  end.

Definition PaidThroughput (cores start dur : Z) (clocks : nat -> list Z) : M S (Z * Z) :=
  let cores := if cores <? 1 then 1 else cores in
  total <- paid_workers 0 (clocks <$> seq 0 (Z.to_nat cores)) (start + dur) 0 ;;
  mret (total, if dur <=? 0 then 1000000000 else dur).
End paid_load.

(** * Lemmas *)

(** ** Draining a source *)

(** The source hands out exactly these blocks. *)
Inductive delivers {T} `{Source T} : T -> list Block -> Prop :=
| delivers_nil m m' : Next m = (Ok None, m') -> delivers m []
| delivers_cons m b m' bs : Next m = (Ok (Some b), m') -> delivers m' bs -> delivers m (b :: bs).

Definition progress (g : Progress) (bs : list Block) (rs : list (IStats * option error)) : Progress :=
  foldl (fun g p => advance g p.1 p.2.1) g (zip bs rs).

(** The loop ingests the chain block by block and keeps its progress. *)
Lemma reported_none i bs rs : Forall2 (reported i) bs rs -> Forall (fun r => r.2 = None) rs.
Proof. induction 1 as [|b r bs rs (Hr & _) _ IH]; by constructor. Qed.

Lemma build_loop_life {S T} `{Store S} `{Source T} (fuel : nat) i g bs (m : T) (p p' : S * Pruner) rs :
  delivers m bs -> life i (Arrive <$> bs) p = (Ok rs, p') -> Forall (fun r => r.2 = None) rs ->
  (length bs < fuel)%nat ->
  exists m', build_loop fuel i g (p, m) = (Ok (progress g bs rs), (p', m')) /\ length rs = length bs.
Proof.
  intros Hd. revert fuel g p rs. induction Hd as [m m' En|m b m' bs En Hd IH]; intros fuel g p rs L Hrs Hf;
    (destruct fuel as [|fuel]; [simpl in Hf; lia|]); cbn [build_loop].
  - injection L as <- <-. exists m'. unfold mbind, on2. cbn [fst snd]. by rewrite En.
  - cbn [fmap list_fmap life handle] in L. unfold mbind in L.
    destruct (IngestBlock i b p) as [[r|e|] p1] eqn:E; [|done..].
    destruct (life i (Arrive <$> bs) p1) as [[rs1|e|] p2] eqn:E2; [|done..].
    injection L as <- <-. apply Forall_cons in Hrs as [Hr Hrs]. destruct r as [st oe]. simpl in Hr. subst oe.
    destruct (IH fuel (advance g b st) p1 rs1 E2 Hrs) as (m2 & E3 & Hl); [simpl in Hf; lia|].
    exists m2. split; [|simpl; lia]. unfold mbind at 1, on2. cbn [fst snd]. rewrite En.
    unfold mbind, on1. cbn [fst snd]. rewrite E. exact E3.
Qed.

(** *** The sample *)

Lemma sample_subtrees_elem subs acc :
  let acc' := foldl sample_subtree acc subs in
  acc'.1 = acc.1 ++ concat (sub_TxIDs <$> subs)
  /\ acc'.2 = acc.2 ++ ((fun tx => mkOutpoint (tx_TxID tx) 0) <$> concat (sub_Txs <$> subs)).
Proof.
  cbv zeta. revert acc. induction subs as [|sub subs IH]; intros acc; [by rewrite !app_nil_r|].
  cbn [foldl fmap list_fmap concat]. destruct (IH (sample_subtree acc sub)) as [-> ->]. simpl.
  by rewrite fmap_app, <- !app_assoc.
Qed.

Definition chain_leaves (bs : list Block) : list Hash := concat ((fun b => concat (sub_TxIDs <$> b_Subtrees b)) <$> bs).
Definition chain_txs (bs : list Block) : list Tx := concat (block_txs <$> bs).

(** What the progress says after a chain. *)
Lemma progress_inv g bs rs :
  length rs = length bs ->
  (forall t, t ∈ g_txids (progress g bs rs) -> t ∈ g_txids g \/ t ∈ chain_leaves bs)
  /\ (forall op, op ∈ g_outpts (progress g bs rs) ->
        op ∈ g_outpts g \/ exists tx, tx ∈ chain_txs bs /\ op = mkOutpoint (tx_TxID tx) 0)
  /\ g_tip (progress g bs rs) = default (g_tip g) (last (b_Height <$> bs))
  /\ g_totals (progress g bs rs) = foldl add_stats (g_totals g) rs.*1.
Proof.
  unfold progress. revert g rs. induction bs as [|b bs IH]; intros g [|r rs] Hl; try done.
  { split_and!; [by left|by left|done|done]. }
  cbn [zip_with foldl fmap list_fmap fst snd]. destruct (IH (advance g b r.1) rs) as (H1 & H2 & H3 & H4); [simpl in Hl; lia|].
  assert (g_tip (advance g b r.1) = b_Height b /\ g_totals (advance g b r.1) = add_stats (g_totals g) r.1) as [Et Es].
  { unfold advance. by destruct (sample_block b (g_txids g, g_outpts g)). }
  rewrite Et in H3. rewrite Es in H4. split_and!; [| | |exact H4].
  - intros t Ht. apply H1 in Ht as [Ht|Ht]; [|right; unfold chain_leaves in *; cbn [fmap list_fmap concat]; set_solver].
    unfold advance, sample_block in Ht. case_match eqn:E. cbn [g_txids] in Ht.
    case_match; [|injection E as <- <-; by left].
    pose proof (sample_subtrees_elem (b_Subtrees b) (g_txids g, g_outpts g)) as [E1 _]. rewrite E in E1. simpl in E1. subst.
    apply elem_of_app in Ht as [|Ht]; [by left|right]. unfold chain_leaves. cbn [fmap list_fmap concat]. set_solver.
  - intros op Hop. apply H2 in Hop as [Hop|(tx & Htx & ->)].
    2:{ right. exists tx. split; [|done]. unfold chain_txs in *. cbn [fmap list_fmap concat]. set_solver. }
    unfold advance, sample_block in Hop. case_match eqn:E. cbn [g_outpts] in Hop.
    case_match; [|injection E as <- <-; by left].
    pose proof (sample_subtrees_elem (b_Subtrees b) (g_txids g, g_outpts g)) as [_ E1]. rewrite E in E1. simpl in E1. subst.
    apply elem_of_app in Hop as [|Hop]; [by left|right]. apply list_elem_of_fmap in Hop as (tx & -> & Htx).
    exists tx. split; [|done]. unfold chain_txs. cbn [fmap list_fmap concat]. apply elem_of_app. by left.
  - rewrite H3, last_cons. by destruct (last (b_Height <$> bs)).
Qed.

(** ** The mock chain *)

Fixpoint mock_chain (n : nat) (m : MockSource) : list Block :=
  match n with
  | O => []
  | Datatypes.S n' =>
      match Next m with
      | (Ok (Some b), m') => b :: mock_chain n' m'
      | _ => []
      end
  end.

(** The blocks of the mock chain: sealed, consecutive, of the configured shape. *)
Definition mock_shape (m : MockSource) (b : Block) : Prop :=
  sealed b /\ Z.of_nat (length (b_Subtrees b)) = c_SubtreesPer (m_cfg m)
  /\ Forall (fun sub => Z.of_nat (length (sub_Txs sub)) = c_TxsPerSubtree (m_cfg m)) (b_Subtrees b).

Lemma mock_delivers n m :
  mock_ok m -> c_Blocks (m_cfg m) = m_made m + Z.of_nat n -> 0 <= m_height m -> m_height m + Z.of_nat n <= 2 ^ 32 ->
  delivers m (mock_chain n m) /\ Forall (mock_shape m) (mock_chain n m)
  /\ b_Height <$> mock_chain n m = (fun k => m_height m + Z.of_nat k) <$> seq 0 n.
Proof.
  revert m. induction n as [|n IH]; intros m Hok Hn Hh0 Hh; cbn [mock_chain].
  - split_and!; [|done|done]. apply (delivers_nil m m). unfold Next, mock_source, mock_Next.
    by rewrite (proj2 (Z.leb_le _ _)) by lia.
  - destruct (mock_Next_sealed m Hok) as (b & m' & E & Hs & Hbh & Hsn & Htn & Hc & Hmd & Hht); [lia|]. rewrite E.
    assert (n = 0%nat \/ m_height m' = m_height m + 1) as Hm' by (destruct n; [by left|right; rewrite Hht, u32_small; lia]).
    destruct n as [|n].
    { cbn [mock_chain]. split_and!.
      - econstructor; [exact E|]. apply (delivers_nil m' m'). unfold Next, mock_source, mock_Next.
        by rewrite (proj2 (Z.leb_le _ _)) by (rewrite Hc, Hmd; lia).
      - by apply Forall_singleton.
      - cbn [fmap list_fmap seq]. rewrite Hbh. f_equal. lia. }
    destruct Hm' as [|Hm']; [done|].
    destruct (IH m') as (Hd & Hf & Hhs); [unfold mock_ok in *; rewrite Hc, Hmd; lia|rewrite Hc, Hmd; lia|lia|lia|].
    split_and!.
    + by econstructor.
    + constructor; [done|]. unfold mock_shape in *. by rewrite Hc in Hf.
    + rewrite fmap_cons, Hhs, Hbh. change (seq 0 (Datatypes.S (Datatypes.S n))) with (0%nat :: seq 1 (Datatypes.S n)).
      rewrite fmap_cons. f_equal; [lia|]. rewrite <- (fmap_S_seq 0 (Datatypes.S n)), <- list_fmap_compose.
      apply list_fmap_ext. intros j k _. simpl. lia.
Qed.

(** The whole chain of a configuration. *)
Lemma mock_run cfg :
  let m := NewMock cfg in
  let n := c_Blocks (m_cfg m) in
  let bs := mock_chain (Z.to_nat n) m in
  0 <= c_StartHeight cfg -> c_StartHeight cfg + n <= 2 ^ 32 ->
  delivers m bs /\ Forall (mock_shape m) bs /\ consecutive (c_StartHeight cfg) bs /\ Z.of_nat (length bs) = n /\ bs <> [].
Proof.
  intros m n bs Hlo Hhi. assert (1 <= n) by (unfold n, m, NewMock, at_least_one; simpl; case_match; zbool; lia).
  destruct (mock_delivers (Z.to_nat n) m (NewMock_ok cfg)) as (Hdel & Hsh & Hhs);
    [change (m_made m) with 0; fold n; lia|done|change (m_height m) with (c_StartHeight cfg); lia|].
  fold bs in Hdel, Hsh, Hhs. change (m_height m) with (c_StartHeight cfg) in Hhs.
  assert (Z.of_nat (length bs) = n) as Hlen.
  { rewrite <- (length_fmap b_Height), Hhs, length_fmap, length_seq. lia. }
  split_and!; [done|done| |done|intros En; rewrite En in Hlen; simpl in Hlen; lia].
  unfold consecutive, seqZ. rewrite Hhs, Hlen. apply list_fmap_ext. intros j k _. lia.
Qed.

Lemma mock_good m bs :
  chain_distinct bs -> Forall (mock_shape m) bs -> Forall (fun b => 0 <= b_Height b < 2 ^ 32) bs ->
  c_TxsPerSubtree (m_cfg m) <= 2 ^ 20 -> c_SubtreesPer (m_cfg m) < 2 ^ 32 -> Forall block_good bs.
Proof.
  intros Hd Hs Hh Ht Hn. rewrite Forall_forall in Hs, Hh. apply Forall_forall. intros b Hb.
  destruct (Hs b Hb) as (Hse & Hsn & Htn). split; [by apply sealed_valid|]. destruct Hse as (Er & Hm & _).
  split; [|split; [|split]]; [| | |by apply Hh].
  - apply Forall_forall. intros sub Hin. rewrite Forall_forall in Hm, Htn. destruct (Hm sub Hin) as (Ep & _).
    split; [done|]. rewrite Ep, length_fmap, (Htn sub Hin). done.
  - apply Forall_forall. intros s1 H1. apply Forall_forall. intros s2 H2. by eapply (chain_roots bs b b).
  - rewrite Er, length_fmap. lia.
Qed.

Lemma reported_totals m i bs rs acc :
  in_k i = 0 -> Forall (mock_shape m) bs -> Forall2 (reported i) bs rs ->
  let st := foldl add_stats acc rs.*1 in
  is_Blocks st = is_Blocks acc + Z.of_nat (length bs)
  /\ is_TxsIndexed st = is_TxsIndexed acc + Z.of_nat (length bs) * (c_SubtreesPer (m_cfg m) * c_TxsPerSubtree (m_cfg m)).
Proof.
  intros Hk Hs Hr. revert acc. induction Hr as [|b r bs rs (_ & H1 & H2) _ IH]; intros acc; [simpl; lia|].
  apply Forall_cons in Hs as [(_ & Hsn & Htn) Hs]. cbn [fmap list_fmap foldl].
  destruct (IH Hs (add_stats acc r.1)) as [-> ->]. cbn [is_Blocks is_TxsIndexed add_stats].
  rewrite H1, H2, owned_all, (entries_length b _ Htn), Hsn by done. simpl. lia.
Qed.

(** *** The answers to sampled keys *)

(** A key the store knows: the transaction is seen, mined and provable. *)
Definition tx_answered {S} `{Store S} (s : S) (lo hi : Z) (t : Hash) : Prop :=
  (exists st s1, Seen t s = (Ok (mkSeenResult true st), s1))
  /\ (exists bh h bt s2, Mined t s = (Ok (mkMinedResult true bh h bt), s2) /\ lo <= h <= hi)
  /\ exists p s3, api_MerklePath t s = (Ok p, s3) /\ Verify p = true /\ p_Leaf p = t.
(** An output the store knows: unspent, spent, or evicted by depth. *)
Definition output_answered {S} `{Store S} (s : S) (op : Outpoint) : Prop :=
  exists r s', api_UTXO op s = (Ok r, s') /\ ur_Status r <> UTXOUnknown.

Lemma held_indexed i bs f b sub t :
  holds_chain i bs f -> b ∈ bs -> sub ∈ b_Subtrees b -> t ∈ sub_TxIDs sub -> owns i t = true ->
  exists ix, f_txindex f !! t = Some ix /\ ix_Mined ix = true /\ exists b', b' ∈ bs /\ ix_Height ix = b_Height b'.
Proof.
  intros Hh Hb Hs Ht Ho. destruct (hc_tx _ _ _ Hh b sub t Hb Hs Ht Ho) as (b' & si & li & _ & Hb' & _ & _ & ->). eauto 10.
Qed.

Lemma held_answered {S} `{LawfulStore S} i bs (s : S) lo hi b sub t :
  store_inv s -> Forall block_good bs -> holds_chain i bs (store_view s) -> in_k i = 0 ->
  Forall (fun b => lo <= b_Height b <= hi) bs -> b ∈ bs -> sub ∈ b_Subtrees b -> t ∈ sub_TxIDs sub ->
  tx_answered s lo hi t.
Proof.
  intros Hi Hg Hh Hk Hr Hb Hs Ht. assert (owns i t = true) as Ho by (unfold owns; by rewrite Hk).
  destruct (held_indexed i bs _ b sub t Hh Hb Hs Ht Ho) as (ix & Hix & Hm & b' & Hb' & Eh).
  rewrite Forall_forall in Hr. split_and!.
  - destruct (sim_Seen t s (store_view s)) as (r & s1 & f & E & E' & _); [done|].
    unfold Seen, mbind in E'. cbn [GetTxIndex flat_store] in E'. rewrite Hix in E'. injection E' as <- _. eauto.
  - destruct (sim_Mined t s (store_view s)) as (r & s1 & f & E & E' & _); [done|].
    unfold Mined, mbind in E'. cbn [GetTxIndex flat_store] in E'. rewrite Hix, Hm in E'. cbn [negb] in E'.
    injection E' as <- _. eexists _, _, _, _. split; [exact E|]. rewrite Eh. by apply Hr.
  - destruct (held_proof i bs s b sub t Hi Hg Hh Hb Hs Ht Ho) as (_ & p & s'' & _ & _ & Eb & Hv & Hl & _). eauto.
Qed.

Lemma held_output {S} `{LawfulStore S} i bs (s : S) b sub t v :
  store_inv s -> holds_chain i bs (store_view s) -> in_k i = 0 ->
  b ∈ bs -> sub ∈ b_Subtrees b -> t ∈ sub_TxIDs sub -> output_answered s (mkOutpoint t v).
Proof.
  intros Hi Hh Hk Hb Hs Ht. assert (owns i t = true) as Ho by (unfold owns; by rewrite Hk).
  destruct (held_indexed i bs _ b sub t Hh Hb Hs Ht Ho) as (ix & Hix & Hm & _).
  destruct (api_UTXO_lawful (mkOutpoint t v) s Hi) as (s' & E & _). eexists _, _. split; [exact E|].
  unfold utxo_answer. cbn [op_TxID]. rewrite Hix, Hm. repeat case_match; simpl; done.
Qed.

Lemma chain_leaves_elem bs t :
  t ∈ chain_leaves bs -> exists b sub, b ∈ bs /\ sub ∈ b_Subtrees b /\ t ∈ sub_TxIDs sub.
Proof.
  intros (b & Hb & Ht)%concat_elem. apply concat_elem in Ht as (sub & Hs & Ht). eauto.
Qed.
Lemma chain_txs_elem m bs tx :
  Forall (mock_shape m) bs -> tx ∈ chain_txs bs ->
  exists b sub, b ∈ bs /\ sub ∈ b_Subtrees b /\ tx_TxID tx ∈ sub_TxIDs sub.
Proof.
  intros Hm (b & Hb & Ht)%concat_elem. apply concat_elem in Ht as (sub & Hs & Ht). exists b, sub. split_and!; [done..|].
  rewrite Forall_forall in Hm. destruct (Hm b Hb) as ((_ & Hsm & _) & _). rewrite Forall_forall in Hsm.
  destruct (Hsm sub Hs) as (-> & _). by apply list_elem_of_fmap_2.
Qed.

(** A key sampled from the first block stays in the sample. *)
Lemma progress_keeps g bs rs :
  (exists l, g_txids (progress g bs rs) = g_txids g ++ l) /\ (exists l, g_outpts (progress g bs rs) = g_outpts g ++ l).
Proof.
  unfold progress. generalize (zip bs rs). intros l. revert g. induction l as [|[b r] l IH]; intros g.
  { split; exists []; by rewrite app_nil_r. }
  cbn [foldl fst snd]. destruct (IH (advance g b r.1)) as [(l1 & ->) (l2 & ->)]. unfold advance, sample_block.
  case_match eqn:E. cbn [g_txids g_outpts]. case_match; [|injection E as <- <-; eauto].
  pose proof (sample_subtrees_elem (b_Subtrees b) (g_txids g, g_outpts g)) as [E1 E2]. rewrite E in E1, E2.
  simpl in E1, E2. subst. rewrite <- !app_assoc. eauto.
Qed.

Lemma progress_nonempty m b bs r rs :
  mock_shape m b -> 1 <= c_SubtreesPer (m_cfg m) ->
  let g := progress (mkProgress [] [] 0 zeroStats) (b :: bs) (r :: rs) in
  g_txids g <> [] /\ g_outpts g <> [].
Proof.
  intros ((_ & Hm & _) & Hn & _) H1. cbv zeta. unfold progress. cbn [zip_with foldl fst snd].
  set (g1 := advance _ b r.1). assert (g_txids g1 <> [] /\ g_outpts g1 <> []) as [Ht Ho].
  { unfold g1, advance, sample_block. cbn [g_txids g_outpts fst length]. change (Z.of_nat 0 <? 2 ^ 20) with true. cbn iota.
    destruct (b_Subtrees b) as [|sub subs] eqn:Es; [simpl in Hn; lia|]. apply Forall_cons in Hm as [(Ep & Hne & _) _].
    pose proof (sample_subtrees_elem (sub :: subs) ([], [])) as [E1 E2].
    destruct (foldl sample_subtree ([], []) (sub :: subs)) as [l1 l2]. cbn [fst snd fmap list_fmap concat app] in E1, E2. cbn [g_txids g_outpts]. subst.
    destruct (sub_TxIDs sub); [done|]. destruct (sub_Txs sub); [discriminate Ep|]. by split. }
  destruct (progress_keeps g1 bs rs) as [(l1 & E1) (l2 & E2)]. unfold progress in E1, E2. rewrite E1, E2.
  split; [by destruct (g_txids g1)|by destruct (g_outpts g1)].
Qed.

Lemma build_answers (fuel : nat) (cfg : MockConfig) (rh rw : Z) :
  let m := NewMock cfg in
  let n := c_Blocks (m_cfg m) in
  let lo := c_StartHeight cfg in
  0 <= lo -> lo + n <= 2 ^ 32 -> c_TxsPerSubtree (m_cfg m) <= 2 ^ 20 -> c_SubtreesPer (m_cfg m) < 2 ^ 32 ->
  policy_ok (bench_policy rh rw) -> n < Z.of_nat fuel -> chain_distinct (mock_chain (Z.to_nat n) m) ->
  exists p, bench_Build fuel cfg rh rw = Ok p
    /\ is_Blocks (po_Stats p) = n
    /\ is_TxsIndexed (po_Stats p) = n * (c_SubtreesPer (m_cfg m) * c_TxsPerSubtree (m_cfg m))
    /\ po_Tip p = lo + n - 1 /\ po_TxIDs p <> [] /\ po_Outpts p <> []
    /\ Forall (tx_answered (po_Store p) lo (po_Tip p)) (po_TxIDs p)
    /\ Forall (output_answered (po_Store p)) (po_Outpts p).
Proof.
  intros m n lo Hlo Hhi Htx Hsub Hpol Hf Hd. pose proof (NewMock_ok cfg) as Hok.
  destruct (mock_run cfg Hlo Hhi) as (Hdel & Hsh & Hc & Hlen & Hne). fold m n in Hdel, Hsh, Hc, Hlen, Hne.
  set (bs := mock_chain (Z.to_nat n) m) in *.
  assert (Forall (fun b => lo <= b_Height b <= lo + n - 1) bs) as Hr.
  { eapply Forall_impl; [exact (consecutive_range lo bs Hc)|]. simpl. lia. }
  assert (Forall block_good bs) as Hg.
  { apply (mock_good m); try done. eapply Forall_impl; [exact Hr|]. simpl. lia. }
  assert (pruner_ok (NewPruner (bench_policy rh rw))) as Hpr by (split; [done|simpl; lia]).
  destruct (chain_held_lawful bench_ingestor bs New (NewPruner (bench_policy rh rw)))
    as (rs & s' & pr' & L & Hrs & Hi & Hh); [exact New_inv|exact New_view|exact Hpr|reflexivity|exact Hg|exact Hd|].
  destruct (build_loop_life fuel bench_ingestor (mkProgress [] [] 0 zeroStats) bs m _ _ rs Hdel L)
    as (m' & E & Hl); [by eapply reported_none|lia|].
  unfold bench_Build. fold m. rewrite E. eexists. split; [reflexivity|]. cbn [po_Stats po_Tip po_TxIDs po_Outpts po_Store].
  destruct (progress_inv (mkProgress [] [] 0 zeroStats) bs rs Hl) as (P1 & P2 & P3 & P4).
  destruct (reported_totals m bench_ingestor bs rs zeroStats eq_refl Hsh Hrs) as [S1 S2].
  cbn [g_tip g_totals] in P3, P4. rewrite P3, P4, S1, S2, Hlen. cbn [is_Blocks is_TxsIndexed zeroStats].
  assert (default 0 (last (b_Height <$> bs)) = lo + n - 1) as ->.
  { rewrite (consecutive_last lo bs Hc Hne). simpl. lia. }
  split_and!; [lia|lia|done| | | |].
  1-2: destruct bs as [|b bs'], rs as [|r rs']; simpl in Hl; try done; apply Forall_cons in Hsh as [Hb _];
    apply (progress_nonempty m); [done|apply Hok].
  - apply Forall_forall. intros t [Ht|Ht]%P1; [by apply elem_of_nil in Ht|].
    apply chain_leaves_elem in Ht as (b & sub & Hb & Hs & Ht). by eapply (held_answered bench_ingestor bs).
  - apply Forall_forall. intros op [Ho|(tx & Hin & ->)]%P2; [by apply elem_of_nil in Ho|].
    apply (chain_txs_elem m) in Hin as (b & sub & Hb & Hs & Ht); [|done]. by eapply (held_output bench_ingestor bs).
Qed.

(** C39: The benchmark store answers its sample.  For a mock configuration whose
    heights fit in 32 bits and whose chain has no hash collision, [Build]
    succeeds with the counts of the configured shape and the last height as its
    tip; the samples are not empty; every sampled transaction is answered as
    seen and mined within the chain's heights, with a Merkle path that
    verifies; and no sampled output is answered as unknown. *)
Theorem build_populates (fuel : nat) (cfg : MockConfig) (rh rw : Z) :
  let m := NewMock cfg in
  let n := c_Blocks (m_cfg m) in
  let lo := c_StartHeight cfg in
  0 <= lo -> lo + n <= 2 ^ 32 -> c_TxsPerSubtree (m_cfg m) <= 2 ^ 20 -> c_SubtreesPer (m_cfg m) < 2 ^ 32 ->
  policy_ok (bench_policy rh rw) -> n < Z.of_nat fuel -> chain_distinct (mock_chain (Z.to_nat n) m) ->
  exists p, bench_Build fuel cfg rh rw = Ok p
    /\ is_Blocks (po_Stats p) = n
    /\ is_TxsIndexed (po_Stats p) = n * (c_SubtreesPer (m_cfg m) * c_TxsPerSubtree (m_cfg m))
    /\ po_Tip p = lo + n - 1 /\ po_TxIDs p <> [] /\ po_Outpts p <> []
    /\ Forall (tx_answered (po_Store p) lo (po_Tip p)) (po_TxIDs p)
    /\ Forall (output_answered (po_Store p)) (po_Outpts p).
Proof. apply build_answers. Qed.


(** ** What the workers count *)

(** The queries leave the in-memory store as it is. *)
Definition reads_only {A} (m : M MemStore A) : Prop := forall s, (m s).2 = s.
Lemma reads_bind {A B} (m : M MemStore A) (k : A -> M MemStore B) :
  reads_only m -> (forall a, reads_only (k a)) -> reads_only (mbind m k).
Proof.
  intros Hm Hk s. unfold mbind. specialize (Hm s). destruct (m s) as [[a|e|] s']; simpl in *; subst; [apply Hk|done..].
Qed.
Lemma reads_lift {A} (r : result A) : reads_only (mlift r).
Proof. by intros s. Qed.
Lemma reads_ret {A} (a : A) : reads_only (mret a).
Proof. by intros s. Qed.
Lemma reads_err {A} e : reads_only (merr (A := A) e).
Proof. by intros s. Qed.
Lemma reads_tx t : reads_only (GetTxIndex t).
Proof. by intros s. Qed.
Lemma reads_utxo op : reads_only (GetUTXO op).
Proof. by intros s. Qed.
Lemma reads_sub r : reads_only (GetSubtree r).
Proof. by intros s. Qed.
Lemma reads_block h : reads_only (GetBlock h).
Proof. by intros s. Qed.
Create HintDb reads.
#[local] Hint Resolve reads_lift reads_ret reads_err reads_tx reads_utxo reads_sub reads_block : reads.
Ltac reads := repeat first [progress intros | case_match | apply reads_bind | solve [eauto with reads]].

Lemma reads_Seen t : reads_only (Seen t).
Proof. unfold Seen. reads. Qed.
Lemma reads_Mined t : reads_only (Mined t).
Proof. unfold Mined. reads. Qed.
Lemma reads_Path t : reads_only (api_MerklePath t).
Proof. unfold api_MerklePath, Build. reads. Qed.
Lemma reads_UTXO op : reads_only (api_UTXO op).
Proof. unfold api_UTXO. reads. Qed.

Lemma discard_ok {A} (m : M MemStore A) s a s' : reads_only m -> m s = (Ok a, s') -> discard m s = (Ok tt, s).
Proof. intros Hr E. specialize (Hr s). rewrite E in Hr. simpl in Hr. subst. unfold discard, mbind, mtry. by rewrite E. Qed.

Lemma cycle_elem {A} (l : list A) i : l <> [] -> 0 <= i -> exists x, cycle l i = Ok x /\ x ∈ l.
Proof.
  intros Hne Hi. unfold cycle. assert (0 < Z.of_nat (length l)) by (destruct l; [done|simpl; lia]).
  rewrite (proj2 (Z.eqb_neq _ _)) by lia. rewrite Z.rem_mod_nonneg by lia.
  pose proof (Z.mod_pos_bound i (Z.of_nat (length l)) ltac:(lia)).
  destruct (lookup_lt_is_Some_2 l (Z.to_nat (i mod Z.of_nat (length l)))) as [x Hx]; [lia|]. exists x. split.
  - unfold index. rewrite (proj2 (Z.ltb_ge _ _)) by lia. by rewrite Hx.
  - by eapply list_elem_of_lookup_2.
Qed.

Section measured.
Context (p : Populated) (lo : Z).
Context (Htx : po_TxIDs p <> []) (Hop : po_Outpts p <> []).
Context (Ht : Forall (tx_answered (po_Store p) lo (po_Tip p)) (po_TxIDs p)).
Context (Ho : Forall (output_answered (po_Store p)) (po_Outpts p)).
Abbreviation store := (po_Store p).
Abbreviation query := (bench_query (po_TxIDs p) (po_Outpts p)).

Lemma query_ok kind i : 0 <= i -> query kind i store = (Ok tt, store).
Proof.
  intros Hi. destruct (cycle_elem (po_TxIDs p) i Htx Hi) as (t & Et & Hint). rewrite Forall_forall in Ht.
  destruct (Ht t Hint) as ((st & s1 & E1) & (bh & h & bt & s2 & E2 & _) & (pf & s3 & E3 & _)).
  destruct (cycle_elem (po_Outpts p) i Hop Hi) as (op & Eo & Hino). rewrite Forall_forall in Ho.
  destruct (Ho op Hino) as (r & s4 & E4 & _). unfold bench_query. rewrite Et, Eo.
  repeat case_match; try done; unfold mlift, mbind at 1.
  - eapply discard_ok; [apply reads_Seen|exact E1].
  - eapply discard_ok; [apply reads_Mined|exact E2].
  - eapply discard_ok; [apply reads_Path|exact E3].
  - eapply discard_ok; [apply reads_UTXO|exact E4].
Qed.

Lemma batch_ok n kind i : 0 <= i -> i + Z.of_nat n < 2 ^ 63 ->
  bench_batch (po_TxIDs p) (po_Outpts p) n kind i store = (Ok (i + Z.of_nat n), store).
Proof.
  revert i. induction n as [|n IH]; intros i Hi Hb; cbn [bench_batch].
  - by rewrite Z.add_0_r.
  - erewrite mbind_ok by (by apply query_ok). rewrite i64_small by lia. rewrite IH by lia.
    by replace (i + 1 + Z.of_nat n) with (i + Z.of_nat (Datatypes.S n)) by lia.
Qed.

(** A clock that shows [n] readings before the deadline, then one past it. *)
Definition clock_runs (clock : list Z) (deadline : Z) (n : nat) : Prop :=
  exists pre x, clock = pre ++ [x] /\ length pre = n /\ Forall (fun now => now < deadline) pre /\ deadline <= x.

Lemma worker_ok clock deadline kind i n0 n :
  clock_runs clock deadline n -> 0 <= i -> i + 256 * Z.of_nat n < 2 ^ 63 -> 0 <= n0 < 2 ^ 64 ->
  bench_worker (po_TxIDs p) (po_Outpts p) clock deadline kind i n0 store = (Ok (u64 (n0 + 256 * Z.of_nat n)), store).
Proof.
  intros (pre & x & -> & <- & Hpre & Hx). revert i n0.
  induction Hpre as [|now pre Hnow Hpre IH]; intros i n0 Hi Hb Hn0; cbn [app bench_worker length].
  - rewrite (proj2 (Z.ltb_ge _ _)) by lia. unfold mret. change (Z.of_nat 0) with 0. rewrite Z.mul_0_r, Z.add_0_r. by rewrite u64_small.
  - rewrite (proj2 (Z.ltb_lt _ _)) by lia. cbn [length] in Hb. erewrite mbind_ok by (apply batch_ok; lia).
    rewrite IH by (try apply u64_range; lia). unfold u64, wrap. rewrite Zplus_mod_idemp_l.
    by replace (n0 + 256 + 256 * Z.of_nat (length pre)) with (n0 + 256 * Z.of_nat (Datatypes.S (length pre))) by lia.
Qed.
Lemma workers_ok w clocks deadline kind total (ns : list nat) :
  Forall2 (fun clock n => clock_runs clock deadline n) clocks ns -> 0 <= w -> 0 <= total < 2 ^ 64 ->
  (w + Z.of_nat (length ns)) * 7919 + 256 * Z.of_nat (sum_list ns) < 2 ^ 63 ->
  bench_workers (po_TxIDs p) (po_Outpts p) w clocks deadline kind total store
  = (Ok (u64 (total + 256 * Z.of_nat (sum_list ns))), store).
Proof.
  intros Hc. revert w total. induction Hc as [|clock n clocks ns Hr _ IH]; intros w total Hw Ht0 Hb; cbn [bench_workers].
  - unfold mret. rewrite Z.mul_0_r, Z.add_0_r. by rewrite u64_small.
  - change (sum_list (n :: ns)) with (n + sum_list ns)%nat in *. cbn [length] in Hb. rewrite i64_small by lia.
    erewrite mbind_ok by (apply worker_ok; [exact Hr|lia..]).
    rewrite IH by (try apply u64_range; lia). unfold u64, wrap. rewrite Z.add_0_l.
    rewrite (Zplus_mod_idemp_r (256 * Z.of_nat n) total), Zplus_mod_idemp_l.
    by replace (total + 256 * Z.of_nat n + 256 * Z.of_nat (sum_list ns)) with
      (total + 256 * Z.of_nat (n + sum_list ns)) by lia.
Qed.
End measured.

(** The measurement counts queries.  On a populated store with non-empty samples
    every one of whose keys is answered, a run whose workers see [ns]
    readings of the clock before the deadline returns exactly 256 queries per
    reading (modulo the 64-bit counter) over the window asked for, whatever the
    query kind; no query panics and the store is left as it was. *)
Theorem throughput_counts (p : Populated) (lo kind cores start dur : Z) (clocks : nat -> list Z) (ns : list nat) :
  po_TxIDs p <> [] -> po_Outpts p <> [] ->
  Forall (tx_answered (po_Store p) lo (po_Tip p)) (po_TxIDs p) -> Forall (output_answered (po_Store p)) (po_Outpts p) ->
  Forall2 (fun clock n => clock_runs clock (start + dur) n) (clocks <$> seq 0 (Z.to_nat (Z.max 1 cores))) ns ->
  Z.max 1 cores * 7919 + 256 * Z.of_nat (sum_list ns) < 2 ^ 63 ->
  Throughput (po_TxIDs p) (po_Outpts p) kind cores start dur clocks (po_Store p)
  = (Ok (u64 (256 * Z.of_nat (sum_list ns)), if 0 <? dur then dur else 1000000000), po_Store p).
Proof.
  intros Htx Hop Ht Ho Hc Hb. unfold Throughput. cbv zeta.
  assert ((if cores <? 1 then 1 else cores) = Z.max 1 cores) as -> by (case_match; zbool; lia).
  assert (length ns = Z.to_nat (Z.max 1 cores)) as Hl.
  { apply Forall2_length in Hc. rewrite length_fmap, length_seq in Hc. done. }
  erewrite mbind_ok by (eapply (workers_ok p lo); [done..|exact Hc|lia|lia|rewrite Hl; lia]).
  unfold mret. rewrite Z.add_0_l. repeat f_equal. destruct (Z.leb_spec dur 0), (Z.ltb_spec 0 dur); (done || lia).
Qed.

(** ** The paying worker *)

(** The channel the worker pays through: open, within its budget of failures,
    with one unit paid per answer. *)
Record paying (w : PaidWork) : Prop := mkPaying
  { py_inv : paid_inv (pw_ps w);
    py_banned : is_banned (pw_ps w) (p_ChannelID (pw_params w)) = false;
    py_range : 0 <= pw_cum w <= 2 ^ 50;
    py_channel : exists ch, ps_channels (pw_ps w) !! p_ChannelID (pw_params w) = Some ch
      /\ ch_accesses ch = pw_cum w /\ ch_cumPaid ch = pw_cum w /\ cfg_Deposit (ch_cfg ch) = 2 ^ 50 }.

Lemma bench_config_ok seed params : cfg_ok (bench_config seed params).
Proof. unfold cfg_ok, pricing_ok, u64_ok. cbn. split_and!; try lia. repeat constructor; lia. Qed.

Lemma bench_Open seed params :
  p_ClientPub params <> [] -> p_FundingValue params <> 0 ->
  Open (bench_config seed params) = Ok (mkChannel (bench_config seed params) 0 0 None false).
Proof.
  intros Hp Hf. unfold Open, bench_config. cbn [cfg_ClientPub cfg_Deposit cfg_N cfg_RefundLockTime cfg_SettleBefore
    cfg_Pricing cfg_Params FeeMode set_Params]. rewrite (proj2 (Z.eqb_neq (p_FundingValue params) 0) Hf).
  destruct params as [id ft fv cp sp val fee]. cbn [p_ClientPub] in Hp. destruct cp as [|c cp]; [done|reflexivity].
Qed.

Lemma SerializeCompressed_nonempty p b : SerializeCompressed p = Ok b -> b <> [].
Proof.
  destruct p as [[x y]|]; [|done]. cbn [SerializeCompressed]. generalize (if big_bit y 0 =? 0 then z2b 0x02 else z2b 0x03).
  intros pre. unfold copy_tail. cbv zeta. destruct (_ <? _)%nat eqn:El; [done|]. intros [= <-] En.
  apply (f_equal length) in En. apply Nat.ltb_ge in El. rewrite length_app, length_take in En.
  simpl length in En at 2. change (length (pre :: replicate 32 Byte.x00)) with 33%nat in *. simpl in En. lia.
Qed.

#[local] Opaque DoubleSHA256 NewPrivateKey Public SerializeCompressed.

(** A new channel is open and nothing has been paid on it. *)
Lemma start_paid_paying off i n w :
  start_paid off i n = Ok w -> paying w /\ pw_cum w = 0 /\ pw_n w = n /\ pw_i w = i.
Proof.
  unfold start_paid, newPaidChannel, rbind. destruct (bench_params (u64 (off + 1))) as [params| |] eqn:Ep; [|done..].
  assert (p_ClientPub params <> [] /\ p_FundingValue params <> 0) as [Hne Hv].
  { revert Ep. unfold bench_params, rbind.
    destruct (SerializeCompressed (Public (NewPrivateKey (bench_seed (u64 (off + 1)))))) as [cp| |] eqn:Ecp; [|discriminate..].
    apply SerializeCompressed_nonempty in Ecp.
    destruct (SerializeCompressed (Public (NewPrivateKey (abytes (DoubleSHA256 bench_server_tag))))); [|discriminate..].
    intros Ep. injection Ep as <-. cbn [p_ClientPub p_FundingValue]. split; [exact Ecp|lia]. }
  assert (OpenChannel (bench_config (u64 (off + 1)) params) paid_New
    = (Ok (mkChannel (bench_config (u64 (off + 1)) params) 0 0 None false),
       set_channel (p_ChannelID params) (mkChannel (bench_config (u64 (off + 1)) params) 0 0 None false) paid_New)) as E.
  { unfold OpenChannel, mbind, open_check, open_register. cbn [ps_policy paid_New NewWithPolicy DefaultPolicy MinDeposit MaxChannels].
    change (0 <? 0) with false. cbn [andb]. by rewrite bench_Open. }
  rewrite E. intros [= <-]. cbn [pw_cum pw_n pw_i]. split; [|done].
  split; cbn [pw_ps pw_params pw_cum]; [|done|lia|].
  - apply set_channel_inv; [by apply map_Forall_empty|]. eapply Open_inv; [apply bench_config_ok|by apply bench_Open].
  - eexists. split; [apply lookup_insert_eq|]. by cbn.
Qed.

(** An accepted commitment of a worker adds one access and one unit. *)
Lemma paid_Seen_paying {S} `{Store S} w c t (s : S) r s' ps :
  paying w -> u64_ok (c_CumAmount c) -> c_CumAmount c = u64 (pw_cum w + 1) ->
  paid_Seen (p_ChannelID (pw_params w)) (Some c) t (s, pw_ps w) = (Ok r, (s', ps)) ->
  paying (mkPaidWork ps (pw_priv w) (pw_params w) (u64 (pw_cum w + 1)) (i64 (pw_i w + 1)) (u64 (pw_n w + 1))).
Proof.
  intros [Hi Hb Hr (ch & Hch & Ha & Hc & Hd)] Hu Ec E. set (id := p_ChannelID (pw_params w)) in *.
  unfold paid_Seen, mbind, on2, on1 in E. cbn [fst snd] in E.
  destruct (authorize_cases id (Some c) QSeen (pw_ps w) Hi) as
    [(Hx & _)|[(_ & Hx & _)|[(ch' & c' & _ & Hch' & [= <-] & Hacc & Eau)|(ch' & e & _ & _ & _ & _ & Eau)]]];
    [by vm_compute|congruence|congruence| |by rewrite Eau in E].
  rewrite Eau in E. cbn [fst snd] in E. destruct (Seen t s) as [r0 s0]. injection E as -> -> <-.
  rewrite Hch in Hch'. injection Hch' as <-. pose proof Hacc as (_ & _ & (req & _ & _ & Hle)). rewrite Hd, Ec in Hle.
  rewrite u64_small in * by lia. split; cbn [pw_ps pw_params pw_cum].
  - apply set_channel_inv; [done|]. eapply (accepted_inv _ _ QSeen); [by eapply Hi|done|by vm_compute|done].
  - exact Hb.
  - lia.
  - eexists. split; [apply lookup_insert_eq|]. cbn [accepted ch_accesses ch_cumPaid ch_cfg]. rewrite Ha, Ec.
    rewrite u64_small by lia. done.
Qed.

Lemma SignCommitment_cum nf priv params cum c : SignCommitment nf priv params cum = Ok c -> c_CumAmount c = cum.
Proof. unfold SignCommitment, rbind. intros E. break_in E. by simplify_eq. Qed.

Definition turn {S} `{Store S} (txids : list Hash) (nf : nat) (off : Z) (w w' : PaidWork) : Prop :=
  exists s s' : S, paid_turn txids nf off w s = (Ok (Some w'), s').

Lemma turn_paying {S} `{Store S} txids nf off w w' :
  turn (S := S) txids nf off w w' -> paying w ->
  paying w' /\ ((pw_cum w' = pw_cum w + 1 /\ pw_n w' = u64 (pw_n w + 1)) \/ (pw_cum w' = 0 /\ pw_n w' = pw_n w)).
Proof.
  intros (s & s' & E) Hp. unfold paid_turn in E. cbv zeta in E.
  destruct (SignCommitment nf (pw_priv w) (pw_params w) (u64 (pw_cum w + 1))) as [c| |] eqn:Ec; [|done..].
  apply SignCommitment_cum in Ec as Ecum.
  unfold mbind, mlift in E. destruct (cycle txids (pw_i w)) as [t| |]; [|done..].
  destruct (paid_Seen (p_ChannelID (pw_params w)) (Some c) t (s, pw_ps w)) as [[r|e|] [s1 ps]] eqn:Es; [| |done].
  - injection E as <- <-. split.
    + eapply paid_Seen_paying; [done| |done|exact Es]. rewrite Ecum. apply u64_range.
    + left. cbn [pw_cum pw_n]. destruct Hp as [_ _ Hr _]. by rewrite u64_small by lia.
  - destruct (start_paid off (pw_i w) (pw_n w)) as [w1| |] eqn:Ew; [|done..]. injection E as <- <-.
    destruct (start_paid_paying _ _ _ _ Ew) as (H1 & H2 & H3 & _). auto.
Qed.

(** every answer the paid measurement counts was paid for.  However often the
    worker has to open a fresh channel, after any number of turns its current
    channel has been paid exactly one unit for each of its answers, never more
    than the deposit, and those answers are among the ones counted. *)
Theorem paid_bench_prepaid {S} `{Store S} txids nf off i (k : nat) w0 w :
  start_paid off i 0 = Ok w0 -> relations.nsteps (turn (S := S) txids nf off) k w0 w -> Z.of_nat k < 2 ^ 64 ->
  paying w /\ 0 <= pw_cum w <= pw_n w /\ pw_n w <= Z.of_nat k.
Proof.
  intros Hs Hk Hb. destruct (start_paid_paying _ _ _ _ Hs) as (Hp & Hc & Hn & _).
  assert (pw_cum w0 <= pw_n w0 <= 0) as Hle by lia. clear Hs Hc Hn.
  assert (forall k (base : Z) w0 w, relations.nsteps (turn (S := S) txids nf off) k w0 w -> paying w0 -> 0 <= base ->
    pw_cum w0 <= pw_n w0 <= base -> base + Z.of_nat k < 2 ^ 64 -> paying w /\ 0 <= pw_cum w <= pw_n w /\ pw_n w <= base + Z.of_nat k) as Hgo.
  { clear. intros k base w0 w Hk. revert base. induction Hk as [w0|k w0 w1 w Ht _ IH]; intros base Hp H0 Hb Hk.
    - destruct Hp as [? ? Hr ?]. split; [done|lia].
    - destruct (turn_paying txids nf off w0 w1 Ht Hp) as [Hp1 Hcase]. pose proof (py_range _ Hp) as Hr.
      destruct (IH (base + 1) Hp1) as [Hpw Hw]; [lia| |lia|split; [done|lia]].
      destruct Hcase as [[-> ->]|[-> ->]]; [rewrite u64_small by lia|]; lia. }
  destruct (Hgo k 0 w0 w Hk Hp ltac:(lia) Hle ltac:(lia)) as [Hpw Hw]. split; [done|lia].
Qed.

(** ** Witnesses *)

Definition bench_cfg : MockConfig := mkMockConfig 2 1 1 2 100 7.

Lemma bench_chain_distinct : chain_distinct (mock_chain 2 (NewMock bench_cfg)).
Proof. apply (bool_decide_unpack _). vm_compute. exact I. Qed.

Lemma bench_policy_ok : policy_ok (bench_policy 6 4).
Proof. unfold policy_ok, bench_policy. simpl. lia. Qed.

Lemma build_populates_witness :
  exists p, bench_Build 3 bench_cfg 6 4 = Ok p
    /\ is_Blocks (po_Stats p) = 2 /\ is_TxsIndexed (po_Stats p) = 2 * (1 * 1)
    /\ po_Tip p = 100 + 2 - 1 /\ po_TxIDs p <> [] /\ po_Outpts p <> []
    /\ Forall (tx_answered (po_Store p) 100 (po_Tip p)) (po_TxIDs p)
    /\ Forall (output_answered (po_Store p)) (po_Outpts p).
Proof.
  apply (build_populates 3 bench_cfg 6 4).
  - by vm_compute.
  - by vm_compute.
  - by vm_compute.
  - by vm_compute.
  - exact bench_policy_ok.
  - by vm_compute.
  - exact bench_chain_distinct.
Defined.

(** Two workers with one and two readings before the deadline. *)
Definition demo_clocks (w : nat) : list Z := if (w =? 0)%nat then [5; 20] else [3; 9; 11].

Lemma throughput_counts_witness :
  exists p, bench_Build 3 bench_cfg 6 4 = Ok p
    /\ Throughput (po_TxIDs p) (po_Outpts p) KMerklePath 2 0 10 demo_clocks (po_Store p) = (Ok (768, 10), po_Store p).
Proof.
  destruct (build_answers 3 bench_cfg 6 4) as (p & E & _ & _ & _ & Ht & Ho & Ha & Hb);
    [by vm_compute..|exact bench_policy_ok|by vm_compute|exact bench_chain_distinct|].
  exists p. split; [exact E|].
  apply (throughput_counts p 100 KMerklePath 2 0 10 demo_clocks [1; 2]%nat Ht Ho Ha Hb).
  - apply Forall2_cons; split; [|apply Forall2_cons; split; [|by apply Forall2_nil]].
    + exists [5], 20. split; [reflexivity|]. split; [reflexivity|]. split; [apply (bool_decide_unpack _); vm_compute; exact I|lia].
    + exists [3; 9], 11. split; [reflexivity|]. split; [reflexivity|]. split; [apply (bool_decide_unpack _); vm_compute; exact I|lia].
  - by vm_compute.
Defined.
