(* ===== verification/Daemon.v ===== *)
(** * The daemon: ingest loop with its memory watchdog, routes and start-up
      ([src/server/server.go], [src/cmd/memserved])

    [ingestLoop] with its local state: the pause flag, the time of the last
    warning, what it logs and when it hands memory back.  Each turn reads the
    environment (cancellation, memory in use, the clock) from a [Tick].  Then
    the command line of [memserved], from its flags to the configuration it
    starts the server with.  The theorems show that the loop does to the server
    exactly what [ingest_turn] does, that a pause loses no block, frees memory
    once and does not flood the log, that every configuration the command
    accepts satisfies what the other theorems assume of a policy, and two
    omissions: an out-of-range shard id and a restart over a populated store. *)

From stdpp Require Import base gmap list strings sets.
From Stdlib Require Import ZArith Lia ZifyNat Ascii.
From S2P Require Import Prelude Sha256 Commitment Channel Shard StoreSpec MemStore ProofPath Prune Teranode Ingest Reorg Pipeline Api Chain Crypto Paid Attest Hex Wire Limiter Server HttpSource Backends.
Open Scope go_scope.

(** ** The ingest loop *)

(** What one turn reads: the context at its top and while it waits, the two
    memory counters in bytes, and the clock when it decides to warn and when it
    has warned (nanoseconds). *)
Record Tick : Type := mkTick
  { tk_Done : bool; tk_DoneWaiting : bool; tk_HeapInuse : Z; tk_StackInuse : Z; tk_Now : Z; tk_Stamp : Z }.

Inductive LogLine : Type :=
| LogPaused (stamp heldMB maxMemMB tip : Z)
| LogSource (e : error)
| LogBlock (height : Z) (e : error).

(** [lastWarn] is [None] for the zero time; [lp_freed] counts the calls of
    [debug.FreeOSMemory]. *)
Record LoopState : Type := mkLoop
  { lp_lastWarn : option Z; lp_paused : bool; lp_log : list LogLine; lp_freed : Z }.
Definition loop_init : LoopState := mkLoop None false [] 0.

Definition set_paused (p : bool) (l : LoopState) : LoopState := mkLoop (lp_lastWarn l) p (lp_log l) (lp_freed l).
Definition log_line (x : LogLine) (l : LoopState) : LoopState :=
  mkLoop (lp_lastWarn l) (lp_paused l) (lp_log l ++ [x]) (lp_freed l).

Definition heldMB (tk : Tick) : Z := i64 (u64 (tk_HeapInuse tk + tk_StackInuse tk) / 2 ^ 20).

(** [time.Since(lastWarn) > 30*time.Second]. *)
Definition warn_interval : Z := 30000000000.
Definition warn_due (tk : Tick) (l : LoopState) : bool :=
  match lp_lastWarn l with None => true | Some t => warn_interval <? tk_Now tk - t end.

(** Entering the pause, and the warning. *)
Definition enter_pause (l : LoopState) : LoopState :=
  if lp_paused l then l else mkLoop (lp_lastWarn l) true (lp_log l) (lp_freed l + 1).
Definition warn_paused (tk : Tick) (maxMemMB tip : Z) (l : LoopState) : LoopState :=
  if warn_due tk l
  then mkLoop (Some (tk_Stamp tk)) (lp_paused l) (lp_log l ++ [LogPaused (tk_Stamp tk) (heldMB tk) maxMemMB tip]) (lp_freed l)
  else l.

Section loop.
Context {S : Type} `{Store S} {T : Type} `{Source T}.

(** One turn; [None] when the loop returns. *)
Definition loop_turn (tk : Tick) (l : LoopState) : M (Server S * T) (option LoopState) :=
  if tk_Done tk then mret None
  else
    s <- on1 mget ;;
    let max := sc_MaxMemMB (sv_cfg s) in
    if (0 <? max) && (max <=? heldMB tk) then
      let l := warn_paused tk max (sv_tip s) (enter_pause l) in
      set_ready ;;
      mret (if tk_DoneWaiting tk then None else Some l)
    else
      let l := if 0 <? max then set_paused false l else l in
      nb <- mtry (on2 Next) ;;
      match nb with
      | Panic => mpanic
      | Err e => mret (Some (log_line (LogSource e) l))
      | Ok None => set_ready ;; mret (if tk_DoneWaiting tk then None else Some l)
      | Ok (Some b) =>
          r <- on1 (with_ingest (IngestBlock (sv_ing s) b)) ;;
          match r with
          | (_, Some e) => mret (Some (log_line (LogBlock (b_Height b) e) l))
          | (_, None) => advance b ;; set_ready ;; mret (Some l)
          end
      end.

(** The loop over the ticks it sees: [None] once it has returned. *)
Fixpoint ingestLoop (ticks : list Tick) (l : LoopState) : M (Server S * T) (option LoopState) :=
  match ticks with
  | [] => mret (Some l)
  | tk :: rest =>
      ol <- loop_turn tk l ;;
      match ol with
      | None => mret None
      | Some l' => ingestLoop rest l'
      end
  end.
End loop.

(** ** Serving *)

(** The mux of [Start] and of [Handler]. *)
Definition routes : list (string * Route) :=
  [("/healthz", RHealth); ("/readyz", RReady); ("/metrics", RMetrics); ("/v1/seen", RSeen); ("/v1/mined", RMined);
   ("/v1/merklepath", RMerklePath); ("/v1/utxo", RUTXO); ("/v1/channel/open", RChannelOpen); ("/v1/quote", RQuote);
   ("/v1/paid/query", RPaidQuery); ("/admin/stats", RAdminStats)]%string.
Definition route_of (path : string) : option Route :=
  snd <$> List.find (fun p => String.eqb p.1 path) routes.

Definition serve {S} `{Store S} (stats : S -> Stats) (nf : nat) (now heap : Z) (path : string) (req : HttpReq)
  : M (Server S) HttpResp :=
  match route_of path with
  | Some r => Handler stats nf now heap r req
  | None => mret (HttpError StatusNotFound "404 page not found")
  end.

(** The return of [Start], from that of [ListenAndServe]. *)
Definition ErrServerClosed : error := "http: Server closed"%string.
Definition Start_return (err : option error) : option error :=
  match err with
  | Some e => if String.eqb e ErrServerClosed then None else Some e
  | None => None
  end.

(** ** The client's address *)

(** [net.SplitHostPort]: the host, or [None] for an error. *)
Definition index_byte (c : ascii) (l : list ascii) : option nat := fst <$> list_find (fun x => x = c) l.
Definition last_index_byte (c : ascii) (l : list ascii) : option nat :=
  (fun j => length l - 1 - j)%nat <$> index_byte c (reverse l).
Definition has_byte (c : ascii) (l : list ascii) : bool := bool_decide (c ∈ l).

Definition SplitHost (hp : list ascii) : option (list ascii) :=
  match last_index_byte ":" hp with
  | None => None
  | Some i =>
      if bool_decide (head hp = Some "["%char) then
        match index_byte "]" hp with
        | None => None
        | Some e =>
            if (e + 1 =? i)%nat then
              if has_byte "[" (drop 1 hp) || has_byte "]" (drop (e + 1) hp) then None
              else Some (take (e - 1) (drop 1 hp))
            else None
        end
      else
        let host := take i hp in
        if has_byte ":" host || has_byte "[" hp || has_byte "]" hp then None else Some host
  end.

(** The key of the rate limiter. *)
Definition clientIP (remoteAddr : string) : string :=
  match SplitHost (String.list_ascii_of_string remoteAddr) with
  | None => remoteAddr
  | Some host => String.string_of_list_ascii host
  end.

(** ** The command line of memserved *)

(** The flags; [uint] and [int] are 64 bits wide. *)
Record Flags : Type := mkFlags
  { fl_teranode : string; fl_mock : bool; fl_shardK : Z; fl_shardID : Z; fl_reorg : Z; fl_recency : Z;
    fl_paymentRequired : bool; fl_operatorSeed : gostring; fl_adminToken : string; fl_rate : Z; fl_minDeposit : Z;
    fl_maxChannels : Z; fl_maxMemMB : Z; fl_mockBlocks : Z; fl_indexRetention : Z; fl_store : string;
    fl_aeroHost : string; fl_aeroPort : Z; fl_aeroNS : string }.

Definition paymentPolicy (minDeposit maxChannels : Z) : Paid.Policy :=
  Paid.mkPolicy minDeposit maxChannels (MaxBadAttempts DefaultPolicy).

(** A nil store makes the server use the in-memory one. *)
Inductive Backend : Type :=
| InMemory
| Aero (host : string) (port : Z) (ns : string).

Definition quoted (s : string) : string :=
  let q := String (Ascii.ascii_of_nat 34) EmptyString in q +:+ s +:+ q.
Definition ErrUnknownStore (kind : string) : error := ("unknown store backend " +:+ quoted kind)%string.
Definition ErrNeedsTag : error := "aerospike backend requires building with -tags aerospike"%string.

(** The default build. *)
Definition openStore_default (kind host : string) (port : Z) (ns : string) : result Backend :=
  if String.eqb kind "" || String.eqb kind "mem" then Ok InMemory
  else if String.eqb kind "aerospike" then Err ErrNeedsTag
  else Err (ErrUnknownStore kind).
(** The build with the database; [connect] is the client's connection attempt. *)
Definition openStore_aerospike (connect : string -> Z -> option error) (kind host : string) (port : Z) (ns : string)
  : result Backend :=
  if String.eqb kind "" || String.eqb kind "mem" then Ok InMemory
  else if String.eqb kind "aerospike" then
    match connect host port with Some e => Err e | None => Ok (Aero host port ns) end
  else Err (ErrUnknownStore kind).

Inductive SourceChoice : Type :=
| MockChain (cfg : MockConfig)
| TeranodeAt (cfg : HConfig).

(** [debug.SetMemoryLimit], in bytes, when it is called. *)
Definition memory_limit (maxMemMB : Z) : option Z :=
  if 0 <? maxMemMB then Some (i64 (Z.shiftl (Z.quot (i64 (maxMemMB * 5)) 4) 20)) else None.

Definition choose_source (f : Flags) : option SourceChoice :=
  if fl_mock f then Some (MockChain (mkMockConfig (fl_mockBlocks f) 4 2048 3 0 0))
  else if negb (String.eqb (fl_teranode f) "")
  then Some (TeranodeAt (mkHConfig (fl_teranode f) 0 0 "" "" "" 0 0 0))
  else None.

Definition parse_seed (s : gostring) : option (list byte) :=
  match s with
  | [] => Some []
  | _ =>
      match hex_decode s with
      | Ok b => if (length b =? 32)%nat then Some b else None
      | _ => None
      end
  end.

Definition flag_policy (f : Flags) : result Prune.Policy :=
  let! pol := PolicyWithD (u32 (u32 (fl_reorg f) + u32 (fl_recency f))) (u32 (fl_reorg f)) in
  Ok (Prune.mkPolicy (ReorgHorizon pol) (RecencyWindow pol) (u32 (fl_indexRetention f))).

Definition retention_warning (pol : Prune.Policy) : bool :=
  negb (IndexRetention pol =? 0) && (IndexRetention pol <? D pol).

Definition server_config (f : Flags) (pol : Prune.Policy) (seed : list byte) : SConfig :=
  mkSConfig (fl_shardK f) (u32 (fl_shardID f)) pol (paymentPolicy (fl_minDeposit f) (fl_maxChannels f))
    (fl_paymentRequired f) seed (fl_adminToken f) (fl_rate f) (fl_maxMemMB f).

Record Plan : Type := mkPlan
  { pl_source : SourceChoice; pl_backend : Backend; pl_config : SConfig; pl_warned : bool }.

Inductive Startup : Type :=
| Exit (code : Z) (msg : string)
| Serve (p : Plan).

(** [main] up to [srv.Start]; [openStore] is that of the build. *)
Definition memserved (openStore : string -> string -> Z -> string -> result Backend) (f : Flags) : Startup :=
  match choose_source f with
  | None => Exit 2 "provide -teranode <url> or -mock"
  | Some src =>
      match parse_seed (fl_operatorSeed f) with
      | None => Exit 2 "operator-seed must be 32-byte hex"
      | Some seed =>
          match flag_policy f with
          | Ok pol =>
              match openStore (fl_store f) (fl_aeroHost f) (fl_aeroPort f) (fl_aeroNS f) with
              | Ok st => Serve (mkPlan src st (server_config f pol seed) (retention_warning pol))
              | _ => Exit 2 "store init"
              end
          | _ => Exit 2 "invalid prune policy"
          end
      end
  end.

(** * Theorems *)

(** ** The loop and the turn *)

Section loop_theory.
Context {S : Type} `{Store S} {T : Type} `{Source T}.
Abbreviation ST := (Server S * T)%type.

(** The outcome of a call, its value aside. *)
Definition forget {A} (r : result A) : result unit :=
  match r with Ok _ => Ok tt | Err e => Err e | Panic => Panic end.

(** a turn that is not cancelled does to the server and the source exactly what
    [ingest_turn] does with the memory it reads. *)
Theorem loop_turn_effect (tk : Tick) (l : LoopState) (st : ST) :
  tk_Done tk = false ->
  (forget (loop_turn tk l st).1, (loop_turn tk l st).2) = ingest_turn (heldMB tk) st.
Proof.
  intros Hd. destruct st as [s t]. unfold loop_turn, ingest_turn, set_ready, advance. rewrite Hd.
  unfold mbind, mtry, on1, on2, mget, with_ingest. cbn [fst snd].
  destruct ((0 <? sc_MaxMemMB (sv_cfg s)) && (sc_MaxMemMB (sv_cfg s) <=? heldMB tk)); [by destruct (tk_DoneWaiting tk)|].
  cbn [fst snd]. destruct (Next t) as [[[b|]|e|] t']; cbn [fst snd]; try done.
  by destruct (IngestBlock (sv_ing s) b (sv_store s, sv_pruner s)) as [[[st [e|]]|e|] [s1 pr1]].
Qed.

(** ** The watchdog *)

(** The turn finds the memory at the limit and is not cancelled. *)
Definition over_limit (s : Server S) (tk : Tick) : Prop :=
  tk_Done tk = false /\ tk_DoneWaiting tk = false
  /\ 0 < sc_MaxMemMB (sv_cfg s) /\ sc_MaxMemMB (sv_cfg s) <= heldMB tk.

Lemma turn_paused tk l s (t : T) :
  over_limit s tk ->
  loop_turn tk l (s, t)
  = (Ok (Some (warn_paused tk (sc_MaxMemMB (sv_cfg s)) (sv_tip s) (enter_pause l))), (set_head (sv_tip s) true s, t)).
Proof.
  intros (Hd & Hw & Hm & Hh). unfold loop_turn. rewrite Hd. unfold mbind at 1, on1 at 1, mget. cbn [fst snd].
  rewrite (proj2 (Z.ltb_lt _ _) Hm), (proj2 (Z.leb_le _ _) Hh). cbn [andb]. by rewrite Hw.
Qed.

Lemma warn_keeps tk max tip l :
  lp_paused (warn_paused tk max tip l) = lp_paused l /\ lp_freed (warn_paused tk max tip l) = lp_freed l.
Proof. unfold warn_paused. by destruct (warn_due tk l). Qed.

(** Warnings logged, and their spacing. *)
Definition stamps (log : list LogLine) : list Z :=
  omap (fun x => match x with LogPaused t _ _ _ => Some t | _ => None end) log.
Fixpoint spaced (l : list Z) : Prop :=
  match l with
  | a :: ((b :: _) as r) => warn_interval < b - a /\ spaced r
  | _ => True
  end.
Definition warn_ok (l : LoopState) : Prop := lp_lastWarn l = last (stamps (lp_log l)) /\ spaced (stamps (lp_log l)).

Lemma spaced_snoc l b : spaced l -> (forall a, last l = Some a -> warn_interval < b - a) -> spaced (l ++ [b]).
Proof.
  induction l as [|a l IH]; intros Hs Hl; [done|]. destruct l as [|c l]; [by split; [apply Hl|]|].
  destruct Hs as [Hac Hs]. split; [done|]. apply IH; [done|]. intros x Hx. apply Hl. by rewrite last_cons_cons.
Qed.

Lemma stamps_snoc log x :
  stamps (log ++ [x]) = stamps log ++ match x with LogPaused t _ _ _ => [t] | _ => [] end.
Proof. unfold stamps. rewrite omap_app. by destruct x. Qed.

Lemma warn_ok_warn tk max tip l : tk_Now tk <= tk_Stamp tk -> warn_ok l -> warn_ok (warn_paused tk max tip l).
Proof.
  intros Ht [Hl Hs]. unfold warn_paused. destruct (warn_due tk l) eqn:E; [|done]. unfold warn_ok. cbn [lp_lastWarn lp_log].
  rewrite stamps_snoc, last_snoc. split; [done|]. apply spaced_snoc; [done|]. intros a Ha. rewrite <- Hl in Ha.
  unfold warn_due in E. rewrite Ha in E. zbool. lia.
Qed.
Lemma warn_ok_enter l : warn_ok l -> warn_ok (enter_pause l).
Proof. unfold enter_pause. by destruct (lp_paused l). Qed.
Lemma warn_ok_log x l : stamps [x] = [] -> warn_ok l -> warn_ok (log_line x l).
Proof. intros Hx [Hl Hs]. unfold warn_ok, log_line. cbn [lp_lastWarn lp_log]. rewrite stamps_snoc. destruct x; [done|by rewrite app_nil_r..]. Qed.

Lemma turn_warn_ok tk l st ol st' :
  tk_Now tk <= tk_Stamp tk -> warn_ok l -> loop_turn tk l st = (Ok (Some ol), st') -> warn_ok ol.
Proof.
  intros Ht Hl E. destruct st as [s t]. unfold loop_turn in E. destruct (tk_Done tk); [done|].
  unfold mbind at 1, on1 at 1, mget in E. cbn [fst snd] in E. destruct (_ && _).
  { unfold mbind, set_ready, on1 in E. cbn [fst snd] in E. destruct (tk_DoneWaiting tk); [done|]. injection E as <- _.
    by apply warn_ok_warn, warn_ok_enter. }
  set (l1 := if 0 <? _ then _ else _) in E. assert (warn_ok l1) as Hl1 by (unfold l1; by destruct (0 <? _)).
  unfold mbind, mtry, on2, on1, with_ingest, advance, set_ready in E. cbn [fst snd] in E.
  destruct (Next t) as [[[b|]|e|] t']; cbn [fst snd] in E; try done.
  - destruct (IngestBlock (sv_ing s) b (sv_store s, sv_pruner s)) as [[[sti [e|]]|e|] [s1 pr1]]; try done.
    + injection E as <- _. by apply warn_ok_log.
    + by injection E as <- _.
  - destruct (tk_DoneWaiting tk); [done|]. by injection E as <- _.
  - injection E as <- _. by apply warn_ok_log.
Qed.

(** the watchdog does not flood the log: along any run of the loop whose clock
    does not run backwards within a turn, two warnings in a row are more than 30
    seconds apart. *)
Theorem warnings_spaced (ticks : list Tick) (st st' : ST) (l : LoopState) :
  Forall (fun tk => tk_Now tk <= tk_Stamp tk) ticks ->
  ingestLoop ticks loop_init st = (Ok (Some l), st') -> spaced (stamps (lp_log l)).
Proof.
  intros Ht. assert (warn_ok loop_init) as Hi by done. revert Hi. generalize loop_init. revert st.
  induction Ht as [|tk ticks Htk Ht IH]; intros st l0 Hi E; [by injection E as <- _; apply Hi|].
  cbn [ingestLoop] in E. unfold mbind in E. destruct (loop_turn tk l0 st) as [[[l1|]|e|] st1] eqn:E1; try done.
  eapply IH; [by eapply turn_warn_ok|exact E].
Qed.

(** C17: The watchdog pauses without losing anything.  While the memory in use stays
    at or above the limit, the loop leaves the store, the pruner, the tip, the
    counters and the source as they are (so the next block is still to come) and
    only marks the server ready; it hands memory back to the system exactly
    once, on entering the pause, however long the pause lasts. *)
Theorem watchdog_pauses (ticks : list Tick) (l : LoopState) (s : Server S) (t : T) :
  ticks <> [] -> Forall (over_limit s) ticks ->
  exists l', ingestLoop ticks l (s, t) = (Ok (Some l'), (set_head (sv_tip s) true s, t))
    /\ lp_paused l' = true /\ lp_freed l' = lp_freed l + (if lp_paused l then 0 else 1).
Proof.
  intros Hne Hf. destruct Hf as [|tk ticks Ho Hf]; [done|]. clear Hne. cbn [ingestLoop].
  erewrite mbind_ok by (by apply turn_paused). cbn beta iota.
  set (l1 := warn_paused _ _ _ _). set (s1 := set_head (sv_tip s) true s).
  assert (lp_paused l1 = true /\ lp_freed l1 = lp_freed l + (if lp_paused l then 0 else 1)) as [Hp Hfr].
  { unfold l1. destruct (warn_keeps tk (sc_MaxMemMB (sv_cfg s)) (sv_tip s) (enter_pause l)) as [-> ->]. unfold enter_pause.
    destruct (lp_paused l) eqn:E; cbn [lp_paused lp_freed]; [split; [done|lia]|done]. }
  rewrite <- Hfr. clear Hfr. clearbody l1.
  assert (Forall (over_limit s1) ticks) as Hf1 by exact Hf. clear Hf Ho.
  assert (s1 = set_head (sv_tip s1) true s1) as Es by done.
  change (set_head (sv_tip s) true s) with s1. clearbody s1. revert l1 Hp.
  induction Hf1 as [|tk' ticks Ho Hf IH]; intros l1 Hp; [by exists l1|]. cbn [ingestLoop].
  erewrite mbind_ok by (by apply turn_paused). cbn beta iota. rewrite <- Es.
  destruct (warn_keeps tk' (sc_MaxMemMB (sv_cfg s1)) (sv_tip s1) (enter_pause l1)) as [K1 K2].
  unfold enter_pause in K1, K2 at 2. rewrite Hp in K1, K2. rewrite <- K2. apply IH. unfold enter_pause. rewrite Hp. congruence.
Qed.
End loop_theory.

(** ** The client's address *)

Lemma last_index_app c l r : c ∉ r -> last_index_byte c (l ++ c :: r) = Some (length l).
Proof.
  intros Hr. unfold last_index_byte, index_byte. rewrite reverse_app, reverse_cons, <- app_assoc. cbn [app].
  rewrite (list_find_app_r _ (reverse r)); [|apply list_find_None, Forall_forall; intros x Hx ->; by apply Hr, elem_of_reverse].
  cbn [list_find]. rewrite decide_True by done. simpl. rewrite length_reverse, length_app. simpl. f_equal. lia.
Qed.
Lemma index_app c l r : c ∉ l -> index_byte c (l ++ c :: r) = Some (length l).
Proof.
  intros Hl. unfold index_byte. rewrite list_find_app_r by (apply list_find_None, Forall_forall; by intros x Hx ->).
  cbn [list_find]. rewrite decide_True by done. simpl. f_equal; lia.
Qed.
Lemma has_byte_false c l : c ∉ l -> has_byte c l = false.
Proof. intros. by apply bool_decide_eq_false_2. Qed.

(** the limiter counts hosts: whatever the port, a connection is charged to the
    host part of its address, bracketed (IPv6) or not. *)
Theorem client_ip_host (host port : list ascii) :
  "["%char ∉ host -> "]"%char ∉ host -> "["%char ∉ port -> "]"%char ∉ port -> ":"%char ∉ port ->
  let addr l := clientIP (String.string_of_list_ascii l) in
  (":"%char ∉ host -> addr (host ++ ":"%char :: port) = String.string_of_list_ascii host)
  /\ addr ("["%char :: host ++ "]"%char :: ":"%char :: port) = String.string_of_list_ascii host.
Proof.
  intros H1 H2 H3 H4 H5 addr. unfold addr, clientIP. rewrite !String.list_ascii_of_string_of_list_ascii. split.
  - intros Hc. unfold SplitHost. rewrite (last_index_app ":" host port H5).
    rewrite bool_decide_eq_false_2.
    2:{ destruct host as [|a host]; [done|]. cbn. intros [= ->]. apply H1. set_solver. }
    rewrite take_app_length. rewrite !has_byte_false by set_solver. done.
  - unfold SplitHost. change ("["%char :: host ++ "]"%char :: ":"%char :: port) with (("["%char :: host) ++ "]"%char :: ":"%char :: port).
    rewrite (index_app "]" ("["%char :: host)) by set_solver.
    replace (("["%char :: host) ++ "]"%char :: ":"%char :: port) with ((("["%char :: host) ++ ["]"%char]) ++ ":"%char :: port)
      by (by rewrite <- app_assoc).
    rewrite last_index_app by done. cbn [head app]. rewrite bool_decide_eq_true_2 by done.
    cbn [length app]. rewrite length_app. cbn [length]. rewrite (proj2 (Nat.eqb_eq _ _)) by lia.
    replace (Datatypes.S (length host) + 1)%nat with (length ("["%char :: host ++ ["]"%char])) by (simpl; rewrite length_app; simpl; lia).
    change ("["%char :: (host ++ ["]"%char]) ++ ":"%char :: port) with (("["%char :: host ++ ["]"%char]) ++ ":"%char :: port) at 2.
    rewrite drop_app_length. cbn [drop]. rewrite <- app_assoc. rewrite !has_byte_false by set_solver. cbn [orb app].
    replace (Datatypes.S (length host) - 1)%nat with (length host) by lia. by rewrite drop_0, take_app_length.
Qed.

(** ** Start-up *)

Lemma flag_policy_cases f :
  (2 ^ 32 <= u32 (fl_reorg f) + u32 (fl_recency f) /\ flag_policy f = Err ErrBelowFloor)
  \/ (u32 (fl_reorg f) + u32 (fl_recency f) < 2 ^ 32
      /\ flag_policy f = Ok (Prune.mkPolicy (u32 (fl_reorg f)) (u32 (fl_recency f)) (u32 (fl_indexRetention f)))).
Proof.
  pose proof (u32_range (fl_reorg f)). pose proof (u32_range (fl_recency f)). unfold flag_policy, PolicyWithD, rbind.
  destruct (Z.le_gt_cases (2 ^ 32) (u32 (fl_reorg f) + u32 (fl_recency f))) as [Hw|Hw]; [left|right]; (split; [lia|]).
  - assert (u32 (u32 (fl_reorg f) + u32 (fl_recency f)) = u32 (fl_reorg f) + u32 (fl_recency f) - 2 ^ 32) as ->.
    { unfold u32 at 1, wrap. symmetry. apply (Z.mod_unique_pos _ _ 1); lia. }
    by rewrite (proj2 (Z.ltb_lt _ _)) by lia.
  - rewrite (u32_small (u32 _ + u32 _)) by lia. rewrite (proj2 (Z.ltb_ge _ _)) by lia. cbn [ReorgHorizon RecencyWindow].
    do 2 f_equal. rewrite u32_small by lia. lia.
Qed.


(** the runtime's memory limit leaves the watchdog room: for a limit of at most
    [2^40] MB it is a quarter above the watchdog's, rounded down to a megabyte. *)
Theorem memory_limit_above_watchdog (m : Z) :
  0 < m <= 2 ^ 40 -> exists bytes, memory_limit m = Some bytes /\ m * 2 ^ 20 <= bytes <= m * 2 ^ 20 + m * 2 ^ 18.
Proof.
  intros Hm. unfold memory_limit. rewrite (proj2 (Z.ltb_lt _ _)) by lia. eexists. split; [reflexivity|].
  rewrite (i64_small (m * 5)) by lia. rewrite Z.quot_div_nonneg by lia. rewrite Z.shiftl_mul_pow2 by lia.
  pose proof (Z.div_mod (m * 5) 4 ltac:(lia)). pose proof (Z.mod_pos_bound (m * 5) 4 ltac:(lia)).
  rewrite i64_small by lia. lia.
Qed.

(** a shard id out of range is accepted.  The command checks nothing about the
    id: started with a width of 1 to 32 bits and an id of [2^k] or more, the
    server owns no transaction, so it ingests every block and indexes nothing. *)
Theorem bad_shard_owns_nothing {S} `{Store S} openStore (f : Flags) (p : Plan) (st : S) (t : Hash) :
  memserved openStore f = Serve p -> 1 <= fl_shardK f <= 32 -> 2 ^ fl_shardK f <= u32 (fl_shardID f) ->
  owns (sv_ing (server_New (pl_config p) st)) t = false.
Proof.
  intros E Hk Hid. assert (pl_config p = server_config f (sc_Prune (pl_config p)) (sc_OperatorSeed (pl_config p))) as Ep.
  { unfold memserved in E. repeat case_match; try done. by injection E as <-. }
  rewrite Ep. unfold owns. cbn. rewrite (proj2 (Z.eqb_neq _ _)) by lia.
  apply Z.eqb_neq. pose proof (Of_bounds t (fl_shardK f) ltac:(lia)). lia.
Qed.

(** The height a source starts at. *)
Definition source_start (c : SourceChoice) : Z :=
  match c with MockChain cfg => c_StartHeight cfg | TeranodeAt cfg => h_StartHeight cfg end.

(** C40: A restart over a populated store brings spent outputs back.  The daemon
    always reads its source from height 0.  When the store already holds an
    output of the block as spent (as a database kept across a restart does), and
    the block does not spend it itself, ingesting the block again stores the
    output as new and the server answers it as unspent, until the spending block
    has been read again. *)
Theorem restart_resurrects {S} `{LawfulStore S} (i : Ingestor) (b : Block) (s : S) (pr : Pruner) (op : Outpoint) (u : UTXO) :
  store_inv s -> pruner_ok pr -> validateBlock b = Ok tt -> 0 <= b_Height b < 2 ^ 32 ->
  f_utxo (store_view s) !! op = Some u -> u_Spent u = true ->
  op ∈ es_outputs (owned_entries i b) -> op ∉ es_inputs (owned_entries i b) ->
  (forall f src, choose_source f = Some src -> source_start src = 0)
  /\ (exists r s0, api_UTXO op s = (Ok r, s0) /\ ur_Status r = UTXOSpent)
  /\ exists st s' pr' r s'', IngestBlock i b (s, pr) = (Ok (st, None), (s', pr'))
     /\ api_UTXO op s' = (Ok r, s'') /\ ur_Status r = UTXOUnspent.
Proof.
  intros Hi Hpr Hv Hh Hu Hs Ho Hni. split; [|split].
  { intros f src. unfold choose_source. destruct (fl_mock f); [by intros [= <-]|]. case_match; [|done]. by intros [= <-]. }
  { destruct (api_UTXO_lawful op s Hi) as (s0 & E & _). eexists _, _. split; [exact E|]. unfold utxo_answer. by rewrite Hu, Hs. }
  destruct (IngestBlock_flat i b (store_view s) pr (or_intror Hv) Hpr Hh) as (st & n & f & pr1 & _ & E & _).
  destruct (sim_IngestBlock i b (s, pr) (store_view s, pr)) as (r & [s1 pr2] & q & E1 & E2 & [[Hi1 Hv1] Hp]); [done|].
  rewrite E in E2. injection E2 as <- <-. simpl in Hp, Hv1. subst pr2.
  destruct (api_UTXO_lawful op s1 Hi1) as (s2 & E3 & _). exists st, s1, pr1, (utxo_answer (store_view s1) op), s2.
  split_and!; [done..|]. rewrite Hv1. clear Hv1.
  destruct (IngestBlock_inv i b (store_view s) pr st f pr1 Hpr Hh E) as (_ & _ & _ & Hf & _).
  destruct (block_utxo b (owned_entries i b) (put_head i b (store_view s)) op) as (_ & _ & H3).
  destruct (H3 Ho) as (u' & Eu & _). pose proof (fresh_output _ _ _ _ _ Ho Hni Eu) as Hfr.
  assert (u_Spent u' = false) as Hun by (by rewrite <- Hfr).
  assert (f_utxo f !! op = Some u') as Ef.
  { rewrite Hf. destruct (in_pruner i); [|exact Eu]. unfold kept_spends. apply map_lookup_filter_Some. split; [exact Eu|].
    simpl. by rewrite Hun. }
  unfold utxo_answer. by rewrite Ef, Hun.
Qed.

(** ** Witnesses *)

#[local] Instance block_list : Source (list Block) :=
  {| Next := fun l => match l with [] => (Ok None, []) | b :: r => (Ok (Some b), r) end; TipHeight := fun _ => 0 |}.

Definition small_config : SConfig := mkSConfig 0 0 RecommendedPolicy DefaultPolicy false [] "" 0 64.
Definition small_server : Server MemStore := server_New small_config New.
(** 80 MB in use. *)
Definition full_tick (now : Z) : Tick := mkTick false false (80 * 2 ^ 20) 0 now now.

Lemma watchdog_pauses_witness :
  exists l', ingestLoop [full_tick 1; full_tick 2; full_tick 40000000000] loop_init (small_server, [demo_block])
      = (Ok (Some l'), (set_head 0 true small_server, [demo_block]))
    /\ lp_paused l' = true /\ lp_freed l' = 1.
Proof.
  apply (watchdog_pauses [full_tick 1; full_tick 2; full_tick 40000000000] loop_init small_server [demo_block]).
  - discriminate.
  - apply Forall_forall. intros tk Hin.
    repeat (apply elem_of_cons in Hin as [->|Hin]; [split; [reflexivity|split; [reflexivity|split; [reflexivity|discriminate]]]|]).
    by apply elem_of_nil in Hin.
Defined.

Definition demo_flags : Flags :=
  mkFlags "" true 0 0 18 12 false [] "" 0 0 0 4096 300 0 "mem" "127.0.0.1" 3000 "memserve".


(** The first block of the demo chain, over a store in which its first output
    was spent by the second. *)
Definition kept_store : StoreSpec.Flat :=
  set_utxo {[ mkOutpoint (id_low 1) 0 := mkUTXO 50 (id_low 9) true (id_low 3) 2 ]} flatEmpty.
Definition first_block : Block := seal 1 [mkTx (id_low 1) [coinbase_input] [mkTxOut 50 (id_low 9); mkTxOut 25 (id_low 9)]].

Lemma restart_resurrects_witness :
  exists st s' pr' r s'',
    IngestBlock demo_ingestor first_block (kept_store, NewPruner RecommendedPolicy) = (Ok (st, None), (s', pr'))
    /\ api_UTXO (mkOutpoint (id_low 1) 0) s' = (Ok r, s'') /\ ur_Status r = UTXOUnspent.
Proof.
  apply (restart_resurrects demo_ingestor first_block kept_store (NewPruner RecommendedPolicy) (mkOutpoint (id_low 1) 0)
    (mkUTXO 50 (id_low 9) true (id_low 3) 2)).
  - exact I.
  - exact demo_policy_ok.
  - apply seal_good; [discriminate|simpl; lia|lia].
  - simpl. lia.
  - apply lookup_singleton_eq.
  - reflexivity.
  - apply (bool_decide_unpack _). vm_compute. exact I.
  - apply (bool_decide_unpack _). vm_compute. exact I.
Defined.
