(* ===== verification/Tools.v ===== *)
(** * The command-line tools ([src/cmd/ingest], [src/cmd/memserve],
      [src/cmd/accelcheck], [src/accel/throughput.go], [src/accel/validate.go])

    The ingest report, the demonstration's queries and payment, and the
    back-end check, each as a function from its inputs to what it prints (the
    values, not their formatting) or to its exit code.  The theorems say that
    the ingest report counts the chain it was asked for and prints the rows it
    says, that the demonstration's sample is answered and its payment adds up,
    and that the check accepts a lawful back end exactly when it accepts the
    reference. *)

From stdpp Require Import base gmap list strings sets.
From Stdlib Require Import ZArith Lia ZifyNat.
From Stdlib Require Strings.Byte.
From S2P Require Import Prelude Sha256 Commitment Bsvtx Channel Crypto Paid Shard StoreSpec MemStore ProofPath Prune Teranode Ingest Reorg Pipeline Api Chain Footprint Bench Accel.
Open Scope go_scope.

(** ** cmd/ingest *)

(** A printed row, and the closing lines. *)
Record Row : Type := mkRow
  { rw_height : Z; rw_txindex : Z; rw_live : Z; rw_spent : Z; rw_pruned : Z; rw_total : Z }.
Record Summary : Type := mkSummary
  { sm_blocks : Z; sm_txs : Z; sm_made : Z; sm_spent : Z; sm_pruned : Z; sm_live : Z; sm_retained : Z; sm_D : Z }.

Inductive Report : Type :=
| SourceFailed (rows : list Row) (e : error)
| IngestFailed (rows : list Row) (e : error)
| Done (rows : list Row) (s : Summary).

Definition prints (blocks h : Z) : bool := (Z.rem h 20 =? 0) || (h =? blocks - 1).
Definition make_row (b : Block) (s : IStats) (sp : MemStore * Pruner) : Row :=
  let st := mem_Stats sp.1 in
  mkRow (b_Height b) (st_TxIndex st) (st_UTXOLive st) (st_UTXOSpent st) (is_Pruned s) (TotalPruned sp.2).
(** [total.Blocks] is not counted by the loop. *)
Definition add_block (total s : IStats) : IStats :=
  mkIStats (is_Blocks total) (is_TxsIndexed total + is_TxsIndexed s) (is_UTXOsMade total + is_UTXOsMade s)
    (is_UTXOsSpent total + is_UTXOsSpent s) (is_Pruned total + is_Pruned s).
Definition summary (total : IStats) (h D : Z) (sp : MemStore * Pruner) : Summary :=
  let fin := mem_Stats sp.1 in
  mkSummary (is_Blocks total + h) (is_TxsIndexed total) (is_UTXOsMade total) (is_UTXOsSpent total) (TotalPruned sp.2)
    (st_UTXOLive fin) (st_UTXOSpent fin) D.

Section ingest_cmd.
Context {T : Type} `{Source T}.

Fixpoint report_loop (fuel : nat) (i : Ingestor) (blocks D h : Z) (total : IStats) (rows : list Row)
  : M ((MemStore * Pruner) * T) Report :=
  match fuel with
  | O => mpanic
  | Datatypes.S fuel' =>
      nb <- mtry (on2 Next) ;;
      match nb with
      | Panic => mpanic
      | Err e => mret (SourceFailed rows e)
      | Ok None => q <- mget ;; mret (Done rows (summary total h D q.1))
      | Ok (Some b) =>
          r <- on1 (IngestBlock i b) ;;
          match r with
          | (_, Some e) => mret (IngestFailed rows e)
          | (s, None) =>
              q <- mget ;;
              let rows' := if prints blocks h then rows ++ [make_row b s q.1] else rows in
              report_loop fuel' i blocks D (h + 1) (add_block total s) rows'
          end
      end
  end.
End ingest_cmd.

(** [main] with its flags. *)
Definition ingest_main (fuel : nat) (blocks subtrees txs spendFrac reorg recency : Z) : result Report :=
  let pol := Prune.mkPolicy (u32 reorg) (u32 recency) 0 in
  (report_loop fuel bench_ingestor blocks (D pol) 0 zeroStats []
    ((New, NewPruner pol), NewMock (mkMockConfig blocks subtrees txs spendFrac 0 0))).1.

(** ** cmd/memserve *)

Record QueryDemo : Type := mkQueryDemo
  { qd_Seen : bool; qd_Mined : bool; qd_Height : Z; qd_Verifies : bool; qd_Depth : Z; qd_UTXO : UTXOStatus;
    qd_Pruned : option UTXOStatus }.

(** [r, _ := call]: the zero value on an error. *)
Definition or_zero {S A} (zero : A) (m : M S A) : M S A :=
  r <- mtry m ;; mret (match r with Ok a => a | _ => zero end).

Section demo.
Context {S : Type} `{Store S}.

(** The first sampled output that is no longer in the window. *)
Fixpoint find_pruned (ops : list Outpoint) : M S (option UTXOStatus) :=
  match ops with
  | [] => mret None
  | op :: rest =>
      r <- or_zero (mkUTXOResult UTXOUnknown 0 zeroHash 0) (api_UTXO op) ;;
      match ur_Status r with
      | UTXONotInWindow => mret (Some (ur_Status r))
      | _ => find_pruned rest
      end
  end.

Definition demoQueries (txids : list Hash) (outpts : list Outpoint) : M S QueryDemo :=
  txid <- mlift (index txids (Z.of_nat (length txids) / 2)) ;;
  seen <- or_zero (mkSeenResult false 0) (Seen txid) ;;
  mined <- or_zero (mkMinedResult false zeroHash 0 0) (Mined txid) ;;
  pr <- mtry (api_MerklePath txid) ;;
  op <- mlift (index outpts (Z.of_nat (length outpts) / 2)) ;;
  u <- or_zero (mkUTXOResult UTXOUnknown 0 zeroHash 0) (api_UTXO op) ;;
  found <- find_pruned outpts ;;
  let '(ok, depth) := match pr with
                      | Ok p => (Verify p, Z.of_nat (length (p_L1 p)) + Z.of_nat (length (p_L2 p)))
                      | _ => (false, 0)
                      end in
  mret (mkQueryDemo (sr_Seen seen) (mr_Mined mined) (mr_Height mined) ok depth (ur_Status u) found).

(** *** The payment demonstration *)

Inductive PayDemo : Type :=
| OpenError (e : error)
| QuoteError (e : error)
| QueryError (e : error)
| Settled (snap : Snapshot) (settle : Settlement) (lockTime : Z).

Definition demo_client_seed : list byte := String.list_byte_of_string "memserve-demo-client-key-0000001".
Definition demo_server_seed : list byte := String.list_byte_of_string "memserve-demo-server-key-0000001".
Definition demo_pricing : Pricing := mkPricing false 0 [1; 1; 5; 2] 200 FeeUpfront.

Definition demo_params : result Params :=
  let fund := DoubleSHA256 (String.list_byte_of_string "demo-funding") in
  let! clientPub := SerializeCompressed (Public (NewPrivateKey demo_client_seed)) in
  let! serverPub := SerializeCompressed (Public (NewPrivateKey demo_server_seed)) in
  Ok (mkParams (DeriveChannelID fund 0) fund 0 clientPub serverPub 100000 250).
Definition demo_config (params : Params) : Config :=
  mkConfig params 100000 (Some (Public (NewPrivateKey demo_client_seed))) demo_pricing 8 800000 0.

(** [n] prepaid accesses; a value ends the demonstration. *)
Fixpoint pay_loop (n nf : nat) (params : Params) (txid : Hash) : M (S * PaidServer) (option PayDemo) :=
  match n with
  | O => mret None
  | Datatypes.S n' =>
      ps <- on2 mget ;;
      match paid_Quote (p_ChannelID params) QMerklePath ps with
      | Panic => mpanic
      | Err e => mret (Some (QuoteError e))
      | Ok cum =>
          match SignCommitment nf (NewPrivateKey demo_client_seed) params cum with
          | Panic => mpanic
          | c =>
              r <- mtry (paid_MerklePath (p_ChannelID params) (match c with Ok c => Some c | _ => None end) txid) ;;
              match r with
              | Panic => mpanic
              | Err e => mret (Some (QueryError e))
              | Ok _ => pay_loop n' nf params txid
              end
          end
      end
  end.

(** [ch] is the channel the registry holds. *)
Definition pay_summary (params : Params) (ps : PaidServer) : result PayDemo :=
  match ps_channels ps !! p_ChannelID params with
  | None => Panic
  | Some ch =>
      let settle := match Settle ch with (Ok st, _) => st | _ => mkSettlement 0 0 0 0 0 end in
      Ok (Settled (ch_Snapshot ch) settle (rf_LockTime (Refund ch)))
  end.

Definition demoPayment (nf : nat) (txids : list Hash) (s : S) : result PayDemo :=
  let! params := demo_params in
  match OpenChannel (demo_config params) paid_New with
  | (Panic, _) => Panic
  | (Err e, _) => Ok (OpenError e)
  | (Ok _, ps) =>
      let! txid := index txids 0 in
      match pay_loop 4 nf params txid (s, ps) with
      | (Ok (Some d), _) => Ok d
      | (Ok None, (_, ps')) => pay_summary params ps'
      | (Err e, _) => Err e
      | (Panic, _) => Panic
      end
  end.
End demo.

(** The shard table that closes the output: widths and shard counts. *)
Definition shard_table : list (Z * Z) := (fun k => (k, Count k)) <$> [1; 2; 3; 5; 7; 10].

(** ** accel throughput and cmd/accelcheck *)

Definition batch_request (nf : nat) (i : Z) : result Request :=
  let seed := DoubleSHA256 [z2b i; z2b (Z.shiftr i 8); z2b (Z.shiftr i 16); z2b 0x11] in
  let priv := NewPrivateKey (abytes seed) in
  let msg := abytes (DoubleSHA256 [z2b i; z2b (Z.shiftr i 8); z2b 0x22]) in
  match Sign nf priv msg with
  | Ok sig => Ok (mkReq (Public priv) msg (Some sig))
  | Err _ => Ok (mkReq (Public priv) msg None)
  | Panic => Panic
  end.
Fixpoint batch_from (nf n : nat) (i : Z) : result (list Request) :=
  match n with
  | O => Ok []
  | Datatypes.S n' => let! r := batch_request nf i in let! rs := batch_from nf n' (i + 1) in Ok (r :: rs)
  end.
(** A negative size panics in [make]. *)
Definition MakeBatch (nf : nat) (m : Z) : result (list Request) :=
  if m <? 0 then Panic else batch_from nf (Z.to_nat m) 0.

(** [Throughput]: the readings of [time.Since(start)] at the loop's checks, and
    the one taken after it; the result is the count over the time in
    nanoseconds. *)
Inductive accel_Throughput {V} `{BatchVerifier V} (v : V) (batch : list Request) (dur : Z)
  : list Z -> Z -> list bool -> Z -> Z * Z -> Prop :=
| tp_stop e final out n :
    dur <= e -> accel_Throughput v batch dur [e] final out n (n, if final <=? 0 then 1000000000 else final)
| tp_turn e es final out out' n res :
    e < dur -> VerifyBatch v batch out (Ok out') ->
    accel_Throughput v batch dur es final out' (u64 (n + Z.of_nat (length batch))) res ->
    accel_Throughput v batch dur (e :: es) final out n res.

(** [main] of accelcheck up to its measurements: the exit code, or a panic of the
    validation or of a batch being made. *)
Definition accelcheck {V} `{BatchVerifier V} (v : V) (nf : nat) (n batch : Z) (code : result Z) : Prop :=
  exists res, Validate v nf n res
    /\ code = match res with
              | Ok _ =>
                  let! b := MakeBatch nf batch in
                  let! ref := MakeBatch nf 64 in
                  Ok 0
              | Err _ => Ok 1
              | Panic => Panic
              end.

(** [demoAccel] up to its measurements: the error of the gate, if any. *)
Definition demoAccel (c : CPU) (nf : nat) (out : result (option error)) : Prop :=
  exists res, Validate c nf 256 res
    /\ out = match res with
             | Ok _ =>
                 let! refBatch := MakeBatch nf 64 in
                 let! cpuBatch := MakeBatch nf 2048 in
                 Ok None
             | Err e => Ok (Some e)
             | Panic => Panic
             end.

(** ** [main] of memserve up to its measurements *)

Inductive DemoRun : Type :=
| BuildError (e : error)
| Ran (s : Stats) (tip : Z) (q : QueryDemo) (pay : PayDemo).

Definition memserve_main (fuel nf : nat) (blocks subtrees txs : Z) : result DemoRun :=
  match bench_Build fuel (mkMockConfig blocks subtrees txs 3 0 0) 6 4 with
  | Panic => Panic
  | Err e => Ok (BuildError e)
  | Ok p =>
      match demoQueries (po_TxIDs p) (po_Outpts p) (po_Store p) with
      | (Ok q, st) =>
          let! pay := demoPayment nf (po_TxIDs p) st in
          Ok (Ran (mem_Stats (po_Store p)) (po_Tip p) q pay)
      | (Err e, _) => Err e
      | (Panic, _) => Panic
      end
  end.

(** * Lemmas *)

(** ** The ingest report *)

(** The heights whose rows are printed. *)
Fixpoint printed (blocks h : Z) (bs : list Block) : list Z :=
  match bs with
  | [] => []
  | b :: r => (if prints blocks h then [b_Height b] else []) ++ printed blocks (h + 1) r
  end.

Lemma report_loop_life {T} `{Source T} (fuel : nat) i blocks Dd h total rows bs (m : T) (p p' : MemStore * Pruner) rs :
  delivers m bs -> life i (Arrive <$> bs) p = (Ok rs, p') -> Forall (fun r => r.2 = None) rs ->
  (length bs < fuel)%nat ->
  exists rows' q, report_loop fuel i blocks Dd h total rows (p, m)
      = (Ok (Done rows' (summary (foldl add_block total rs.*1) (h + Z.of_nat (length bs)) Dd p')), q)
    /\ rw_height <$> rows' = (rw_height <$> rows) ++ printed blocks h bs.
Proof.
  intros Hd. revert fuel h total rows p rs. induction Hd as [m m' En|m b m' bs En Hd IH]; intros fuel h total rows p rs L Hrs Hf;
    (destruct fuel as [|fuel]; [simpl in Hf; lia|]); cbn [report_loop].
  - injection L as <- <-. unfold mbind, mtry, on2. cbn [fst snd]. rewrite En. eexists _, _. cbn [length]. rewrite Z.add_0_r.
    split; [reflexivity|]. by rewrite app_nil_r.
  - cbn [fmap list_fmap life handle] in L. unfold mbind in L.
    destruct (IngestBlock i b p) as [[r|e|] p1] eqn:E; [|done..].
    destruct (life i (Arrive <$> bs) p1) as [[rs1|e|] p2] eqn:E2; [|done..].
    injection L as <- <-. apply Forall_cons in Hrs as [Hr Hrs]. destruct r as [st oe]. simpl in Hr. subst oe.
    unfold mbind at 1, mtry, on2. cbn [fst snd]. rewrite En. unfold mbind at 1, on1. cbn [fst snd]. rewrite E.
    unfold mbind, mget. cbn [fst snd].
    destruct (IH fuel (h + 1) (add_block total st) (if prints blocks h then rows ++ [make_row b st p1] else rows) p1 rs1 E2 Hrs)
      as (rows' & q & E3 & Hrow); [simpl in Hf; lia|].
    exists rows', q. cbn [fmap list_fmap foldl fst]. rewrite E3. split.
    + by replace (h + 1 + Z.of_nat (length bs)) with (h + Z.of_nat (length (b :: bs))) by (cbn [length]; lia).
    + rewrite Hrow. cbn [printed]. destruct (prints blocks h); [|done]. by rewrite fmap_app, <- app_assoc.
Qed.

Lemma add_block_totals m i bs rs acc :
  in_k i = 0 -> Forall (mock_shape m) bs -> Forall2 (reported i) bs rs ->
  let st := foldl add_block acc rs.*1 in
  is_Blocks st = is_Blocks acc
  /\ is_TxsIndexed st = is_TxsIndexed acc + Z.of_nat (length bs) * (c_SubtreesPer (m_cfg m) * c_TxsPerSubtree (m_cfg m)).
Proof.
  intros Hk Hs Hr. revert acc. induction Hr as [|b r bs rs (_ & H1 & H2) _ IH]; intros acc; [simpl; lia|].
  apply Forall_cons in Hs as [(_ & Hsn & Htn) Hs]. cbn [fmap list_fmap foldl].
  destruct (IH Hs (add_block acc r.1)) as [-> ->]. cbn [is_Blocks is_TxsIndexed add_block].
  rewrite H2, owned_all, (entries_length b _ Htn), Hsn by done. simpl. lia.
Qed.

Lemma printed_heights blocks h bs :
  consecutive h bs -> printed blocks h bs = filter (fun k => prints blocks k = true) (seqZ h (Z.of_nat (length bs))).
Proof.
  revert h. induction bs as [|b bs IH]; intros h Hc; [done|]. apply consecutive_cons in Hc as [Hb Hc].
  cbn [printed length]. rewrite (IH _ Hc), (seqZ_cons h), Hb by lia.
  replace (Z.pred (Z.of_nat (Datatypes.S (length bs)))) with (Z.of_nat (length bs)) by lia.
  rewrite <- Z.add_1_r. destruct (prints blocks h) eqn:E.
  - by rewrite filter_cons_True.
  - rewrite filter_cons_False; [done|]. congruence.
Qed.

(** A mock transaction spends at most one output. *)
Definition one_input (tx : Tx) : Prop := (length (tx_Inputs tx) <= 1)%nat.

Lemma mock_txs_inputs n h s i ts k m : Forall one_input (mock_txs n h s i ts k m).1.1.
Proof.
  revert i k m. induction n as [|n IH]; intros i k m; cbn [mock_txs]; [constructor|].
  destruct (mock_tx h s i ts k m) as [[tx k1] m1] eqn:E1. specialize (IH (i + 1) k1 m1).
  destruct (mock_txs n h s (i + 1) ts k1 m1) as [[r k2] m2]. constructor; [|exact IH].
  unfold mock_tx, mock_txid, next64 in E1. unfold one_input. break_in E1; simplify_eq; cbn [tx_Inputs]; repeat case_match; simplify_eq; simpl; lia.
Qed.

Lemma mock_subtrees_inputs n h s ts k m :
  Forall (fun sub => Forall one_input (sub_Txs sub)) (mock_subtrees n h s ts k m).1.
Proof.
  revert s k m. induction n as [|n IH]; intros s k m; cbn [mock_subtrees]; [constructor|].
  pose proof (mock_txs_inputs (Z.to_nat (c_TxsPerSubtree (m_cfg m))) h s 0 ts k m) as Ht.
  destruct (mock_txs _ h s 0 ts k m) as [[txs k1] m1]. specialize (IH (s + 1) k1 m1).
  destruct (mock_subtrees n h (s + 1) ts k1 m1) as [r m2]. by constructor.
Qed.

Lemma mock_Next_inputs m b m' : Next m = (Ok (Some b), m') -> Forall one_input (block_txs b).
Proof.
  unfold Next, mock_source, mock_Next. case_match; [done|].
  match goal with |- context [let '(_, _) := ?x in _] => destruct x as [ts m1] end.
  pose proof (mock_subtrees_inputs (Z.to_nat (c_SubtreesPer (m_cfg m))) (m_height m) 0 ts 0 m1) as Hs.
  destruct (mock_subtrees _ _ _ _ _ m1) as [subs m2]. intros [= <- _]. apply Forall_forall.
  intros tx (sub & Hsub & Htx)%concat_elem. cbn [b_Subtrees fst] in *. rewrite Forall_forall in Hs.
  specialize (Hs sub Hsub). rewrite Forall_forall in Hs. by apply Hs.
Qed.

Lemma mock_chain_inputs n m : Forall (fun b => Forall one_input (block_txs b)) (mock_chain n m).
Proof.
  revert m. induction n as [|n IH]; intros m; cbn [mock_chain]; [constructor|].
  destruct (Next m) as [[[b|]|e|] m'] eqn:E; try constructor; [|apply IH]. by eapply mock_Next_inputs.
Qed.

Lemma mock_spends m i b :
  in_k i = 0 -> mock_shape m b -> Forall one_input (block_txs b) ->
  Z.of_nat (length (block_spends i b)) <= c_SubtreesPer (m_cfg m) * c_TxsPerSubtree (m_cfg m).
Proof.
  intros Hk (_ & Hs & Ht) Hin. unfold block_spends, es_inputs. rewrite owned_all by done.
  rewrite <- Hs, <- (entries_length b _ Ht), <- (Z.mul_1_r (Z.of_nat (length (entries b)))).
  apply concat_bound, Forall_forall. intros e He. rewrite Forall_forall in Hin.
  specialize (Hin _ (entries_txs b e He)). unfold one_input in Hin. lia.
Qed.

(** C38: The ingest report is exact.  For flags whose policy and heights fit in 32
    bits, the command ends with its summary: a row for every twentieth block
    and for the last one asked for, as many blocks and transactions as were
    asked for, and at most as many spent records retained as [D] blocks of the
    configured shape have transactions. *)
Theorem ingest_report_exact (fuel : nat) (blocks subtrees txs spendFrac reorg recency : Z) :
  let n := at_least_one blocks in
  let per_block := at_least_one subtrees * at_least_one txs in
  let pol := Prune.mkPolicy (u32 reorg) (u32 recency) 0 in
  n <= 2 ^ 32 -> policy_ok pol -> n < Z.of_nat fuel ->
  exists rows sm, ingest_main fuel blocks subtrees txs spendFrac reorg recency = Ok (Done rows sm)
    /\ rw_height <$> rows = filter (fun h => prints blocks h = true) (seqZ 0 n)
    /\ sm_blocks sm = n /\ sm_txs sm = n * per_block
    /\ sm_D sm = u32 reorg + u32 recency
    /\ 0 <= sm_retained sm <= sm_D sm * per_block.
Proof.
  intros n per_block pol Hn Hpol Hf. set (m := NewMock (mkMockConfig blocks subtrees txs spendFrac 0 0)).
  destruct (mock_run (mkMockConfig blocks subtrees txs spendFrac 0 0)) as (Hdel & Hsh & Hc & Hlen & Hne);
    [simpl; lia|exact Hn|]. fold m in Hdel, Hsh, Hc, Hlen, Hne. change (c_Blocks (m_cfg m)) with n in *. cbn [c_StartHeight] in Hc.
  set (bs := mock_chain (Z.to_nat n) m) in *.
  pose proof (consecutive_range 0 bs Hc) as Hr.
  assert (pruner_ok (NewPruner pol)) as Hpr by (split; [done|simpl; lia]).
  destruct (life_valid bench_ingestor bs New (NewPruner pol)) as (rs & s' & pr' & L & Hrs & Hi & _);
    [exact New_inv|done|..].
  { rewrite Forall_forall in Hr, Hsh. apply Forall_forall. intros b Hb.
    split; [apply sealed_valid; by apply Hsh|]. specialize (Hr b Hb). lia. }
  pose proof (reported_none _ _ _ Hrs) as Hnone.
  destruct (report_loop_life fuel bench_ingestor blocks (D pol) 0 zeroStats [] bs m _ _ rs Hdel L Hnone)
    as (rows & q & E & Hrows); [lia|].
  destruct (add_block_totals m bench_ingestor bs rs zeroStats eq_refl Hsh Hrs) as [T1 T2].
  eexists rows, _. unfold ingest_main. fold pol m. rewrite E. split; [reflexivity|].
  rewrite Hrows, (printed_heights blocks 0 bs Hc), Hlen. unfold summary.
  cbn [sm_blocks sm_txs sm_D sm_retained fst]. rewrite T1, T2, Hlen, (mem_stats_exact s' Hi), (D_exact pol) by done.
  change (c_SubtreesPer (m_cfg m) * c_TxsPerSubtree (m_cfg m)) with per_block.
  split_and!; [done|simpl; lia|simpl; lia|done|cbn [st_UTXOSpent flat_stats]; lia|].
  cbn [st_UTXOSpent flat_stats]. rewrite <- (D_exact pol Hpol).
  assert (0 <= per_block) as Hpb.
  { unfold per_block, at_least_one. apply Z.mul_nonneg_nonneg; case_match; zbool; lia. }
  change (Z.of_nat (spent_held (store_view s')) <= D (pr_policy (NewPruner pol)) * per_block).
  apply (footprint_chain bench_ingestor 0 per_block bs New s' (NewPruner pol) pr' rs); try done; [exact New_inv|lia|].
  rewrite Forall_forall in Hsh. apply Forall_forall. intros b Hb. apply (mock_spends m); [done|by apply Hsh|].
  pose proof (mock_chain_inputs (Z.to_nat n) m) as Hin. rewrite Forall_forall in Hin. by apply Hin.
Qed.

(** ** The demonstration's queries *)

Lemma or_zero_ok {A} (z : A) (m : M MemStore A) s a s' : reads_only m -> m s = (Ok a, s') -> or_zero z m s = (Ok a, s).
Proof. intros Hr E. specialize (Hr s). rewrite E in Hr. simpl in Hr. subst. unfold or_zero, mbind, mtry. by rewrite E. Qed.

Lemma index_middle {A} (l : list A) : l <> [] -> exists x, index l (Z.of_nat (length l) / 2) = Ok x /\ x ∈ l.
Proof.
  intros Hne. assert (0 < Z.of_nat (length l)) by (destruct l; [done|simpl; lia]).
  assert (0 <= Z.of_nat (length l) / 2 < Z.of_nat (length l)) by (split; [apply Z.div_pos|apply Z.div_lt]; lia).
  destruct (lookup_lt_is_Some_2 l (Z.to_nat (Z.of_nat (length l) / 2))) as [x Hx]; [lia|].
  exists x. split; [|by eapply list_elem_of_lookup_2]. unfold index. rewrite (proj2 (Z.ltb_ge _ _)) by lia. by rewrite Hx.
Qed.

(** The status the store answers for an output. *)
Definition status_of (s : MemStore) (op : Outpoint) (st : UTXOStatus) : Prop :=
  exists r s', api_UTXO op s = (Ok r, s') /\ ur_Status r = st.

Lemma find_pruned_exact ops s :
  Forall (output_answered s) ops ->
  exists found, find_pruned ops s = (Ok found, s)
    /\ match found with
       | Some st => st = UTXONotInWindow /\ exists op, op ∈ ops /\ status_of s op st
       | None => forall op, op ∈ ops -> ~ status_of s op UTXONotInWindow
       end.
Proof.
  induction 1 as [|op ops (r & s' & E & Hne) _ (found & Ef & Hf)]; cbn [find_pruned].
  { exists None. split; [done|]. intros op Hop. by apply elem_of_nil in Hop. }
  erewrite mbind_ok by (eapply or_zero_ok; [apply reads_UTXO|exact E]).
  destruct (ur_Status r) eqn:Es.
  4:{ eexists. split; [done|]. split; [done|]. exists op. split; [set_solver|]. by exists r, s'. }
  all: exists found; split; [exact Ef|]; destruct found as [st|].
  1,3,5: destruct Hf as (-> & op' & Hin & Hst); split; [done|]; exists op'; split; [set_solver|done].
  all: intros op' [->|Hin]%elem_of_cons; [|by apply Hf]; intros (r' & s2 & E2 & E3); rewrite E in E2; congruence.
Qed.

Lemma demoQueries_ok (p : Populated) (lo : Z) :
  po_TxIDs p <> [] -> po_Outpts p <> [] ->
  Forall (tx_answered (po_Store p) lo (po_Tip p)) (po_TxIDs p) -> Forall (output_answered (po_Store p)) (po_Outpts p) ->
  exists q, demoQueries (po_TxIDs p) (po_Outpts p) (po_Store p) = (Ok q, po_Store p)
    /\ qd_Seen q = true /\ qd_Mined q = true /\ lo <= qd_Height q <= po_Tip p /\ qd_Verifies q = true
    /\ qd_UTXO q <> UTXOUnknown
    /\ match qd_Pruned q with
       | Some st => st = UTXONotInWindow /\ exists op, op ∈ po_Outpts p /\ status_of (po_Store p) op st
       | None => forall op, op ∈ po_Outpts p -> ~ status_of (po_Store p) op UTXONotInWindow
       end.
Proof.
  intros Htx Hop Ht Ho. destruct (index_middle _ Htx) as (t & Et & Hint). destruct (index_middle _ Hop) as (op & Eo & Hino).
  destruct (find_pruned_exact _ _ Ho) as (found & Ef & Hf). rewrite Forall_forall in Ht. rewrite Forall_forall in Ho.
  destruct (Ht t Hint) as ((st & s1 & E1) & (bh & h & bt & s2 & E2 & Hh) & (pf & s3 & E3 & Hv & _)).
  destruct (Ho op Hino) as (u & s4 & E4 & Hu).
  unfold demoQueries. rewrite Et, Eo. unfold mlift, mbind at 1.
  erewrite mbind_ok by (eapply or_zero_ok; [apply reads_Seen|exact E1]).
  erewrite mbind_ok by (eapply or_zero_ok; [apply reads_Mined|exact E2]).
  assert (s3 = po_Store p) as -> by (pose proof (reads_Path t (po_Store p)) as Hr; by rewrite E3 in Hr).
  unfold mbind at 1, mtry at 1. rewrite E3. unfold mbind at 1.
  erewrite mbind_ok by (eapply or_zero_ok; [apply reads_UTXO|exact E4]).
  erewrite mbind_ok by exact Ef. unfold mret. eexists. split; [reflexivity|]. cbn. done.
Qed.

(** The demonstration's sample holds end to end.  For a configuration as for
    [bench_Build], the store is built and the queries on it run without a
    panic: the middle transaction is seen, mined at a height of the chain and
    has a path that verifies, the middle output is known, and the line about a
    pruned output is printed exactly when some sampled output is answered as
    not in the window. *)
Theorem demo_end_to_end (fuel : nat) (cfg : MockConfig) (rh rw : Z) :
  let m := NewMock cfg in
  let n := c_Blocks (m_cfg m) in
  let lo := c_StartHeight cfg in
  0 <= lo -> lo + n <= 2 ^ 32 -> c_TxsPerSubtree (m_cfg m) <= 2 ^ 20 -> c_SubtreesPer (m_cfg m) < 2 ^ 32 ->
  policy_ok (bench_policy rh rw) -> n < Z.of_nat fuel -> chain_distinct (mock_chain (Z.to_nat n) m) ->
  exists p q, bench_Build fuel cfg rh rw = Ok p
    /\ demoQueries (po_TxIDs p) (po_Outpts p) (po_Store p) = (Ok q, po_Store p)
    /\ qd_Seen q = true /\ qd_Mined q = true /\ lo <= qd_Height q <= po_Tip p /\ qd_Verifies q = true
    /\ qd_UTXO q <> UTXOUnknown
    /\ match qd_Pruned q with
       | Some st => st = UTXONotInWindow /\ exists op, op ∈ po_Outpts p /\ status_of (po_Store p) op st
       | None => forall op, op ∈ po_Outpts p -> ~ status_of (po_Store p) op UTXONotInWindow
       end.
Proof.
  intros m n lo H1 H2 H3 H4 H5 H6 H7.
  destruct (build_answers fuel cfg rh rw H1 H2 H3 H4 H5 H6 H7) as (p & E & _ & _ & _ & Ht & Ho & At & Ao).
  destruct (demoQueries_ok p lo Ht Ho At Ao) as (q & Eq & Hq). exists p, q. done.
Qed.

(** ** The payment demonstration *)

#[local] Opaque DoubleSHA256 NewPrivateKey Public SerializeCompressed.

(** The amount paid after [k] accesses: the settlement fee once, and five a
    path. *)
Definition demo_cum (k : Z) : Z := if k =? 0 then 0 else 200 + 5 * k.

(** The server after [k] paid accesses on the demonstration's channel. *)
Record demo_paid (params : Params) (k : Z) (ps : PaidServer) : Prop := mkDemoPaid
  { dp_inv : paid_inv ps;
    dp_banned : is_banned ps (p_ChannelID params) = false;
    dp_channel : exists ch, ps_channels ps !! p_ChannelID params = Some ch /\ ch_cfg ch = demo_config params
      /\ ch_accesses ch = k /\ ch_cumPaid ch = demo_cum k /\ ch_closed ch = false }.

Lemma demo_config_ok params : cfg_ok (demo_config params).
Proof. unfold cfg_ok, pricing_ok, u64_ok. cbn. split_and!; try lia. repeat constructor; lia. Qed.

Lemma demo_channel_Open params :
  p_ClientPub params <> [] -> p_FundingValue params <> 0 ->
  Open (demo_config params) = Ok (mkChannel (demo_config params) 0 0 None false).
Proof.
  intros Hp Hf. unfold Open, demo_config. cbn [cfg_ClientPub cfg_Deposit cfg_N cfg_RefundLockTime cfg_SettleBefore
    cfg_Pricing cfg_Params demo_pricing FeeMode set_Params]. rewrite (proj2 (Z.eqb_neq (p_FundingValue params) 0) Hf).
  destruct params as [id ft fv cp sp val fee]. cbn [p_ClientPub] in Hp. destruct cp as [|c cp]; [destruct (Hp eq_refl)|]. cbn [p_ClientPub rbind p_FundingValue]. reflexivity.
Qed.

Lemma demo_quote params ch k :
  ch_cfg ch = demo_config params -> ch_accesses ch = k -> ch_cumPaid ch = demo_cum k -> 0 <= k < 4 ->
  Quote ch QMerklePath = Ok (demo_cum (k + 1)).
Proof.
  intros Ec Ea Ep Hk. unfold Quote, feeComponent. rewrite Ec, Ea, Ep. cbn [cfg_Pricing demo_config].
  change (service demo_pricing QMerklePath) with (Ok 5). cbn [rbind].
  assert (k = 0 \/ k = 1 \/ k = 2 \/ k = 3) as [-> | [-> | [-> | ->]]] by lia; reflexivity.
Qed.

Lemma pay_loop_amounts {S} `{Store S} (n nf : nat) params txid k (s s' : S) ps ps' :
  demo_paid params k ps -> 0 <= k -> k + Z.of_nat n <= 4 ->
  pay_loop n nf params txid (s, ps) = (Ok None, (s', ps')) -> demo_paid params (k + Z.of_nat n) ps'.
Proof.
  revert k s ps. induction n as [|n IH]; intros k s ps Hp Hk Hn E; cbn [pay_loop] in E.
  { injection E as <- <-. by rewrite Z.add_0_r. }
  pose proof Hp as [Hi Hb (ch & Hch & Ec & Ea & Ep & Ecl)]. unfold mbind at 1, on2, mget in E. cbn [fst snd] in E.
  unfold paid_Quote, paid_lookup in E. unfold is_banned in Hb. rewrite Hb, Hch in E. cbn [rbind] in E.
  rewrite (demo_quote params ch k) in E by (done || lia).
  destruct (SignCommitment nf (NewPrivateKey demo_client_seed) params (demo_cum (k + 1))) as [c|e|] eqn:Es; [| |done].
  - apply SignCommitment_cum in Es as Ecum.
    unfold mbind at 1, mtry, paid_MerklePath in E. unfold mbind at 1, on2, on1 in E. cbn [fst snd] in E.
    destruct (authorize_cases (p_ChannelID params) (Some c) QMerklePath ps Hi) as
      [(_ & Ex)|[(_ & _ & Ex)|[(ch' & c' & _ & Hch' & [= <-] & Hacc & Ex)|(ch' & e & _ & _ & _ & _ & Ex)]]];
      [by vm_compute|by rewrite Ex in E..| |by rewrite Ex in E].
    rewrite Ex in E. cbn [fst snd] in E. rewrite Hch in Hch'. injection Hch' as <-.
    destruct (api_MerklePath txid s) as [[r|e|] s1] eqn:Em; [|done..].
    replace (k + Z.of_nat (Datatypes.S n)) with (k + 1 + Z.of_nat n) by lia.
    apply (IH (k + 1) s1 (set_channel (p_ChannelID params) (accepted ch c) ps)); [|lia|lia|exact E].
    split; [|exact Hb|].
    + apply set_channel_inv; [done|]. eapply (accepted_inv _ _ QMerklePath); [by eapply Hi| |by vm_compute|done].
      unfold u64_ok. rewrite Ecum. unfold demo_cum. case_match; lia.
    + eexists. split; [apply lookup_insert_eq|]. cbn [accepted ch_cfg ch_accesses ch_cumPaid ch_closed].
      rewrite u64_small by lia. split_and!; [done|lia|done|done].
  - unfold mbind at 1, mtry, paid_MerklePath in E. unfold mbind at 1, on2, on1 in E. cbn [fst snd] in E.
    destruct (authorize_cases (p_ChannelID params) None QMerklePath ps Hi) as
      [(_ & Ex)|[(_ & _ & Ex)|[(ch' & c' & _ & _ & [=] & _)|(ch' & e' & _ & _ & _ & _ & Ex)]]];
      [by vm_compute|by rewrite Ex in E..].
Qed.

(** A demonstration that stops early says why. *)
Lemma pay_loop_stops {S} `{Store S} (n nf : nat) params txid (p q : S * PaidServer) d :
  pay_loop n nf params txid p = (Ok (Some d), q) -> (exists e, d = QuoteError e) \/ (exists e, d = QueryError e).
Proof.
  revert p. induction n as [|n IH]; intros p E; cbn [pay_loop] in E; [done|].
  unfold mbind at 1, on2, mget in E. cbn [fst snd] in E. destruct p as [s ps]. cbn [fst snd] in E.
  destruct (paid_Quote (p_ChannelID params) QMerklePath ps) as [cum|e|]; [|injection E as <- _; eauto|done].
  destruct (SignCommitment nf (NewPrivateKey demo_client_seed) params cum) as [c|e|]; [| |done].
  all: unfold mbind at 1, mtry in E;
    match type of E with context [paid_MerklePath ?i ?c ?t ?p] => destruct (paid_MerklePath i c t p) as [[r|e'|] p1] end;
    [by eapply IH|injection E as <- _; eauto|done].
Qed.

(** the payment demonstration adds up.  Whenever its four accesses are
    served, the channel has been paid the settlement fee and four paths, and
    the settlement hands the server 220, of which 200 pay the miner, and the
    client the rest of the deposit; the refund keeps its lock time. *)
Theorem demo_payment_amounts {S} `{Store S} (nf : nat) txids (s : S) snap settle lockTime :
  demoPayment nf txids s = Ok (Settled snap settle lockTime) ->
  snap = mkSnapshot 4 220 100000 false /\ settle = mkSettlement 220 99780 200 20 4 /\ lockTime = 800000.
Proof.
  unfold demoPayment, rbind. destruct demo_params as [params| |] eqn:Ep; [|done..].
  assert (p_ClientPub params <> [] /\ p_FundingValue params <> 0) as [Hne Hv].
  { revert Ep. unfold demo_params, rbind.
    destruct (SerializeCompressed (Public (NewPrivateKey demo_client_seed))) as [cp| |] eqn:Ecp; [|discriminate..].
    apply SerializeCompressed_nonempty in Ecp.
    destruct (SerializeCompressed (Public (NewPrivateKey demo_server_seed))); [|discriminate..].
    intros Ep. injection Ep as <-. cbn [p_ClientPub p_FundingValue]. split; [exact Ecp|lia]. }
  assert (OpenChannel (demo_config params) paid_New
    = (Ok (mkChannel (demo_config params) 0 0 None false),
       set_channel (p_ChannelID params) (mkChannel (demo_config params) 0 0 None false) paid_New)) as E.
  { unfold OpenChannel, mbind, open_check, open_register. cbn [ps_policy paid_New NewWithPolicy DefaultPolicy MinDeposit MaxChannels].
    change (0 <? 0) with false. cbn [andb]. by rewrite demo_channel_Open. }
  rewrite E. destruct (index txids 0) as [txid| |]; [|done..]. set (ps0 := set_channel _ _ _).
  assert (demo_paid params 0 ps0) as H0.
  { split; [|done|].
    - apply set_channel_inv; [by apply map_Forall_empty|]. eapply Open_inv; [apply demo_config_ok|by apply demo_channel_Open].
    - eexists. split; [apply lookup_insert_eq|]. cbn [ch_cfg ch_accesses ch_cumPaid ch_closed]. split_and!; reflexivity. }
  destruct (pay_loop 4 nf params txid (s, ps0)) as [[[d|]|e|] [s1 ps1]] eqn:El; [| |done..].
  - intros [= ->]. by apply pay_loop_stops in El as [[? [=]]|[? [=]]].
  - apply (pay_loop_amounts 4 nf params txid 0) in El; [|done|lia|lia].
    destruct El as [_ _ (ch & Hch & Ec & Ea & Epd & Ecl)]. unfold pay_summary. rewrite Hch. intros [= <- <- <-].
    unfold ch_Snapshot, Settle, Refund. rewrite Ec, Ea, Epd, Ecl. by split_and!.
Qed.

(** ** The back-end tools *)

Lemma batch_from_length nf n i reqs : batch_from nf n i = Ok reqs -> length reqs = n.
Proof.
  revert i reqs. induction n as [|n IH]; intros i reqs; cbn [batch_from]; [by intros [= <-]|]. unfold rbind.
  destruct (batch_request nf i); [|done..]. destruct (batch_from nf n (i + 1)) eqn:E; [|done..]. intros [= <-]. simpl.
  f_equal. by eapply IH.
Qed.

(** the check does not depend on the back end.  For every back end that answers
    as the reference does, the command's exit codes are those of the reference
    verifier. *)
Theorem accelcheck_reference {V} `{LawfulVerifier V} (v : V) (nf : nat) (n batch : Z) (code : result Z) :
  accelcheck v nf n batch code <-> accelcheck mkReference nf n batch code.
Proof.
  unfold accelcheck. split; intros (res & Hv & ->); exists res; (split; [|done]);
    apply validate_exact; by apply validate_exact in Hv.
Qed.

(** the measured rate counts whole batches.  For a lawful back end a run over
    [k] readings before the window ends and one past it exists, and its only
    result is [k] batches (modulo the 64-bit counter) over the last reading. *)
Theorem accel_throughput_exact {V} `{LawfulVerifier V} (v : V) (batch : list Request) (dur final : Z) es (k : nat) res :
  clock_runs es dur k ->
  accel_Throughput v batch dur es final (replicate (length batch) false) 0 res <->
  res = (u64 (Z.of_nat k * Z.of_nat (length batch)), if final <=? 0 then 1000000000 else final).
Proof.
  intros (pre & x & -> & <- & Hpre & Hx).
  assert (length batch <= length (replicate (length batch) false))%nat as Hl by (by rewrite length_replicate).
  assert (0 <= 0 < 2 ^ 64) as Hz by lia. replace (Z.of_nat (length pre) * _) with (0 + Z.of_nat (length pre) * Z.of_nat (length batch)) by lia.
  revert Hl Hz. generalize (replicate (length batch) false). generalize 0 at 2 3 4 5. intros n out Hl Hn. revert out n Hl Hn.
  induction Hpre as [|e pre He _ IH]; intros out n Hl Hn; cbn [app length].
  - rewrite Z.mul_0_l, Z.add_0_r, u64_small by done. split.
    + intros Ht. by inversion Ht; subst; [|lia].
    + intros ->. by constructor.
  - assert (forall r out', VerifyBatch v batch out r -> r = Ok out' -> length batch <= length out')%nat as Hlen.
    { intros r out' Hv ->. apply lawful_agrees in Hv as [= ->]; [|done]. unfold batch_answers. rewrite length_app, length_fmap. lia. }
    assert (u64 (u64 (n + Z.of_nat (length batch)) + Z.of_nat (length pre) * Z.of_nat (length batch))
            = u64 (n + Z.of_nat (Datatypes.S (length pre)) * Z.of_nat (length batch))) as Hu.
    { unfold u64, wrap. rewrite Zplus_mod_idemp_l. f_equal. lia. }
    rewrite <- Hu. split.
    + intros Ht. inversion Ht; subst; [lia|]. apply (IH out'); [by eapply Hlen|apply u64_range|done].
    + intros ->. destruct (lawful_total v batch out Hl) as (r & Hr). pose proof (lawful_agrees v batch out r Hl Hr) as ->.
      econstructor; [done|exact Hr|]. apply IH; [by eapply Hlen|apply u64_range|done].
Qed.

(** ** Witnesses *)

Lemma ingest_report_exact_witness :
  exists rows sm, ingest_main 30 25 1 2 2 6 4 = Ok (Done rows sm)
    /\ rw_height <$> rows = [0; 20; 24] /\ sm_blocks sm = 25 /\ sm_txs sm = 50 /\ sm_D sm = 10
    /\ 0 <= sm_retained sm <= 10 * 2.
Proof.
  destruct (ingest_report_exact 30 25 1 2 2 6 4) as (rows & sm & E & Hr & Hb & Ht & HD & Hle).
  - by vm_compute.
  - unfold policy_ok. by vm_compute.
  - by vm_compute.
  - exists rows, sm. split; [exact E|]. rewrite Hr, Hb, Ht. rewrite HD in *. change (u32 6 + u32 4) with 10 in *.
    split; [by vm_compute|]. split; [reflexivity|]. split; [reflexivity|]. split; [reflexivity|exact Hle].
Defined.

Lemma demo_end_to_end_witness :
  exists p q, bench_Build 3 bench_cfg 6 4 = Ok p
    /\ demoQueries (po_TxIDs p) (po_Outpts p) (po_Store p) = (Ok q, po_Store p)
    /\ qd_Seen q = true /\ qd_Mined q = true /\ 100 <= qd_Height q <= po_Tip p /\ qd_Verifies q = true
    /\ qd_UTXO q <> UTXOUnknown
    /\ match qd_Pruned q with
       | Some st => st = UTXONotInWindow /\ exists op, op ∈ po_Outpts p /\ status_of (po_Store p) op st
       | None => forall op, op ∈ po_Outpts p -> ~ status_of (po_Store p) op UTXONotInWindow
       end.
Proof.
  apply (demo_end_to_end 3 bench_cfg 6 4).
  - by vm_compute.
  - by vm_compute.
  - by vm_compute.
  - by vm_compute.
  - exact bench_policy_ok.
  - by vm_compute.
  - exact bench_chain_distinct.
Defined.
