(* ===== verification/Testnet.v ===== *)
(** * cmd/channeltestnet: building the channel's transactions
      ([src/cmd/channeltestnet/main.go])

    The command that builds, prints and broadcasts the funding, settlement and
    refund transactions of a channel.  A run is a call on the list of printed
    lines; [os.Exit] ends it with the exit status.  The network and the JSON
    decoder are parameters.  The theorems show that the three modes fit
    together: the arguments the funding run prints make the settlement run
    spend output 0 of that very funding transaction, with its value and script,
    and no satoshi is lost on the way; and that the output picked to fund from
    is the largest one that suffices. *)

From stdpp Require Import base list sets strings.
From Stdlib Require Import ZArith Lia ZifyNat.
From Stdlib Require Strings.Byte.
From S2P Require Import Prelude Commitment Bsvtx Crypto Channel Hex Ripemd Address.
Open Scope go_scope.

(** ** Printed lines and exits *)

Definition bytes_of (s : string) : gostring := String.list_byte_of_string s.

Record utxoRef : Type := mkutxoRef { ur_TxID : gostring; ur_Vout : Z; ur_Val : Z; ur_Height : Z }.

(** What the command prints, one constructor per [Printf]. *)
Inductive Line : Type :=
| LError (msg : string)
| LAddress (addr clientPub serverPub seed : gostring)
| LUnspent (addr : gostring) (us : list utxoRef)
| LStatus (txid : gostring) (confirmations height : Z)
| LUsing (txid : gostring) (vout value : Z)
| LTx (label : string) (txid raw : gostring)
| LNotBroadcast (api : gostring)
| LBroadcast (id : gostring)
| LSettleArgs (txid : gostring) (vout value : Z)
| LRefund (lockTime : Z) (txid raw : gostring).

Definition Cmd : Type -> Type := M (list Line).
Definition print (l : Line) : Cmd unit := fun out => (Ok tt, out ++ [l]).
Definition ExitError : error := "exit status 1".
Definition ExitUsage : error := "exit status 2".
Definition fail_with (msg : string) (status : error) {A} : Cmd A := print (LError msg) ;; merr status.

(** ** Byte order and hex *)

(** [hex.DecodeString] with its error dropped: the bytes before the fault. *)
Fixpoint hex_prefix (s : gostring) : list byte :=
  match s with
  | p :: q :: r =>
      match hex_value p, hex_value q with
      | Some a, Some b => z2b (Z.lor (Z.shiftl a 4) b) :: hex_prefix r
      | _, _ => []
      end
  | _ => []
  end.

Definition rev_id (h : array 32) : list byte := rev (abytes h).
(** [h[i] = b[len(b)-1-i]] for the first 32 positions that exist. *)
Definition dispToInternal (s : gostring) : array 32 := arr 32 (rev (hex_prefix s)).

Definition display (tx : Tx) : gostring := hex_encode (rev_id (TxID tx)).

(** ** Transactions *)

(** [sig, _ := SignInput(...)]: no bytes on an error. *)
Definition sig_or_nil (r : result (list byte)) : result (list byte) :=
  match r with Err _ => Ok [] | _ => r end.

Section transactions.
Context (nf : nat).

Definition funding_unsigned (clientPub serverPub utxoTxid : gostring) (vout utxoValue deposit fee : Z) : Tx :=
  let change := u64 (u64 (utxoValue - deposit) - fee) in
  mkTx 2 [mkTxIn (mkOutPoint (dispToInternal utxoTxid) vout) [] FinalSequence]
    [mkTxOut deposit (Multisig2of2 clientPub serverPub); mkTxOut change (P2PKHFromPub clientPub)] 0.

Definition set_script_sig (sig : list byte) (i : TxIn) : TxIn := mkTxIn (i_PrevOut i) sig (i_Sequence i).

Definition buildFunding (clientPriv : Z) (clientPub serverPub utxoTxid : gostring)
    (vout utxoValue deposit fee : Z) : Cmd Tx :=
  let tx := funding_unsigned clientPub serverPub utxoTxid vout utxoValue deposit fee in
  r <- mtry (mlift (SignInput nf clientPriv tx 0 (P2PKHFromPub clientPub) utxoValue SighashAllFork)) ;;
  match r with
  | Ok sig =>
      mret (mkTx (t_Version tx) (set_script_sig (ScriptSigP2PKH sig clientPub) <$> t_Inputs tx) (t_Outputs tx) (t_LockTime tx))
  | _ => fail_with "sign funding" ExitError
  end.

Definition tn_channelTx (fundingTxidDisp : gostring) (vout value : Z) (clientPub serverPub : gostring) (fee : Z) : ChannelTx :=
  mkChannelTx (mkOutPoint (dispToInternal fundingTxidDisp) vout) value clientPub serverPub fee.

(** The two signatures of the 2-of-2, put into the input. *)
Definition sign_both (c : ChannelTx) (clientPriv serverPriv : Z) (tx : Tx) : result Tx :=
  let! clientSig := sig_or_nil (SignInput nf clientPriv tx 0 (Redeem c) (ct_FundingValue c) SighashAllFork) in
  let! serverSig := sig_or_nil (SignInput nf serverPriv tx 0 (Redeem c) (ct_FundingValue c) SighashAllFork) in
  Finalize2of2 tx clientSig serverSig.

Definition buildSettlement (c : ChannelTx) (clientPriv serverPriv pay : Z) : Cmd Tx :=
  r <- mtry (mlift (CommitmentTx c pay)) ;;
  match r with
  | Ok tx => mlift (sign_both c clientPriv serverPriv tx)
  | _ => fail_with "commitment" ExitError
  end.

Definition buildRefund (c : ChannelTx) (clientPriv serverPriv lockTime : Z) : Cmd Tx :=
  mlift (sign_both c clientPriv serverPriv (RefundTx c lockTime)).
End transactions.

(** ** The network *)

Record rawUTXO : Type := mkrawUTXO { rw_Height : Z; rw_TxPos : Z; rw_TxHash : gostring; rw_Value : Z }.

Definition ErrHTTP : error := "HTTP status".
Definition ErrNoUTXO : error := "no single UTXO".

(** [strings.TrimRight] of slashes. *)
Fixpoint drop_while (p : byte -> bool) (s : list byte) : list byte :=
  match s with
  | b :: r => if p b then drop_while p r else s
  | [] => []
  end.
Definition trim_right (p : byte -> bool) (s : list byte) : list byte := rev (drop_while p (rev s)).
Definition is_byte (v : Z) (b : byte) : bool := b2z b =? v.
Definition trimSlash : gostring -> gostring := trim_right (is_byte 0x2f).
(** [bytes.Trim] with the cutset of the quote, the newline and the blank. *)
Definition in_cutset (b : byte) : bool := is_byte 0x22 b || is_byte 0x0a b || is_byte 0x20 b.
Definition trimReply (b : list byte) : gostring := trim_right in_cutset (drop_while in_cutset b).

Section network.
(** A request: an error, or the response's status and body. *)
Context (http_get : gostring -> result (Z * list byte)).
Context (http_post : gostring -> list byte -> result (Z * list byte)).
Context (json_unspent : list byte -> result (list rawUTXO)) (json_status : list byte -> result (Z * Z)).

Definition tn_getJSON {A} (url : gostring) (unmarshal : list byte -> result A) : result A :=
  let! (status, body) := http_get url in
  let b := take (Z.to_nat (2 ^ 20)) body in
  if negb (status =? 200) then Err ErrHTTP else unmarshal b.

(** [json.Marshal] of the map with one hex string, which needs no escapes. *)
Definition postRaw (api txhex : gostring) : result gostring :=
  let body := bytes_of "{" ++ [z2b 0x22] ++ bytes_of "txhex" ++ [z2b 0x22] ++ bytes_of ":" ++ [z2b 0x22] ++ txhex
    ++ [z2b 0x22] ++ bytes_of "}" in
  let! (status, reply) := http_post api body in
  let b := take 4096 reply in
  if negb (status =? 200) then Err ErrHTTP else Ok (trimReply b).

Definition fetchUTXOs (apiBase addr : gostring) : result (list utxoRef) :=
  let! raw := tn_getJSON (trimSlash apiBase ++ bytes_of "/" ++ addr ++ bytes_of "/unspent") json_unspent in
  Ok ((fun r => mkutxoRef (rw_TxHash r) (rw_TxPos r) (rw_Value r) (rw_Height r)) <$> raw).

Definition better (need : Z) (best u : utxoRef) : utxoRef :=
  if (need <=? ur_Val u) && (ur_Val best <? ur_Val u) then u else best.
Definition noUTXO : utxoRef := mkutxoRef [] 0 0 0.
Definition best_of (need : Z) (us : list utxoRef) : result utxoRef :=
  let best := foldl (better need) noUTXO us in
  match ur_TxID best with [] => Err ErrNoUTXO | _ => Ok best end.
Definition pickUTXO (apiBase addr : gostring) (need : Z) : result utxoRef :=
  let! us := fetchUTXOs apiBase addr in best_of need us.

Definition fetchStatus (apiBase txid : gostring) : result (Z * Z) :=
  tn_getJSON (trimSlash apiBase ++ bytes_of "/" ++ txid) json_status.

Definition emit (label : string) (tx : Tx) (broadcast : bool) (api : gostring) : Cmd unit :=
  let raw := Serialize tx in
  print (LTx label (display tx) (hex_encode raw)) ;;
  if broadcast then
    r <- mtry (mlift (postRaw api (hex_encode raw))) ;;
    match r with
    | Ok id => print (LBroadcast id)
    | _ => fail_with "BROADCAST FAILED" ExitError
    end
  else print (LNotBroadcast api).

(** ** The command *)

Record Flags : Type := mkFlags
  { fl_clientSeed : gostring; fl_serverSeed : gostring; fl_mode : string; fl_net : string; fl_fee : Z;
    fl_deposit : Z; fl_utxoTxid : gostring; fl_utxoVout : Z; fl_utxoValue : Z; fl_fundingTxid : gostring;
    fl_fundingVout : Z; fl_fundingValue : Z; fl_pay : Z; fl_lockTime : Z; fl_api : gostring;
    fl_utxoAPI : gostring; fl_statusAPI : gostring; fl_statusTxid : gostring; fl_broadcast : bool }.

Context (nf : nat).

Definition mustKey (seedHex : gostring) : Cmd Z :=
  match hex_decode seedHex with
  | Ok b => if (length b =? 32)%nat then mret (NewPrivateKey b) else fail_with "error: seed must be 32-byte hex" ExitUsage
  | _ => fail_with "error: seed must be 32-byte hex" ExitUsage
  end.

Definition is_empty (s : gostring) : bool := match s with [] => true | _ => false end.

Definition server_seed (serverSeed : gostring) (clientPriv : Z) : Cmd gostring :=
  if is_empty serverSeed then
    clientPub <- mlift (SerializeCompressed (Public clientPriv)) ;;
    mret (hex_encode (abytes (DoubleSHA256 (bytes_of "server-of:" ++ clientPub))))
  else mret serverSeed.

Record Keys : Type := mkKeys
  { k_clientPriv : Z; k_serverPriv : Z; k_clientPub : gostring; k_serverPub : gostring; k_srvSeed : gostring }.
Definition load_keys (clientSeed serverSeed : gostring) : Cmd Keys :=
  clientPriv <- mustKey clientSeed ;;
  srvSeed <- server_seed serverSeed clientPriv ;;
  serverPriv <- mustKey srvSeed ;;
  clientPub <- mlift (SerializeCompressed (Public clientPriv)) ;;
  serverPub <- mlift (SerializeCompressed (Public serverPriv)) ;;
  mret (mkKeys clientPriv serverPriv clientPub serverPub srvSeed).

Definition addr_version (f : Flags) : byte :=
  z2b (if String.eqb (fl_net f) "main" then AddrMainP2PKH else AddrTestP2PKH).

Definition do_fund (f : Flags) (ks : Keys) : Cmd unit :=
  if fl_deposit f =? 0 then fail_with "error: fund needs -deposit" ExitUsage
  else
    u <- (if is_empty (fl_utxoTxid f) then
            r <- mtry (mlift (pickUTXO (fl_utxoAPI f) (AddressFromPubKey (k_clientPub ks) (addr_version f))
                                (u64 (fl_deposit f + fl_fee f)))) ;;
            match r with
            | Ok best => print (LUsing (ur_TxID best) (ur_Vout best) (ur_Val best)) ;; mret best
            | _ => fail_with "auto-fetch UTXO failed" ExitError
            end
          else mret (mkutxoRef (fl_utxoTxid f) (u32 (fl_utxoVout f)) (fl_utxoValue f) 0)) ;;
    if ur_Val u <? u64 (fl_deposit f + fl_fee f) then fail_with "error: UTXO value < deposit+fee" ExitUsage
    else
      tx <- buildFunding nf (k_clientPriv ks) (k_clientPub ks) (k_serverPub ks) (ur_TxID u) (ur_Vout u) (ur_Val u) (fl_deposit f) (fl_fee f) ;;
      emit "FUNDING" tx (fl_broadcast f) (fl_api f) ;;
      print (LSettleArgs (display tx) 0 (fl_deposit f)).

Definition do_settle (f : Flags) (ks : Keys) : Cmd unit :=
  if is_empty (fl_fundingTxid f) || (fl_fundingValue f =? 0)
  then fail_with "error: settle needs -funding-txid -funding-vout -funding-value -pay" ExitUsage
  else
    let c := tn_channelTx (fl_fundingTxid f) (u32 (fl_fundingVout f)) (fl_fundingValue f)
      (k_clientPub ks) (k_serverPub ks) (fl_fee f) in
    settle <- buildSettlement nf c (k_clientPriv ks) (k_serverPriv ks) (fl_pay f) ;;
    emit "SETTLEMENT" settle (fl_broadcast f) (fl_api f) ;;
    let lt := u32 (fl_lockTime f) in
    refund <- buildRefund nf c (k_clientPriv ks) (k_serverPriv ks) lt ;;
    print (LRefund lt (display refund) (hex_encode (Serialize refund))).

Definition tn_main (f : Flags) : Cmd unit :=
  if is_empty (fl_clientSeed f) then fail_with "error: -client-seed <hex32> is required" ExitUsage
  else
    ks <- load_keys (fl_clientSeed f) (fl_serverSeed f) ;;
    let addr := AddressFromPubKey (k_clientPub ks) (addr_version f) in
    if String.eqb (fl_mode f) "address" then
      print (LAddress addr (hex_encode (k_clientPub ks)) (hex_encode (k_serverPub ks)) (k_srvSeed ks))
    else if String.eqb (fl_mode f) "utxo" then
      r <- mtry (mlift (fetchUTXOs (fl_utxoAPI f) addr)) ;;
      match r with
      | Ok us => print (LUnspent addr us)
      | _ => fail_with "utxo fetch failed" ExitError
      end
    else if String.eqb (fl_mode f) "status" then
      if is_empty (fl_statusTxid f) then fail_with "error: status needs -txid" ExitUsage
      else
        r <- mtry (mlift (fetchStatus (fl_statusAPI f) (fl_statusTxid f))) ;;
        match r with
        | Ok (conf, height) => print (LStatus (fl_statusTxid f) conf height)
        | _ => fail_with "status fetch failed" ExitError
        end
    else if String.eqb (fl_mode f) "fund" then do_fund f ks
    else if String.eqb (fl_mode f) "settle" then do_settle f ks
    else fail_with "unknown -mode" ExitUsage.
End network.

(** ** Lemmas: identifiers *)

Lemma hex_prefix_decode s b : hex_decode s = Ok b -> hex_prefix s = b.
Proof.
  revert b. induction s as [s IH] using (induction_ltof1 _ (@length byte)). unfold ltof in IH.
  destruct s as [|p [|q r]]; intros b; simpl.
  - congruence.
  - destruct (hex_value p); discriminate.
  - destruct (hex_value p) as [x|]; [|discriminate]. destruct (hex_value q) as [y|]; [|discriminate].
    destruct (hex_decode r) as [rest| |] eqn:E; [|discriminate..]. simpl. intros [= <-].
    f_equal. apply IH; [simpl; lia|done].
Qed.

(** The id that is printed is read back as the id. *)
Lemma disp_roundtrip (h : array 32) : dispToInternal (hex_encode (rev_id h)) = h.
Proof.
  unfold dispToInternal. rewrite (hex_prefix_decode _ _ (hex_roundtrip _)). unfold rev_id.
  rewrite rev_involutive. apply arr_abytes.
Qed.

(** ** Lemmas: runs *)

Lemma mbind_inv {S A B} (m : M S A) (k : A -> M S B) s b s' :
  mbind m k s = (Ok b, s') -> exists a s1, m s = (Ok a, s1) /\ k a s1 = (Ok b, s').
Proof. unfold mbind. destruct (m s) as [[a|e|] s1]; [eauto|discriminate..]. Qed.

Lemma mtry_lift_inv {S A} (r : result A) (x : result A) (s s' : S) :
  mtry (mlift r) s = (Ok x, s') -> s' = s /\ x = r.
Proof. unfold mtry, mlift. destruct r; intros [=]; by subst. Qed.

Lemma fail_with_inv {A} msg status (out out' : list Line) (a : A) : fail_with msg status out <> (Ok a, out').
Proof. done. Qed.

Section runs.
Context (http_get : gostring -> result (Z * list byte)).
Context (http_post : gostring -> list byte -> result (Z * list byte)).
Context (json_unspent : list byte -> result (list rawUTXO)) (json_status : list byte -> result (Z * Z)).
Context (nf : nat).

Lemma emit_inv label tx bc api out out' :
  emit http_post label tx bc api out = (Ok tt, out') ->
  exists l, out' = out ++ [LTx label (display tx) (hex_encode (Serialize tx)); l].
Proof.
  unfold emit. intros (x & s1 & [= <- <-] & E)%mbind_inv. destruct bc.
  - apply mbind_inv in E as (r & s2 & [-> ->]%mtry_lift_inv & E).
    destruct (postRaw _ _ _); [|done..]. injection E as <-. eexists. by rewrite <- app_assoc.
  - injection E as <-. eexists. by rewrite <- app_assoc.
Qed.

Definition values (tx : Tx) : Z := foldr (fun o n => o_Value o + n) 0 (t_Outputs tx).

Lemma buildFunding_inv d cpub spub id vout uv dep fee out tx out' :
  buildFunding nf d cpub spub id vout uv dep fee out = (Ok tx, out') ->
  out' = out /\ t_Outputs tx = t_Outputs (funding_unsigned cpub spub id vout uv dep fee)
  /\ i_PrevOut <$> t_Inputs tx = [mkOutPoint (dispToInternal id) vout].
Proof.
  unfold buildFunding. intros (r & s1 & [-> ->]%mtry_lift_inv & E)%mbind_inv.
  destruct (SignInput _ _ _ _ _ _ _); [|done..]. injection E as <- <-. done.
Qed.

Lemma sign_both_no_err c d1 d2 tx e : sign_both nf c d1 d2 tx <> Err e.
Proof.
  unfold sign_both, sig_or_nil. destruct (SignInput nf d1 _ _ _ _ _), (SignInput nf d2 _ _ _ _ _); cbn [rbind]; try done;
    unfold Finalize2of2; by destruct (t_Inputs tx).
Qed.

Lemma sign_both_inv c d1 d2 tx tx' :
  sign_both nf c d1 d2 tx = Ok tx' ->
  i_PrevOut <$> t_Inputs tx' = i_PrevOut <$> t_Inputs tx /\ i_Sequence <$> t_Inputs tx' = i_Sequence <$> t_Inputs tx
  /\ t_Outputs tx' = t_Outputs tx /\ t_LockTime tx' = t_LockTime tx.
Proof.
  unfold sign_both. destruct (sig_or_nil _) as [a| |]; [|discriminate..]. cbn [rbind].
  destruct (sig_or_nil _) as [b| |]; [|discriminate..]. cbn [rbind]. unfold Finalize2of2.
  destruct (t_Inputs tx) as [|i l]; [discriminate|]. intros [= <-]. done.
Qed.

(** The keys depend on the two seeds only, and loading them prints nothing. *)
Lemma mustKey_inv seed out d out' : mustKey seed out = (Ok d, out') -> out' = out /\ forall o, mustKey seed o = (Ok d, o).
Proof.
  unfold mustKey. destruct (hex_decode seed) as [b| |]; [|done..]. destruct (length b =? 32)%nat; [|done].
  intros [= <- <-]. done.
Qed.

Lemma server_seed_inv ss d out seed out' :
  server_seed ss d out = (Ok seed, out') -> out' = out /\ forall o, server_seed ss d o = (Ok seed, o).
Proof.
  unfold server_seed. destruct (is_empty ss); [|by intros [= <- <-]]. unfold mbind, mlift.
  destruct (SerializeCompressed (Public d)); [|done..]. by intros [= <- <-].
Qed.

Lemma load_keys_inv cs ss out ks out' :
  load_keys cs ss out = (Ok ks, out') -> out' = out /\ forall o, load_keys cs ss o = (Ok ks, o).
Proof.
  unfold load_keys. intros (d & s1 & [-> Ed]%mustKey_inv & E)%mbind_inv.
  apply mbind_inv in E as (seed & s2 & [-> Ess]%server_seed_inv & E).
  apply mbind_inv in E as (e & s3 & [-> Ee]%mustKey_inv & E).
  apply mbind_inv in E as (cp & s4 & Ec & E). unfold mlift in Ec. injection Ec as Ec <-.
  apply mbind_inv in E as (sp & s5 & Es & E). unfold mlift in Es. injection Es as Es <-. injection E as <- <-.
  split; [done|]. intros o. rewrite (mbind_ok _ _ _ _ _ (Ed o)), (mbind_ok _ _ _ _ _ (Ess o)), (mbind_ok _ _ _ _ _ (Ee o)).
  unfold mbind, mlift. by rewrite Ec, Es.
Qed.

(** Keys are valid scalars, so signing fails only where the signing loop gives
    up, and a call panics only on a key whose public point is infinity or a
    nonce that is not found within [nf] candidates. *)
Definition stuck : Prop :=
  exists d, 1 <= d < curveN /\ (SerializeCompressed (Public d) = Panic \/ exists h, rfc6979Nonce nf d h = None).

Lemma mustKey_range seed out d out' : mustKey seed out = (Ok d, out') -> 1 <= d < curveN.
Proof.
  unfold mustKey. destruct (hex_decode seed) as [b| |]; [|done..]. destruct (length b =? 32)%nat; [|done].
  intros [= <- _]. unfold NewPrivateKey. pose proof (Z.mod_pos_bound (be_Z b) (curveN - 1) eq_refl). lia.
Qed.
Lemma mustKey_no_panic seed out out' : mustKey seed out <> (Panic, out').
Proof. unfold mustKey. destruct (hex_decode seed) as [b| |]; [|done..]. by destruct (length b =? 32)%nat. Qed.

Lemma load_keys_range cs ss out ks out' :
  load_keys cs ss out = (Ok ks, out') -> 1 <= k_clientPriv ks < curveN /\ 1 <= k_serverPriv ks < curveN.
Proof.
  unfold load_keys. intros (d & s1 & Ed & E)%mbind_inv. apply mbind_inv in E as (seed & s2 & _ & E).
  apply mbind_inv in E as (e & s3 & Ee & E). apply mbind_inv in E as (cp & s4 & _ & E).
  apply mbind_inv in E as (sp & s5 & _ & E). injection E as <- _. cbn [k_clientPriv k_serverPriv].
  eauto using mustKey_range.
Qed.

Lemma load_keys_panic cs ss out out' : load_keys cs ss out = (Panic, out') -> stuck.
Proof.
  unfold load_keys. unfold mbind at 1. destruct (mustKey cs out) as [[d| |] s1] eqn:Ed; [|done|by apply mustKey_no_panic in Ed].
  apply mustKey_range in Ed.
  destruct (SerializeCompressed (Public d)) as [cp| |] eqn:Ec; [| |intros _; exists d; eauto].
  2:{ exfalso. unfold SerializeCompressed, copy_tail in Ec. destruct (Public d) as [[x y]|]; [|done]. by case_match. }
  unfold mbind at 1. destruct (server_seed ss d s1) as [[seed| |] s2] eqn:Ess; [|done|].
  2:{ unfold server_seed in Ess. destruct (is_empty ss); [|done]. unfold mbind, mlift in Ess. by rewrite Ec in Ess. }
  unfold mbind at 1. destruct (mustKey _ s2) as [[e| |] s3] eqn:Ee; [|done|by apply mustKey_no_panic in Ee].
  apply mustKey_range in Ee. unfold mbind, mlift.
  destruct (SerializeCompressed (Public e)) as [sp| |] eqn:Es; [done|done|intros _; exists e; eauto].
Qed.

(** The sighash of input 0 is defined once there is an input. *)
Lemma sighash_0 tx code v : t_Inputs tx <> [] -> exists h, SighashForkID tx 0 code v SighashAllFork = Ok h.
Proof.
  intros Hi. unfold SighashForkID, hash_outputs. cbn. unfold index. cbn. destruct (t_Inputs tx); [done|]. by eexists.
Qed.

Lemma sign_input_err d tx code v e :
  SignInput nf d tx 0 code v SighashAllFork = Err e -> t_Inputs tx <> [] -> 1 <= d < curveN -> exists h, Sign nf d h = Err ErrSign.
Proof.
  unfold SignInput. intros E Hi Hd. destruct (sighash_0 tx code v Hi) as [h Eh]. rewrite Eh in E. cbn [rbind] in E.
  exists h. pose proof (Sign_spec nf d h ltac:(lia)) as Hs. destruct (Sign nf d h) as [s|e2|]; [done| |done].
  destruct Hs as [[_ Hs]| ->]; [lia|done].
Qed.

Lemma sign_input_panic d tx code v :
  SignInput nf d tx 0 code v SighashAllFork = Panic -> t_Inputs tx <> [] -> 1 <= d < curveN -> stuck.
Proof.
  unfold SignInput. intros E Hi Hd. destruct (sighash_0 tx code v Hi) as [h Eh]. rewrite Eh in E. cbn [rbind] in E.
  pose proof (Sign_spec nf d h ltac:(lia)) as Hs. destruct (Sign nf d h) as [s|e2|]; [done|done|].
  destruct Hs as (i & _ & Hs). exists d. eauto.
Qed.

Lemma sign_both_panic c d1 d2 tx :
  sign_both nf c d1 d2 tx = Panic -> t_Inputs tx <> [] -> 1 <= d1 < curveN -> 1 <= d2 < curveN -> stuck.
Proof.
  unfold sign_both, sig_or_nil. intros E Hi H1 H2.
  destruct (SignInput nf d1 _ _ _ _ _) as [a| |] eqn:E1; [| |by eapply sign_input_panic in E1];
    (destruct (SignInput nf d2 _ _ _ _ _) as [b| |] eqn:E2; [| |by eapply sign_input_panic in E2]);
    cbn [rbind] in E; unfold Finalize2of2 in E; by destruct (t_Inputs tx).
Qed.

Abbreviation main := (tn_main http_get http_post json_unspent json_status nf).

(** A completed funding run on a given output. *)
Lemma fund_inv f out :
  fl_mode f = "fund"%string -> fl_utxoTxid f <> [] -> main f [] = (Ok tt, out) ->
  exists ks tx, load_keys (fl_clientSeed f) (fl_serverSeed f) [] = (Ok ks, []) /\ fl_deposit f <> 0
    /\ t_Outputs tx = t_Outputs (funding_unsigned (k_clientPub ks) (k_serverPub ks) (fl_utxoTxid f)
                                   (u32 (fl_utxoVout f)) (fl_utxoValue f) (fl_deposit f) (fl_fee f))
    /\ i_PrevOut <$> t_Inputs tx = [mkOutPoint (dispToInternal (fl_utxoTxid f)) (u32 (fl_utxoVout f))]
    /\ LTx "FUNDING" (display tx) (hex_encode (Serialize tx)) ∈ out
    /\ LSettleArgs (display tx) 0 (fl_deposit f) ∈ out.
Proof.
  intros Hm Hu. unfold tn_main. destruct (is_empty _); [done|].
  intros (ks & s1 & [-> Ek]%load_keys_inv & E)%mbind_inv. rewrite Hm in E. cbn [String.eqb Ascii.eqb Bool.eqb] in E.
  unfold do_fund in E. destruct (fl_deposit f =? 0) eqn:Ed; [done|]. apply mbind_inv in E as (u & s2 & Eu & E).
  destruct (fl_utxoTxid f) as [|b id]; [done|]. cbn [is_empty] in Eu. injection Eu as <- <-. cbn [ur_Val ur_TxID ur_Vout] in E.
  destruct (_ <? _); [done|]. apply mbind_inv in E as (tx & s3 & (-> & Etx & Ein)%buildFunding_inv & E).
  apply mbind_inv in E as ([] & s4 & [l ->]%emit_inv & E). injection E as <-. zbool.
  exists ks, tx. split; [apply Ek|]. split_and!; [done..|set_solver|set_solver].
Qed.

(** Why a funding run on a sufficient output stops early. *)
Lemma fund_err f e out :
  fl_mode f = "fund"%string -> fl_utxoTxid f <> [] -> u64 (fl_deposit f + fl_fee f) <= fl_utxoValue f ->
  main f [] = (Err e, out) ->
  (forall ks, load_keys (fl_clientSeed f) (fl_serverSeed f) [] <> (Ok ks, [])) \/ fl_deposit f = 0 \/ fl_broadcast f = true
  \/ exists ks h, load_keys (fl_clientSeed f) (fl_serverSeed f) [] = (Ok ks, []) /\ Sign nf (k_clientPriv ks) h = Err ErrSign.
Proof.
  intros Hm Hu Hval. unfold tn_main. destruct (is_empty (fl_clientSeed f)) eqn:Ecs.
  { intros _. left. intros ks. destruct (fl_clientSeed f); done. }
  unfold mbind at 1. destruct (load_keys _ _ []) as [[ks|e1|] s1] eqn:Ek; [|intros _; left; congruence|done].
  pose proof (load_keys_inv _ _ _ _ _ Ek) as [-> _]. rewrite Hm. cbn [String.eqb Ascii.eqb Bool.eqb].
  unfold do_fund. destruct (fl_deposit f =? 0) eqn:Ed; [zbool; eauto|].
  destruct (fl_utxoTxid f) as [|b id]; [done|]. cbn [is_empty]. unfold mbind at 1, mret at 1. cbn [ur_Val ur_TxID ur_Vout].
  destruct (_ <? _) eqn:El; [zbool; lia|]. unfold mbind at 1. unfold buildFunding, mbind at 1, mtry, mlift.
  destruct (SignInput _ _ _ _ _ _ _) as [sig|e2|] eqn:Es; [| |done].
  - destruct (fl_broadcast f); [eauto|]. done.
  - intros _. apply sign_input_err in Es as [h Hh]; [eauto 10|done|]. by eapply load_keys_range.
Qed.

Lemma fund_panic f out :
  fl_mode f = "fund"%string -> fl_utxoTxid f <> [] -> main f [] = (Panic, out) -> stuck \/ fl_broadcast f = true.
Proof.
  intros Hm Hu. unfold tn_main. destruct (is_empty (fl_clientSeed f)); [done|].
  unfold mbind at 1. destruct (load_keys _ _ []) as [[ks|e1|] s1] eqn:Ek;
    [|done|intros _; left; by eapply load_keys_panic].
  rewrite Hm. cbn [String.eqb Ascii.eqb Bool.eqb]. unfold do_fund. destruct (fl_deposit f =? 0); [done|].
  destruct (fl_utxoTxid f) as [|b id]; [done|]. cbn [is_empty]. unfold mbind at 1, mret at 1. cbn [ur_Val ur_TxID ur_Vout].
  destruct (_ <? _); [done|]. unfold mbind at 1. unfold buildFunding, mbind at 1, mtry, mlift.
  destruct (SignInput _ _ _ _ _ _ _) as [sig|e2|] eqn:Es; [|done|].
  - destruct (fl_broadcast f); [eauto|done].
  - intros _. left. eapply sign_input_panic; [exact Es|done|]. by eapply load_keys_range.
Qed.

(** A completed settlement run. *)
Lemma settle_inv f out :
  fl_mode f = "settle"%string -> main f [] = (Ok tt, out) ->
  exists ks ctx stx rtx, load_keys (fl_clientSeed f) (fl_serverSeed f) [] = (Ok ks, [])
    /\ let c := tn_channelTx (fl_fundingTxid f) (u32 (fl_fundingVout f)) (fl_fundingValue f) (k_clientPub ks) (k_serverPub ks) (fl_fee f) in
       let r := RefundTx c (u32 (fl_lockTime f)) in
       CommitmentTx c (fl_pay f) = Ok ctx
       /\ sign_both nf c (k_clientPriv ks) (k_serverPriv ks) ctx = Ok stx
       /\ sign_both nf c (k_clientPriv ks) (k_serverPriv ks) r = Ok rtx
       /\ LTx "SETTLEMENT" (display stx) (hex_encode (Serialize stx)) ∈ out
       /\ LRefund (u32 (fl_lockTime f)) (display rtx) (hex_encode (Serialize rtx)) ∈ out.
Proof.
  intros Hm. unfold tn_main. destruct (is_empty _); [done|].
  intros (ks & s1 & [-> Ek]%load_keys_inv & E)%mbind_inv. rewrite Hm in E. cbn [String.eqb Ascii.eqb Bool.eqb] in E.
  unfold do_settle in E. destruct (_ || _)%bool; [done|]. apply mbind_inv in E as (stx & s2 & Es & E).
  apply mbind_inv in Es as (r & s3 & [-> ->]%mtry_lift_inv & Es).
  destruct (CommitmentTx _ _) as [ctx| |] eqn:Ec; [|done..]. unfold mlift in Es. injection Es as Es <-.
  apply mbind_inv in E as ([] & s4 & [l ->]%emit_inv & E).
  apply mbind_inv in E as (rtx & s5 & Er & E). unfold buildRefund, mlift in Er. injection Er as Er <-. injection E as <-.
  exists ks, ctx, stx, rtx. split; [apply Ek|]. split_and!; [done..|set_solver|set_solver].
Qed.

(** Why a settlement run with complete arguments stops early. *)
Lemma settle_err f e out ks :
  fl_mode f = "settle"%string -> fl_fundingTxid f <> [] -> fl_fundingValue f <> 0 -> fl_clientSeed f <> [] ->
  load_keys (fl_clientSeed f) (fl_serverSeed f) [] = (Ok ks, []) ->
  main f [] = (Err e, out) -> fl_fundingValue f < u64 (fl_pay f + fl_fee f) \/ fl_broadcast f = true.
Proof.
  intros Hm Hid Hv Hcs Ek. unfold tn_main. destruct (fl_clientSeed f) as [|c cs]; [done|]. cbn [is_empty].
  rewrite (mbind_ok _ _ _ _ _ Ek), Hm. cbn [String.eqb Ascii.eqb Bool.eqb]. unfold do_settle.
  destruct (fl_fundingTxid f) as [|b id]; [done|]. cbn [is_empty orb]. destruct (_ =? 0) eqn:E0; zbool; [done|].
  unfold buildSettlement, mbind at 1 2, mtry, mlift at 1.
  destruct (CommitmentTx _ _) as [ctx|e1|] eqn:Ec; [| |done].
  - unfold mlift. destruct (sign_both _ _ _ _ _) as [stx|e2|] eqn:Es; [|by apply sign_both_no_err in Es|done].
    destruct (fl_broadcast f); [by right|]. unfold emit, mbind, buildRefund, mlift. cbn [print].
    destruct (sign_both _ _ _ _ (RefundTx _ _)) as [rtx|e3|] eqn:Er; [done|by apply sign_both_no_err in Er|done].
  - intros _. left. unfold CommitmentTx in Ec. cbn in Ec. destruct (_ <? _) eqn:El in Ec; [by zbool|done].
Qed.

Lemma settle_panic f out :
  fl_mode f = "settle"%string -> main f [] = (Panic, out) -> stuck \/ fl_broadcast f = true.
Proof.
  intros Hm. unfold tn_main. destruct (is_empty (fl_clientSeed f)); [done|].
  unfold mbind at 1. destruct (load_keys _ _ []) as [[ks|e1|] s1] eqn:Ek;
    [|done|intros _; left; by eapply load_keys_panic].
  destruct (load_keys_range _ _ _ _ _ Ek) as [Hd1 Hd2].
  rewrite Hm. cbn [String.eqb Ascii.eqb Bool.eqb]. unfold do_settle. destruct (_ || _)%bool; [done|].
  unfold buildSettlement, mbind at 1 2, mtry, mlift at 1.
  destruct (CommitmentTx _ _) as [ctx|e2|] eqn:Ec; [|done|unfold CommitmentTx in Ec; by destruct (_ <? _) in Ec].
  destruct (CommitmentTx_shape _ _ _ Ec) as [back ->]. unfold mlift.
  destruct (sign_both _ _ _ _ _) as [stx|e3|] eqn:Es; [|done|intros _; left; by eapply sign_both_panic in Es].
  destruct (fl_broadcast f); [by right|]. unfold emit, mbind, buildRefund, mlift. cbn [print].
  destruct (sign_both _ _ _ _ (RefundTx _ _)) as [rtx|e4|] eqn:Er; [done|done|intros _; left; by eapply sign_both_panic in Er].
Qed.

Lemma keys_seed cs ss ks : load_keys cs ss [] = (Ok ks, []) -> cs <> [].
Proof. by intros E ->. Qed.

(** The second run's arguments, as the first run printed them. *)
Record settles (g f : Flags) (id : gostring) : Prop := mkSettles
  { sg_mode : fl_mode g = "settle"%string; sg_client : fl_clientSeed g = fl_clientSeed f;
    sg_server : fl_serverSeed g = fl_serverSeed f; sg_txid : fl_fundingTxid g = id;
    sg_vout : fl_fundingVout g = 0; sg_value : fl_fundingValue g = fl_deposit f;
    sg_fee : u64_ok (fl_fee g); sg_pay : u64_ok (fl_pay g); sg_sum : fl_pay g + fl_fee g < 2 ^ 64 }.

(** How a settlement run [g] for the funding transaction [ftx] ends. *)
Definition settle_outcome (f g : Flags) (ftx : Tx) : Prop :=
  match main g [] with
  | (Ok _, out) =>
      exists stx rtx,
        LTx "SETTLEMENT" (display stx) (hex_encode (Serialize stx)) ∈ out
        /\ LRefund (u32 (fl_lockTime g)) (display rtx) (hex_encode (Serialize rtx)) ∈ out
        /\ i_PrevOut <$> t_Inputs stx = [mkOutPoint (TxID ftx) 0]
        /\ i_PrevOut <$> t_Inputs rtx = [mkOutPoint (TxID ftx) 0]
        /\ values stx + fl_fee g = fl_deposit f /\ values rtx + fl_fee g = fl_deposit f
  | (Err _, _) => fl_deposit f < fl_pay g + fl_fee g \/ fl_broadcast g = true
  | (Panic, _) => stuck \/ fl_broadcast g = true
  end.

Lemma settle_run f g ftx ks :
  load_keys (fl_clientSeed f) (fl_serverSeed f) [] = (Ok ks, []) -> fl_deposit f <> 0 -> u64_ok (fl_deposit f) ->
  settles g f (display ftx) ->
  settle_outcome f g ftx.
Proof.
  intros Ek Hd0 Hd []. unfold settle_outcome. destruct (main g []) as [[[]|e|] out] eqn:E; [| |by eapply settle_panic].
  - destruct (settle_inv g out sg_mode0 E) as (ks' & ctx & stx & rtx & Ek' & Hc & Hs & Hr & Hso & Hro).
    rewrite sg_client0, sg_server0, Ek in Ek'. injection Ek' as <-. exists stx, rtx.
    rewrite sg_txid0, sg_vout0, sg_value0 in Hc, Hs, Hr. unfold tn_channelTx, display in Hc, Hs, Hr.
    rewrite disp_roundtrip in Hc, Hs, Hr. change (u32 0) with 0 in Hc, Hs, Hr.
    apply sign_both_inv in Hs as (Hsi & _ & Hsv & _), Hr as (Hri & _ & Hrv & _).
    destruct (commitment_tx_conserves (mkChannelTx (mkOutPoint (TxID ftx) 0) (fl_deposit f) (k_clientPub ks) (k_serverPub ks)
      (fl_fee g)) (fl_pay g)) as [[_ Hc']|(ctx' & back & Hc' & Hi & Ho & Hb & Hsum)];
      [done..|rewrite Hc in Hc'; discriminate|].
    rewrite Hc in Hc'. injection Hc' as <-. cbn in Hi, Hsum. unfold u64_ok in *.
    split_and!; [done|done|by rewrite Hsi|by rewrite Hri| |].
    + unfold values. rewrite Hsv, Ho. simpl. lia.
    + unfold values. rewrite Hrv. simpl. rewrite u64_small by lia. lia.
  - destruct (settle_err g e out ks) as [Hl|Hb]; try done; try congruence.
    + rewrite sg_txid0. unfold display. intros Hn. apply (f_equal length) in Hn.
      rewrite length_hex_encode in Hn. unfold rev_id in Hn. rewrite length_rev, abytes_length in Hn. done.
    + rewrite sg_client0. by eapply keys_seed.
    + left. unfold u64_ok in *. rewrite sg_value0, u64_small in Hl by lia. done.
    + by right.
Qed.

(** How a funding run ends. *)
Definition fund_outcome (f : Flags) : Prop :=
  match main f [] with
  | (Ok _, out) =>
      exists ks ftx,
        load_keys (fl_clientSeed f) (fl_serverSeed f) [] = (Ok ks, [])
        /\ LTx "FUNDING" (display ftx) (hex_encode (Serialize ftx)) ∈ out
        /\ LSettleArgs (display ftx) 0 (fl_deposit f) ∈ out
        /\ i_PrevOut <$> t_Inputs ftx = [mkOutPoint (dispToInternal (fl_utxoTxid f)) (u32 (fl_utxoVout f))]
        /\ t_Outputs ftx !! 0%nat = Some (mkTxOut (fl_deposit f) (Multisig2of2 (k_clientPub ks) (k_serverPub ks)))
        /\ values ftx + fl_fee f = fl_utxoValue f
        /\ forall g, settles g f (display ftx) -> settle_outcome f g ftx
  | (Err _, _) =>
      (forall ks, load_keys (fl_clientSeed f) (fl_serverSeed f) [] <> (Ok ks, [])) \/ fl_deposit f = 0
      \/ fl_broadcast f = true
      \/ exists ks h, load_keys (fl_clientSeed f) (fl_serverSeed f) [] = (Ok ks, []) /\ Sign nf (k_clientPriv ks) h = Err ErrSign
  | (Panic, _) => stuck \/ fl_broadcast f = true
  end.

End runs.

(** ** Choosing the output to fund from *)

Lemma better_fold need us acc :
  0 <= ur_Val acc -> (forall u, u ∈ us -> 0 <= ur_Val u) ->
  let b := foldl (better need) acc us in
  (b = acc \/ (b ∈ us /\ need <= ur_Val b /\ ur_Val acc < ur_Val b))
  /\ ur_Val acc <= ur_Val b /\ forall u, u ∈ us -> need <= ur_Val u -> ur_Val u <= ur_Val b.
Proof.
  revert acc. induction us as [|u us IH]; intros acc Ha Hus b.
  { split; [by left|]. split; [done|]. by intros u ?%elem_of_nil. }
  assert (0 <= ur_Val u) as Hu by (apply Hus; set_solver).
  assert (ur_Val acc <= ur_Val (better need acc u) /\ 0 <= ur_Val (better need acc u)
    /\ (need <= ur_Val u -> ur_Val u <= ur_Val (better need acc u))
    /\ (better need acc u = acc \/ (better need acc u = u /\ need <= ur_Val u /\ ur_Val acc < ur_Val u))) as (H1 & H2 & H3 & H4).
  { unfold better. destruct (need <=? ur_Val u) eqn:E1, (ur_Val acc <? ur_Val u) eqn:E2; cbn [andb]; zbool;
      split_and!; try lia; try (by left); right; done. }
  destruct (IH (better need acc u) H2) as (G1 & G2 & G3); [set_solver|]. fold b in G1, G2, G3 |- *.
  change (foldl (better need) (better need acc u) us) with b in *. split; [|split; [lia|]].
  - destruct G1 as [G1|(G1 & G1' & G1'')].
    + destruct H4 as [H4|(H4 & H5 & H6)]; [left; congruence|right]. rewrite G1, H4. split; [set_solver|done].
    + right. split; [set_solver|]. split; [done|lia].
  - intros v [->|Hv]%elem_of_cons Hn; [specialize (H3 Hn); lia|by apply G3].
Qed.

(** The output picked is one of the listed ones, covers the need and is the
    largest of all; none is picked only if no output of positive value covers
    the need. *)
Theorem pick_utxo_largest (need : Z) (us : list utxoRef) :
  0 <= need -> (forall u, u ∈ us -> 0 <= ur_Val u /\ ur_TxID u <> []) ->
  match best_of need us with
  | Ok b => b ∈ us /\ need <= ur_Val b /\ forall u, u ∈ us -> ur_Val u <= ur_Val b
  | Err e => e = ErrNoUTXO /\ forall u, u ∈ us -> ur_Val u < need \/ ur_Val u = 0
  | Panic => False
  end.
Proof.
  intros Hn Hus. destruct (better_fold need us noUTXO) as (H1 & H2 & H3); [done|intros u Hu; by apply Hus|].
  unfold best_of. cbv zeta. set (b := foldl (better need) noUTXO us) in *. destruct H1 as [H1|(H1 & H1' & H1'')].
  - rewrite H1. cbn [noUTXO ur_TxID]. split; [done|]. intros u Hu. rewrite H1 in H3. specialize (H3 u Hu).
    destruct (Hus u Hu) as [Hp _]. cbn [noUTXO ur_Val] in H3. lia.
  - destruct (Hus b H1) as [_ Hid]. destruct (ur_TxID b) as [|c r] eqn:E; [done|]. split; [done|]. split; [done|].
    intros u Hu. destruct (Z.le_gt_cases need (ur_Val u)) as [Hle|Hgt]; [by apply H3|lia].
Qed.

(** A deposit whose sum with the fee wraps passes the check: the outputs pay
    more than the output that is spent. *)
Lemma funding_wraps cpub spub id vout value :
  1000 <= value < 2 ^ 63 ->
  u64 (2 ^ 64 - 100 + 500) <= value
  /\ value < values (funding_unsigned cpub spub id vout value (2 ^ 64 - 100) 500).
Proof. intros Hv. split; [go_lia|]. unfold values, funding_unsigned. cbn [t_Outputs foldr o_Value]. go_lia. Qed.

(** ** A run *)

Definition demo_seed : gostring := replicate 64 (z2b 0x31).
Definition demo_flags : Flags :=
  mkFlags demo_seed [] "fund" "test" 500 90000 (replicate 64 (z2b 0x61)) 1 100000 [] 0 0 0 0 [] [] [] [] false.
Definition no_get (url : gostring) : result (Z * list byte) := Err "offline"%string.
Definition no_post (url : gostring) (body : list byte) : result (Z * list byte) := Err "offline"%string.
Definition no_unspent (b : list byte) : result (list rawUTXO) := Ok [].
Definition no_status (b : list byte) : result (Z * Z) := Ok (0, 0).


Definition demo_refs : list utxoRef := [mkutxoRef demo_seed 0 40 1; mkutxoRef demo_seed 1 90 1; mkutxoRef demo_seed 2 70 1].
Lemma pick_utxo_largest_witness : best_of 60 demo_refs = Ok (mkutxoRef demo_seed 1 90 1) /\ forall u, u ∈ demo_refs -> ur_Val u <= 90.
Proof.
  split; [reflexivity|]. refine (proj2 (proj2 (pick_utxo_largest 60 demo_refs _ _))); [lia|].
  intros u Hu. apply (Forall_forall (fun u => 0 <= ur_Val u /\ ur_TxID u <> []) demo_refs); [|exact Hu].
  repeat constructor; cbn [ur_Val ur_TxID demo_seed]; (lia || discriminate).
Defined.
